(* ===== verification/_CoqProject ===== *)
-Q . S2P
Prelude.v
Strs.v
IrTypes.v
Matching.v
Scoring.v
HostIndex.v
EndpointRuntime.v
Spread.v
RouteIndex.v
Decimal.v
RuntimeIds.v
Snapshot.v
Resolution.v
Demo.v
Compiled.v
Selection.v
IndexedSelection.v
Precedence.v
StreamSelection.v
StreamFacts.v
HttpFastPath.v
FastPathAgreement.v
Observations.v
Semaphores.v
CircuitBreaker.v
Overload.v
OverloadFacts.v
RetryBudget.v
Sni.v
SniFacts.v
TcpPool.v
TcpProxy.v
TcpProxyFacts.v
Reconnect.v
XdsClient.v
XdsFacts.v
XdsDelta.v
RateLimit.v
RateLimitFacts.v
Records.v
IpAddr.v
HttpTypes.v
HttpFilters.v
HttpFiltersFacts.v
JwtAuth.v
HttpBackend.v
HttpSession.v
HttpContext.v
HttpMeta.v
HttpGuards.v
HttpAccess.v
HttpOidc.v
HttpOidcFacts.v
HttpExternalAuth.v
HttpRetry.v
HttpCaching.v
HttpRequest.v
HttpResponse.v
HttpDemo.v
HttpRequestFacts.v
HttpResponseFacts.v
HttpSessionFacts.v
AiTypes.v
AiRateLimit.v
AiRateLimitFacts.v
AiTenants.v
AiTenantFacts.v
AiScreening.v
AiPii.v
AiRouting.v
AiCache.v
AiCacheFacts.v
AiFormats.v
AiFormatFacts.v
AiGateway.v
AiGatewayFacts.v
