(* ===== verification/Prelude.v ===== *)
(** * The nantian-gw data plane

    A model of the decisions of the data plane: where traffic goes, what is
    admitted, how bytes are relayed and how configuration is taken over, with
    proofs that they are what the configuration and the protocols say.

    ** The program

    The data plane (src/crates) receives snapshots of a gateway configuration
    from a control plane, and proxies HTTP, gRPC, TCP, TLS and UDP traffic to
    the endpoints that a snapshot names.  The crate ntgw-ir holds the snapshot
    and everything that decides where a request goes: the listeners, the routes
    attached to them, the matching of hosts, paths, headers and server names,
    the precedence between routes, the weighted choice of a backend, sticky
    sessions, the health of endpoints, and the indexes and compiled plans that
    make these decisions fast.  The other crates receive the snapshot
    (ntgw-xds, ntgw-proto), move bytes (ntgw-http, ntgw-stream), limit and count
    (ntgw-observability, ntgw-ai), extend (ntgw-wasm) and start the process
    (ntgw-app).

    ** How the parts interact

    [Snapshot::rebuild_runtime_indexes] turns the lists of a snapshot into the
    hostname, attachment, service and listener indexes and into two compiled
    plans, one for HTTP and one for streams.  An HTTP request first tries the
    HTTP plan ([select_http_fast_path]); when the plan does not answer, route
    selection ([select_http_route], [select_grpc_backend]) enumerates the
    candidate routes through the indexes, scores the rules that match, and
    resolves the backend references of a rule ([resolve_http_backend_refs_with_session])
    to an endpoint.  A connection on a stream listener uses the stream plan.
    Resolution draws tickets from three shared cursors and asks the endpoint
    store which endpoints are ejected or unhealthy; the proxies report the
    outcome of a request to the store.

    Before a request or connection is served it passes admission control, and an
    HTTP request the rate limits, the circuit breaker of its backend and, when it
    is tried again, the retry budget (ntgw-observability).  A TLS passthrough
    connection is routed by the server name in its first record, gets a backend
    connection from the pool and is relayed (ntgw-stream).  The control-plane
    client (ntgw-xds) checks a new snapshot, carries the endpoint health over,
    rebuilds the indexes and swaps the snapshot in.

    ** Correspondence of files and code

    The request path, paths relative to src/crates/ntgw-ir/src:

    - Prelude: machine integers (module [U]), lists, options, visitors
      ([visit_list] is a loop with an early exit), [RustOrd] (Rust's [Ord]) with
      its laws, tactics and hints.
    - Strs: the operations of [str] that the code uses (module [Str]).
    - IrTypes: the data types of types.rs, filters.rs, session.rs, selection.rs,
      mesh.rs, timeouts.rs.
    - Matching: matching.rs.  Scoring: http_selection/scoring.rs.
    - HostIndex, RouteIndex: the indexes of types.rs and their builders in
      snapshot/helpers.rs.
    - EndpointRuntime: endpoint_runtime.rs and the endpoint state of lib.rs.
    - Spread: snapshot/backend_resolution/mod.rs.  Resolution:
      snapshot/backend_resolution/resolution.rs, the cursors of lib.rs and the
      hashing of snapshot/helpers.rs.
    - Decimal: the decimal text of ports.  RuntimeIds: runtime_id.rs.
    - Snapshot: the snapshot record and its rebuild (snapshot.rs, and the
      compilers of http_fast_path.rs and stream_fast_path.rs).
    - Selection: http_selection/candidates.rs and selection.rs.
    - StreamSelection: stream_fast_path.rs and the entry points of snapshot.rs.
    - HttpFastPath: the selection of http_fast_path.rs.
    - Compiled, IndexedSelection, Precedence, StreamFacts, FastPathAgreement:
      theorems about the above.  Demo: a concrete gateway on which they are
      applied.  Observations: behaviours that are worth knowing.

    Outside ntgw-ir, paths relative to src/crates:

    - Semaphores: keyed semaphores in [Arc]s, with a heap and reference counts,
      as circuit_breaker.rs and overload/budget.rs use them.  CircuitBreaker,
      RetryBudget, RateLimit with RateLimitFacts, Overload with OverloadFacts:
      circuit_breaker.rs, retry_budget.rs, rate_limit.rs and rate_limit/,
      overload.rs and overload/ of ntgw-observability.
    - Sni with SniFacts: ntgw-stream/src/sni.rs and [read_preface] of tcp.rs.
      TcpPool: ntgw-stream/src/pool.rs.  TcpProxy with TcpProxyFacts: the relay and
      [handle_connection] of ntgw-stream/src/tcp.rs.
    - Reconnect: reconnect.rs and features.rs of ntgw-xds.  XdsClient with
      XdsFacts: the control-plane client (lib.rs, stream.rs, status.rs,
      stats.rs).  XdsDelta: delta.rs.
    - The HTTP data plane, ntgw-http/src.  Records: field updates.  IpAddr:
      the text of addresses, as the standard library has it.  HttpTypes: messages,
      errors and the session of pingora.  HttpFilters with HttpFiltersFacts:
      filters.rs, filters/, extensions.rs.  JwtAuth, HttpAccess, HttpOidc with
      HttpOidcFacts, HttpExternalAuth: filters/jwt.rs, proxy/filters/ and
      proxy/external_auth.rs.  HttpSession with HttpSessionFacts: session.rs.  HttpBackend:
      proxy/backend.rs, backend/, selection.rs.  HttpContext, HttpMeta, HttpGuards:
      proxy/context.rs, request/, guards.rs; the state of a request and the monad
      [HM] of the phases.  HttpRetry: retry.rs, upstream.rs.  HttpCaching: cache/,
      filters/cache.rs, mirror.rs.  HttpRequest with HttpRequestFacts: the request
      filter (proxy/filters/mod.rs).  HttpResponse with HttpResponseFacts: the
      phases after it (proxy/mod.rs).  HttpDemo: a concrete gateway.
    - The AI gateway, ntgw-ai/src.  AiTypes: format/ir.rs and error.rs.
      AiRateLimit with AiRateLimitFacts: ratelimit.rs.  AiTenants with
      AiTenantFacts: multitenant.rs, keyring.rs.  AiScreening: prompt_guard.rs,
      content_safety.rs.  AiPii: pii.rs.  AiRouting: model_router.rs, fallback.rs,
      ab_test.rs, prompt_template.rs, cost.rs, token.rs.  AiCache with AiCacheFacts:
      semantic_cache.rs.  AiFormats with AiFormatFacts: format/.  AiGateway with
      AiGatewayFacts: filter.rs, as calls that return, fail or panic on one
      [GatewayState], and [build_ai_filter] of ntgw-http.

    Code under a shared reference changes only atomics and locked maps: these
    are the [World] of Resolution, which holds the cursors, the endpoint store
    and the number of clock readings, and operations are state transformers on
    it, one after another.  A definition keeps the name of the function it
    translates; methods of different types with the same name carry the type's
    name first.

    ** What the theorems show

    - Precedence: route selection returns the first rule of greatest precedence
      among those that match and can serve the request, and nothing only when
      there is none ([select_http_route_precedence],
      [select_grpc_backend_precedence], [stream_selection_precedence]).
    - Refinement of the optimised paths: the indexes answer what scans answer
      ([hostname_index_scan], [attachment_index_scan], [service_index_scan],
      [unique_namespace_scan]), selection through them is selection by scanning
      ([select_http_route_indexed], [select_grpc_backend_indexed]), the HTTP
      fast path agrees with route selection ([fast_path_agrees]), and compiled
      references with the references they were compiled from
      ([compiled_choice_agrees]).
    - Resolution: an available backend is found whenever there is one and the
      error is the right one otherwise ([resolve_backend_refs_complete]);
      weights are honoured exactly ([resolve_weighted_fair],
      [compiled_weighted_fair], [spread_targets_cover], [should_mirror_rate]).
    - Endpoint health: the sharded store is a map with an exact count
      ([endpoint_store_refines_map]), ejection begins with the configured run of
      failures and ends after the cooldown ([failure_run_ejects],
      [passive_ejection_expires]), state is inherited exactly
      ([inherit_for_backends_spec]), statistics count what is stored
      ([endpoint_snapshot_counts]).
    - Matching and text: the language of path prefixes and hostname patterns,
      precompilation, the score of a rule, the round trips of runtime ids and
      ports.
    - HTTP: a request is forwarded to the backend of an HTTP route only after
      every access check of the route ([forwarded_request_passed_checks]); a retry
      is paid from the budget and below its limit ([granted_retry_is_paid]); a session
      token is read back until it expires ([session_token_roundtrip]); tokens,
      address lists, CORS and prefix rewrites do what the filters ask for
      ([jwt_accepts_only_valid], [ipv4_filter_decision], [cors_response_headers],
      [prefix_rewrite_elements]).  [rejected_ai_request_forwarded],
      [oversized_ai_response_is_lost] and [cached_response_for_other_path] show
      behaviour that the code does not intend, as does
      [backend_limit_never_applied].
    - AI gateway: an accepted request passed the guards and its tenant may use the
      model ([accepted_ai_request]); retries with other models end
      ([fallback_terminates]; the fuel of the loop is one more than the longest
      chain, and no more changes the result); token limits hold in every
      interval ([token_limits_per_key]) on machine integers
      ([limiter_well_typed]), tenants get at most twice their quota
      ([tenant_quota_twice]); the cache is bounded and its key determines a request
      without images ([ai_cache_bounded], [cache_key_determines_request]); masking
      never panics ([pii_mask_replaces]); responses survive the OpenAI format
      ([openai_response_roundtrip]).  [oversized_usage_is_free],
      [overlapping_entity_leaks], [image_requests_collide],
      [fallback_model_unchecked], [anthropic_first_block_only] and
      [anthropic_two_ends] show defects.
    - Limits: permits and admissions never exceed the limits, are refused only
      at them, and the gauges show what is in flight ([circuit_breaker_enforces],
      [admission_enforces]); token buckets and the retry budget grant at most
      burst plus rate ([rate_limit_bound], [retry_budget_bound]) and a refusal
      gives tokens back ([rate_limit_decision]).
    - Streams: the server name of a ClientHello is found however its bytes
      arrive and never invented ([preface_server_name], [hello_without_name]); a
      relay delivers every byte and ends ([relay_delivers]), and in every
      run delivers only initial parts ([connection_relays_prefix]); the pool
      counts its idle connections and reuses the newest live one
      ([pool_counts_idle], [get_connection_reuses_newest]).
    - Control plane: every snapshot is answered once ([snapshot_message_answered]),
      the snapshot in use is always indexed and the health store well formed
      ([stream_keeps_indexed]), which is what the theorems on indexed selection ask
      for; incremental messages refine a map of resources
      ([delta_message_refines]) and are published only when complete
      ([delta_publishes_complete]); delays double within bounds
      ([reconnect_delays_bounded]).
    - Defects that the models show: [rate_limit_starves], [raised_limit_is_lost],
      [returned_connection_is_closed], [unreturned_stays_active],
      [return_after_enable_wraps], [rejected_version_acked_when_resent],
      [delta_same_version_withheld], [clean_close_reconnects_at_once].
    - Observations: four behaviours stated on concrete or general inputs.

    ** Parameters

    The regex crate ([RegexEngine]), the parser of form_urlencoded
    ([FormUrlencoded]), the standard hasher ([KeyHasher]), the clock ([Clock])
    and the natural logarithm of [f64] ([Libm]) are classes; the theorems hold for
    every instance, and the witnesses use the concrete ones of Demo.

    tokio's semaphore is the class [Semaphore] with [SemaphoreLaws]; sockets are
    lists of arrivals, schedules of readiness and the class [Network]; the generated
    message types of the control plane and their decoding are [SnapshotProto] and
    [DeltaProto].  Of the HTTP phases, header maps are [HttpLib] with
    [HttpLibLaws], failing writes [Downstream], certificates [TlsLib], tokens and
    sessions [JwtLib], [TokenLib], [SessionLib] and [OidcLib], passwords and ranges
    [Credentials] and [IpNets], the authorization service [AuthNet], the cache
    [CacheLib], the AI gateway [AiFilter], plugins [WasmPlugins], mirrors
    [MirrorNet], the replay buffer [RetryBuffer].  Of the AI gateway, patterns and
    Unicode are [TextLib] with [FindLaws], draws [Rand], SipHash [DigestLib], the
    order of a table [EvictionLib], JSON [FormatLib].  The HTTP phases use the
    class [AiFilter]; [AiGateway] is not made an instance of it, since its calls
    change a state that the class does not thread.

    ** Bounds and fuel

    - [gcd] runs 130 rounds: two rounds at least halve the right operand, so
      that 64-bit operands need no more.
    - The search for a coprime stride is the loop of the source over the range
      [0..total_weight]; [spread_targets_cover] shows that it finds one.
    - The merge of the hostname index runs on one unit more than the candidate
      lists have entries, since each step moves past one of them;
      [hostname_index_scan] shows that no candidate is missed.
    - Binary search, trimming, splitting, replacing and the digits of a number run
      on the length of their input or on the 20 digits of a [u64].
    - The loops of the server name parser run on the length of their input, the
      preface loop on one unit more than the preface limit, since each round
      adds a byte; the theorems show that these are enough.  The relay runs on
      its schedule, and [relay_delivers] says which schedules finish it.
    - Everything else is structural.  Tickets and weights are [u64] with their
      wrap-around; the fairness theorems ask that the tickets of one round do
      not wrap and that the weights sum within [u64].

    ** What is not modelled

    Decoding protobuf and serde text, TLS handshakes, HTTP framing, the proxy
    framework that calls the HTTP phases and its storage of cached responses, the
    HTTP listeners, UDP sessions, access logs and spans, the metrics, spans and
    Langfuse records of the AI gateway, the plugin manager and its engine,
    metrics exposition, process start-up and the benchmarks: they are input and
    output, call libraries outside the sources, or are left for later.  Concurrent calls are serialised: an atomic
    or a lock makes each operation indivisible, and no theorem speaks of finer
    interleavings. *)

From Stdlib Require Import ZArith Lia.
From stdpp Require Import base gmap strings list sorting numbers.

(** ** Machine integers

    A [u32] or [u64] is a [Z]; the operations write out what the Rust method
    does at the boundary.  A [usize] that only counts or indexes a vector is a
    [nat]. *)
Module U.
Local Open Scope Z_scope.

Definition u16_modulus : Z := 2 ^ 16.
Definition u32_modulus : Z := 2 ^ 32.
Definition u64_modulus : Z := 2 ^ 64.
Definition u32_max : Z := u32_modulus - 1.
Definition u64_max : Z := u64_modulus - 1.

Definition is_u32 (x : Z) : Prop := 0 <= x < u32_modulus.
Definition is_u64 (x : Z) : Prop := 0 <= x < u64_modulus.

Definition wrap64 (x : Z) : Z := x mod u64_modulus.
Definition wrapping_add64 (x y : Z) : Z := wrap64 (x + y).
Definition wrapping_sub64 (x y : Z) : Z := wrap64 (x - y).
Definition wrapping_mul64 (x y : Z) : Z := wrap64 (x * y).

Definition saturating_add64 (x y : Z) : Z := Z.min (x + y) u64_max.
Definition saturating_mul64 (x y : Z) : Z := Z.min (x * y) u64_max.
Definition saturating_sub (x y : Z) : Z := Z.max 0 (x - y).
Definition saturating_add32 (x y : Z) : Z := Z.min (x + y) u32_max.

Definition checked_add (m x y : Z) : option Z :=
  if bool_decide (x + y < m) then Some (x + y) else None.
Definition checked_mul (m x y : Z) : option Z :=
  if bool_decide (x * y < m) then Some (x * y) else None.
Definition checked_sub (x y : Z) : option Z :=
  if bool_decide (y <= x) then Some (x - y) else None.

Lemma wrap64_small x : 0 <= x < u64_modulus -> wrap64 x = x.
Proof. intros; apply Z.mod_small; done. Qed.

Lemma wrap64_range x : 0 <= wrap64 x < u64_modulus.
Proof. apply Z.mod_pos_bound. unfold u64_modulus. lia. Qed.

Lemma saturating_add64_range x y :
  0 <= x -> 0 <= y -> 0 <= saturating_add64 x y <= u64_max.
Proof. unfold saturating_add64, u64_max, u64_modulus. lia. Qed.
End U.

Create HintDb rust.
#[export] Hint Resolve U.wrap64_range U.wrap64_small U.saturating_add64_range : rust.

(** ** Tactics *)

(** Turn boolean tests in the context and the goal into propositions. *)
Ltac bool_hyps :=
  repeat match goal with
  | H : negb _ = true |- _ => apply negb_true_iff in H
  | H : negb _ = false |- _ => apply negb_false_iff in H
  | H : _ && _ = true |- _ => apply andb_true_iff in H; destruct H
  | H : _ || _ = false |- _ => apply orb_false_iff in H; destruct H
  | H : bool_decide _ = true |- _ => apply bool_decide_eq_true in H
  | H : bool_decide _ = false |- _ => apply bool_decide_eq_false in H
  | H : Is_true _ |- _ => apply Is_true_true in H
  end.

(** Case analysis on the innermost scrutinee of the goal or of a hypothesis,
    discarding the impossible branches. *)
Ltac crush :=
  repeat (case_match; simplify_eq/=; try done).

(** ** Ordering

    [Ord] as derived on structs: lexicographic on the fields.  [RustOrd] is the
    [cmp] method; [RustOrdLaws] is what [Ord] promises of a derived instance. *)
Class RustOrd (A : Type) := cmp : A -> A -> comparison.

Class RustOrdLaws (A : Type) `{RustOrd A} := {
  cmp_eq : forall x y : A, cmp x y = Eq <-> x = y;
  cmp_antisym : forall x y : A, cmp y x = CompOpp (cmp x y);
  cmp_lt_trans : forall x y z : A, cmp x y = Lt -> cmp y z = Lt -> cmp x z = Lt;
}.

#[global] Instance nat_ord : RustOrd nat := Nat.compare.
#[global] Instance Z_ord : RustOrd Z := Z.compare.
#[global] Instance bool_ord : RustOrd bool := fun x y =>
  match x, y with
  | false, true => Lt
  | true, false => Gt
  | _, _ => Eq
  end.
#[global] Instance prod_ord {A B} `{RustOrd A, RustOrd B} : RustOrd (A * B) := fun x y =>
  match cmp x.1 y.1 with
  | Eq => cmp x.2 y.2
  | c => c
  end.

#[global] Instance nat_ord_laws : RustOrdLaws nat.
Proof.
  split; unfold cmp, nat_ord.
  - intros. apply Nat.compare_eq_iff.
  - intros. apply Nat.compare_antisym.
  - intros x y z. rewrite !Nat.compare_lt_iff. lia.
Qed.
#[global] Instance Z_ord_laws : RustOrdLaws Z.
Proof.
  split; unfold cmp, Z_ord.
  - intros. apply Z.compare_eq_iff.
  - intros. apply Z.compare_antisym.
  - intros x y z. rewrite !Z.compare_lt_iff. lia.
Qed.
#[global] Instance bool_ord_laws : RustOrdLaws bool.
Proof.
  split; unfold cmp, bool_ord.
  - intros [] []; naive_solver.
  - by intros [] [].
  - by intros [] [] [].
Qed.
Lemma cmp_pair {A B} `{RustOrd A, RustOrd B} (a a' : A) (b b' : B) :
  cmp (a, b) (a', b') = match cmp a a' with Eq => cmp b b' | c => c end.
Proof. done. Qed.

#[global] Instance prod_ord_laws {A B} `{RustOrdLaws A, RustOrdLaws B} : RustOrdLaws (A * B).
Proof.
  split.
  - intros [a b] [a' b']. rewrite cmp_pair, pair_equal_spec, <- (cmp_eq a a'), <- (cmp_eq b b').
    destruct (cmp a a'); split; intros; destruct_and?; done.
  - intros [a b] [a' b']. rewrite !cmp_pair, (cmp_antisym a a').
    destruct (cmp a a'); simpl; auto using cmp_antisym.
  - intros [a b] [a' b'] [a'' b'']. rewrite !cmp_pair.
    destruct (cmp a a') eqn:E1; destruct (cmp a' a'') eqn:E2; try done; intros.
    + apply cmp_eq in E1 as ->. rewrite E2. eauto using cmp_lt_trans.
    + apply cmp_eq in E1 as ->. by rewrite E2.
    + apply cmp_eq in E2 as ->. by rewrite E1.
    + by rewrite (cmp_lt_trans _ _ _ E1 E2).
Qed.

(** A struct with a derived [Ord] compares as the tuple of its fields. *)
Lemma ord_laws_via {A B} `{RustOrdLaws B, RustOrd A} (f : A -> B) :
  (forall x y, cmp x y = cmp (f x) (f y)) -> Inj (=) (=) f -> RustOrdLaws A.
Proof.
  intros Hc Hi. split; intros *; rewrite !Hc.
  - rewrite cmp_eq. split; [apply Hi | by intros ->].
  - apply cmp_antisym.
  - apply cmp_lt_trans.
Qed.

Definition cmp_le {A} `{RustOrd A} (x y : A) : bool :=
  match cmp x y with Gt => false | _ => true end.
Definition cmp_lt {A} `{RustOrd A} (x y : A) : bool :=
  match cmp x y with Lt => true | _ => false end.

Section OrdFacts.
Context {A : Type} `{RustOrdLaws A}.
Implicit Types x y z : A.

Lemma cmp_refl x : cmp x x = Eq.
Proof. by apply cmp_eq. Qed.

Lemma cmp_le_refl x : cmp_le x x = true.
Proof. unfold cmp_le. by rewrite cmp_refl. Qed.

Lemma cmp_le_negb_lt x y : cmp_le x y = negb (cmp_lt y x).
Proof. unfold cmp_le, cmp_lt. rewrite (cmp_antisym x y). by destruct (cmp x y). Qed.

Lemma cmp_lt_le x y : cmp_lt x y = true -> cmp_le x y = true.
Proof. unfold cmp_le, cmp_lt. by destruct (cmp x y). Qed.

Lemma cmp_le_trans x y z : cmp_le x y = true -> cmp_le y z = true -> cmp_le x z = true.
Proof.
  unfold cmp_le. destruct (cmp x y) eqn:E1; try done; destruct (cmp y z) eqn:E2; try done; intros _ _.
  - apply cmp_eq in E1 as ->. by rewrite E2.
  - apply cmp_eq in E1 as ->. by rewrite E2.
  - apply cmp_eq in E2 as ->. by rewrite E1.
  - by rewrite (cmp_lt_trans _ _ _ E1 E2).
Qed.

Lemma cmp_le_lt_trans x y z : cmp_le x y = true -> cmp_lt y z = true -> cmp_lt x z = true.
Proof.
  unfold cmp_le, cmp_lt. destruct (cmp x y) eqn:E1; try done; destruct (cmp y z) eqn:E2; try done; intros _ _.
  - apply cmp_eq in E1 as ->. by rewrite E2.
  - by rewrite (cmp_lt_trans _ _ _ E1 E2).
Qed.

Lemma cmp_le_antisym x y : cmp_le x y = true -> cmp_le y x = true -> x = y.
Proof.
  unfold cmp_le. rewrite (cmp_antisym x y). intros H1 H2. apply cmp_eq.
  by destruct (cmp x y).
Qed.
End OrdFacts.
#[export] Hint Resolve cmp_le_refl cmp_lt_le : rust.
#[export] Hint Resolve cmp_le_trans cmp_le_lt_trans cmp_le_antisym : rust.

(** ** Iterators and slices *)

(** [Iterator::max_by]: the last of the greatest elements. *)
Section MaxBy.
Context {A B : Type} `{RustOrdLaws B} (key : A -> B).

Definition max_step (best x : A) : A :=
  match cmp (key best) (key x) with Gt => best | _ => x end.

Definition iter_max_by (l : list A) : option A :=
  match l with
  | [] => None
  | x :: l => Some (fold_left max_step l x)
  end.

Lemma max_step_spec x z :
  (max_step x z = x \/ max_step x z = z) /\
  cmp_le (key x) (key (max_step x z)) = true /\ cmp_le (key z) (key (max_step x z)) = true.
Proof.
  unfold max_step, cmp_le. destruct (cmp (key x) (key z)) eqn:E;
    rewrite ?E, ?cmp_refl; split_and!; auto.
  by rewrite cmp_antisym, E.
Qed.

Lemma max_step_fold_spec l x :
  let m := fold_left max_step l x in
  m ∈ x :: l /\ forall y, y ∈ x :: l -> cmp_le (key y) (key m) = true.
Proof.
  revert x. induction l as [|z l IH]; intros x; simpl.
  { split; [by constructor|]. intros y ->%list_elem_of_singleton. auto with rust. }
  destruct (IH (max_step x z)) as [Hin Hmax].
  destruct (max_step_spec x z) as (Hor & Hx & Hz).
  assert (Hm := Hmax _ (list_elem_of_here _ _)). split.
  { apply elem_of_cons in Hin as [Hin|Hin]; [|by do 2 apply list_elem_of_further].
    rewrite Hin, !elem_of_cons. destruct Hor as [->| ->]; auto. }
  intros y [->|[->|Hy]%elem_of_cons]%elem_of_cons; [eauto with rust..|].
  apply Hmax. by apply list_elem_of_further.
Qed.

Lemma iter_max_by_None l : iter_max_by l = None <-> l = [].
Proof. by destruct l. Qed.

Lemma iter_max_by_Some l m :
  iter_max_by l = Some m -> m ∈ l /\ forall y, y ∈ l -> cmp_le (key y) (key m) = true.
Proof. destruct l as [|x l]; intros [=<-]. apply max_step_fold_spec. Qed.
End MaxBy.

(** When the elements are their own key. *)
Definition iter_max {B} `{RustOrd B} (l : list B) : option B := iter_max_by id l.

Lemma iter_max_by_fmap {A B C} `{RustOrd C} (f : A -> B) (key : B -> C) (l : list A) :
  iter_max_by key (f <$> l) = f <$> iter_max_by (key ∘ f) l.
Proof.
  destruct l as [|x l]; [done|]. simpl. f_equal. revert x.
  induction l as [|y l IH]; intros x; simpl; [done|].
  rewrite <- IH. f_equal. unfold max_step. simpl. by case_match.
Qed.

(** Two key functions that order the elements alike choose alike. *)
Lemma iter_max_by_ext {A B C} `{RustOrd B, RustOrd C} (k1 : A -> B) (k2 : A -> C) (l : list A) :
  (forall x y, cmp (k1 x) (k1 y) = cmp (k2 x) (k2 y)) -> iter_max_by k1 l = iter_max_by k2 l.
Proof.
  intros Hk. destruct l as [|x l]; [done|]. simpl. f_equal. revert x.
  induction l as [|y l IH]; intros x; simpl; [done|].
  rewrite <- IH. f_equal. unfold max_step. by rewrite Hk.
Qed.

(** [slice::binary_search_by], the halving loop of the standard library.  The
    loop runs [size] down to one; [size] itself is enough fuel. *)
#[local] Arguments Nat.div : simpl never.
Section BinarySearch.
Context (f : nat -> comparison).

Fixpoint bsearch_loop (fuel size base : nat) : nat :=
  match fuel with
  | 0 => base
  | S fuel =>
    if bool_decide (1 < size) then
      let half := size / 2 in
      let mid := base + half in
      bsearch_loop fuel (size - half) (match f mid with Gt => base | _ => mid end)
    else base
  end.

Definition binary_search_by (len : nat) : nat + nat :=
  match len with
  | 0 => inr 0
  | _ =>
    let base := bsearch_loop len len 0 in
    match f base with
    | Eq => inl base
    | Lt => inr (S base)
    | Gt => inr base
    end
  end.

(** [f] never goes back down the order [Lt], [Eq], [Gt]. *)
Definition bsearch_mono (len : nat) : Prop :=
  forall i j, i <= j < len -> (f i = Gt -> f j = Gt) /\ (f j = Lt -> f i = Lt).

Lemma bsearch_loop_spec len fuel size base :
  bsearch_mono len -> size <= fuel -> 0 < size -> base + size <= len ->
  (base = 0 \/ f base <> Gt) ->
  (forall i, base + size <= i < len -> f i = Gt) ->
  let b := bsearch_loop fuel size base in
  b < len /\ (b = 0 \/ f b <> Gt) /\ forall i, b < i < len -> f i = Gt.
Proof.
  intros Hm. revert size base. induction fuel as [|fuel IH]; intros size base Hf Hs Hl Hb Hgt; [lia|].
  simpl. case_bool_decide as Hsz.
  - assert (0 < size / 2 < size) as Hh.
    { split; [apply Nat.div_str_pos; lia | apply Nat.div_lt; lia]. }
    pose proof (Nat.Div0.mul_div_le size 2).
    destruct (f (base + size / 2)) eqn:E; apply IH; try lia.
    + right. by rewrite E.
    + intros i Hi. apply Hgt. lia.
    + right. by rewrite E.
    + intros i Hi. apply Hgt. lia.
    + done.
    + intros i Hi. apply (Hm (base + size / 2)); [lia|done].
  - split; [lia|]. split; [done|]. intros i Hi. apply Hgt. lia.
Qed.

Lemma binary_search_by_spec len :
  bsearch_mono len ->
  match binary_search_by len with
  | inl i => i < len /\ f i = Eq
  | inr k => k <= len /\ (forall i, i < k -> f i = Lt) /\ (forall i, k <= i < len -> f i = Gt)
  end.
Proof.
  intros Hm. unfold binary_search_by. destruct len as [|n]; [split_and!; intros; lia|].
  destruct (bsearch_loop_spec (S n) (S n) (S n) 0 Hm) as (Hb & H0 & Hgt);
    [lia|lia|lia|by left|intros; lia|].
  set (b := bsearch_loop _ _ _) in *. cbv zeta. destruct (f b) eqn:E.
  - done.
  - split; [lia|]. split.
    + intros i Hi. apply (Hm i b); [lia|done].
    + intros i Hi. apply Hgt. lia.
  - destruct H0 as [->|H0]; [|done]. split; [lia|]. split; [lia|].
    intros i Hi. destruct i; [done|]. apply Hgt. lia.
Qed.
End BinarySearch.

(** [slice::binary_search] for a value of type [usize]. *)
Definition binary_search (l : list nat) (x : nat) : nat + nat :=
  binary_search_by (fun i => match l !! i with Some y => Nat.compare y x | None => Gt end) (length l).

(** [slice::partition_point]. *)
Definition partition_point {A} (p : A -> bool) (l : list A) : nat :=
  match binary_search_by (fun i => match l !! i with
                                   | Some y => if p y then Lt else Gt
                                   | None => Gt end) (length l) with
  | inl i => i
  | inr i => i
  end.

Definition is_inl {A B} (s : A + B) : bool := match s with inl _ => true | inr _ => false end.

Lemma Sorted_le_lookup (l : list nat) i j x y :
  Sorted Nat.le l -> i <= j -> l !! i = Some x -> l !! j = Some y -> x <= y.
Proof.
  intros Hs%Sorted_StronglySorted; [|intros ???; lia].
  revert i j. induction Hs as [|z l _ IH Hall]; intros i j Hij Hi Hj; [done|].
  destruct i, j; simplify_eq/=; try lia.
  - eapply Forall_lookup_1 in Hall; [exact Hall|done].
  - eapply IH; [|done..]. lia.
Qed.

Lemma binary_search_elem_of l x :
  Sorted Nat.le l -> is_inl (binary_search l x) = bool_decide (x ∈ l).
Proof.
  intros Hs. unfold binary_search. set (f := fun i : nat => _).
  assert (Hm : bsearch_mono f (length l)).
  { intros i j [Hij Hj]. unfold f.
    destruct (lookup_lt_is_Some_2 l j) as [y Hy]; [lia|].
    destruct (lookup_lt_is_Some_2 l i) as [z Hz]; [lia|]. rewrite Hy, Hz.
    pose proof (Sorted_le_lookup _ _ _ _ _ Hs Hij Hz Hy).
    rewrite !Nat.compare_gt_iff, !Nat.compare_lt_iff. lia. }
  pose proof (binary_search_by_spec f _ Hm) as Hb. destruct (binary_search_by f (length l)) as [i|k]; simpl.
  - destruct Hb as [Hi Heq]. symmetry. apply bool_decide_eq_true, list_elem_of_lookup.
    exists i. unfold f in Heq. case_match; [|done]. apply Nat.compare_eq in Heq. by subst.
  - destruct Hb as (_ & Hlt & Hgt). symmetry. apply bool_decide_eq_false.
    intros [i Hi]%list_elem_of_lookup. assert (f i = Eq) as E.
    { unfold f. rewrite Hi. apply Nat.compare_refl. }
    pose proof (lookup_lt_Some _ _ _ Hi). destruct (decide (i < k)).
    + rewrite Hlt in E by done. done.
    + rewrite Hgt in E by lia. done.
Qed.

Lemma partition_point_spec {A} (p : A -> bool) (l : list A) :
  (forall i j x y, i <= j -> l !! i = Some x -> l !! j = Some y -> p y = true -> p x = true) ->
  partition_point p l <= length l /\
  forall i x, l !! i = Some x -> p x = bool_decide (i < partition_point p l).
Proof.
  intros Hp. unfold partition_point. set (f := fun i : nat => _).
  assert (Hm : bsearch_mono f (length l)).
  { intros i j [Hij Hj]. unfold f.
    destruct (lookup_lt_is_Some_2 l j) as [y Hy]; [lia|].
    destruct (lookup_lt_is_Some_2 l i) as [z Hz]; [lia|]. rewrite Hy, Hz.
    pose proof (Hp _ _ _ _ Hij Hz Hy). destruct (p y), (p z); naive_solver. }
  pose proof (binary_search_by_spec f _ Hm) as Hb. destruct (binary_search_by f (length l)) as [i|k].
  - destruct Hb as [_ Heq]. unfold f in Heq. by repeat case_match.
  - destruct Hb as (Hk & Hlt & Hgt). split; [done|]. intros i x Hi.
    pose proof (lookup_lt_Some _ _ _ Hi). assert (f i = if p x then Lt else Gt) as E.
    { unfold f. by rewrite Hi. }
    case_bool_decide.
    + rewrite Hlt in E by done. by destruct (p x).
    + rewrite Hgt in E by lia. by destruct (p x).
Qed.

(** ** Visitors

    A Rust visitor [impl FnMut(T) -> bool] changes captured state and says
    whether to go on: a state transformer with a verdict.  [visit_list] is the
    loop [for x in l { if !visit(x) { return false; } } true]. *)
Fixpoint visit_list {A St} (visit : A -> St -> St * bool) (l : list A) (s : St) : St * bool :=
  match l with
  | [] => (s, true)
  | x :: l =>
    let '(s, continue) := visit x s in
    if continue then visit_list visit l s else (s, false)
  end.

Lemma visit_list_app {A St} (visit : A -> St -> St * bool) l k s :
  visit_list visit (l ++ k) s
  = let '(s', b) := visit_list visit l s in
    if b then visit_list visit k s' else (s', false).
Proof.
  revert s; induction l as [|x l IH]; intros s; simpl; [done|].
  destruct (visit x s) as [s' []]; auto.
Qed.

(** Items the visitor passes over can be left out. *)
Lemma visit_list_filter {A St} (p : A -> bool) (visit : A -> St -> St * bool) l s :
  (forall x s, x ∈ l -> p x = false -> visit x s = (s, true)) ->
  visit_list visit (List.filter p l) s = visit_list visit l s.
Proof.
  revert s; induction l as [|x l IH]; intros s Hp; simpl; [done|].
  destruct (p x) eqn:E; simpl.
  - destruct (visit x s) as [s' []]; [|done]. apply IH.
    intros y ? ?. apply Hp, E || apply Hp. by apply list_elem_of_further.
  - rewrite (Hp x s); [|apply list_elem_of_here|done]. apply IH.
    intros y ? ?. apply Hp. by apply list_elem_of_further.
Qed.

Lemma visit_list_ext {A St} (v1 v2 : A -> St -> St * bool) l s :
  (forall x s, x ∈ l -> v1 x s = v2 x s) -> visit_list v1 l s = visit_list v2 l s.
Proof.
  revert s; induction l as [|x l IH]; intros s Hv; simpl; [done|].
  rewrite (Hv x s) by apply list_elem_of_here. destruct (v2 x s) as [s' []]; [|done].
  apply IH. intros y ? ?. apply Hv. by apply list_elem_of_further.
Qed.

(** A visitor that always goes on is a fold. *)
Lemma visit_list_foldl {A St} (f : A -> St -> St) l s :
  visit_list (fun x s => (f x s, true)) l s = (foldl (fun s x => f x s) s l, true).
Proof. revert s; induction l; intros s; simpl; auto. Qed.

Lemma visit_list_fmap {A B St} (f : A -> B) (visit : B -> St -> St * bool) l s :
  visit_list visit (f <$> l) s = visit_list (fun x => visit (f x)) l s.
Proof.
  revert s; induction l as [|x l IH]; intros s; csimpl; [done|].
  destruct (visit (f x) s) as [s' []]; auto.
Qed.

(** ** Boolean filters *)

#[global] Instance List_filter_Permutation {A} (p : A -> bool) :
  Proper ((≡ₚ) ==> (≡ₚ)) (List.filter p).
Proof.
  induction 1 as [|x l k _ IH|x y l|l1 l2 l3 _ IH1 _ IH2]; simpl; [done| | |by etrans].
  - destruct (p x); [by constructor|done].
  - destruct (p x), (p y); by constructor || done.
Qed.

(** Two folds over one list stay related. *)
Lemma foldl_sim {A B C} (R : B -> C -> Prop) (f : B -> A -> B) (g : C -> A -> C) l b c :
  R b c -> (forall b c x, x ∈ l -> R b c -> R (f b x) (g c x)) -> R (foldl f b l) (foldl g c l).
Proof.
  revert b c; induction l as [|x l IH]; intros b c Hbc Hs; simpl; [done|].
  apply IH; [apply Hs; [apply list_elem_of_here|done]|].
  intros b' c' y Hy. apply Hs. by apply list_elem_of_further.
Qed.

Lemma foldl_ext {A B} (f g : B -> A -> B) l s :
  (forall s x, x ∈ l -> f s x = g s x) -> foldl f s l = foldl g s l.
Proof.
  revert s; induction l as [|x l IH]; intros s Hf; simpl; [done|].
  rewrite Hf by apply list_elem_of_here. apply IH. intros s' y Hy. apply Hf.
  by apply list_elem_of_further.
Qed.
