(* ===== verification/Strs.v ===== *)
(** * Rust string operations

    A Rust [&str] or [String] is its bytes, a [string].  Each operation of
    [core::str] that the data plane uses is a structural recursion on the bytes,
    followed by the lemmas that the routing components share. *)

From Stdlib Require Import ZArith Lia Ascii.
From stdpp Require Import base gmap strings list numbers.
From S2P Require Import Prelude.

Module Str.

Definition is_empty (s : string) : bool :=
  match s with EmptyString => true | _ => false end.

(** [str::strip_prefix] with a string pattern. *)
Fixpoint strip_prefix (p s : string) : option string :=
  match p, s with
  | EmptyString, _ => Some s
  | String a p, String b s => if bool_decide (a = b) then strip_prefix p s else None
  | String _ _, EmptyString => None
  end.

Definition starts_with (p s : string) : bool :=
  match strip_prefix p s with Some _ => true | None => false end.

(** [&s[n..]], where the code has checked [n <= s.len()]. *)
Fixpoint drop (n : nat) (s : string) : string :=
  match n, s with
  | 0, _ => s
  | S n, String _ s => drop n s
  | S _, EmptyString => EmptyString
  end.

(** [s.as_bytes().get(n)]. *)
Fixpoint byte_at (n : nat) (s : string) : option ascii :=
  match n, s with
  | _, EmptyString => None
  | 0, String a _ => Some a
  | S n, String _ s => byte_at n s
  end.

Definition ends_with (p s : string) : bool :=
  bool_decide (String.length p <= String.length s) &&
  bool_decide (drop (String.length s - String.length p) s = p).

Fixpoint contains_char (c : ascii) (s : string) : bool :=
  match s with
  | EmptyString => false
  | String a s => bool_decide (a = c) || contains_char c s
  end.

(** [str::split_once] at the first occurrence of a byte. *)
Fixpoint split_once (c : ascii) (s : string) : option (string * string) :=
  match s with
  | EmptyString => None
  | String a s =>
    if bool_decide (a = c) then Some (EmptyString, s)
    else '(l, r) ← split_once c s; Some (String a l, r)
  end.

(** [str::rsplit_once] at the last occurrence of a byte. *)
Fixpoint rsplit_once (c : ascii) (s : string) : option (string * string) :=
  match s with
  | EmptyString => None
  | String a s =>
    match rsplit_once c s with
    | Some (l, r) => Some (String a l, r)
    | None => if bool_decide (a = c) then Some (EmptyString, s) else None
    end
  end.

(** [str::split_once] at the first occurrence of a string. *)
Fixpoint split_once_str (p s : string) : option (string * string) :=
  match strip_prefix p s with
  | Some r => Some (EmptyString, r)
  | None =>
    match s with
    | EmptyString => None
    | String a s => '(l, r) ← split_once_str p s; Some (String a l, r)
    end
  end.

(** [s.split(c).next()]: the first field; a split always yields one. *)
Fixpoint split_first (c : ascii) (s : string) : string :=
  match s with
  | EmptyString => EmptyString
  | String a s => if bool_decide (a = c) then EmptyString else String a (split_first c s)
  end.

(** [s.split(c)] *)
Fixpoint split (c : ascii) (s : string) : list string :=
  match s with
  | EmptyString => [EmptyString]
  | String a s =>
    if bool_decide (a = c) then EmptyString :: split c s
    else match split c s with
         | f :: fs => String a f :: fs
         | [] => [String a EmptyString]
         end
  end.

(** [s.match_indices(c).filter_map(|(i, _)| s.get(i + 1..))]: what follows each
    occurrence of [c]. *)
Fixpoint suffixes_after (c : ascii) (s : string) : list string :=
  match s with
  | EmptyString => []
  | String a s => if bool_decide (a = c) then s :: suffixes_after c s else suffixes_after c s
  end.

(** ** ASCII case *)

Definition is_upper (a : ascii) : bool :=
  (65 <=? nat_of_ascii a)%nat && (nat_of_ascii a <=? 90)%nat.
Definition is_lower (a : ascii) : bool :=
  (97 <=? nat_of_ascii a)%nat && (nat_of_ascii a <=? 122)%nat.
Definition is_digit (a : ascii) : bool :=
  (48 <=? nat_of_ascii a)%nat && (nat_of_ascii a <=? 57)%nat.

Definition lower_char (a : ascii) : ascii :=
  if is_upper a then ascii_of_nat (nat_of_ascii a + 32) else a.
Definition upper_char (a : ascii) : ascii :=
  if is_lower a then ascii_of_nat (nat_of_ascii a - 32) else a.

Fixpoint to_ascii_lowercase (s : string) : string :=
  match s with
  | EmptyString => EmptyString
  | String a s => String (lower_char a) (to_ascii_lowercase s)
  end.
Fixpoint to_ascii_uppercase (s : string) : string :=
  match s with
  | EmptyString => EmptyString
  | String a s => String (upper_char a) (to_ascii_uppercase s)
  end.

(** [str::eq_ignore_ascii_case]: same length and the bytes agree up to case. *)
Fixpoint eq_ignore_ascii_case (s t : string) : bool :=
  match s, t with
  | EmptyString, EmptyString => true
  | String a s, String b t =>
    bool_decide (lower_char a = lower_char b) && eq_ignore_ascii_case s t
  | _, _ => false
  end.

Fixpoint any_byte (p : ascii -> bool) (s : string) : bool :=
  match s with
  | EmptyString => false
  | String a s => p a || any_byte p s
  end.

(** ** Trimming *)

(** The UTF-8 encodings of the Unicode [White_Space] characters. *)
Definition ws_encodings : list (list nat) :=
  [[9]; [10]; [11]; [12]; [13]; [32]; [194; 133]; [194; 160]; [225; 154; 128]] ++
  ((fun b => [226; 128; b]) <$> seq 128 11) ++
  [[226; 128; 168]; [226; 128; 169]; [226; 128; 175]; [226; 129; 159]; [227; 128; 128]].

Definition of_nats (l : list nat) : string :=
  foldr (fun n s => String (ascii_of_nat n) s) EmptyString l.

Definition strip_any (ps : list string) (s : string) : option string :=
  foldr (fun p r => match strip_prefix p s with Some t => Some t | None => r end) None ps.

Fixpoint trim_start_loop (ps : list string) (fuel : nat) (s : string) : string :=
  match fuel with
  | 0 => s
  | S fuel =>
    match strip_any ps s with
    | Some t => trim_start_loop ps fuel t
    | None => s
    end
  end.

Definition ws_strings : list string := Eval vm_compute in of_nats <$> ws_encodings.
Definition ws_strings_rev : list string := Eval vm_compute in (fun l => of_nats (reverse l)) <$> ws_encodings.

Fixpoint rev_append_str (s acc : string) : string :=
  match s with
  | EmptyString => acc
  | String a s => rev_append_str s (String a acc)
  end.
Definition rev_str (s : string) : string := rev_append_str s EmptyString.

(** [str::trim_start], [str::trim_end] and [str::trim]: every round strips at
    least one byte, so the length is enough fuel. *)
Definition trim_start (s : string) : string := trim_start_loop ws_strings (String.length s) s.
Definition trim_end (s : string) : string :=
  rev_str (trim_start_loop ws_strings_rev (String.length s) (rev_str s)).
Definition trim (s : string) : string := trim_end (trim_start s).

(** [s.trim_end_matches(c)] *)
Fixpoint trim_end_char (c : ascii) (s : string) : string :=
  match s with
  | EmptyString => EmptyString
  | String a s =>
    match trim_end_char c s with
    | EmptyString => if bool_decide (a = c) then EmptyString else String a EmptyString
    | t => String a t
    end
  end.

(** ** Decimal numbers *)

Definition digit_value (a : ascii) : Z := Z.of_nat (nat_of_ascii a) - 48.

(** The digit loop of [<uN as FromStr>::from_str]: checked multiply and add. *)
Fixpoint parse_digits (modulus acc : Z) (s : string) : option Z :=
  match s with
  | EmptyString => Some acc
  | String a s =>
    if is_digit a then
      m ← U.checked_mul modulus acc 10;
      n ← U.checked_add modulus m (digit_value a);
      parse_digits modulus n s
    else None
  end.

(** [s.parse::<uN>().ok()]: one optional [+], then at least one digit. *)
Definition parse_uint (modulus : Z) (s : string) : option Z :=
  match s with
  | EmptyString => None
  | String a t =>
    if bool_decide (a = "+"%char) then
      (if is_empty t then None else parse_digits modulus 0 t)
    else parse_digits modulus 0 s
  end.
Definition parse_u32 : string -> option Z := parse_uint U.u32_modulus.
Definition parse_u16 : string -> option Z := parse_uint U.u16_modulus.

(** [Display] of an unsigned integer.  A [u64] has at most 20 digits. *)
Definition digit_char (d : Z) : ascii := ascii_of_nat (48 + Z.to_nat d).
Fixpoint dec_digits (fuel : nat) (n : Z) (acc : string) : string :=
  match fuel with
  | 0 => acc
  | S fuel =>
    let acc := String (digit_char (n mod 10)) acc in
    if bool_decide (n / 10 = 0)%Z then acc else dec_digits fuel (n / 10) acc
  end.
Definition to_string (n : Z) : string := dec_digits 20 n EmptyString.

(** ** Lemmas *)

Lemma app_cons a s t : String a s +:+ t = String a (s +:+ t).
Proof. done. Qed.

Lemma app_nil_l s : EmptyString +:+ s = s.
Proof. done. Qed.

Lemma is_empty_true s : is_empty s = true <-> s = EmptyString.
Proof. destruct s; split; done. Qed.

Lemma strip_prefix_Some p s t : strip_prefix p s = Some t <-> s = p +:+ t.
Proof.
  revert s; induction p as [|a p IH]; intros s; simpl; rewrite ?app_cons.
  - rewrite app_nil_l. split; congruence.
  - destruct s as [|b s]; [done|]. case_bool_decide as Hab.
    + rewrite IH, Hab. split; intros; congruence.
    + split; intros; congruence.
Qed.

Lemma starts_with_iff p s : starts_with p s = true <-> exists t, s = p +:+ t.
Proof.
  unfold starts_with. destruct (strip_prefix p s) as [t|] eqn:E.
  - apply strip_prefix_Some in E. split; eauto.
  - split; [done|]. intros [t Ht]. apply strip_prefix_Some in Ht. congruence.
Qed.

Lemma drop_app s t : drop (String.length s) (s +:+ t) = t.
Proof. induction s; rewrite ?app_cons; simpl; auto. Qed.

Lemma byte_at_app s t : byte_at (String.length s) (s +:+ t) = byte_at 0 t.
Proof. induction s; rewrite ?app_cons; simpl; auto. Qed.

Lemma append_nil_r s : s +:+ "" = s.
Proof. induction s as [|a s IH]; [done|]. by rewrite app_cons, IH. Qed.

Lemma append_assoc s t u : s +:+ (t +:+ u) = (s +:+ t) +:+ u.
Proof.
  induction s as [|a s IH]; [done|]. rewrite !app_cons; simpl. by rewrite IH.
Qed.

Lemma length_app s t : String.length (s +:+ t) = String.length s + String.length t.
Proof. induction s as [|a s IH]; [done|]. rewrite !app_cons; simpl. by rewrite IH. Qed.

Lemma length_drop n s : String.length (drop n s) = String.length s - n.
Proof. revert s; induction n; intros []; simpl; auto. Qed.

(** A string splits at every position. *)
Lemma split_at n s :
  n <= String.length s -> exists u, s = u +:+ drop n s /\ String.length u = n.
Proof.
  revert s; induction n as [|n IH]; intros s Hn.
  - by exists EmptyString.
  - destruct s as [|a s]; simpl in *; [lia|].
    destruct (IH s) as (u & Hu & Hl); [lia|].
    exists (String a u). split; [|simpl; lia].
    rewrite app_cons. congruence.
Qed.

Lemma byte_at_drop n s a : byte_at n s = Some a -> drop n s = String a (drop (S n) s).
Proof.
  revert s; induction n as [|n IH]; intros [|b s]; simpl; try congruence.
  intros H. apply IH in H. by rewrite H.
Qed.

Lemma app_inj_length s t u v :
  String.length s = String.length t -> s +:+ u = t +:+ v -> s = t /\ u = v.
Proof.
  revert t; induction s as [|a s IH]; intros [|b t]; simpl; try lia; intros Hl H.
  - done.
  - rewrite !app_cons in H. injection H as -> H.
    destruct (IH t) as [-> ->]; [lia|done|done].
Qed.

Lemma ends_with_iff p s : ends_with p s = true <-> exists t, s = t +:+ p.
Proof.
  unfold ends_with. rewrite andb_true_iff, !bool_decide_eq_true. split.
  - intros [Hl Hd]. destruct (split_at (String.length s - String.length p) s) as (u & Hu & _);
      [lia|]. exists u. congruence.
  - intros [t ->]. rewrite length_app. split; [lia|].
    replace (String.length t + String.length p - String.length p) with (String.length t) by lia.
    apply drop_app.
Qed.

Lemma contains_char_iff c s : contains_char c s = true <-> exists u v, s = u +:+ String c v.
Proof.
  induction s as [|a s IH]; simpl.
  - split; [done|]. by intros ([|] & v & H).
  - rewrite orb_true_iff, bool_decide_eq_true, IH. split.
    + intros [->|(u & v & ->)]; [by exists EmptyString, s|by exists (String a u), v].
    + intros ([|b u] & v & H); rewrite ?app_cons, ?app_nil_l in H; injection H as -> H; eauto.
Qed.

Lemma split_once_Some c s l r :
  split_once c s = Some (l, r) <-> s = l +:+ String c r /\ contains_char c l = false.
Proof.
  revert l; induction s as [|a s IH]; intros l; simpl.
  - split; [done|]. by intros [H _]; destruct l.
  - case_bool_decide as Ha; [subst a|].
    + split; [by intros [= <- <-]|]. intros [H Hc].
      destruct l as [|b l]; rewrite ?app_cons, ?app_nil_l in H; simpl in *; [by injection H as ->|].
      injection H as <- _. by rewrite bool_decide_eq_true_2 in Hc.
    + split.
      * intros H. destruct (split_once c s) as [[l' r']|] eqn:E; simplify_eq/=.
        destruct (proj1 (IH l') eq_refl) as [-> Hc].
        by rewrite bool_decide_eq_false_2.
      * intros [H Hc]. destruct l as [|b l]; rewrite ?app_cons, ?app_nil_l in H; simpl in *; [congruence|].
        injection H as <- H. apply orb_false_iff in Hc as [_ Hc].
        by rewrite (proj2 (IH l) (conj H Hc)).
Qed.

Lemma split_once_None c s : split_once c s = None <-> contains_char c s = false.
Proof.
  induction s as [|a s IH]; simpl; [done|]. case_bool_decide; simpl; [done|].
  rewrite <- IH. destruct (split_once c s) as [[]|]; done.
Qed.

(** *** Case *)

Lemma lower_char_idem a : lower_char (lower_char a) = lower_char a.
Proof. destruct a as [[] [] [] [] [] [] [] []]; reflexivity. Qed.

Lemma lower_char_upper_char a : lower_char (upper_char a) = lower_char a.
Proof. destruct a as [[] [] [] [] [] [] [] []]; reflexivity. Qed.

Lemma lower_char_not_upper a : is_upper a = false -> lower_char a = a.
Proof. intros H. unfold lower_char. by rewrite H. Qed.

Lemma is_upper_lower_char a : is_upper (lower_char a) = false.
Proof. destruct a as [[] [] [] [] [] [] [] []]; reflexivity. Qed.

(** A byte outside the letters is fixed by the change of case, and only it maps to itself. *)
Lemma lower_char_eq_nonletter a c :
  is_lower c = false -> is_upper c = false -> lower_char a = c <-> a = c.
Proof.
  intros Hl Hu. split; [|intros ->; by apply lower_char_not_upper].
  unfold lower_char. destruct (is_upper a) eqn:E; [|done]. intros <-.
  revert E Hl. destruct a as [[] [] [] [] [] [] [] []]; vm_compute; congruence.
Qed.

Lemma lowercase_idem s : to_ascii_lowercase (to_ascii_lowercase s) = to_ascii_lowercase s.
Proof. induction s; simpl; [done|]. rewrite lower_char_idem. congruence. Qed.

Lemma lowercase_fixed s : any_byte is_upper s = false -> to_ascii_lowercase s = s.
Proof.
  induction s as [|a s IH]; simpl; [done|].
  intros [Ha Hs]%orb_false_iff. rewrite lower_char_not_upper, IH; auto.
Qed.

Lemma any_upper_lowercase s : any_byte is_upper (to_ascii_lowercase s) = false.
Proof. induction s; simpl; [done|]. by rewrite is_upper_lower_char. Qed.

Lemma lowercase_app s t :
  to_ascii_lowercase (s +:+ t) = to_ascii_lowercase s +:+ to_ascii_lowercase t.
Proof. induction s as [|a s IH]; [done|]. rewrite !app_cons; simpl. by rewrite IH. Qed.

Lemma lowercase_length s : String.length (to_ascii_lowercase s) = String.length s.
Proof. induction s; simpl; auto. Qed.

Lemma eq_ignore_ascii_case_iff s t :
  eq_ignore_ascii_case s t = true <-> to_ascii_lowercase s = to_ascii_lowercase t.
Proof.
  revert t; induction s as [|a s IH]; intros [|b t]; simpl; try done.
  rewrite andb_true_iff, bool_decide_eq_true, IH. split; [intros []; congruence|].
  by intros [= -> ->].
Qed.

Lemma eq_ignore_ascii_case_refl s : eq_ignore_ascii_case s s = true.
Proof. by apply eq_ignore_ascii_case_iff. Qed.

Lemma eq_ignore_ascii_case_sym s t : eq_ignore_ascii_case s t = eq_ignore_ascii_case t s.
Proof.
  apply eq_iff_eq_true. rewrite !eq_ignore_ascii_case_iff. split; congruence.
Qed.

Lemma eq_ignore_ascii_case_length s t :
  eq_ignore_ascii_case s t = true -> String.length s = String.length t.
Proof.
  intros H%eq_ignore_ascii_case_iff. rewrite <- (lowercase_length s), H. apply lowercase_length.
Qed.

(** *** Suffixes after a separator *)

Lemma elem_of_suffixes_after c s t :
  t ∈ suffixes_after c s <-> exists u, s = u +:+ String c t.
Proof.
  induction s as [|a s IH]; simpl.
  - split; [intros H; inversion H|]. by intros ([|] & H).
  - case_bool_decide as Ha; [subst a; rewrite elem_of_cons|]; rewrite IH; split.
    + intros [->|[u ->]]; [by exists EmptyString|by exists (String c u)].
    + intros [[|b u] H]; rewrite ?app_cons, ?app_nil_l in H; injection H as H; subst; eauto.
    + intros [u ->]. by exists (String a u).
    + intros [[|b u] H]; rewrite ?app_cons, ?app_nil_l in H; injection H as H; subst; [done|eauto].
Qed.

Lemma suffixes_after_lowercase c s :
  is_lower c = false -> is_upper c = false ->
  suffixes_after c (to_ascii_lowercase s) = to_ascii_lowercase <$> suffixes_after c s.
Proof.
  intros Hl Hu. induction s as [|a s IH]; simpl; [done|].
  rewrite IH. rewrite (bool_decide_ext _ (a = c)) by (by apply lower_char_eq_nonletter).
  by case_bool_decide.
Qed.

(** *** Splitting into fields *)

(** The inverse of [split]. *)
Fixpoint join (c : ascii) (l : list string) : string :=
  match l with
  | [] => EmptyString
  | [s] => s
  | s :: l => s +:+ String c (join c l)
  end.

Lemma split_not_nil c s : split c s <> [].
Proof. destruct s as [|a s]; simpl; [done|]. case_bool_decide; [done|]. by destruct (split c s). Qed.

Lemma join_cons c s l : l <> [] -> join c (s :: l) = s +:+ String c (join c l).
Proof. by destruct l. Qed.

Lemma join_split c s : join c (split c s) = s.
Proof.
  induction s as [|a s IH]; [done|]. simpl. case_bool_decide as Ha.
  - subst a. rewrite join_cons by apply split_not_nil. by rewrite IH.
  - destruct (split c s) as [|f fs] eqn:E; [by destruct (split_not_nil c s)|].
    destruct fs; simpl in *; rewrite <- IH; by rewrite ?app_cons.
Qed.

Lemma split_inj c s t : split c s = split c t -> s = t.
Proof. intros H. rewrite <- (join_split c s), H. apply join_split. Qed.

Lemma split_app c s t : split c (s +:+ String c t) = split c s ++ split c t.
Proof.
  induction s as [|a s IH].
  - change (EmptyString +:+ String c t) with (String c t). simpl. by rewrite bool_decide_eq_true_2.
  - rewrite app_cons; simpl. rewrite IH. case_bool_decide; [done|].
    pose proof (split_not_nil c s). by destruct (split c s).
Qed.

Lemma join_app c l k : l <> [] -> k <> [] -> join c (l ++ k) = join c l +:+ String c (join c k).
Proof.
  intros Hl Hk. induction l as [|s l IH]; [done|]. destruct l as [|s' l].
  - simpl. by apply join_cons.
  - change ((s :: s' :: l) ++ k) with (s :: ((s' :: l) ++ k)).
    rewrite join_cons, IH, (join_cons c s (s' :: l)) by done.
    by rewrite <- append_assoc, app_cons.
Qed.

(** Fields of [p] begin the fields of [s] exactly when [s] continues [p] at a
    separator. *)
Lemma split_prefix_iff c p s :
  split c p `prefix_of` split c s <-> s = p \/ exists t, s = p +:+ String c t.
Proof.
  split.
  - intros [k Hk]. destruct k as [|f k].
    + left. rewrite app_nil_r in Hk. by apply (split_inj c).
    + right. exists (join c (f :: k)).
      rewrite <- (join_split c s), Hk, join_app, join_split; done || apply split_not_nil.
  - intros [->|[t ->]]; [done|]. rewrite split_app. by eexists.
Qed.

End Str.

#[export] Hint Resolve Str.eq_ignore_ascii_case_refl Str.lowercase_idem : rust.
