(* ===== verification/IrTypes.v ===== *)
(** * The runtime IR data model

    The structs and enums of [ntgw-ir] ([types.rs], [filters.rs], [session.rs],
    [selection.rs], [mesh.rs], [timeouts.rs]) and the per-route policy of
    [ntgw-config].  A field keeps its Rust name behind a short prefix for its
    struct.  [BTreeMap<String, _>] and [HashMap<String, _>] are [gmap string];
    a [Duration] or an [Instant] is a [Z] of nanoseconds; a [u8], [u16], [u32],
    [u64] or [i32] is a [Z].  A compiled [regex::Regex] is identified by its
    source pattern. *)

From Stdlib Require Import ZArith.
From Corelib Require Import SpecFloat.
From stdpp Require Import base gmap strings list.
From S2P Require Import Prelude.

Notation Duration := Z (only parsing).
Notation Instant := Z (only parsing).
Notation StringMap := (gmap string).

(** The readings of the monotonic clock, in the order they are taken. *)
Class Clock := instant_at : nat -> Instant.

(** The [regex] crate is not part of the sources: an engine says which patterns
    compile and what a compiled pattern matches. *)
Class RegexEngine := {
  regex_valid : string -> bool;
  regex_is_match : string -> string -> bool;
}.

Record Regex := mkRegex { re_pattern : string }.

(** ** Enumerations *)

Inductive RouteKind := KindHttp | KindGrpc | KindTcp | KindUdp | KindTls.
#[global] Instance RouteKind_eq_dec : EqDecision RouteKind.
Proof. solve_decision. Defined.

Inductive BackendSelectionError := InvalidBackendRefs | NoHealthyBackends.
#[global] Instance BackendSelectionError_eq_dec : EqDecision BackendSelectionError.
Proof. solve_decision. Defined.

Inductive FrontendClientCertificateRequirement := CertNone | CertReject | CertRequire.
#[global] Instance FrontendClientCertificateRequirement_eq_dec :
  EqDecision FrontendClientCertificateRequirement.
Proof. solve_decision. Defined.

Inductive TlsRouteMode := Passthrough | Terminate.
#[global] Instance TlsRouteMode_eq_dec : EqDecision TlsRouteMode.
Proof. solve_decision. Defined.

(** ** Filters and backend references *)

Record HeaderOperation := mkHeaderOperation { ho_name : string; ho_value : string }.

Record HeaderModifier := mkHeaderModifier {
  hmod_set : list HeaderOperation;
  hmod_add : list HeaderOperation;
  hmod_remove : list string;
}.

Record CorsFilter := mkCorsFilter {
  cors_allow_origins : list string;
  cors_allow_methods : list string;
  cors_allow_headers : list string;
  cors_expose_headers : list string;
  cors_allow_credentials : bool;
  cors_max_age : option Z;
}.

Record PathModifier := mkPathModifier {
  pm_modifier_type : string;
  pm_replace_full_path : string;
  pm_replace_prefix_match : string;
}.

Record RequestRedirectFilter := mkRequestRedirectFilter {
  rr_scheme : string;
  rr_hostname : string;
  rr_path : option PathModifier;
  rr_port : Z;
  rr_status_code : Z;
}.

Record UrlRewriteFilter := mkUrlRewriteFilter {
  ur_hostname : string;
  ur_path : option PathModifier;
}.

Record Fraction := mkFraction { fr_numerator : Z; fr_denominator : Z }.

Record ExternalHTTPAuthConfig := mkExternalHTTPAuthConfig {
  eha_path : string;
  eha_allowed_headers : list string;
  eha_allowed_response_headers : list string;
}.

Record ExternalGRPCAuthConfig := mkExternalGRPCAuthConfig {
  ega_allowed_headers : list string;
}.

Record DirectResponseFilter := mkDirectResponseFilter {
  dr_status_code : Z;
  dr_body : string;
  dr_content_type : string;
  dr_headers : list HeaderOperation;
}.

Record ExtensionFilter := mkExtensionFilter {
  ef_resolved : bool;
  ef_message : string;
  ef_extension_type : string;
  ef_direct_response : option DirectResponseFilter;
}.

Record ClaimToHeader := mkClaimToHeader { cth_claim : string; cth_header : string }.

Record JwtAuthFilter := mkJwtAuthFilter {
  jwf_jwks_url : string;
  jwf_issuer : option string;
  jwf_audience : option string;
  jwf_header_name : string;
  jwf_token_prefix : string;
  jwf_claims_to_headers : list ClaimToHeader;
  jwf_cache_ttl_secs : option Z;
}.

(** A backend reference carries filters, and a mirror or external-auth filter
    carries a backend reference. *)
Inductive BackendRef := mkBackendRef {
  br_group : string;
  br_kind : string;
  br_namespace : string;
  br_name : string;
  br_port : Z;
  br_weight : Z;
  br_metadata : StringMap string;
  br_filters : list Filter;
}
with Filter := mkFilter {
  f_filter_type : string;
  f_header_modifier : option HeaderModifier;
  f_cors : option CorsFilter;
  f_request_redirect : option RequestRedirectFilter;
  f_url_rewrite : option UrlRewriteFilter;
  f_request_mirror : option RequestMirrorFilter;
  f_external_auth : option ExternalAuthFilter;
  f_extension_ref : option ExtensionFilter;
  f_jwt_auth : option JwtAuthFilter;
}
with RequestMirrorFilter := mkRequestMirrorFilter {
  rm_backend_ref : BackendRef;
  rm_percent : option Z;
  rm_fraction : option Fraction;
}
with ExternalAuthFilter := mkExternalAuthFilter {
  ea_protocol : string;
  ea_backend_ref : BackendRef;
  ea_http : ExternalHTTPAuthConfig;
  ea_grpc : ExternalGRPCAuthConfig;
  ea_forward_body_max_size : option Z;
}.

Record MatchedHttpPath := mkMatchedHttpPath { mhp_path : string; mhp_path_type : string }.
#[global] Instance MatchedHttpPath_eq_dec : EqDecision MatchedHttpPath.
Proof. solve_decision. Defined.

(** ** Listeners and TLS *)

Record FrontendValidation := mkFrontendValidation {
  fv_ca_pems : list string;
  fv_mode : string;
}.

Record TlsConfig := mkTlsConfig {
  tls_enabled : bool;
  tls_passthrough : bool;
  tls_secret_refs : list string;
  tls_sni_hosts : list string;
  tls_min_version : string;
  tls_max_version : string;
  tls_frontend_validation : option FrontendValidation;
}.

Record BackendTlsConfig := mkBackendTlsConfig { btc_client_certificate_ref : string }.

Record BackendSubjectAltName := mkBackendSubjectAltName { san_kind : string; san_value : string }.

Record BackendTlsValidation := mkBackendTlsValidation {
  btv_hostname : string;
  btv_use_system_ca_certificates : bool;
  btv_ca_pems : list string;
  btv_subject_alt_names : list BackendSubjectAltName;
  btv_min_version : string;
  btv_max_version : string;
}.

Record Listener := mkListener {
  l_name : string;
  l_address : string;
  l_addresses : list string;
  l_port : Z;
  l_protocol : string;
  l_hostnames : list string;
  l_attached_routes : list string;
  l_tls : option TlsConfig;
  l_backend_tls : option BackendTlsConfig;
  l_metadata : StringMap string;
}.

(** ** Session persistence, timeouts, retry *)

Record CookieConfig := mkCookieConfig { cookie_lifetime_type_field : string }.

Record SessionPersistence := mkSessionPersistence {
  sp_session_name : string;
  sp_session_type : string;
  sp_absolute_timeout : option Duration;
  sp_idle_timeout : option Duration;
  sp_cookie : option CookieConfig;
}.

Record RouteTimeouts := mkRouteTimeouts {
  rt_request : option Duration;
  rt_backend_request : option Duration;
  rt_connect : option Duration;
  rt_next_upstream : option Duration;
}.

Record RetryPolicy := mkRetryPolicy {
  rp_codes : list Z;
  rp_attempts : Z;
  rp_backoff : option Duration;
}.

(** ** Routes *)

Record ParentRef := mkParentRef {
  pr_group : string;
  pr_kind : string;
  pr_namespace : string;
  pr_name : string;
  pr_section_name : string;
  pr_port : Z;
}.

Record HeaderMatch := mkHeaderMatch {
  hdm_name : string;
  hdm_value : string;
  hdm_match_type : string;
  hdm_compiled_regex : option Regex;
}.

Record QueryMatch := mkQueryMatch {
  qm_name : string;
  qm_value : string;
  qm_match_type : string;
  qm_compiled_regex : option Regex;
}.

Record HttpMatch := mkHttpMatch {
  hm_path : string;
  hm_path_type : string;
  hm_method : string;
  hm_headers : list HeaderMatch;
  hm_query_params : list QueryMatch;
  hm_compiled_path_regex : option Regex;
}.

Record HttpRule := mkHttpRule {
  hru_name : string;
  hru_matches : list HttpMatch;
  hru_filters : list Filter;
  hru_backend_refs : list BackendRef;
  hru_timeouts : option RouteTimeouts;
  hru_retry : option RetryPolicy;
  hru_session_persistence : option SessionPersistence;
}.

Record HttpRoute := mkHttpRoute {
  hr_name : string;
  hr_namespace : string;
  hr_hostnames : list string;
  hr_parent_refs : list ParentRef;
  hr_rules : list HttpRule;
  hr_labels : StringMap string;
  hr_annotations : StringMap string;
}.

Record GrpcMatch := mkGrpcMatch {
  gm_service : string;
  gm_method : string;
  gm_match_type : string;
  gm_headers : list HeaderMatch;
  gm_compiled_service_regex : option Regex;
  gm_compiled_method_regex : option Regex;
}.

Record GrpcRule := mkGrpcRule {
  gru_name : string;
  gru_matches : list GrpcMatch;
  gru_filters : list Filter;
  gru_backend_refs : list BackendRef;
  gru_session_persistence : option SessionPersistence;
}.

Record GrpcRoute := mkGrpcRoute {
  gr_name : string;
  gr_namespace : string;
  gr_hostnames : list string;
  gr_parent_refs : list ParentRef;
  gr_rules : list GrpcRule;
  gr_labels : StringMap string;
  gr_annotations : StringMap string;
}.

Record StreamMatch := mkStreamMatch {
  sm_port : Z;
  sm_sni_hostname : string;
  sm_mode : TlsRouteMode;
}.

Record StreamRule := mkStreamRule {
  sru_name : string;
  sru_matches : list StreamMatch;
  sru_backend_refs : list BackendRef;
}.

Record StreamRoute := mkStreamRoute {
  sr_name : string;
  sr_namespace : string;
  sr_kind : string;
  sr_parent_refs : list ParentRef;
  sr_rules : list StreamRule;
  sr_labels : StringMap string;
  sr_annotations : StringMap string;
}.

(** ** Security policies *)

Record JwtAuthConfig := mkJwtAuthConfig {
  jwt_issuer : string;
  jwt_jwks_url : string;
  jwt_audience : string;
  jwt_header_name : string;
  jwt_token_prefix : string;
  jwt_claims_to_headers : StringMap string;
  jwt_cache_ttl_secs : Z;
}.

Record OidcAuthConfig := mkOidcAuthConfig {
  oidc_provider_authorization_url : string;
  oidc_provider_token_url : string;
  oidc_provider_jwks_url : string;
  oidc_provider_userinfo_url : string;
  oidc_client_id : string;
  oidc_client_secret_ref : string;
  oidc_callback_path : string;
  oidc_scopes : list string;
  oidc_redirect_url : string;
  oidc_session_signing_key_ref : string;
  oidc_session_cookie_name : string;
  oidc_session_ttl_secs : Z;
}.

Record BasicAuthConfig := mkBasicAuthConfig {
  ba_htpasswd_ref : string;
  ba_bcrypt : bool;
  ba_realm : string;
}.

Record SecurityAuthNConfig := mkSecurityAuthNConfig {
  an_jwt : option JwtAuthConfig;
  an_oidc : option OidcAuthConfig;
  an_basic_auth : option BasicAuthConfig;
}.

Record ExternalHttpAuth := mkExternalHttpAuth {
  xh_path_prefix : string;
  xh_headers_to_add : list string;
}.

Record ExternalGrpcAuth := mkExternalGrpcAuth { xg_grpc_service : string }.

Record ExternalAuthConfig := mkExternalAuthConfig {
  xa_protocol : string;
  xa_backend_ref : option BackendRef;
  xa_http : option ExternalHttpAuth;
  xa_grpc : option ExternalGrpcAuth;
  xa_forward_body_max_size : Z;
}.

Record SecurityAuthZConfig := mkSecurityAuthZConfig { az_external : option ExternalAuthConfig }.

Record SecurityCorsConfig := mkSecurityCorsConfig {
  sc_allow_origins : list string;
  sc_allow_methods : list string;
  sc_allow_headers : list string;
  sc_expose_headers : list string;
  sc_allow_credentials : bool;
  sc_max_age : Z;
}.

Record RateLimitRule := mkRateLimitRule {
  rl_scope : string;
  rl_requests_per_second : Z;
  rl_burst : Z;
  rl_key_type : string;
  rl_on_limit : string;
  rl_key_header_name : string;
}.

Record SecurityIpConfig := mkSecurityIpConfig {
  ip_allow_cidrs : list string;
  ip_deny_cidrs : list string;
}.

Record SecurityPolicyConfig := mkSecurityPolicyConfig {
  sec_authn : option SecurityAuthNConfig;
  sec_authz : option SecurityAuthZConfig;
  sec_cors : option SecurityCorsConfig;
  sec_rate_limit : list RateLimitRule;
  sec_ip : option SecurityIpConfig;
}.

(** ** Backends *)

Record BackendEndpoint := mkBackendEndpoint {
  be_address : string;
  be_port : Z;
  be_healthy : bool;
}.
#[global] Instance BackendEndpoint_eq_dec : EqDecision BackendEndpoint.
Proof. solve_decision. Defined.

Record PersistentSessionTarget := mkPersistentSessionTarget {
  pst_backend_name : string;
  pst_endpoint : BackendEndpoint;
}.

Record CircuitBreakerConfig := mkCircuitBreakerConfig { cbc_max_inflight_requests : Z }.

Record WasmSandboxConfig := mkWasmSandboxConfig {
  ws_max_memory_bytes : Z;
  ws_max_execution_time_ms : Z;
  ws_allow_network : bool;
  ws_allow_file_system : bool;
}.

Record WasmPluginConfig := mkWasmPluginConfig {
  wp_name : string;
  wp_namespace : string;
  wp_wasm_bytes : list Z;
  wp_sha256 : string;
  wp_hooks : list string;
  wp_config_json : string;
  wp_sandbox : WasmSandboxConfig;
  wp_source_url : string;
}.

Record AIServiceAuthConfig := mkAIServiceAuthConfig {
  aia_auth_type : string;
  aia_secret_ref : string;
  aia_key : string;
  aia_header : string;
}.

Record AIServiceConfig := mkAIServiceConfig {
  ai_provider : string;
  ai_format : string;
  ai_model : string;
  ai_endpoint : string;
  ai_auth : option AIServiceAuthConfig;
  ai_timeout_secs : option Z;
  ai_retry_max_retries : Z;
  ai_retry_backoff_ms : Z;
}.

(** [burst] is an [f64]. *)
Record TokenPolicyConfig := mkTokenPolicyConfig {
  tp_tokens_per_minute : Z;
  tp_tokens_per_hour : Z;
  tp_requests_per_minute : Z;
  tp_scope : string;
  tp_burst : spec_float;
  tp_on_limit : string;
}.

Record BackendCluster := mkBackendCluster {
  bc_name : string;
  bc_namespace : string;
  bc_protocol : string;
  bc_endpoints : list BackendEndpoint;
  bc_wasm_plugin : option WasmPluginConfig;
  bc_ai_service : option AIServiceConfig;
  bc_token_policy : option TokenPolicyConfig;
  bc_circuit_breaker : option CircuitBreakerConfig;
  bc_security_policy : option SecurityPolicyConfig;
}.

Record ConsistentHashPolicy := mkConsistentHashPolicy {
  ch_key_type : string;
  ch_header_name : string;
}.
#[global] Instance ConsistentHashPolicy_eq_dec : EqDecision ConsistentHashPolicy.
Proof. solve_decision. Defined.

Record SlowStartConfig := mkSlowStartConfig { ss_window : option Duration }.
#[global] Instance SlowStartConfig_eq_dec : EqDecision SlowStartConfig.
Proof. solve_decision. Defined.

Record LoadBalancingPolicy := mkLoadBalancingPolicy {
  lb_policy_type : string;
  lb_consistent_hash : option ConsistentHashPolicy;
  lb_slow_start : option SlowStartConfig;
}.
#[global] Instance LoadBalancingPolicy_eq_dec : EqDecision LoadBalancingPolicy.
Proof. solve_decision. Defined.

Record HealthCheckConfig := mkHealthCheckConfig {
  hc_type : string;
  hc_path : string;
  hc_expected_status : Z;
  hc_interval : option Duration;
  hc_timeout : option Duration;
  hc_healthy_threshold : Z;
  hc_unhealthy_threshold : Z;
}.

Record OutlierDetectionConfig := mkOutlierDetectionConfig {
  od_consecutive_5xx : Z;
  od_interval : option Duration;
  od_base_ejection_time : option Duration;
  od_max_ejection_percent : Z;
}.

Record BackendPolicy := mkBackendPolicy {
  bp_connect_timeout : option Duration;
  bp_request_timeout : option Duration;
  bp_tls_validation : option BackendTlsValidation;
  bp_session_persistence : option SessionPersistence;
  bp_load_balancing : option LoadBalancingPolicy;
  bp_health_check : option HealthCheckConfig;
  bp_outlier_detection : option OutlierDetectionConfig;
}.

Record SecretMaterial := mkSecretMaterial {
  sec_namespace : string;
  sec_name : string;
  sec_cert_pem : string;
  sec_key_pem : string;
  sec_htpasswd : string;
  sec_oidc_client_secret : string;
}.

Record Workload := mkWorkload { w_namespace : string; w_name : string; w_ip : string }.

Record ServiceFrontendRef := mkServiceFrontendRef {
  sf_namespace : string;
  sf_name : string;
  sf_port : Z;
}.
#[global] Instance ServiceFrontendRef_eq_dec : EqDecision ServiceFrontendRef.
Proof. solve_decision. Defined.

(** ** Requests and selections *)

Record RequestMeta := mkRequestMeta {
  rq_host : option string;
  rq_port : Z;
  rq_path : string;
  rq_method : string;
  rq_source_ip : option string;
  rq_headers : StringMap (list string);
  rq_query_params : StringMap (list string);
}.

Record ResolvedHttpBackend := mkResolvedHttpBackend {
  rhb_endpoint : BackendEndpoint;
  rhb_backend_name : string;
  rhb_filters : list Filter;
  rhb_session_persistence : option SessionPersistence;
}.

Record HttpBackendResolution := mkHttpBackendResolution {
  hbr_selected : option ResolvedHttpBackend;
  hbr_error : option BackendSelectionError;
}.

(** The per-route policy of [ntgw-config]. *)
Record RoutePolicyTimeoutConfig := mkRoutePolicyTimeoutConfig {
  rpt_request : option Z;
  rpt_backend_request : option Z;
  rpt_connect : option Z;
  rpt_next_upstream : option Z;
}.

Record RoutePolicyBodyLimitConfig := mkRoutePolicyBodyLimitConfig {
  rpb_max_request_body_bytes : option Z;
  rpb_request_body_buffer_bytes : option Z;
  rpb_max_request_header_bytes : option Z;
}.

Record RoutePolicyProxyConfig := mkRoutePolicyProxyConfig {
  rpp_request_buffering : option bool;
  rpp_response_buffering : option bool;
  rpp_buffer_size : option Z;
  rpp_buffer_count : option Z;
}.

Record RoutePolicyConnectionConfig := mkRoutePolicyConnectionConfig {
  rpc_keepalive_requests : option Z;
  rpc_keepalive_time : option Z;
  rpc_keepalive_timeout : option Z;
  rpc_upstream_keepalive_pool_size : option Z;
  rpc_upstream_keepalive_idle : option Z;
}.

Record RoutePolicyConfig := mkRoutePolicyConfig {
  rpo_timeout : option RoutePolicyTimeoutConfig;
  rpo_body_limit : option RoutePolicyBodyLimitConfig;
  rpo_proxy : option RoutePolicyProxyConfig;
  rpo_connection : option RoutePolicyConnectionConfig;
}.

Record SelectedBackend := mkSelectedBackend {
  sb_route_kind : RouteKind;
  sb_route_name : string;
  sb_route_namespace : string;
  sb_rule_index : option nat;
  sb_route_annotations : StringMap string;
  sb_listener_name : string;
  sb_listener_protocol : string;
  sb_backend : BackendEndpoint;
  sb_backend_name : string;
  sb_filters : list Filter;
  sb_matched_http_path : option MatchedHttpPath;
  sb_timeouts : option RouteTimeouts;
  sb_retry : option RetryPolicy;
  sb_session_persistence : option SessionPersistence;
  sb_backend_tls : option BackendTlsConfig;
  sb_route_policy : option RoutePolicyConfig;
}.

Record SelectedHttpRoute := mkSelectedHttpRoute {
  shr_route_name : string;
  shr_route_namespace : string;
  shr_rule_index : option nat;
  shr_route_annotations : StringMap string;
  shr_listener_name : string;
  shr_listener_protocol : string;
  shr_filters : list Filter;
  shr_matched_http_path : MatchedHttpPath;
  shr_backend : option BackendEndpoint;
  shr_backend_name : option string;
  shr_backend_error : option BackendSelectionError;
  shr_timeouts : option RouteTimeouts;
  shr_retry : option RetryPolicy;
  shr_session_persistence : option SessionPersistence;
  shr_backend_tls : option BackendTlsConfig;
  shr_route_policy : option RoutePolicyConfig;
  shr_security_policy : option SecurityPolicyConfig;
}.

Record RequestMirrorContext := mkRequestMirrorContext {
  rmc_route_kind : RouteKind;
  rmc_route_name : string;
  rmc_route_namespace : string;
  rmc_rule_index : option nat;
  rmc_filters : list Filter;
  rmc_matched_http_path : option MatchedHttpPath;
  rmc_timeouts : option RouteTimeouts;
  rmc_backend_tls : option BackendTlsConfig;
  rmc_route_policy : option RoutePolicyConfig;
}.
