(* ===== verification/Matching.v ===== *)
(** * Request matching

    The predicates of [ntgw-ir/src/matching.rs]: which HTTP, gRPC and stream
    match conditions a request satisfies, how a match is compiled once per
    snapshot, and how a raw request becomes a [RequestMeta].  The [regex] crate
    is the class [RegexEngine]; [form_urlencoded::parse] is the class
    [FormUrlencoded]. *)

From Stdlib Require Import ZArith Lia Ascii.
From stdpp Require Import base gmap strings list.
From S2P Require Import Prelude Strs IrTypes.

Local Open Scope string_scope.
Local Open Scope list_scope.

Class FormUrlencoded := form_urlencoded_parse : string -> list (string * string).

Module Matching.

(** ** Hosts and names *)

Definition normalize_host_ref (host : string) : string :=
  match Str.strip_prefix "[" host with
  | Some host =>
    match Str.split_once "]"%char host with
    | Some (value, _) => value
    | None => host
    end
  | None => Str.split_first ":"%char host
  end.

Definition normalize_host (host : string) : string := normalize_host_ref host.

Definition hostname_matches (pattern host : string) : bool :=
  let pattern := normalize_host_ref pattern in
  match Str.strip_prefix "*." pattern with
  | Some suffix =>
    (String.length suffix <? String.length host)%nat
    && bool_decide (Str.byte_at (String.length host - String.length suffix - 1) host
                    = Some "."%char)
    && Str.eq_ignore_ascii_case
         (Str.drop (String.length host - String.length suffix) host) suffix
  | None => Str.eq_ignore_ascii_case pattern host
  end.

Definition has_ascii_uppercase (value : string) : bool := Str.any_byte Str.is_upper value.

Definition lookup_match_name (name : string) : string :=
  if has_ascii_uppercase name then Str.to_ascii_lowercase name else name.

Definition normalize_match_name (name : string) : string :=
  if has_ascii_uppercase name then Str.to_ascii_lowercase name else name.

Definition parse_authority_port (host : string) : option Z :=
  match Str.strip_prefix "[" host with
  | Some host => '(_, port) ← Str.split_once_str "]:" host; Str.parse_u32 port
  | None =>
    '(name, port) ← Str.rsplit_once ":"%char host;
    if Str.contains_char ":"%char name then None else Str.parse_u32 port
  end.

(** ** Filters and matched paths *)

Definition has_non_backend_http_filter (filters : list Filter) : bool :=
  existsb (fun filter =>
    bool_decide (is_Some (f_request_redirect filter))
    || bool_decide (is_Some (f_url_rewrite filter))
    || bool_decide (is_Some (f_header_modifier filter))
    || bool_decide (is_Some (f_extension_ref filter))) filters.

Definition filters_without_request_mirror (filters : list Filter) : list Filter :=
  filter (fun f => f_request_mirror f = None) filters.

Definition default_http_path_match : MatchedHttpPath :=
  {| mhp_path := "/"; mhp_path_type := "PathPrefix" |}.

Definition normalize_http_path_match (matcher : HttpMatch) : MatchedHttpPath :=
  if Str.is_empty (hm_path matcher) then default_http_path_match
  else {| mhp_path := hm_path matcher; mhp_path_type := hm_path_type matcher |}.

(** ** Stream matches *)

Record StreamMatchScore := mkStreamMatchScore {
  sms_hostname_rank : Z;
  sms_hostname_length : nat;
}.

Definition StreamMatchScore_default : StreamMatchScore := mkStreamMatchScore 0 0.

(** [#[derive(Ord)]]: the fields in order. *)
Definition StreamMatchScore_key (s : StreamMatchScore) : Z * nat :=
  (sms_hostname_rank s, sms_hostname_length s).

#[global] Instance StreamMatchScore_ord : RustOrd StreamMatchScore :=
  fun x y => cmp (StreamMatchScore_key x) (StreamMatchScore_key y).

#[global] Instance StreamMatchScore_ord_laws : RustOrdLaws StreamMatchScore.
Proof. apply (ord_laws_via StreamMatchScore_key); [done|intros [] []; by inversion 1]. Qed.

Definition matches_stream_rule (matcher : StreamMatch) (port : Z)
    (server_name : option string) : bool :=
  if negb (bool_decide (sm_port matcher = 0%Z)) && negb (bool_decide (sm_port matcher = port))
  then false
  else if Str.is_empty (sm_sni_hostname matcher) then true
  else match normalize_host_ref <$> server_name with
       | None => false
       | Some server_name => hostname_matches (sm_sni_hostname matcher) server_name
       end.

Definition stream_match_score (matcher : StreamMatch) : StreamMatchScore :=
  if Str.is_empty (sm_sni_hostname matcher) then StreamMatchScore_default
  else
    let hostname := normalize_host_ref (sm_sni_hostname matcher) in
    match Str.strip_prefix "*." hostname with
    | Some suffix => mkStreamMatchScore 1 (String.length suffix)
    | None => mkStreamMatchScore 2 (String.length hostname)
    end.

Definition tls_mode_accepts (tls_mode : option TlsRouteMode) (matcher : StreamMatch) : bool :=
  match tls_mode with
  | None => true
  | Some mode => bool_decide (sm_mode matcher = mode)
  end.

Definition best_stream_rule_match_with_tls_mode (matches : list StreamMatch) (port : Z)
    (server_name : option string) (tls_mode : option TlsRouteMode) : option StreamMatchScore :=
  match matches with
  | [] =>
    match tls_mode with
    | Some Terminate => None
    | _ => Some StreamMatchScore_default
    end
  | _ =>
    iter_max (stream_match_score <$>
      List.filter (fun m => matches_stream_rule m port server_name)
        (List.filter (tls_mode_accepts tls_mode) matches))
  end.

(** ** Paths *)

Definition matches_path_prefix (prefix path : string) : bool :=
  if bool_decide (prefix = "/") then true
  else if bool_decide (path = prefix) then true
  else if Str.ends_with "/" prefix then Str.starts_with prefix path
  else Str.starts_with prefix path
       && bool_decide (Str.byte_at (String.length prefix) path = Some "/"%char).

Definition matches_method (expected actual : string) : bool :=
  Str.is_empty expected || Str.eq_ignore_ascii_case expected actual.

(** ** gRPC paths *)

Record GrpcPath := mkGrpcPath { gp_service : string; gp_method : string }.

Definition parse_grpc_path (path : string) : option GrpcPath :=
  path ← Str.strip_prefix "/" path;
  '(service, method) ← Str.split_once "/"%char path;
  if Str.is_empty service || Str.is_empty method then None
  else Some (mkGrpcPath service method).

Definition is_grpc_request (request : RequestMeta) : bool :=
  match rq_headers request !! "content-type" with
  | Some values => existsb (Str.starts_with "application/grpc") values
  | None => false
  end.

Section with_regex.
Context `{RegexEngine}.

Definition regex_matches (compiled_regex : option Regex) (pattern candidate : string) : bool :=
  match compiled_regex with
  | Some regex => regex_is_match (re_pattern regex) candidate
  | None => if regex_valid pattern then regex_is_match pattern candidate else false
  end.

Definition compile_regex (pattern : string) (enabled : bool) : option Regex :=
  if enabled then (if regex_valid pattern then Some (mkRegex pattern) else None) else None.

Definition matches_values (expected match_type : string) (actual : option (list string))
    (compiled_regex : option Regex) : bool :=
  match actual with
  | None => false
  | Some values =>
    if bool_decide (match_type = "RegularExpression")
    then existsb (regex_matches compiled_regex expected) values
    else existsb (fun value => bool_decide (value = expected)) values
  end.

Definition matches_headers (expected : list HeaderMatch)
    (actual : StringMap (list string)) : bool :=
  forallb (fun item =>
    let name := lookup_match_name (hdm_name item) in
    matches_values (hdm_value item) (hdm_match_type item) (actual !! name)
      (hdm_compiled_regex item)) expected.

Definition matches_query_params (expected : list QueryMatch)
    (actual : StringMap (list string)) : bool :=
  forallb (fun item =>
    let name := lookup_match_name (qm_name item) in
    matches_values (qm_value item) (qm_match_type item) (actual !! name)
      (qm_compiled_regex item)) expected.

Definition matches_http_path (matcher : HttpMatch) (request : RequestMeta) : bool :=
  if Str.is_empty (hm_path matcher) then true
  else if bool_decide (hm_path_type matcher = "Exact")
  then bool_decide (rq_path request = hm_path matcher)
  else if bool_decide (hm_path_type matcher = "RegularExpression")
  then regex_matches (hm_compiled_path_regex matcher) (hm_path matcher) (rq_path request)
  else matches_path_prefix (hm_path matcher) (rq_path request).

Definition matches_http_rule (matcher : HttpMatch) (request : RequestMeta) : bool :=
  matches_http_path matcher request
  && matches_method (hm_method matcher) (rq_method request)
  && matches_headers (hm_headers matcher) (rq_headers request)
  && matches_query_params (hm_query_params matcher) (rq_query_params request).

Definition matches_grpc_value (expected actual match_type : string)
    (compiled_regex : option Regex) : bool :=
  if Str.is_empty expected then true
  else if bool_decide (match_type = "RegularExpression")
  then regex_matches compiled_regex expected actual
  else bool_decide (expected = actual).

Definition matches_grpc_rule (matcher : GrpcMatch) (request : RequestMeta)
    (grpc : option GrpcPath) : bool :=
  if negb (matches_headers (gm_headers matcher) (rq_headers request)) then false
  else match grpc with
       | None => Str.is_empty (gm_service matcher) && Str.is_empty (gm_method matcher)
       | Some grpc =>
         matches_grpc_value (gm_service matcher) (gp_service grpc) (gm_match_type matcher)
           (gm_compiled_service_regex matcher)
         && matches_grpc_value (gm_method matcher) (gp_method grpc) (gm_match_type matcher)
           (gm_compiled_method_regex matcher)
       end.

(** ** Compilation *)

Definition HeaderMatch_compile_runtime_state (m : HeaderMatch) : HeaderMatch :=
  {| hdm_name := normalize_match_name (hdm_name m);
     hdm_value := hdm_value m;
     hdm_match_type := hdm_match_type m;
     hdm_compiled_regex :=
       compile_regex (hdm_value m) (bool_decide (hdm_match_type m = "RegularExpression")) |}.

Definition QueryMatch_compile_runtime_state (m : QueryMatch) : QueryMatch :=
  {| qm_name := normalize_match_name (qm_name m);
     qm_value := qm_value m;
     qm_match_type := qm_match_type m;
     qm_compiled_regex :=
       compile_regex (qm_value m) (bool_decide (qm_match_type m = "RegularExpression")) |}.

Definition HttpMatch_compile_runtime_state (m : HttpMatch) : HttpMatch :=
  {| hm_path := hm_path m;
     hm_path_type := hm_path_type m;
     hm_method := hm_method m;
     hm_headers := HeaderMatch_compile_runtime_state <$> hm_headers m;
     hm_query_params := QueryMatch_compile_runtime_state <$> hm_query_params m;
     hm_compiled_path_regex :=
       compile_regex (hm_path m) (bool_decide (hm_path_type m = "RegularExpression")) |}.

Definition GrpcMatch_compile_runtime_state (m : GrpcMatch) : GrpcMatch :=
  let regex_enabled := bool_decide (gm_match_type m = "RegularExpression") in
  {| gm_service := gm_service m;
     gm_method := gm_method m;
     gm_match_type := gm_match_type m;
     gm_headers := HeaderMatch_compile_runtime_state <$> gm_headers m;
     gm_compiled_service_regex :=
       compile_regex (gm_service m) (regex_enabled && negb (Str.is_empty (gm_service m)));
     gm_compiled_method_regex :=
       compile_regex (gm_method m) (regex_enabled && negb (Str.is_empty (gm_method m))) |}.

End with_regex.

(** ** Requests *)

Section with_form.
Context `{FormUrlencoded}.

(** [query_params.entry(name).or_default().push(value)] *)
Definition push_param (params : StringMap (list string)) (name value : string) :
    StringMap (list string) :=
  <[name := default [] (params !! name) ++ [value]]> params.

Definition split_path_and_query (raw : string) : string * StringMap (list string) :=
  let '(path, query) :=
    match Str.split_once "?"%char raw with
    | Some (path, query) => (path, query)
    | None => (raw, "")
    end in
  (path,
   foldl (fun params '(name, value) =>
            push_param params (Str.to_ascii_lowercase name) value)
     ∅ (form_urlencoded_parse query)).

Definition RequestMeta_with_port (host : option string) (port : Z)
    (path_and_query method : string) (headers : StringMap (list string)) : RequestMeta :=
  let '(path, query_params) := split_path_and_query path_and_query in
  let resolved_port :=
    if bool_decide (port = 0%Z)
    then default 0%Z (host ≫= parse_authority_port)
    else port in
  {| rq_host := normalize_host <$> host;
     rq_port := resolved_port;
     rq_path := path;
     rq_method := Str.to_ascii_uppercase method;
     rq_source_ip := None;
     rq_headers := headers;
     rq_query_params := query_params |}.

Definition RequestMeta_new (host : option string) (path_and_query method : string)
    (headers : StringMap (list string)) : RequestMeta :=
  RequestMeta_with_port host 0 path_and_query method headers.

End with_form.

(** ** Properties of hosts and names *)

Lemma lookup_match_name_lowercase name : lookup_match_name name = Str.to_ascii_lowercase name.
Proof.
  unfold lookup_match_name, has_ascii_uppercase.
  destruct (Str.any_byte _ _) eqn:E; [done|]. by rewrite Str.lowercase_fixed.
Qed.

Lemma normalize_match_name_lowercase name :
  normalize_match_name name = Str.to_ascii_lowercase name.
Proof. apply lookup_match_name_lowercase. Qed.

Lemma wildcard_suffix_iff suffix host :
  (String.length suffix <? String.length host)%nat
  && bool_decide (Str.byte_at (String.length host - String.length suffix - 1) host
                  = Some "."%char)
  && Str.eq_ignore_ascii_case
       (Str.drop (String.length host - String.length suffix) host) suffix = true
  <-> exists t, t ∈ Str.suffixes_after "."%char host /\
        Str.to_ascii_lowercase t = Str.to_ascii_lowercase suffix.
Proof.
  rewrite !andb_true_iff, Nat.ltb_lt, bool_decide_eq_true, Str.eq_ignore_ascii_case_iff. split.
  - intros [[Hlt Hb] He]. eexists. split; [|exact He]. apply Str.elem_of_suffixes_after.
    destruct (Str.split_at (String.length host - String.length suffix - 1) host)
      as (u & Hu & _); [lia|].
    exists u. rewrite Hu at 1. f_equal. rewrite (Str.byte_at_drop _ _ _ Hb).
    do 2 f_equal. lia.
  - intros (t & (u & ->)%Str.elem_of_suffixes_after & Ht).
    assert (String.length t = String.length suffix) as Hl.
    { rewrite <- (Str.lowercase_length t), Ht. apply Str.lowercase_length. }
    rewrite Str.length_app; simpl.
    replace (String.length u + S (String.length t) - String.length suffix - 1)
      with (String.length u) by lia.
    replace (String.length u + S (String.length t) - String.length suffix)
      with (String.length (u +:+ ".")) by (rewrite Str.length_app; simpl; lia).
    rewrite Str.byte_at_app. split; [split; [lia|done]|].
    change (String "." t) with ("." +:+ t). by rewrite Str.append_assoc, Str.drop_app.
Qed.

(** What a pattern accepts: a wildcard accepts a host one of whose label
    suffixes is the pattern's, any other pattern accepts itself, both up to
    ASCII case. *)
Lemma hostname_matches_iff pattern host :
  hostname_matches pattern host = true <->
  match Str.strip_prefix "*." (normalize_host_ref pattern) with
  | Some suffix =>
    exists t, t ∈ Str.suffixes_after "."%char host /\
      Str.to_ascii_lowercase t = Str.to_ascii_lowercase suffix
  | None =>
    Str.to_ascii_lowercase (normalize_host_ref pattern) = Str.to_ascii_lowercase host
  end.
Proof.
  unfold hostname_matches. destruct (Str.strip_prefix _ _) as [suffix|].
  - apply wildcard_suffix_iff.
  - apply Str.eq_ignore_ascii_case_iff.
Qed.

(** ** Properties of paths *)

Lemma path_continues_iff prefix path :
  Str.starts_with prefix path
  && bool_decide (Str.byte_at (String.length prefix) path = Some "/"%char) = true
  <-> exists t, path = prefix +:+ String "/"%char t.
Proof.
  rewrite andb_true_iff, Str.starts_with_iff, bool_decide_eq_true. split.
  - intros [[t ->] Hb]. rewrite Str.byte_at_app in Hb.
    destruct t as [|a t]; simplify_eq/=. eauto.
  - intros [t ->]. rewrite Str.byte_at_app. eauto.
Qed.

(** A path prefix matches whole segments.  A prefix that does not end in a
    slash accepts a path if and only if its segments are the first segments of the
    path, so that [/api] accepts [/api] and [/api/x] but not [/apis]. *)
Theorem matches_path_prefix_segments_iff prefix path :
  Str.ends_with "/" prefix = false ->
  matches_path_prefix prefix path = true <->
  Str.split "/"%char prefix `prefix_of` Str.split "/"%char path.
Proof.
  intros He. unfold matches_path_prefix. rewrite He, Str.split_prefix_iff.
  case_bool_decide as Hroot; [by subst prefix|].
  case_bool_decide as Heq; [by split; auto|].
  rewrite path_continues_iff. naive_solver.
Qed.

(** ** Properties of compilation *)

Section compile_facts.
Context `{RegexEngine}.

(** A compiled regex, when there is one, is the compilation of the pattern. *)
Definition regex_coherent (compiled : option Regex) (pattern : string) : Prop :=
  match compiled with
  | Some regex => re_pattern regex = pattern /\ regex_valid pattern = true
  | None => True
  end.

Definition header_coherent (m : HeaderMatch) : Prop :=
  regex_coherent (hdm_compiled_regex m) (hdm_value m).
Definition query_coherent (m : QueryMatch) : Prop :=
  regex_coherent (qm_compiled_regex m) (qm_value m).
Definition http_match_coherent (m : HttpMatch) : Prop :=
  regex_coherent (hm_compiled_path_regex m) (hm_path m)
  /\ Forall header_coherent (hm_headers m) /\ Forall query_coherent (hm_query_params m).
Definition grpc_match_coherent (m : GrpcMatch) : Prop :=
  regex_coherent (gm_compiled_service_regex m) (gm_service m)
  /\ regex_coherent (gm_compiled_method_regex m) (gm_method m)
  /\ Forall header_coherent (gm_headers m).

Lemma compile_regex_coherent pattern enabled :
  regex_coherent (compile_regex pattern enabled) pattern.
Proof. unfold compile_regex. destruct enabled; simpl; [|done]. by destruct (regex_valid _) eqn:?. Qed.

Lemma regex_matches_coherent compiled pattern candidate :
  regex_coherent compiled pattern ->
  regex_matches compiled pattern candidate = regex_matches None pattern candidate.
Proof. destruct compiled as [[p]|]; simpl; [|done]. by intros [-> ->]. Qed.

Lemma matches_values_coherent compiled compiled' expected match_type actual :
  regex_coherent compiled expected -> regex_coherent compiled' expected ->
  matches_values expected match_type actual compiled
  = matches_values expected match_type actual compiled'.
Proof.
  intros H1 H2. unfold matches_values. destruct actual as [values|]; [|done].
  case_bool_decide; [|done]. induction values as [|v values IH]; simpl; [done|].
  by rewrite IH, (regex_matches_coherent compiled), (regex_matches_coherent compiled').
Qed.

Lemma forallb_fmap_ext {A} (f : A -> bool) (g : A -> A) l :
  Forall (fun x => f (g x) = f x) l -> forallb f (g <$> l) = forallb f l.
Proof. induction 1 as [|x l Hx _ IH]; csimpl; [done|]. by rewrite Hx, IH. Qed.

Lemma compile_item_matches (actual : StringMap (list string)) name value match_type compiled e :
  regex_coherent compiled value ->
  matches_values value match_type (actual !! lookup_match_name (normalize_match_name name))
    (compile_regex value e)
  = matches_values value match_type (actual !! lookup_match_name name) compiled.
Proof.
  intros Hc.
  rewrite normalize_match_name_lowercase, !lookup_match_name_lowercase, Str.lowercase_idem.
  apply matches_values_coherent; [apply compile_regex_coherent|exact Hc].
Qed.

Lemma compile_headers_match headers actual :
  Forall header_coherent headers ->
  matches_headers (HeaderMatch_compile_runtime_state <$> headers) actual
  = matches_headers headers actual.
Proof.
  intros Hh. apply forallb_fmap_ext. eapply Forall_impl; [exact Hh|].
  intros m Hm. by apply compile_item_matches.
Qed.

Lemma compile_queries_match queries actual :
  Forall query_coherent queries ->
  matches_query_params (QueryMatch_compile_runtime_state <$> queries) actual
  = matches_query_params queries actual.
Proof.
  intros Hq. apply forallb_fmap_ext. eapply Forall_impl; [exact Hq|].
  intros m Hm. by apply compile_item_matches.
Qed.

Lemma HttpMatch_compile_matches m request :
  http_match_coherent m ->
  matches_http_rule (HttpMatch_compile_runtime_state m) request = matches_http_rule m request.
Proof.
  intros (Hp & Hh & Hq). unfold matches_http_rule, matches_http_path; simpl.
  rewrite compile_headers_match, compile_queries_match by done.
  rewrite (regex_matches_coherent (compile_regex _ _)) by apply compile_regex_coherent.
  by rewrite (regex_matches_coherent (hm_compiled_path_regex m)).
Qed.

Lemma matches_grpc_value_coherent compiled compiled' expected actual match_type :
  regex_coherent compiled expected -> regex_coherent compiled' expected ->
  matches_grpc_value expected actual match_type compiled
  = matches_grpc_value expected actual match_type compiled'.
Proof.
  intros H1 H2. unfold matches_grpc_value. destruct (Str.is_empty _); [done|].
  case_bool_decide; [|done].
  by rewrite (regex_matches_coherent compiled), (regex_matches_coherent compiled').
Qed.

Lemma GrpcMatch_compile_matches m request grpc :
  grpc_match_coherent m ->
  matches_grpc_rule (GrpcMatch_compile_runtime_state m) request grpc
  = matches_grpc_rule m request grpc.
Proof.
  intros (Hs & Hm & Hh). unfold matches_grpc_rule; simpl. rewrite compile_headers_match by done.
  destruct (negb _); [done|]. destruct grpc as [grpc|]; [|done].
  f_equal; apply matches_grpc_value_coherent; auto using compile_regex_coherent.
Qed.

Lemma HttpMatch_compile_coherent m : http_match_coherent (HttpMatch_compile_runtime_state m).
Proof.
  split_and!; simpl; [apply compile_regex_coherent| |]; apply Forall_fmap, Forall_true;
    intros x; apply compile_regex_coherent.
Qed.

Lemma GrpcMatch_compile_coherent m : grpc_match_coherent (GrpcMatch_compile_runtime_state m).
Proof.
  split_and!; simpl; try apply compile_regex_coherent. apply Forall_fmap, Forall_true.
  intros x; apply compile_regex_coherent.
Qed.

(** compiling a configuration does not change what it matches.  A matcher whose
    regexes were precompiled accepts the requests the matcher accepted, HTTP and
    gRPC alike, for every regex engine. *)
Theorem compile_preserves_matching m g request grpc :
  http_match_coherent m -> grpc_match_coherent g ->
  matches_http_rule (HttpMatch_compile_runtime_state m) request = matches_http_rule m request
  /\ matches_grpc_rule (GrpcMatch_compile_runtime_state g) request grpc
     = matches_grpc_rule g request grpc.
Proof. intros Hm Hg. split; [by apply HttpMatch_compile_matches|by apply GrpcMatch_compile_matches]. Qed.

End compile_facts.

(** C38: the language of a hostname pattern.  A wildcard pattern accepts exactly the
    hosts with at least one more label than its suffix, any other pattern exactly
    its own name, both up to ASCII case and without the pattern's port. *)
Theorem hostname_pattern_language pattern host :
  hostname_matches pattern host = true <->
  match Str.strip_prefix "*." (normalize_host_ref pattern) with
  | Some suffix =>
    exists t, t ∈ Str.suffixes_after "."%char host /\
      Str.to_ascii_lowercase t = Str.to_ascii_lowercase suffix
  | None =>
    Str.to_ascii_lowercase (normalize_host_ref pattern) = Str.to_ascii_lowercase host
  end.
Proof. apply hostname_matches_iff. Qed.

(** ** Witnesses *)

Lemma matches_path_prefix_segments_iff_witness :
  matches_path_prefix "/api" "/api/v1" = true
  <-> Str.split "/"%char "/api" `prefix_of` Str.split "/"%char "/api/v1".
Proof. apply matches_path_prefix_segments_iff. reflexivity. Defined.

(** An engine with literal patterns. *)
Definition witness_regex : RegexEngine :=
  {| regex_valid := fun p => negb (Str.is_empty p); regex_is_match := fun p t => bool_decide (p = t) |}.

Definition witness_http_match : HttpMatch :=
  mkHttpMatch "/v[0-9]" "RegularExpression" "GET" [] [] None.
Definition witness_grpc_match : GrpcMatch :=
  mkGrpcMatch "pkg.*" "" "RegularExpression" [] None None.
Definition witness_request : RequestMeta := mkRequestMeta None 80 "/v[0-9]" "GET" None ∅ ∅.

Lemma compile_preserves_matching_witness :
  @matches_http_rule witness_regex (@HttpMatch_compile_runtime_state witness_regex witness_http_match)
    witness_request = true.
Proof.
  rewrite (proj1 (@compile_preserves_matching witness_regex witness_http_match witness_grpc_match
    witness_request None ltac:(repeat constructor) ltac:(repeat constructor))).
  vm_compute. reflexivity.
Defined.

End Matching.
