(* ===== verification/Scoring.v ===== *)
(** * Match scores

    The precedence scores of [ntgw-ir/src/http_selection/scoring.rs].  A struct
    with a derived [Ord] is ordered as the tuple of its fields; [Iterator::max]
    and [Iterator::max_by] return the last of the greatest items. *)

From Stdlib Require Import ZArith Lia Ascii.
From stdpp Require Import base gmap strings list.
From S2P Require Import Prelude Strs IrTypes Matching.

Local Open Scope string_scope.
Local Open Scope list_scope.

Module Scoring.
Import Matching.

Record HostnameScore := mkHostnameScore { hs_rank : Z; hs_length : nat }.
Record HttpRuleScore := mkHttpRuleScore {
  hrs_path_rank : Z;
  hrs_path_length : nat;
  hrs_method_specified : bool;
  hrs_header_count : nat;
  hrs_query_count : nat;
}.
Record GrpcRuleScore := mkGrpcRuleScore {
  grs_service_specified : bool;
  grs_method_specified : bool;
  grs_header_count : nat;
}.
Record HttpCandidateScore := mkHttpCandidateScore {
  hcs_listener_host : HostnameScore;
  hcs_route_host : HostnameScore;
  hcs_rule : HttpRuleScore;
}.
Record GrpcCandidateScore := mkGrpcCandidateScore {
  gcs_listener_host : HostnameScore;
  gcs_route_host : HostnameScore;
  gcs_rule : GrpcRuleScore;
}.

Definition HostnameScore_default : HostnameScore := mkHostnameScore 0 0.
Definition HttpRuleScore_default : HttpRuleScore := mkHttpRuleScore 0 0 false 0 0.
Definition GrpcRuleScore_default : GrpcRuleScore := mkGrpcRuleScore false false 0.

(** ** The derived orders *)

Definition HostnameScore_key (s : HostnameScore) : Z * nat := (hs_rank s, hs_length s).
Definition HttpRuleScore_key (s : HttpRuleScore) : Z * (nat * (bool * (nat * nat))) :=
  (hrs_path_rank s, (hrs_path_length s,
    (hrs_method_specified s, (hrs_header_count s, hrs_query_count s)))).
Definition GrpcRuleScore_key (s : GrpcRuleScore) : bool * (bool * nat) :=
  (grs_service_specified s, (grs_method_specified s, grs_header_count s)).

#[global] Instance HostnameScore_ord : RustOrd HostnameScore :=
  fun x y => cmp (HostnameScore_key x) (HostnameScore_key y).
#[global] Instance HttpRuleScore_ord : RustOrd HttpRuleScore :=
  fun x y => cmp (HttpRuleScore_key x) (HttpRuleScore_key y).
#[global] Instance GrpcRuleScore_ord : RustOrd GrpcRuleScore :=
  fun x y => cmp (GrpcRuleScore_key x) (GrpcRuleScore_key y).

Definition HttpCandidateScore_key (s : HttpCandidateScore) :
    HostnameScore * (HostnameScore * HttpRuleScore) :=
  (hcs_listener_host s, (hcs_route_host s, hcs_rule s)).
Definition GrpcCandidateScore_key (s : GrpcCandidateScore) :
    HostnameScore * (HostnameScore * GrpcRuleScore) :=
  (gcs_listener_host s, (gcs_route_host s, gcs_rule s)).

#[global] Instance HttpCandidateScore_ord : RustOrd HttpCandidateScore :=
  fun x y => cmp (HttpCandidateScore_key x) (HttpCandidateScore_key y).
#[global] Instance GrpcCandidateScore_ord : RustOrd GrpcCandidateScore :=
  fun x y => cmp (GrpcCandidateScore_key x) (GrpcCandidateScore_key y).

(** ** Scores of hostnames *)

Definition hostname_match_score (pattern request_host : string) : option HostnameScore :=
  let request_host := normalize_host_ref request_host in
  match Str.strip_prefix "*." pattern with
  | Some suffix =>
    let suffix := normalize_host_ref suffix in
    if hostname_matches pattern request_host
    then Some (mkHostnameScore 1 (String.length suffix)) else None
  | None =>
    let normalized := normalize_host_ref pattern in
    if bool_decide (normalized = request_host)
    then Some (mkHostnameScore 2 (String.length normalized)) else None
  end.

Definition best_hostname_score (hostnames : list string) (request_host : option string) :
    option HostnameScore :=
  match hostnames with
  | [] => Some HostnameScore_default
  | _ =>
    request_host ← request_host;
    iter_max (omap (fun hostname => hostname_match_score hostname request_host) hostnames)
  end.

Definition listener_hostname_score (listener : Listener) (request_host : option string) :
    option HostnameScore :=
  match l_hostnames listener with
  | [] => Some HostnameScore_default
  | _ => best_hostname_score (l_hostnames listener) request_host
  end.

(** ** Scores of rules *)

Definition http_path_rank (path_type : string) : Z :=
  if bool_decide (path_type = "Exact") then 3
  else if bool_decide (path_type = "RegularExpression") then 2
  else 1.

Section with_regex.
Context `{RegexEngine}.

Definition http_match_score (matcher : HttpMatch) : MatchedHttpPath * HttpRuleScore :=
  let matched_path := normalize_http_path_match matcher in
  (matched_path,
   {| hrs_path_rank := http_path_rank (mhp_path_type matched_path);
      hrs_path_length := String.length (mhp_path matched_path);
      hrs_method_specified := negb (Str.is_empty (hm_method matcher));
      hrs_header_count := length (hm_headers matcher);
      hrs_query_count := length (hm_query_params matcher) |}).

Definition best_http_rule_match (rule : HttpRule) (request : RequestMeta) :
    option (MatchedHttpPath * HttpRuleScore) :=
  match hru_matches rule with
  | [] => Some (default_http_path_match, HttpRuleScore_default)
  | matches =>
    iter_max_by snd
      (http_match_score <$> List.filter (fun m => matches_http_rule m request) matches)
  end.

Definition grpc_match_score (matcher : GrpcMatch) : GrpcRuleScore :=
  {| grs_service_specified := negb (Str.is_empty (gm_service matcher));
     grs_method_specified := negb (Str.is_empty (gm_method matcher));
     grs_header_count := length (gm_headers matcher) |}.

Definition best_grpc_rule_match (rule : GrpcRule) (request : RequestMeta)
    (grpc : option GrpcPath) : option GrpcRuleScore :=
  match gru_matches rule with
  | [] => Some GrpcRuleScore_default
  | matches =>
    iter_max (grpc_match_score <$>
      List.filter (fun m => matches_grpc_rule m request grpc) matches)
  end.

End with_regex.

(** ** The orders are total *)

#[global] Instance HostnameScore_ord_laws : RustOrdLaws HostnameScore.
Proof. apply (ord_laws_via HostnameScore_key); [done|intros [] []; by inversion 1]. Qed.
#[global] Instance HttpRuleScore_ord_laws : RustOrdLaws HttpRuleScore.
Proof. apply (ord_laws_via HttpRuleScore_key); [done|intros [] []; by inversion 1]. Qed.
#[global] Instance GrpcRuleScore_ord_laws : RustOrdLaws GrpcRuleScore.
Proof. apply (ord_laws_via GrpcRuleScore_key); [done|intros [] []; by inversion 1]. Qed.
#[global] Instance HttpCandidateScore_ord_laws : RustOrdLaws HttpCandidateScore.
Proof. apply (ord_laws_via HttpCandidateScore_key); [done|intros [] []; by inversion 1]. Qed.
#[global] Instance GrpcCandidateScore_ord_laws : RustOrdLaws GrpcCandidateScore.
Proof. apply (ord_laws_via GrpcCandidateScore_key); [done|intros [] []; by inversion 1]. Qed.

(** ** Facts *)

(** [normalize_host_ref] of a host that already is normalised and has no
    bracket or colon. *)
Lemma split_first_no_sep c s : Str.contains_char c (Str.split_first c s) = false.
Proof. induction s; simpl; [done|]. case_bool_decide; simpl; [done|]. by rewrite bool_decide_eq_false_2. Qed.

Lemma split_first_id c s : Str.contains_char c s = false -> Str.split_first c s = s.
Proof.
  induction s as [|a s IH]; simpl; [done|]. intros [Ha Hs]%orb_false_iff.
  rewrite Ha, IH; done.
Qed.

Lemma hostname_match_score_matches pattern host score :
  hostname_match_score pattern host = Some score ->
  hostname_matches pattern (normalize_host_ref host) = true.
Proof.
  unfold hostname_match_score. destruct (Str.strip_prefix "*." pattern) as [suffix|] eqn:E.
  - by destruct (hostname_matches _ _).
  - case_bool_decide as Hn; [|done]. intros _. apply hostname_matches_iff.
    destruct (Str.strip_prefix "*." (normalize_host_ref pattern)) as [suffix|] eqn:Es.
    + exists suffix. split; [|done]. apply Str.elem_of_suffixes_after.
      apply Str.strip_prefix_Some in Es. exists "*". by rewrite <- Hn, Es.
    + by rewrite Hn.
Qed.

(** A route's own hostnames decide whether it is scored. *)
Definition hostnames_match (hostnames : list string) (request_host : option string) : bool :=
  match hostnames with
  | [] => true
  | _ =>
    match request_host with
    | None => false
    | Some host => existsb (fun p => hostname_matches p (normalize_host_ref host)) hostnames
    end
  end.

Lemma best_hostname_score_matches hostnames request_host score :
  best_hostname_score hostnames request_host = Some score ->
  hostnames_match hostnames request_host = true.
Proof.
  unfold best_hostname_score, hostnames_match. destruct hostnames as [|h hs]; [done|].
  destruct request_host as [host|]; simpl; [|done]. intros Hm.
  apply iter_max_by_Some in Hm as [Hin _].
  apply (list_elem_of_omap (fun p => hostname_match_score p host) (h :: hs)) in Hin
    as (p & Hp & Hs).
  apply hostname_match_score_matches in Hs.
  apply (proj2 (existsb_exists (fun p => hostname_matches p (normalize_host_ref host)) (h :: hs))).
  exists p. split; [by apply list_elem_of_In|done].
Qed.

Lemma listener_hostname_score_best listener request_host :
  listener_hostname_score listener request_host
  = best_hostname_score (l_hostnames listener) request_host.
Proof. unfold listener_hostname_score. by destruct (l_hostnames listener). Qed.

Section rule_facts.
Context `{RegexEngine}.

(** The score of a rule is the score of its most specific match.  A rule without
    matches accepts everything with the lowest score; otherwise the rule matches
    if and only if one of its matches does, and reports the path of a match whose
    score no other match of the request exceeds. *)
Theorem best_http_rule_match_spec rule request :
  match best_http_rule_match rule request with
  | Some (path, score) =>
    hru_matches rule = [] /\ path = default_http_path_match /\ score = HttpRuleScore_default
    \/ exists m, m ∈ hru_matches rule /\ matches_http_rule m request = true
       /\ http_match_score m = (path, score)
       /\ forall m', m' ∈ hru_matches rule -> matches_http_rule m' request = true ->
          cmp_le (http_match_score m').2 score = true
  | None => hru_matches rule <> []
      /\ forall m, m ∈ hru_matches rule -> matches_http_rule m request = false
  end.
Proof.
  unfold best_http_rule_match. destruct (hru_matches rule) as [|m0 ms] eqn:E; [by left|].
  rewrite <- E. destruct (iter_max_by _ _) as [[path score]|] eqn:Hm.
  2: { split; [by rewrite E|]. apply iter_max_by_None, fmap_nil_inv in Hm. intros m Hin.
    destruct (matches_http_rule m request) eqn:Em; [|done]. exfalso.
    apply (in_nil (a := m)). rewrite <- Hm. apply filter_In. split; [by apply list_elem_of_In|done]. }
  - right. apply iter_max_by_Some in Hm as (Hin & Hmax).
    apply list_elem_of_fmap in Hin as (m & Heq & [Hm Hmatch]%list_elem_of_In%filter_In).
    exists m. split_and!; [by apply list_elem_of_In|done|done|].
    intros m' Hm' Hmatch'. apply (Hmax (http_match_score m')).
    apply list_elem_of_fmap. exists m'. split; [done|].
    apply list_elem_of_In, filter_In. split; [by apply list_elem_of_In|done].
Qed.

End rule_facts.

End Scoring.
