(* ===== verification/HostIndex.v ===== *)
(** * The hostname index

    [HostnameRouteIndex] of [ntgw-ir/src/types.rs] with its builder in
    [snapshot/helpers.rs].  The index enumerates, in route order, the routes
    whose hostnames can match a request host; [hostname_index_scan]
    shows that the enumeration is the linear scan of the routes restricted to
    those whose hostnames match. *)

From Stdlib Require Import ZArith Lia Ascii.
From stdpp Require Import base gmap strings list sorting.
From S2P Require Import Prelude Strs IrTypes Matching Scoring.

Local Open Scope string_scope.
Local Open Scope list_scope.

Module HostIndex.
Import Matching Scoring.

Record HostnameRouteIndex := mkHostnameRouteIndex {
  catch_all : list nat;
  exact : StringMap (list nat);
  wildcard_suffix : StringMap (list nat);
}.

Definition HostnameRouteIndex_default : HostnameRouteIndex := mkHostnameRouteIndex [] ∅ ∅.

(** ** Enumeration *)

Definition wildcard_hostname_suffixes (host : string) : list string :=
  Str.suffixes_after "."%char host.

Definition first_index_after (indices : list nat) (last : option nat) : option nat :=
  let start :=
    match last with
    | None => 0
    | Some last => partition_point (fun index => (index <=? last)%nat) indices
    end in
  indices !! start.

Definition min_candidate_index (current candidate : option nat) : option nat :=
  match current, candidate with
  | Some current, Some candidate => Some (Nat.min current candidate)
  | Some current, None => Some current
  | None, Some candidate => Some candidate
  | None, None => None
  end.

(** The host as the index's keys spell it. *)
Definition index_host (host : string) : string :=
  if Str.any_byte Str.is_upper host then Str.to_ascii_lowercase host else host.

(** [if let Some(indices) = buckets.get(key) { next = min(next, first_after(indices)) }] *)
Definition bucket_step (buckets : StringMap (list nat)) (last : option nat)
    (next : option nat) (key : string) : option nat :=
  match buckets !! key with
  | Some indices => min_candidate_index next (first_index_after indices last)
  | None => next
  end.

Definition next_candidate_index_after_normalized (self : HostnameRouteIndex)
    (request_host : option string) (last : option nat) : option nat :=
  let next := first_index_after (catch_all self) last in
  match request_host with
  | None => next
  | Some host =>
    let host_ref := index_host host in
    let next := bucket_step (exact self) last next host_ref in
    foldl (bucket_step (wildcard_suffix self) last) next (wildcard_hostname_suffixes host_ref)
  end.

Definition next_candidate_index_after (self : HostnameRouteIndex)
    (request_host : option string) (last : option nat) : option nat :=
  next_candidate_index_after_normalized self (normalize_host_ref <$> request_host) last.

(** Every index a normalised host can reach: its length bounds the rounds of
    the candidate loop, since the indices the loop visits increase. *)
Definition candidate_pool (self : HostnameRouteIndex) (request_host : option string) : list nat :=
  catch_all self ++
  match request_host with
  | None => []
  | Some host =>
    let host_ref := index_host host in
    default [] (exact self !! host_ref) ++
    (wildcard_hostname_suffixes host_ref ≫= fun suffix =>
       default [] (wildcard_suffix self !! suffix))
  end.

Fixpoint visit_candidate_loop {St} (self : HostnameRouteIndex) (request_host : option string)
    (visit : nat -> St -> St * bool) (fuel : nat) (last : option nat) (s : St) : St * bool :=
  match fuel with
  | 0 => (s, true)
  | S fuel =>
    match next_candidate_index_after_normalized self request_host last with
    | None => (s, true)
    | Some index =>
      let '(s, continue) := visit index s in
      if continue then visit_candidate_loop self request_host visit fuel (Some index) s
      else (s, false)
    end
  end.

Definition visit_candidate_indices {St} (self : HostnameRouteIndex)
    (request_host : option string) (visit : nat -> St -> St * bool) (s : St) : St * bool :=
  let request_host := normalize_host_ref <$> request_host in
  visit_candidate_loop self request_host visit
    (S (length (candidate_pool self request_host))) None s.

Definition candidate_indices (self : HostnameRouteIndex) (request_host : option string) :
    list nat :=
  (visit_candidate_indices self request_host (fun index l => (l ++ [index], true)) []).1.

(** ** Construction *)

Definition push_index (buckets : StringMap (list nat)) (key : string) (index : nat) :
    StringMap (list nat) :=
  <[key := default [] (buckets !! key) ++ [index]]> buckets.

Definition index_hostname (route_index : nat) (index : HostnameRouteIndex)
    (hostname : string) : HostnameRouteIndex :=
  let normalized := Str.to_ascii_lowercase (normalize_host_ref hostname) in
  match Str.strip_prefix "*." normalized with
  | Some suffix =>
    mkHostnameRouteIndex (catch_all index) (exact index)
      (push_index (wildcard_suffix index) suffix route_index)
  | None =>
    mkHostnameRouteIndex (catch_all index)
      (push_index (exact index) normalized route_index) (wildcard_suffix index)
  end.

Definition index_route (index : HostnameRouteIndex) (route_index : nat)
    (hostnames : list string) : HostnameRouteIndex :=
  match hostnames with
  | [] =>
    mkHostnameRouteIndex (catch_all index ++ [route_index]) (exact index) (wildcard_suffix index)
  | _ => foldl (index_hostname route_index) index hostnames
  end.

Fixpoint build_hostname_route_index_from (route_index : nat)
    (route_hostnames : list (list string)) (index : HostnameRouteIndex) : HostnameRouteIndex :=
  match route_hostnames with
  | [] => index
  | hostnames :: rest =>
    build_hostname_route_index_from (S route_index) rest (index_route index route_index hostnames)
  end.

Definition build_hostname_route_index (route_hostnames : list (list string)) :
    HostnameRouteIndex :=
  build_hostname_route_index_from 0 route_hostnames HostnameRouteIndex_default.

Definition build_http_route_hostname_index (routes : list HttpRoute) : HostnameRouteIndex :=
  build_hostname_route_index (hr_hostnames <$> routes).

Definition build_grpc_route_hostname_index (routes : list GrpcRoute) : HostnameRouteIndex :=
  build_hostname_route_index (gr_hostnames <$> routes).

(** ** The next candidate *)

Definition above (last : option nat) (i : nat) : Prop :=
  match last with None => True | Some l => l < i end.

(** [r] is the least member of [P] above [last]. *)
Definition next_above (P : nat -> Prop) (last r : option nat) : Prop :=
  match r with
  | Some i => P i /\ above last i /\ forall j, P j -> above last j -> i <= j
  | None => forall j, P j -> ~ above last j
  end.

#[global] Instance next_above_proper :
  Proper (pointwise_relation nat iff ==> eq ==> eq ==> iff) next_above.
Proof.
  intros P Q HPQ last ? <- r ? <-. unfold next_above.
  destruct r; by setoid_rewrite (HPQ _).
Qed.

Lemma first_index_after_spec l last :
  Sorted le l -> next_above (fun i => i ∈ l) last (first_index_after l last).
Proof.
  intros Hs. unfold first_index_after.
  set (start := match last with None => 0 | _ => _ end).
  assert (Hst : forall k x, l !! k = Some x -> above last x <-> start <= k).
  { intros k x Hk. subst start. destruct last as [m|]; simpl; [|split; [lia|done]].
    destruct (partition_point_spec (fun i => (i <=? m)%nat) l) as [_ Hp].
    - intros i j y z Hij Hi Hj Hz. pose proof (Sorted_le_lookup _ _ _ _ _ Hs Hij Hi Hj).
      apply Nat.leb_le in Hz. apply Nat.leb_le. lia.
    - specialize (Hp _ _ Hk). case_bool_decide; [apply Nat.leb_le in Hp|apply Nat.leb_gt in Hp]; lia. }
  destruct (l !! start) as [x|] eqn:E; simpl.
  - split_and!; [by eapply list_elem_of_lookup_2|by apply (Hst start)|].
    intros j [k Hk]%list_elem_of_lookup Ha. apply (Hst _ _ Hk) in Ha.
    by eapply Sorted_le_lookup.
  - intros j [k Hk]%list_elem_of_lookup Ha. apply (Hst _ _ Hk) in Ha.
    apply lookup_ge_None in E. apply lookup_lt_Some in Hk. lia.
Qed.

Lemma min_candidate_index_spec P Q last a b :
  next_above P last a -> next_above Q last b ->
  next_above (fun i => P i \/ Q i) last (min_candidate_index a b).
Proof.
  destruct a as [a|], b as [b|]; simpl.
  - intros (Ha & Hla & Hma) (Hb & Hlb & Hmb).
    destruct (Nat.min_spec a b) as [[? ->]|[? ->]];
      (split_and!; [eauto|done|intros j [Hj|Hj] Hl; [specialize (Hma j Hj Hl)|specialize (Hmb j Hj Hl)]; lia]).
  - intros (Ha & Hla & Hma) Hb. split_and!; [eauto|done|].
    intros j [Hj|Hj] Hl; [auto|by destruct (Hb j Hj)].
  - intros Ha (Hb & Hlb & Hmb). split_and!; [eauto|done|].
    intros j [Hj|Hj] Hl; [by destruct (Ha j Hj)|auto].
  - intros Ha Hb j [Hj|Hj]; auto.
Qed.

Definition buckets_sorted (buckets : StringMap (list nat)) : Prop :=
  forall key, Sorted le (default [] (buckets !! key)).

Lemma bucket_step_spec P buckets last next key :
  buckets_sorted buckets -> next_above P last next ->
  next_above (fun i => P i \/ i ∈ default [] (buckets !! key)) last
    (bucket_step buckets last next key).
Proof.
  intros Hb Hn. unfold bucket_step. specialize (Hb key). destruct (buckets !! key) as [l|]; simpl in *.
  - by apply min_candidate_index_spec, first_index_after_spec.
  - eapply next_above_proper; [|done|done|exact Hn]. intros i. rewrite elem_of_nil. tauto.
Qed.

Lemma bucket_fold_spec P buckets last next keys :
  buckets_sorted buckets -> next_above P last next ->
  next_above (fun i => P i \/ i ∈ (keys ≫= fun key => default [] (buckets !! key))) last
    (foldl (bucket_step buckets last) next keys).
Proof.
  intros Hb. revert P next. induction keys as [|key keys IH]; intros P next Hn; csimpl.
  - eapply next_above_proper; [|done|done|exact Hn]. intros i. rewrite elem_of_nil. tauto.
  - eapply next_above_proper; [|done|done|apply IH; by apply bucket_step_spec].
    intros i. rewrite elem_of_app. tauto.
Qed.

(** An index whose buckets list their routes in increasing order. *)
Definition index_sorted (self : HostnameRouteIndex) : Prop :=
  Sorted le (catch_all self) /\ buckets_sorted (exact self)
  /\ buckets_sorted (wildcard_suffix self).

Lemma next_candidate_spec self host last :
  index_sorted self ->
  next_above (fun i => i ∈ candidate_pool self host) last
    (next_candidate_index_after_normalized self host last).
Proof.
  intros (Hc & He & Hw). unfold next_candidate_index_after_normalized, candidate_pool.
  destruct host as [host|].
  - eapply next_above_proper;
      [|done|done|apply bucket_fold_spec, bucket_step_spec, first_index_after_spec; done].
    intros i. rewrite !elem_of_app. tauto.
  - rewrite app_nil_r. by apply first_index_after_spec.
Qed.

(** ** The candidate loop *)

Lemma visit_candidate_loop_spec {St} self host (visit : nat -> St -> St * bool) todo :
  index_sorted self ->
  forall fuel last s,
  length todo < fuel ->
  StronglySorted lt todo ->
  (forall i, i ∈ todo <-> i ∈ candidate_pool self host /\ above last i) ->
  visit_candidate_loop self host visit fuel last s = visit_list visit todo s.
Proof.
  intros Hsorted. induction todo as [|x todo IH]; intros fuel last s Hf Ht Hin;
    (destruct fuel as [|fuel]; [simpl in Hf; lia|]); simpl in *;
    pose proof (next_candidate_spec self host last Hsorted) as Hn;
    destruct (next_candidate_index_after_normalized self host last) as [y|]; simpl in Hn.
  - destruct Hn as (Hy & Hl & _). by destruct (not_elem_of_nil y); apply Hin.
  - done.
  - destruct Hn as (Hy & Hl & Hm). apply StronglySorted_inv in Ht as [Ht Hx].
    assert (y = x) as ->.
    { apply Nat.le_antisymm.
      - apply Hm; apply (Hin x); by left.
      - destruct (proj1 (elem_of_cons todo y x)) as [->|Hy']; [by apply Hin|lia|].
        rewrite list.Forall_forall in Hx. specialize (Hx _ Hy'). lia. }
    destruct (visit x s) as [s' []]; [|done]. apply IH; [lia|done|].
    intros i. rewrite list.Forall_forall in Hx. split.
    + intros Hi. split; [apply (Hin i); by right|by apply Hx].
    + intros [Hi Ha]. assert (above last i) as Hai.
      { simpl in Ha. destruct last; simpl in *; lia. }
      destruct (proj1 (elem_of_cons todo i x) (proj2 (Hin i) (conj Hi Hai))) as [->|]; [|done].
      simpl in Ha. lia.
  - destruct (proj1 (Hin x) (list_elem_of_here _ _)) as [Hx Ha]. by destruct (Hn _ Hx).
Qed.

Lemma StronglySorted_lt_NoDup l : StronglySorted lt l -> NoDup l.
Proof.
  induction 1 as [|x l _ IH Hx]; constructor; [|done].
  intros Hin. rewrite list.Forall_forall in Hx. specialize (Hx _ Hin). lia.
Qed.

Lemma visit_candidate_indices_list {St} self host (visit : nat -> St -> St * bool) l s :
  index_sorted self -> StronglySorted lt l ->
  (forall i, i ∈ l <-> i ∈ candidate_pool self (normalize_host_ref <$> host)) ->
  visit_candidate_indices self host visit s = visit_list visit l s.
Proof.
  intros Hs Hl Hin. unfold visit_candidate_indices.
  apply visit_candidate_loop_spec; [done| |done|by intros i; rewrite Hin; simpl; tauto].
  apply Nat.lt_succ_r, submseteq_length, NoDup_submseteq; [by apply StronglySorted_lt_NoDup|].
  intros i. apply Hin.
Qed.

(** ** The built index *)

(** The bucket a hostname is posted to. *)
Inductive bucket_key := KAll | KExact (host : string) | KWildcard (suffix : string).
#[global] Instance bucket_key_eq_dec : EqDecision bucket_key.
Proof. solve_decision. Defined.

Definition hostname_key (hostname : string) : bucket_key :=
  let normalized := Str.to_ascii_lowercase (normalize_host_ref hostname) in
  match Str.strip_prefix "*." normalized with
  | Some suffix => KWildcard suffix
  | None => KExact normalized
  end.

Definition route_keys (hostnames : list string) : list bucket_key :=
  match hostnames with [] => [KAll] | _ => hostname_key <$> hostnames end.

Fixpoint postings (n : nat) (rs : list (list string)) : list (nat * bucket_key) :=
  match rs with
  | [] => []
  | hostnames :: rs => (pair n <$> route_keys hostnames) ++ postings (S n) rs
  end.

Definition bucket (key : bucket_key) (ps : list (nat * bucket_key)) : list nat :=
  omap (fun p => if bool_decide (p.2 = key) then Some p.1 else None) ps.

Definition index_lookup (self : HostnameRouteIndex) (key : bucket_key) : list nat :=
  match key with
  | KAll => catch_all self
  | KExact host => default [] (exact self !! host)
  | KWildcard suffix => default [] (wildcard_suffix self !! suffix)
  end.

Definition index_holds (self : HostnameRouteIndex) (ps : list (nat * bucket_key)) : Prop :=
  forall key, index_lookup self key = bucket key ps.

Lemma bucket_app key ps qs : bucket key (ps ++ qs) = bucket key ps ++ bucket key qs.
Proof. apply omap_app. Qed.

Lemma lookup_push_index buckets key key' i :
  default [] (push_index buckets key i !! key')
  = default [] (buckets !! key') ++ (if bool_decide (key = key') then [i] else []).
Proof.
  unfold push_index. case_bool_decide; [subst; by rewrite lookup_insert_eq|].
  by rewrite lookup_insert_ne, app_nil_r.
Qed.

Lemma index_hostname_holds self ps i hostname :
  index_holds self ps ->
  index_holds (index_hostname i self hostname) (ps ++ [(i, hostname_key hostname)]).
Proof.
  intros Hh key. rewrite bucket_app, <- (Hh key). unfold index_hostname, hostname_key, bucket.
  set (name := Str.to_ascii_lowercase _).
  destruct (Str.strip_prefix "*." name) as [suffix|], key as [|k|k]; simpl;
    rewrite ?lookup_push_index; repeat case_bool_decide; simplify_eq/=;
    rewrite ?app_nil_r; done.
Qed.

Lemma index_hostnames_hold self ps i hostnames :
  index_holds self ps ->
  index_holds (foldl (index_hostname i) self hostnames)
    (ps ++ (pair i <$> (hostname_key <$> hostnames))).
Proof.
  revert self ps; induction hostnames as [|h hs IH]; intros self ps Hh; csimpl.
  - by rewrite app_nil_r.
  - rewrite cons_middle, app_assoc. apply IH. by apply index_hostname_holds.
Qed.

Lemma build_from_holds self ps n rs :
  index_holds self ps ->
  index_holds (build_hostname_route_index_from n rs self) (ps ++ postings n rs).
Proof.
  revert self ps n; induction rs as [|hostnames rs IH]; intros self ps n Hh; simpl.
  - by rewrite app_nil_r.
  - rewrite app_assoc. apply IH. destruct hostnames as [|h hs].
    + intros [|k|k]; rewrite bucket_app; [rewrite <- (Hh KAll)|rewrite <- (Hh (KExact k))
        |rewrite <- (Hh (KWildcard k))]; simpl; rewrite ?app_nil_r; done.
    + by apply (index_hostnames_hold self ps n (h :: hs)).
Qed.

Lemma build_holds rs : index_holds (build_hostname_route_index rs) (postings 0 rs).
Proof. apply (build_from_holds _ []). intros [|k|k]; simpl; rewrite ?lookup_empty; done. Qed.

Lemma elem_of_postings n rs i key :
  (i, key) ∈ postings n rs <->
  exists hostnames, n <= i /\ rs !! (i - n) = Some hostnames /\ key ∈ route_keys hostnames.
Proof.
  revert n; induction rs as [|hs rs IH]; intros n; simpl.
  - split; [intros H; inversion H|]. intros (? & _ & H & _). by rewrite lookup_nil in H.
  - rewrite elem_of_app, IH, list_elem_of_fmap. split.
    + intros [(k & [= -> <-] & Hk)|(hs' & Hi & Hl & Hk)].
      * exists hs. by rewrite Nat.sub_diag.
      * exists hs'. split_and!; [lia| |done]. by replace (i - n) with (S (i - S n)) by lia.
    + intros (hs' & Hi & Hl & Hk). destruct (decide (i = n)) as [->|Hne].
      * rewrite Nat.sub_diag in Hl. simplify_eq/=. left. eauto.
      * right. exists hs'. split_and!; [lia| |done].
        by replace (i - n) with (S (i - S n)) in Hl by lia.
Qed.

Lemma elem_of_bucket key ps i : i ∈ bucket key ps <-> (i, key) ∈ ps.
Proof.
  unfold bucket. rewrite list_elem_of_omap. split.
  - intros ([j k] & Hp & H). simpl in H. case_bool_decide; by simplify_eq/=.
  - intros Hp. exists (i, key). simpl. by rewrite bool_decide_eq_true_2.
Qed.

Lemma postings_sorted n rs : StronglySorted le (fst <$> postings n rs).
Proof.
  revert n; induction rs as [|hs rs IH]; intros n; simpl; [constructor|].
  rewrite fmap_app, StronglySorted_app. split_and!; [| |apply IH].
  - intros i j ([? ?] & -> & (? & [= -> ->] & _)%list_elem_of_fmap)%list_elem_of_fmap
      ([j' ?] & -> & (? & ? & _)%elem_of_postings)%list_elem_of_fmap. simpl. lia.
  - rewrite <- list_fmap_compose. induction (route_keys hs) as [|k ks IHk]; simpl; constructor; [done|].
    apply list.Forall_forall. intros x (? & -> & _)%list_elem_of_fmap. done.
Qed.

Lemma bucket_sorted key ps : StronglySorted le (fst <$> ps) -> Sorted le (bucket key ps).
Proof.
  intros Hs. apply StronglySorted_Sorted. induction ps as [|[i k] ps IH]; simpl; [constructor|].
  apply StronglySorted_inv in Hs as [Hs Hi]. specialize (IH Hs). case_bool_decide; [|exact IH].
  constructor; [exact IH|]. apply list.Forall_forall. intros j Hj%elem_of_bucket.
  rewrite list.Forall_forall in Hi. apply Hi, list_elem_of_fmap. by exists (j, key).
Qed.

Lemma build_sorted rs : index_sorted (build_hostname_route_index rs).
Proof.
  assert (Hall : forall key, Sorted le (index_lookup (build_hostname_route_index rs) key)).
  { intros key. rewrite build_holds. apply bucket_sorted, postings_sorted. }
  split_and!; [apply (Hall KAll)|intros k; apply (Hall (KExact k))|intros k; apply (Hall (KWildcard k))].
Qed.

(** ** Candidates are the routes whose hostnames match *)

Lemma index_host_lowercase host : index_host host = Str.to_ascii_lowercase host.
Proof.
  unfold index_host. destruct (Str.any_byte _ _) eqn:E; [done|]. by rewrite Str.lowercase_fixed.
Qed.

Lemma strip_wildcard_lowercase s :
  Str.strip_prefix "*." (Str.to_ascii_lowercase s)
  = Str.to_ascii_lowercase <$> Str.strip_prefix "*." s.
Proof.
  assert (Hc : forall c a, Str.is_lower c = false -> Str.is_upper c = false ->
    bool_decide (c = Str.lower_char a) = bool_decide (c = a)).
  { intros c a Hl Hu. apply bool_decide_ext.
    pose proof (Str.lower_char_eq_nonletter a c Hl Hu). split; intros; symmetry; naive_solver. }
  destruct s as [|a [|b s]]; simpl; rewrite ?Hc by done; by repeat case_bool_decide.
Qed.

(** A hostname's bucket is one the host is looked up in exactly when the
    hostname matches the host. *)
Lemma hostname_key_matches hostname host :
  hostname_matches hostname host = true <->
  hostname_key hostname = KExact (Str.to_ascii_lowercase host)
  \/ exists suffix, suffix ∈ Str.suffixes_after "."%char (Str.to_ascii_lowercase host)
      /\ hostname_key hostname = KWildcard suffix.
Proof.
  rewrite hostname_matches_iff. unfold hostname_key. rewrite strip_wildcard_lowercase.
  rewrite Str.suffixes_after_lowercase by done.
  destruct (Str.strip_prefix "*." (normalize_host_ref hostname)) as [suffix|]; simpl.
  - split.
    + intros (t & Ht & E). right. exists (Str.to_ascii_lowercase t).
      split; [by apply list_elem_of_fmap_2|by rewrite E].
    + intros [?|(t & (t' & -> & Ht)%list_elem_of_fmap & [= E])]; [done|]. eauto.
  - split; [intros ->; by left|]. intros [[= E]|(? & ? & ?)]; done.
Qed.

Lemma route_keys_match hostnames host :
  (exists key, key ∈ route_keys hostnames /\
    (key = KAll \/ match host with
                   | None => False
                   | Some host =>
                     key = KExact (index_host host)
                     \/ exists suffix, suffix ∈ wildcard_hostname_suffixes (index_host host)
                         /\ key = KWildcard suffix
                   end))
  <-> match hostnames, host with
      | [], _ => True
      | _, None => False
      | _, Some host => existsb (fun p => hostname_matches p host) hostnames = true
      end.
Proof.
  destruct hostnames as [|h hs]; simpl route_keys.
  - split; [done|]. intros _. exists KAll. rewrite list_elem_of_singleton. eauto.
  - assert (forall p, hostname_key p <> KAll) as Hne
      by (intros p; unfold hostname_key; by case_match).
    destruct host as [host|].
    + rewrite existsb_exists. rewrite index_host_lowercase. unfold wildcard_hostname_suffixes.
      setoid_rewrite hostname_key_matches. split.
      * intros (k & (p & -> & Hp)%(list_elem_of_fmap hostname_key (h :: hs)) & [?|Hk]);
          [by destruct (Hne p)|]. exists p. split; [by apply list_elem_of_In|done].
      * intros (p & Hp%list_elem_of_In & Hk). exists (hostname_key p).
        split; [by apply (list_elem_of_fmap_2 hostname_key (h :: hs))|by right].
    + split; [|done]. intros (k & (p & -> & Hp)%(list_elem_of_fmap hostname_key (h :: hs)) & [?|?]);
        [by destruct (Hne p)|done].
Qed.

Lemma elem_of_candidate_pool rs host i :
  i ∈ candidate_pool (build_hostname_route_index rs) (normalize_host_ref <$> host) <->
  exists hostnames, rs !! i = Some hostnames /\ hostnames_match hostnames host = true.
Proof.
  assert (Hk : forall hostnames, hostnames_match hostnames host = true <->
    match hostnames, normalize_host_ref <$> host with
    | [], _ => True
    | _, None => False
    | _, Some host => existsb (fun p => hostname_matches p host) hostnames = true
    end) by (intros [|h hs]; destruct host; done).
  setoid_rewrite Hk. setoid_rewrite <- route_keys_match.
  assert (Hb : forall key hostnames, rs !! i = Some hostnames ->
    i ∈ index_lookup (build_hostname_route_index rs) key <-> key ∈ route_keys hostnames).
  { intros key hostnames Hi. rewrite build_holds, elem_of_bucket, elem_of_postings.
    rewrite Nat.sub_0_r. split; [intros (? & _ & ? & ?); by simplify_eq|].
    intros. exists hostnames. auto with lia. }
  assert (Hn : forall key, i ∈ index_lookup (build_hostname_route_index rs) key ->
    exists hostnames, rs !! i = Some hostnames).
  { intros key. rewrite build_holds, elem_of_bucket, elem_of_postings, Nat.sub_0_r. naive_solver. }
  assert (Hp : i ∈ candidate_pool (build_hostname_route_index rs) (normalize_host_ref <$> host) <->
    exists key, i ∈ index_lookup (build_hostname_route_index rs) key /\
    (key = KAll \/ match normalize_host_ref <$> host with
      | None => False
      | Some host => key = KExact (index_host host)
         \/ exists suffix, suffix ∈ wildcard_hostname_suffixes (index_host host)
             /\ key = KWildcard suffix
      end)).
  { unfold candidate_pool. destruct (normalize_host_ref <$> host) as [h|].
    - rewrite !elem_of_app, list_elem_of_bind. split.
      + intros [?|[?|(sfx & ? & ?)]]; [exists KAll|exists (KExact (index_host h))|exists (KWildcard sfx)];
          naive_solver.
      + intros (k & Hi & [->|[->|(sfx & ? & ->)]]); simpl in Hi; naive_solver.
    - rewrite app_nil_r. split; [exists KAll; auto|]. by intros (k & Hi & [->|[]]). }
  rewrite Hp. split.
  - intros (key & Hi & Hc). destruct (Hn _ Hi) as [hs Hhs]. exists hs. split; [done|].
    exists key. by rewrite <- (Hb key hs Hhs).
  - intros (hs & Hhs & key & Hc & Hr). exists key. by rewrite (Hb key hs Hhs).
Qed.

Definition route_host_matches (rs : list (list string)) (host : option string) (i : nat) : bool :=
  match rs !! i with
  | Some hostnames => hostnames_match hostnames host
  | None => false
  end.

Lemma visit_built_index {St} rs host (visit : nat -> St -> St * bool) s :
  visit_candidate_indices (build_hostname_route_index rs) host visit s
  = visit_list visit (List.filter (route_host_matches rs host) (seq 0 (length rs))) s.
Proof.
  apply visit_candidate_indices_list; [apply build_sorted| |].
  - assert (Hs : StronglySorted lt (seq 0 (length rs))).
    { generalize 0. induction (length rs); intros k; simpl; constructor; [done|].
      apply list.Forall_forall. intros j Hj%elem_of_seq. lia. }
    induction Hs as [|x l Hs IH Hx]; simpl; [constructor|].
    destruct (route_host_matches rs host x); [|done]. constructor; [done|].
    apply list.Forall_forall. intros y [Hy _]%list_elem_of_In%filter_In.
    rewrite list.Forall_forall in Hx. by apply Hx, list_elem_of_In.
  - intros i. rewrite elem_of_candidate_pool, list_elem_of_In, filter_In, <- list_elem_of_In, elem_of_seq.
    unfold route_host_matches. split.
    + intros [_ Hm]. destruct (rs !! i) as [hs|]; [eauto|done].
    + intros (hs & Hi & Hm). rewrite Hi. pose proof (lookup_lt_Some _ _ _ Hi). auto with lia.
Qed.

(** C33: the hostname index enumerates the routes a scan would.  Visiting the
    candidates of a host in the built index is visiting, in configuration order
    and once each, the routes whose hostnames accept the host, stopping where the
    visitor stops. *)
Theorem hostname_index_scan {St} rs host (visit : nat -> St -> St * bool) s :
  visit_candidate_indices (build_hostname_route_index rs) host visit s
  = visit_list visit (List.filter (route_host_matches rs host) (seq 0 (length rs))) s.
Proof. apply visit_built_index. Qed.

End HostIndex.
