(* ===== verification/EndpointRuntime.v ===== *)
(** * Endpoint runtime state

    The per-endpoint health state machine ([EndpointRuntimeState] in
    [ntgw-ir/src/lib.rs]) and the sharded store that tracks it
    ([ntgw-ir/src/endpoint_runtime.rs]).  A state method that reads
    [Instant::now()] takes the reading as an argument.  The hasher behind
    [shard_index] is the class [KeyHasher]: the standard library leaves the
    algorithm of [DefaultHasher] unspecified, and the theorems hold for any. *)

From Stdlib Require Import ZArith Lia.
From stdpp Require Import base gmap strings numbers list.
From S2P Require Import Prelude Strs IrTypes.

Module EndpointRuntime.
Local Open Scope Z_scope.

Definition PASSIVE_EJECTION_CONSECUTIVE_FAILURES : Z := 3.
Definition NANOS_PER_SEC : Z := 1000000000.
Definition NANOS_PER_MILLI : Z := 1000000.
Definition PASSIVE_EJECTION_COOLDOWN : Duration := 30 * NANOS_PER_SEC.

Record EndpointRuntimeKey := mkEndpointRuntimeKey {
  erk_backend_name : string;
  erk_address : string;
  erk_port : Z;
}.
#[global] Instance EndpointRuntimeKey_eq_dec : EqDecision EndpointRuntimeKey.
Proof. solve_decision. Defined.
#[global] Instance EndpointRuntimeKey_countable : Countable EndpointRuntimeKey.
Proof.
  refine (inj_countable' (fun k => (erk_backend_name k, erk_address k, erk_port k))
    (fun t => mkEndpointRuntimeKey t.1.1 t.1.2 t.2) _).
  by intros [].
Defined.

Definition EndpointRuntimeKey_new (backend_name : string) (endpoint : BackendEndpoint) :
    EndpointRuntimeKey :=
  mkEndpointRuntimeKey backend_name (be_address endpoint) (be_port endpoint).

(** ** One endpoint *)

Record EndpointRuntimeState := mkEndpointRuntimeState {
  ers_consecutive_failures : Z;
  ers_ejected_until : option Instant;
  ers_recovery_started_at : option Instant;
  ers_active_consecutive_failures : Z;
  ers_active_unhealthy : bool;
}.
#[global] Instance EndpointRuntimeState_eq_dec : EqDecision EndpointRuntimeState.
Proof. solve_decision. Defined.

Definition EndpointRuntimeState_default : EndpointRuntimeState :=
  mkEndpointRuntimeState 0 None None 0 false.

Definition is_default_state (self : EndpointRuntimeState) : bool :=
  bool_decide (ers_consecutive_failures self = 0)
  && bool_decide (ers_ejected_until self = None)
  && bool_decide (ers_recovery_started_at self = None)
  && bool_decide (ers_active_consecutive_failures self = 0)
  && negb (ers_active_unhealthy self).

Definition is_ejected_at (self : EndpointRuntimeState) (now : Instant) : bool :=
  match ers_ejected_until self with Some until => now <? until | None => false end.

Definition ejection_expired_at (self : EndpointRuntimeState) (now : Instant) : bool :=
  match ers_ejected_until self with Some until => until <=? now | None => false end.

(** [Option::get_or_insert] *)
Definition get_or_insert {A} (o : option A) (x : A) : option A :=
  match o with Some y => Some y | None => Some x end.

Definition record_failure (self : EndpointRuntimeState) (now : Instant) : EndpointRuntimeState :=
  let self := if ejection_expired_at self now then EndpointRuntimeState_default else self in
  let was_ejected := is_ejected_at self now in
  let failures := U.saturating_add32 (ers_consecutive_failures self) 1 in
  if PASSIVE_EJECTION_CONSECUTIVE_FAILURES <=? failures then
    {| ers_consecutive_failures := failures;
       ers_ejected_until := Some (now + PASSIVE_EJECTION_COOLDOWN);
       ers_recovery_started_at :=
         if was_ejected then ers_recovery_started_at self
         else get_or_insert (ers_recovery_started_at self) now;
       ers_active_consecutive_failures := ers_active_consecutive_failures self;
       ers_active_unhealthy := ers_active_unhealthy self |}
  else
    {| ers_consecutive_failures := failures;
       ers_ejected_until := ers_ejected_until self;
       ers_recovery_started_at := ers_recovery_started_at self;
       ers_active_consecutive_failures := ers_active_consecutive_failures self;
       ers_active_unhealthy := ers_active_unhealthy self |}.

Definition recovery_latency_ms (self : EndpointRuntimeState) (now : Instant) : option Z :=
  (fun started => Z.min (U.saturating_sub now started / NANOS_PER_MILLI) U.u64_max)
    <$> ers_recovery_started_at self.

Definition record_success (self : EndpointRuntimeState) (now : Instant) :
    EndpointRuntimeState * option Z :=
  (EndpointRuntimeState_default, recovery_latency_ms self now).

Definition record_active_probe_failure (self : EndpointRuntimeState) (unhealthy_threshold : Z)
    (now : Instant) : EndpointRuntimeState :=
  let threshold := Z.max unhealthy_threshold 1 in
  let was_unhealthy := ers_active_unhealthy self in
  let failures := U.saturating_add32 (ers_active_consecutive_failures self) 1 in
  if threshold <=? failures then
    {| ers_consecutive_failures := ers_consecutive_failures self;
       ers_ejected_until := ers_ejected_until self;
       ers_recovery_started_at :=
         if was_unhealthy then ers_recovery_started_at self
         else get_or_insert (ers_recovery_started_at self) now;
       ers_active_consecutive_failures := failures;
       ers_active_unhealthy := true |}
  else
    {| ers_consecutive_failures := ers_consecutive_failures self;
       ers_ejected_until := ers_ejected_until self;
       ers_recovery_started_at := ers_recovery_started_at self;
       ers_active_consecutive_failures := failures;
       ers_active_unhealthy := ers_active_unhealthy self |}.

Definition is_active_unhealthy (self : EndpointRuntimeState) : bool := ers_active_unhealthy self.

Definition record_active_probe_success (self : EndpointRuntimeState) (now : Instant) :
    EndpointRuntimeState * option Z :=
  (EndpointRuntimeState_default, recovery_latency_ms self now).

(** ** The recovery-latency histogram *)

Definition ENDPOINT_RECOVERY_LATENCY_MS_BUCKET_BOUNDS : list Z :=
  [50; 100; 250; 500; 1000; 2500; 5000; 10000; 30000; 60000].
Definition ENDPOINT_RECOVERY_LATENCY_MS_BUCKET_COUNT : nat :=
  S (length ENDPOINT_RECOVERY_LATENCY_MS_BUCKET_BOUNDS).

Record EndpointRecoveryLatencyStats := mkEndpointRecoveryLatencyStats {
  erls_buckets : list Z;
  erls_sum : Z;
  erls_count : Z;
}.

Definition EndpointRecoveryLatencyStats_default : EndpointRecoveryLatencyStats :=
  mkEndpointRecoveryLatencyStats (replicate ENDPOINT_RECOVERY_LATENCY_MS_BUCKET_COUNT 0) 0 0.

Fixpoint position {A} (p : A -> bool) (l : list A) : option nat :=
  match l with
  | [] => None
  | x :: l => if p x then Some 0%nat else S <$> position p l
  end.

Definition endpoint_recovery_latency_ms_bucket_index (latency_ms : Z) : nat :=
  default (length ENDPOINT_RECOVERY_LATENCY_MS_BUCKET_BOUNDS)
    (position (fun bound => latency_ms <=? bound) ENDPOINT_RECOVERY_LATENCY_MS_BUCKET_BOUNDS).

Definition observe (self : EndpointRecoveryLatencyStats) (latency_ms : Z) :
    EndpointRecoveryLatencyStats :=
  let index := endpoint_recovery_latency_ms_bucket_index latency_ms in
  {| erls_buckets := alter (fun c => U.saturating_add64 c 1) index (erls_buckets self);
     erls_sum := U.saturating_add64 (erls_sum self) latency_ms;
     erls_count := U.saturating_add64 (erls_count self) 1 |}.

Record EndpointRuntimeHistogramBucket := mkEndpointRuntimeHistogramBucket {
  hb_le : string;
  hb_cumulative_count : Z;
}.

(** The loop over the bounds, then the overflow bucket. *)
Fixpoint bucket_snapshot_loop (bounds counts : list Z) (cumulative_count : Z) :
    list EndpointRuntimeHistogramBucket * Z :=
  match bounds, counts with
  | bound :: bounds, count :: counts =>
    let cumulative_count := U.saturating_add64 cumulative_count count in
    let '(rest, total) := bucket_snapshot_loop bounds counts cumulative_count in
    (mkEndpointRuntimeHistogramBucket (Str.to_string bound) cumulative_count :: rest, total)
  | _, _ => ([], cumulative_count)
  end.

Definition bucket_snapshot (self : EndpointRecoveryLatencyStats) :
    list EndpointRuntimeHistogramBucket :=
  let '(buckets, cumulative_count) :=
    bucket_snapshot_loop ENDPOINT_RECOVERY_LATENCY_MS_BUCKET_BOUNDS (erls_buckets self) 0 in
  let last :=
    default 0 (erls_buckets self !! (ENDPOINT_RECOVERY_LATENCY_MS_BUCKET_COUNT - 1)%nat) in
  buckets ++
    [mkEndpointRuntimeHistogramBucket "+Inf" (U.saturating_add64 cumulative_count last)].

(** ** The sharded store *)

Definition ENDPOINT_RUNTIME_SHARD_COUNT : nat := 32.

Class KeyHasher := key_hash : EndpointRuntimeKey -> Z.

Notation StateMap := (gmap EndpointRuntimeKey EndpointRuntimeState).

Record EndpointRuntimeStore := mkEndpointRuntimeStore {
  st_shards : list StateMap;
  st_recovery_latency : EndpointRecoveryLatencyStats;
  st_tracked_states : Z;
}.

Definition EndpointRuntimeStore_default : EndpointRuntimeStore :=
  mkEndpointRuntimeStore (replicate ENDPOINT_RUNTIME_SHARD_COUNT ∅)
    EndpointRecoveryLatencyStats_default 0.

Record EndpointRuntimeSnapshot := mkEndpointRuntimeSnapshot {
  ersn_tracked_endpoints : nat;
  ersn_passive_ejected_current : nat;
  ersn_active_unhealthy_current : nat;
  ersn_recovery_latency_ms_buckets : list EndpointRuntimeHistogramBucket;
  ersn_recovery_latency_ms_sum : Z;
  ersn_recovery_latency_ms_count : Z;
}.

Section with_hasher.
Context `{KeyHasher}.

Definition shard_index (key : EndpointRuntimeKey) : nat :=
  Z.to_nat (key_hash key mod Z.of_nat ENDPOINT_RUNTIME_SHARD_COUNT).

Definition shard (self : EndpointRuntimeStore) (key : EndpointRuntimeKey) : StateMap :=
  default ∅ (st_shards self !! shard_index key).

Definition get_cloned (self : EndpointRuntimeStore) (key : EndpointRuntimeKey) :
    option EndpointRuntimeState :=
  shard self key !! key.

Definition has_tracked_states (self : EndpointRuntimeStore) : bool :=
  negb (bool_decide (st_tracked_states self = 0)).

Definition observe_latency (stats : EndpointRecoveryLatencyStats) (latency : option Z) :
    EndpointRecoveryLatencyStats :=
  match latency with Some latency_ms => observe stats latency_ms | None => stats end.

Definition update (self : EndpointRuntimeStore) (key : EndpointRuntimeKey)
    (update : EndpointRuntimeState -> EndpointRuntimeState * option Z) : EndpointRuntimeStore :=
  let states := shard self key in
  let existed := bool_decide (is_Some (states !! key)) in
  let '(state, recovered_latency_ms) :=
    update (default EndpointRuntimeState_default (states !! key)) in
  let remove := is_default_state state in
  {| st_shards :=
       <[shard_index key := if remove then delete key states else <[key := state]> states]>
         (st_shards self);
     st_recovery_latency := observe_latency (st_recovery_latency self) recovered_latency_ms;
     st_tracked_states :=
       if remove then
         (if existed then U.wrapping_sub64 (st_tracked_states self) 1 else st_tracked_states self)
       else
         (if existed then st_tracked_states self
          else U.wrapping_add64 (st_tracked_states self) 1) |}.

Definition inner_record_success (self : EndpointRuntimeStore) (key : EndpointRuntimeKey)
    (now : Instant) : EndpointRuntimeStore :=
  if bool_decide (st_tracked_states self = 0) then self
  else
    let states := shard self key in
    match states !! key with
    | None => self
    | Some state =>
      let '(state, recovered_latency_ms) := record_success state now in
      let remove := is_default_state state in
      {| st_shards :=
           <[shard_index key := if remove then delete key states else <[key := state]> states]>
             (st_shards self);
         st_recovery_latency := observe_latency (st_recovery_latency self) recovered_latency_ms;
         st_tracked_states :=
           if remove then U.wrapping_sub64 (st_tracked_states self) 1
           else st_tracked_states self |}
    end.

Definition store_record_failure_at (self : EndpointRuntimeStore) (backend_name : string)
    (endpoint : BackendEndpoint) (now : Instant) : EndpointRuntimeStore :=
  update self (EndpointRuntimeKey_new backend_name endpoint)
    (fun state => (record_failure state now, None)).

Definition store_record_success (self : EndpointRuntimeStore) (backend_name : string)
    (endpoint : BackendEndpoint) (now : Instant) : EndpointRuntimeStore :=
  inner_record_success self (EndpointRuntimeKey_new backend_name endpoint) now.

Definition store_record_active_probe_failure (self : EndpointRuntimeStore)
    (backend_name : string) (endpoint : BackendEndpoint) (unhealthy_threshold : Z)
    (now : Instant) : EndpointRuntimeStore :=
  update self (EndpointRuntimeKey_new backend_name endpoint)
    (fun state => (record_active_probe_failure state unhealthy_threshold now, None)).

Definition store_record_active_probe_success (self : EndpointRuntimeStore)
    (backend_name : string) (endpoint : BackendEndpoint) (now : Instant) :
    EndpointRuntimeStore :=
  update self (EndpointRuntimeKey_new backend_name endpoint)
    (fun state => record_active_probe_success state now).

Definition insert_state (self : EndpointRuntimeStore) (key : EndpointRuntimeKey)
    (state : EndpointRuntimeState) : EndpointRuntimeStore :=
  {| st_shards := <[shard_index key := <[key := state]> (shard self key)]> (st_shards self);
     st_recovery_latency := st_recovery_latency self;
     st_tracked_states := U.wrapping_add64 (st_tracked_states self) 1 |}.

Definition snapshot_map (self : EndpointRuntimeStore) : StateMap :=
  foldl (fun out states => states ∪ out) ∅ (st_shards self).

Definition from_map_and_recovery_stats (states : StateMap)
    (recovery_latency : EndpointRecoveryLatencyStats) : EndpointRuntimeStore :=
  foldl (fun store '(key, state) => insert_state store key state)
    (mkEndpointRuntimeStore (st_shards EndpointRuntimeStore_default) recovery_latency
       (st_tracked_states EndpointRuntimeStore_default))
    (map_to_list states).

Definition store_clone (self : EndpointRuntimeStore) : EndpointRuntimeStore :=
  from_map_and_recovery_stats (snapshot_map self) (st_recovery_latency self).

Definition inherit_endpoint (self : EndpointRuntimeStore) (backend_name : string)
    (next : StateMap) (endpoint : BackendEndpoint) : StateMap :=
  let key := EndpointRuntimeKey_new backend_name endpoint in
  match get_cloned self key with
  | None => next
  | Some state => if is_default_state state then next else <[key := state]> next
  end.

Definition inherit_for_backends (self : EndpointRuntimeStore) (backends : list BackendCluster) :
    EndpointRuntimeStore :=
  let next :=
    foldl (fun next cluster =>
      let backend_name := (bc_namespace cluster +:+ "/" +:+ bc_name cluster)%string in
      foldl (inherit_endpoint self backend_name) next (bc_endpoints cluster))
      ∅ backends in
  from_map_and_recovery_stats next (st_recovery_latency self).

Definition count_values (p : EndpointRuntimeState -> bool) (states : StateMap) : nat :=
  length (List.filter p (map_to_list states).*2).

Definition store_snapshot (self : EndpointRuntimeStore) (now : Instant) :
    EndpointRuntimeSnapshot :=
  let '(tracked, ejected, unhealthy) :=
    foldl (fun '(tracked, ejected, unhealthy) states =>
      (tracked + size states,
       ejected + count_values (fun state => is_ejected_at state now) states,
       unhealthy + count_values is_active_unhealthy states)%nat)
      (0, 0, 0)%nat (st_shards self) in
  {| ersn_tracked_endpoints := tracked;
     ersn_passive_ejected_current := ejected;
     ersn_active_unhealthy_current := unhealthy;
     ersn_recovery_latency_ms_buckets := bucket_snapshot (st_recovery_latency self);
     ersn_recovery_latency_ms_sum := erls_sum (st_recovery_latency self);
     ersn_recovery_latency_ms_count := erls_count (st_recovery_latency self) |}.

End with_hasher.

(** ** One endpoint: the state machine *)

(** What every reachable state satisfies: an endpoint is ejected exactly when it
    has failed [PASSIVE_EJECTION_CONSECUTIVE_FAILURES] times in a row, and a
    recovery is being timed exactly when it is ejected or actively unhealthy. *)
Definition state_inv (s : EndpointRuntimeState) : Prop :=
  U.is_u32 (ers_consecutive_failures s)
  /\ (is_Some (ers_ejected_until s)
      <-> PASSIVE_EJECTION_CONSECUTIVE_FAILURES <= ers_consecutive_failures s)
  /\ U.is_u32 (ers_active_consecutive_failures s)
  /\ (ers_active_unhealthy s = true -> 1 <= ers_active_consecutive_failures s)
  /\ (is_Some (ers_recovery_started_at s)
      <-> is_Some (ers_ejected_until s) \/ ers_active_unhealthy s = true).

Lemma default_state_inv : state_inv EndpointRuntimeState_default.
Proof.
  unfold state_inv, U.is_u32, U.u32_modulus, PASSIVE_EJECTION_CONSECUTIVE_FAILURES; simpl.
  split_and!; try lia; try done; split; try lia; intros H; try (destruct H as [? ?]; done);
    destruct H as [[? H]|H]; done.
Qed.

Lemma is_default_state_iff s : is_default_state s = true <-> s = EndpointRuntimeState_default.
Proof.
  destruct s as [cf eu rs af au]. unfold is_default_state, EndpointRuntimeState_default; simpl.
  rewrite !andb_true_iff, !bool_decide_eq_true, negb_true_iff. split.
  - by intros [[[[-> ->] ->] ->] ->].
  - by intros [= -> -> -> -> ->].
Qed.

Lemma is_Some_get_or_insert {A} (o : option A) x : is_Some (get_or_insert o x).
Proof. destruct o; simpl; eauto. Qed.
#[local] Hint Resolve is_Some_get_or_insert : core.

Lemma record_failure_inv s now : state_inv s -> state_inv (record_failure s now).
Proof.
  intros Hs. unfold record_failure.
  set (s' := if ejection_expired_at s now then _ else s).
  assert (state_inv s') as Hs' by (subst s'; destruct (ejection_expired_at _ _); auto using default_state_inv).
  clearbody s'. destruct s' as [cf eu rs af au], Hs' as (Hc & He & Ha & Hu & Hr);
    unfold state_inv, U.is_u32, U.saturating_add32, U.u32_max, U.u32_modulus,
      PASSIVE_EJECTION_CONSECUTIVE_FAILURES in *; simpl in *.
  destruct (Z.leb_spec 3 (Z.min (cf + 1) (2 ^ 32 - 1))); simpl; split_and!; try done; try lia.
  - split; [eauto|]. intros _. destruct (is_ejected_at _ _) eqn:E; [|eauto].
    apply Hr. left. unfold is_ejected_at in E; simpl in E. destruct eu; [eauto|done].
  - split; [intros Hx; apply He in Hx; lia|lia].
Qed.

Lemma record_active_probe_failure_inv s t now :
  state_inv s -> state_inv (record_active_probe_failure s t now).
Proof.
  intros (Hc & He & Ha & Hu & Hr). destruct s as [cf eu rs af au].
  unfold record_active_probe_failure, state_inv, U.is_u32, U.saturating_add32, U.u32_max,
    U.u32_modulus, PASSIVE_EJECTION_CONSECUTIVE_FAILURES in *; simpl in *.
  destruct (Z.leb_spec (Z.max t 1) (Z.min (af + 1) (2 ^ 32 - 1))); simpl; split_and!; try done; try lia.
  split; [eauto|]. intros _. destruct au; [|eauto]. apply Hr. eauto.
Qed.

(** ** The store refines one map *)

Section refinement.
Context `{KeyHasher}.

Lemma shard_index_lt key : (shard_index key < ENDPOINT_RUNTIME_SHARD_COUNT)%nat.
Proof.
  unfold shard_index, ENDPOINT_RUNTIME_SHARD_COUNT.
  pose proof (Z.mod_pos_bound (key_hash key) 32). lia.
Qed.

(** Each key lives in its own shard. *)
Definition placed (shards : list StateMap) : Prop :=
  length shards = ENDPOINT_RUNTIME_SHARD_COUNT /\
  forall i states key, shards !! i = Some states -> is_Some (states !! key) -> shard_index key = i.

Lemma placed_default : placed (st_shards EndpointRuntimeStore_default).
Proof.
  split; [apply length_replicate|].
  intros i states key Hi Hk. apply lookup_replicate in Hi as [-> _].
  by destruct Hk as [? ?%lookup_empty_Some].
Qed.

Lemma shard_lookup self key :
  placed (st_shards self) -> st_shards self !! shard_index key = Some (shard self key).
Proof.
  intros [Hl _]. unfold shard. pose proof (shard_index_lt key).
  destruct (lookup_lt_is_Some_2 (st_shards self) (shard_index key)) as [m Hm]; [lia|]. by rewrite Hm.
Qed.

Lemma placed_write self key states :
  placed (st_shards self) ->
  (forall k, is_Some (states !! k) -> k = key \/ is_Some (shard self key !! k)) ->
  placed (<[shard_index key := states]> (st_shards self)).
Proof.
  intros Hp Hs. split; [rewrite length_insert; apply Hp|].
  intros i m k Hi Hk. destruct (decide (i = shard_index key)) as [->|Hne].
  - rewrite list_lookup_insert_eq in Hi; [|rewrite (proj1 Hp); apply shard_index_lt].
    injection Hi as <-. destruct (Hs k Hk) as [->|Hin]; [done|].
    eapply (proj2 Hp); [by apply shard_lookup|done].
  - rewrite list_lookup_insert_ne in Hi by done. by eapply (proj2 Hp).
Qed.

Lemma lookup_foldl_union (l : list StateMap) (acc : StateMap) k :
  (forall m, m ∈ l -> m !! k = None) -> foldl (fun out m => m ∪ out) acc l !! k = acc !! k.
Proof.
  revert acc; induction l as [|m l IH]; intros acc Hn; simpl; [done|].
  rewrite IH by (intros m' Hm'; apply Hn; by right).
  rewrite lookup_union, (Hn m) by (by left). by destruct (acc !! k).
Qed.

(** The concrete store holds the states of one abstract map. *)
Lemma snapshot_map_lookup self key :
  placed (st_shards self) -> snapshot_map self !! key = get_cloned self key.
Proof.
  intros Hp. unfold snapshot_map, get_cloned.
  pose proof (shard_lookup self key Hp) as Hi. set (i := shard_index key) in *.
  rewrite <- (take_drop_middle _ _ _ Hi), foldl_app; simpl.
  rewrite lookup_foldl_union.
  - rewrite lookup_union.
    assert (foldl (fun out m => m ∪ out) (∅ : StateMap) (take i (st_shards self)) !! key = None) as ->.
    { rewrite lookup_foldl_union; [apply lookup_empty|].
      intros m [j Hj]%list_elem_of_lookup. apply lookup_take_Some in Hj as [Hj Hlt].
      apply eq_None_not_Some. intros Hk. pose proof (proj2 Hp _ _ _ Hj Hk). lia. }
    by destruct (shard self key !! key).
  - intros m [j Hj]%list_elem_of_lookup. rewrite lookup_drop in Hj.
    apply eq_None_not_Some. intros Hk. pose proof (proj2 Hp _ _ _ Hj Hk). lia.
Qed.

Definition store_inv (self : EndpointRuntimeStore) : Prop :=
  placed (st_shards self)
  /\ st_tracked_states self = U.wrap64 (Z.of_nat (size (snapshot_map self)))
  /\ map_Forall (fun _ s => is_default_state s = false) (snapshot_map self).

(** The abstract store: a map from keys to states that are not the default. *)
Definition spec_update (f : EndpointRuntimeState -> EndpointRuntimeState)
    (key : EndpointRuntimeKey) (m : StateMap) : StateMap :=
  let state := f (default EndpointRuntimeState_default (m !! key)) in
  if is_default_state state then delete key m else <[key := state]> m.

(** Writing one shard writes one key of the abstract map. *)
Lemma snapshot_map_write self key (f : StateMap -> StateMap) stats tracked :
  placed (st_shards self) ->
  (forall m k, k <> key -> f m !! k = m !! k) ->
  (forall m m' : StateMap, m !! key = m' !! key -> f m !! key = f m' !! key) ->
  let self' := mkEndpointRuntimeStore
    (<[shard_index key := f (shard self key)]> (st_shards self)) stats tracked in
  placed (st_shards self') /\ snapshot_map self' = f (snapshot_map self).
Proof.
  intros Hp Hne Heq self'. assert (placed (st_shards self')) as Hp'.
  { apply placed_write; [done|]. intros k Hk. destruct (decide (k = key)); [by left|right].
    by rewrite Hne in Hk. }
  split; [done|]. apply map_eq. intros k. rewrite snapshot_map_lookup by done.
  unfold get_cloned, shard; simpl. destruct (decide (k = key)) as [->|Hk].
  - rewrite list_lookup_insert_eq by (rewrite (proj1 Hp); apply shard_index_lt). simpl.
    apply Heq. by rewrite snapshot_map_lookup.
  - rewrite Hne, snapshot_map_lookup by done. unfold get_cloned.
    destruct (decide (shard_index k = shard_index key)) as [E|E].
    + rewrite E, list_lookup_insert_eq by (rewrite (proj1 Hp); apply shard_index_lt). simpl.
      rewrite Hne by done. unfold shard. by rewrite E.
    + by rewrite list_lookup_insert_ne by done.
Qed.

Lemma wrap64_succ x : U.wrapping_add64 (U.wrap64 x) 1 = U.wrap64 (x + 1).
Proof. unfold U.wrapping_add64, U.wrap64. by rewrite Zplus_mod_idemp_l. Qed.
Lemma wrap64_pred x : U.wrapping_sub64 (U.wrap64 x) 1 = U.wrap64 (x - 1).
Proof. unfold U.wrapping_sub64, U.wrap64. by rewrite Zminus_mod_idemp_l. Qed.

Lemma size_pos (m : StateMap) key : is_Some (m !! key) -> (0 < size m)%nat.
Proof.
  intros [x Hx]. destruct (size m) eqn:E; [|lia]. apply map_size_empty_inv in E. subst.
  by rewrite lookup_empty in Hx.
Qed.

Lemma spec_update_keeps f key m :
  map_Forall (fun _ s => is_default_state s = false) m ->
  map_Forall (fun _ s => is_default_state s = false) (spec_update f key m).
Proof.
  intros Hm. unfold spec_update. destruct (is_default_state _) eqn:E.
  - by apply map_Forall_delete.
  - by apply map_Forall_insert_2.
Qed.

Lemma update_refines self key f :
  store_inv self ->
  store_inv (update self key f)
  /\ snapshot_map (update self key f) = spec_update (fun s => (f s).1) key (snapshot_map self).
Proof.
  intros (Hp & Ht & Hd).
  pose proof (snapshot_map_lookup self key Hp) as Hl. unfold get_cloned in Hl.
  assert (Hu : placed (st_shards (update self key f)) /\ snapshot_map (update self key f)
    = spec_update (fun s => (f s).1) key (snapshot_map self)).
  { unfold update, spec_update. rewrite Hl.
    destruct (f (default EndpointRuntimeState_default (shard self key !! key))) as [state lat]; simpl.
    destruct (is_default_state state).
    - apply (snapshot_map_write self key (delete key)); 
        [done|by intros; rewrite lookup_delete_ne|by intros; rewrite !lookup_delete_eq].
    - apply (snapshot_map_write self key (insert key state)); 
        [done|by intros; rewrite lookup_insert_ne|by intros; rewrite !lookup_insert_eq]. }
  destruct Hu as [Hp' Hm]. split; [|done]. split_and!; [done| |rewrite Hm; by apply spec_update_keeps].
  rewrite Hm. unfold update, spec_update. rewrite Hl.
  destruct (f _) as [state lat]; simpl.
  destruct (is_default_state state); case_bool_decide as He; rewrite Ht, ?wrap64_succ, ?wrap64_pred.
  - rewrite <- Hl in He. pose proof (size_pos _ _ He).
    rewrite map_size_delete_Some by done. f_equal. lia.
  - apply eq_None_not_Some in He. by rewrite map_size_delete_None by (by rewrite Hl).
  - rewrite <- Hl in He. by rewrite map_size_insert_Some.
  - apply eq_None_not_Some in He. rewrite map_size_insert_None by (by rewrite Hl). f_equal. lia.
Qed.

(** A tracked success drops the endpoint's entry; an untracked one does nothing. *)
Lemma record_success_refines self key now :
  store_inv self -> Z.of_nat (size (snapshot_map self)) < U.u64_modulus ->
  store_inv (inner_record_success self key now)
  /\ snapshot_map (inner_record_success self key now) = delete key (snapshot_map self).
Proof.
  intros (Hp & Ht & Hd) Hb. unfold inner_record_success. rewrite Ht, U.wrap64_small by lia.
  pose proof (snapshot_map_lookup self key Hp) as Hl. unfold get_cloned in Hl.
  case_bool_decide as Hz.
  - assert (snapshot_map self = ∅) as E by (apply map_size_empty_inv; lia).
    split; [split_and!; done|]. rewrite E. by rewrite delete_empty.
  - destruct (shard self key !! key) as [state|] eqn:Es; simpl.
    + destruct (snapshot_map_write self key (delete key)
        (observe_latency (st_recovery_latency self) (recovery_latency_ms state now))
        (U.wrapping_sub64 (Z.of_nat (size (snapshot_map self))) 1) Hp) as [Hp' Hm];
        [by intros; rewrite lookup_delete_ne|by intros; rewrite !lookup_delete_eq|].
      split; [|exact Hm]. split_and!; [done| |rewrite Hm; by apply map_Forall_delete].
      rewrite Hm. simpl. rewrite map_size_delete_Some by (rewrite Hl; eauto).
      pose proof (size_pos (snapshot_map self) key). rewrite Hl in *.
      unfold U.wrapping_sub64. f_equal. specialize (H0 (mk_is_Some _ _ eq_refl)). lia.
    + split; [split_and!; done|]. by rewrite delete_id.
Qed.

(** ** Sequences of recorded events *)

Inductive event :=
  | EvFailure (backend_name : string) (endpoint : BackendEndpoint) (now : Instant)
  | EvSuccess (backend_name : string) (endpoint : BackendEndpoint) (now : Instant)
  | EvProbeFailure (backend_name : string) (endpoint : BackendEndpoint) (threshold : Z)
      (now : Instant)
  | EvProbeSuccess (backend_name : string) (endpoint : BackendEndpoint) (now : Instant).

Definition event_step (self : EndpointRuntimeStore) (e : event) : EndpointRuntimeStore :=
  match e with
  | EvFailure b ep now => store_record_failure_at self b ep now
  | EvSuccess b ep now => store_record_success self b ep now
  | EvProbeFailure b ep t now => store_record_active_probe_failure self b ep t now
  | EvProbeSuccess b ep now => store_record_active_probe_success self b ep now
  end.

(** The same event on the abstract map: one key changes, and an endpoint back in
    its default state is not tracked. *)
Definition event_spec (m : StateMap) (e : event) : StateMap :=
  match e with
  | EvFailure b ep now =>
    spec_update (fun s => record_failure s now) (EndpointRuntimeKey_new b ep) m
  | EvProbeFailure b ep t now =>
    spec_update (fun s => record_active_probe_failure s t now) (EndpointRuntimeKey_new b ep) m
  | EvSuccess b ep _ | EvProbeSuccess b ep _ => delete (EndpointRuntimeKey_new b ep) m
  end.

Lemma event_step_refines self e :
  store_inv self -> Z.of_nat (size (snapshot_map self)) < U.u64_modulus ->
  store_inv (event_step self e)
  /\ snapshot_map (event_step self e) = event_spec (snapshot_map self) e.
Proof.
  intros Hi Hb. destruct e as [b ep now|b ep now|b ep t now|b ep now]; simpl.
  - by apply update_refines.
  - by apply record_success_refines.
  - by apply update_refines.
  - by apply update_refines.
Qed.

Lemma event_spec_size m e : (size (event_spec m e) <= S (size m))%nat.
Proof.
  assert (forall key, size (delete key m) <= S (size m))%nat as Hdel.
  { intros key. rewrite map_size_delete. destruct (m !! key); simpl; lia. }
  assert (forall f key, size (spec_update f key m) <= S (size m))%nat as Hup.
  { intros f key. unfold spec_update. case_match; [apply Hdel|].
    rewrite map_size_insert. destruct (m !! key); simpl; lia. }
  destruct e; simpl; auto.
Qed.

Lemma events_refine es : forall self,
  store_inv self -> Z.of_nat (size (snapshot_map self) + length es) < U.u64_modulus ->
  store_inv (foldl event_step self es)
  /\ snapshot_map (foldl event_step self es) = foldl event_spec (snapshot_map self) es.
Proof.
  induction es as [|e es IH]; intros self Hi Hb; simpl in *; [done|].
  destruct (event_step_refines self e Hi) as [Hi' Hm]; [lia|].
  pose proof (event_spec_size (snapshot_map self) e) as Hsz.
  destruct (IH _ Hi') as [Hi'' Hm']; [rewrite Hm; lia|]. split; [done|]. by rewrite Hm', Hm.
Qed.

Lemma event_spec_inv m e :
  map_Forall (fun _ => state_inv) m -> map_Forall (fun _ => state_inv) (event_spec m e).
Proof.
  intros Hm. assert (forall f key, (forall s, state_inv s -> state_inv (f s)) ->
    map_Forall (fun _ => state_inv) (spec_update f key m)) as Hup.
  { intros f key Hf. unfold spec_update.
    destruct (is_default_state _); [by apply map_Forall_delete|].
    apply map_Forall_insert_2; [|done]. apply Hf.
    destruct (m !! key) eqn:E; [by eapply Hm|apply default_state_inv]. }
  destruct e; simpl; try (by apply map_Forall_delete); apply Hup;
    auto using record_failure_inv, record_active_probe_failure_inv.
Qed.

Lemma snapshot_map_default : snapshot_map EndpointRuntimeStore_default = ∅.
Proof. reflexivity. Qed.

Lemma default_store_inv : store_inv EndpointRuntimeStore_default.
Proof. split_and!; [apply placed_default|reflexivity|rewrite snapshot_map_default; apply map_Forall_empty]. Qed.

(** ** Rebuilding a store from a map *)

Lemma insert_state_refines self key state :
  placed (st_shards self) ->
  placed (st_shards (insert_state self key state))
  /\ snapshot_map (insert_state self key state) = <[key := state]> (snapshot_map self).
Proof.
  intros Hp. apply (snapshot_map_write self key (insert key state)); [done|..]; intros.
  - by rewrite lookup_insert_ne.
  - by rewrite !lookup_insert_eq.
Qed.

Lemma insert_states_refine l : forall self,
  placed (st_shards self) ->
  st_tracked_states self = U.wrap64 (Z.of_nat (size (snapshot_map self))) ->
  NoDup l.*1 -> (forall key, key ∈ l.*1 -> snapshot_map self !! key = None) ->
  let self' := foldl (fun store '(key, state) => insert_state store key state) self l in
  placed (st_shards self')
  /\ st_tracked_states self' = U.wrap64 (Z.of_nat (size (snapshot_map self')))
  /\ snapshot_map self' = list_to_map l ∪ snapshot_map self
  /\ st_recovery_latency self' = st_recovery_latency self.
Proof.
  induction l as [|[key state] l IH]; intros self Hp Ht Hn Hf; simpl.
  - by rewrite map_empty_union.
  - apply list.NoDup_cons in Hn as [Hk Hn].
    destruct (insert_state_refines self key state Hp) as [Hp' Hm].
    destruct (IH (insert_state self key state)) as (Hp'' & Ht' & Hm' & Hr); [done| |done| |].
    + rewrite Hm, map_size_insert_None by (apply Hf; by left). simpl. rewrite Ht, wrap64_succ.
      f_equal. lia.
    + intros k Hk'. rewrite Hm, lookup_insert_ne by (intros ->; done). apply Hf. by right.
    + split_and!; [done|done| |by rewrite Hr]. rewrite Hm', Hm.
      rewrite <- insert_union_r by (by apply not_elem_of_list_to_map_1).
      by rewrite insert_union_l.
Qed.

Lemma from_map_refines m stats :
  let self := from_map_and_recovery_stats m stats in
  placed (st_shards self)
  /\ st_tracked_states self = U.wrap64 (Z.of_nat (size m))
  /\ snapshot_map self = m /\ st_recovery_latency self = stats.
Proof.
  unfold from_map_and_recovery_stats.
  destruct (insert_states_refine (map_to_list m)
    (mkEndpointRuntimeStore (st_shards EndpointRuntimeStore_default) stats
       (st_tracked_states EndpointRuntimeStore_default))) as (Hp & Ht & Hm & Hr).
  - apply placed_default.
  - reflexivity.
  - apply NoDup_fst_map_to_list.
  - intros key _. reflexivity.
  - rewrite list_to_map_to_list in Hm.
    change (snapshot_map (mkEndpointRuntimeStore (st_shards EndpointRuntimeStore_default) stats
       (st_tracked_states EndpointRuntimeStore_default))) with (∅ : StateMap) in Hm.
    rewrite map_union_empty in Hm. rewrite Hm in Ht. done.
Qed.

(** ** Inheritance across snapshots *)

Definition cluster_keys (cluster : BackendCluster) : list EndpointRuntimeKey :=
  EndpointRuntimeKey_new (bc_namespace cluster +:+ "/" +:+ bc_name cluster)%string
    <$> bc_endpoints cluster.

Definition inherit_key (self : EndpointRuntimeStore) (next : StateMap)
    (key : EndpointRuntimeKey) : StateMap :=
  match get_cloned self key with
  | None => next
  | Some state => if is_default_state state then next else <[key := state]> next
  end.

Lemma inherit_keys_lookup self keys next k :
  placed (st_shards self) ->
  map_Forall (fun _ s => is_default_state s = false) (snapshot_map self) ->
  foldl (inherit_key self) next keys !! k
  = if bool_decide (k ∈ keys) then
      match snapshot_map self !! k with Some s => Some s | None => next !! k end
    else next !! k.
Proof.
  intros Hp Hd. revert next. induction keys as [|key keys IH]; intros next; cbn [foldl].
  - by rewrite bool_decide_eq_false_2 by apply not_elem_of_nil.
  - assert (inherit_key self next key !! k = if bool_decide (k = key) then
      match snapshot_map self !! k with Some s => Some s | None => next !! k end
      else next !! k) as Hk.
    { clear IH. unfold inherit_key. rewrite <- snapshot_map_lookup by done.
      destruct (decide (k = key)) as [->|Hne].
      - rewrite bool_decide_eq_true_2 by done.
        destruct (snapshot_map self !! key) as [state|] eqn:E; [|done].
        by rewrite (Hd _ _ E), lookup_insert_eq.
      - rewrite bool_decide_eq_false_2 by done.
        destruct (snapshot_map self !! key) as [state|] eqn:E; [|done].
        by rewrite (Hd _ _ E), lookup_insert_ne. }
    rewrite IH, Hk, (bool_decide_ext (k ∈ key :: keys) (k = key \/ k ∈ keys)) by apply elem_of_cons.
    clear. repeat case_bool_decide; destruct (snapshot_map self !! k); naive_solver.
Qed.

Lemma inherit_for_backends_eq self backends :
  inherit_for_backends self backends
  = from_map_and_recovery_stats (foldl (inherit_key self) ∅ (backends ≫= cluster_keys))
      (st_recovery_latency self).
Proof.
  unfold inherit_for_backends. f_equal. generalize (∅ : StateMap).
  induction backends as [|c cs IH]; intros m; csimpl; [done|].
  rewrite foldl_app, IH. f_equal. unfold cluster_keys.
  generalize (bc_endpoints c) m. intros eps. induction eps as [|ep eps IHe]; intros m'; csimpl; [done|].
  apply IHe.
Qed.

Lemma inherit_refines self backends :
  store_inv self ->
  store_inv (inherit_for_backends self backends)
  /\ snapshot_map (inherit_for_backends self backends)
     = filter (fun '(key, _) => key ∈ backends ≫= cluster_keys) (snapshot_map self).
Proof.
  intros (Hp & Ht & Hd). rewrite inherit_for_backends_eq.
  set (next := foldl _ _ _). assert (next = filter (fun '(key, _) =>
    key ∈ backends ≫= cluster_keys) (snapshot_map self)) as ->.
  { apply map_eq. intros k. subst next. rewrite inherit_keys_lookup, lookup_empty by done.
    rewrite map_lookup_filter. case_bool_decide as Hk; destruct (snapshot_map self !! k); simpl;
      try done; by rewrite ?option_guard_True, ?option_guard_False by done. }
  destruct (from_map_refines (filter (fun '(key, _) => key ∈ backends ≫= cluster_keys)
    (snapshot_map self)) (st_recovery_latency self)) as (Hp' & Ht' & Hm & _).
  split; [|done]. split_and!; [done|by rewrite Hm|]. rewrite Hm.
  intros k x Hk%map_lookup_filter_Some. by eapply Hd, Hk.
Qed.

(** ** The exported counters *)

Lemma map_to_list_union_disjoint (m1 m2 : StateMap) :
  m1 ##ₘ m2 -> map_to_list (m1 ∪ m2) ≡ₚ map_to_list m1 ++ map_to_list m2.
Proof.
  intros Hd. apply NoDup_Permutation.
  - apply NoDup_map_to_list.
  - apply list.NoDup_app. split_and!; try apply NoDup_map_to_list.
    intros [k x] H1%elem_of_map_to_list H2%elem_of_map_to_list.
    by eapply map_disjoint_spec.
  - intros [k x]. rewrite elem_of_app, !elem_of_map_to_list, lookup_union_Some by done. done.
Qed.

Lemma map_to_list_foldl_union (l : list StateMap) : forall acc : StateMap,
  (forall i j m1 m2, i <> j -> l !! i = Some m1 -> l !! j = Some m2 -> m1 ##ₘ m2) ->
  (forall m, m ∈ l -> m ##ₘ acc) ->
  map_to_list (foldl (fun out m => m ∪ out) acc l)
  ≡ₚ (l ≫= map_to_list) ++ map_to_list acc.
Proof.
  induction l as [|m l IH]; intros acc Hd Ha; csimpl; [done|].
  rewrite IH.
  - rewrite map_to_list_union_disjoint by (apply Ha; by left).
    rewrite !(assoc_L (++)). f_equiv. apply Permutation_app_comm.
  - intros i j m1 m2 Hij H1 H2. by apply (Hd (S i) (S j)); [congruence| |].
  - intros m' Hm'. apply map_disjoint_union_r. split; [|apply Ha; by right].
    apply list_elem_of_lookup in Hm' as [j Hj]. by apply (Hd (S j) O).
Qed.

Lemma shards_permutation self :
  placed (st_shards self) ->
  map_to_list (snapshot_map self) ≡ₚ st_shards self ≫= map_to_list.
Proof.
  intros Hp. unfold snapshot_map. rewrite map_to_list_foldl_union, map_to_list_empty, app_nil_r; [done| |].
  - intros i j m1 m2 Hij H1 H2. apply map_disjoint_spec. intros k x y Hx Hy.
    apply Hij. rewrite <- (proj2 Hp _ _ _ H1 (mk_is_Some _ _ Hx)).
    by rewrite <- (proj2 Hp _ _ _ H2 (mk_is_Some _ _ Hy)).
  - intros m _. apply map_disjoint_empty_r.
Qed.

Lemma store_snapshot_counts self now :
  placed (st_shards self) ->
  let snap := store_snapshot self now in
  ersn_tracked_endpoints snap = size (snapshot_map self)
  /\ ersn_passive_ejected_current snap
     = count_values (fun s => is_ejected_at s now) (snapshot_map self)
  /\ ersn_active_unhealthy_current snap = count_values is_active_unhealthy (snapshot_map self).
Proof.
  intros Hp. pose proof (shards_permutation self Hp) as Hs.
  assert (Hcount : forall p, count_values p (snapshot_map self)
    = sum_list (count_values p <$> st_shards self)).
  { intros p. unfold count_values. rewrite Hs. clear.
    induction (st_shards self) as [|m l IH]; csimpl; [done|].
    by rewrite fmap_app, List.filter_app, length_app, IH. }
  assert (Hsize : size (snapshot_map self) = sum_list (size <$> st_shards self)).
  { rewrite <- length_map_to_list, Hs. clear. induction (st_shards self) as [|m l IH]; csimpl; [done|].
    by rewrite length_app, length_map_to_list, IH. }
  rewrite Hsize, !Hcount. unfold store_snapshot.
  set (p1 := fun s => is_ejected_at s now).
  assert (Hf : forall l a b c,
    foldl (fun '(tracked, ejected, unhealthy) states =>
      (tracked + size states, ejected + count_values p1 states,
       unhealthy + count_values is_active_unhealthy states)%nat) (a, b, c) l
    = (a + sum_list (size <$> l), b + sum_list (count_values p1 <$> l),
       c + sum_list (count_values is_active_unhealthy <$> l))%nat).
  { clear. induction l as [|m l IH]; intros a b c; csimpl; [by rewrite !Nat.add_0_r|].
    rewrite IH. by rewrite !Nat.add_assoc. }
  rewrite Hf. done.
Qed.

End refinement.

(** ** Runs of failures *)

Definition failure_run (times : list Instant) : EndpointRuntimeState :=
  foldl record_failure EndpointRuntimeState_default times.

(** Each failure comes before the previous one's cooldown is over. *)
Definition within_cooldown (times : list Instant) : Prop :=
  forall i a b, times !! i = Some a -> times !! S i = Some b ->
  a <= b < a + PASSIVE_EJECTION_COOLDOWN.

Definition run_state (times : list Instant) : EndpointRuntimeState :=
  {| ers_consecutive_failures := Z.min (Z.of_nat (length times)) U.u32_max;
     ers_ejected_until :=
       if bool_decide (3 <= length times)%nat
       then (fun t => t + PASSIVE_EJECTION_COOLDOWN) <$> last times else None;
     ers_recovery_started_at := times !! 2%nat;
     ers_active_consecutive_failures := 0;
     ers_active_unhealthy := false |}.

Lemma within_cooldown_app times t :
  within_cooldown (times ++ [t]) ->
  within_cooldown times /\
  forall a, last times = Some a -> a <= t < a + PASSIVE_EJECTION_COOLDOWN.
Proof.
  intros Hw. split.
  - intros i a b Ha Hb. by apply (Hw i); apply lookup_app_l_Some.
  - intros a Ha. rewrite last_lookup in Ha. pose proof (lookup_lt_Some _ _ _ Ha).
    apply (Hw (pred (length times))); [by apply lookup_app_l_Some|].
    rewrite lookup_app_r by lia.
    by replace (S (pred (length times)) - length times)%nat with 0%nat by lia.
Qed.

Lemma run_state_step times t :
  (forall a, last times = Some a -> a <= t < a + PASSIVE_EJECTION_COOLDOWN) ->
  record_failure (run_state times) t = run_state (times ++ [t]).
Proof.
  intros Hl. assert (Hne : ejection_expired_at (run_state times) t = false).
  { unfold ejection_expired_at, run_state; simpl. case_bool_decide; [|done].
    destruct (last times) as [a|]; simpl; [|done]. specialize (Hl a eq_refl). lia. }
  unfold record_failure. rewrite Hne. unfold run_state; simpl.
  rewrite last_snoc, length_app, Nat.add_1_r; simpl.
  replace (U.saturating_add32 _ 1) with (Z.min (Z.of_nat (S (length times))) U.u32_max)
    by (unfold U.saturating_add32, U.u32_max, U.u32_modulus; lia).
  unfold PASSIVE_EJECTION_CONSECUTIVE_FAILURES.
  destruct (Z.leb_spec 3 (Z.min (Z.of_nat (S (length times))) U.u32_max)) as [H3|H3].
  - rewrite (bool_decide_eq_true_2 (3 <= S (length times))%nat) by lia. f_equal.
    destruct times as [|a [|b [|c times]]]; simpl in *; try lia; [done|].
    by case_match.
  - assert (length times < 2)%nat by (unfold U.u32_max, U.u32_modulus in *; lia).
    destruct times as [|a [|b times]]; simpl in *; try lia; done.
Qed.

Lemma failure_run_state times : within_cooldown times -> failure_run times = run_state times.
Proof.
  induction times as [|t times IH] using rev_ind; intros Hw; [done|].
  apply within_cooldown_app in Hw as [Hw Hl]. unfold failure_run. rewrite foldl_app; simpl.
  change (foldl record_failure EndpointRuntimeState_default times) with (failure_run times).
  rewrite IH by done. by apply run_state_step.
Qed.

(** ** Main theorems *)

Definition failure_time (e : event) : option Instant :=
  match e with EvFailure _ _ now => Some now | _ => None end.

Lemma ejected_until_bound m e T :
  match failure_time e with Some t => t <= T | None => True end ->
  map_Forall (fun _ s => forall u, ers_ejected_until s = Some u ->
    u <= T + PASSIVE_EJECTION_COOLDOWN) m ->
  map_Forall (fun _ s => forall u, ers_ejected_until s = Some u ->
    u <= T + PASSIVE_EJECTION_COOLDOWN) (event_spec m e).
Proof.
  set (ok := fun s => forall u, ers_ejected_until s = Some u -> u <= T + PASSIVE_EJECTION_COOLDOWN).
  intros He Hm. assert (forall f key, (forall s, ok s -> ok (f s)) ->
    map_Forall (fun _ => ok) (spec_update f key m)) as Hup.
  { intros f key Hf. unfold spec_update.
    destruct (is_default_state _); [by apply map_Forall_delete|].
    apply map_Forall_insert_2; [|done]. apply Hf.
    destruct (m !! key) eqn:E; [by eapply Hm|by intros u]. }
  destruct e as [b ep now|b ep now|b ep t now|b ep now]; simpl in *;
    try (by apply map_Forall_delete); apply Hup; intros s Hs.
  - unfold record_failure. set (s' := if ejection_expired_at s now then _ else s).
    assert (ok s') by (subst s'; destruct (ejection_expired_at s now); [by intros u|done]).
    destruct (_ <=? _); [|done]. intros u; simpl. intros [= <-]. lia.
  - unfold record_active_probe_failure. by destruct (_ <=? _).
Qed.

Lemma ejected_until_bounds T es : forall m,
  Forall (fun e => match failure_time e with Some t => t <= T | None => True end) es ->
  map_Forall (fun _ s => forall u, ers_ejected_until s = Some u ->
    u <= T + PASSIVE_EJECTION_COOLDOWN) m ->
  map_Forall (fun _ s => forall u, ers_ejected_until s = Some u ->
    u <= T + PASSIVE_EJECTION_COOLDOWN) (foldl event_spec m es).
Proof.
  induction es as [|e es IH]; intros m Ht Hm; simpl; [done|].
  apply Forall_cons_1 in Ht as [He Hes]. apply IH; [done|]. by apply ejected_until_bound.
Qed.

Lemma event_spec_invs es : forall m,
  map_Forall (fun _ => state_inv) m -> map_Forall (fun _ => state_inv) (foldl event_spec m es).
Proof. induction es as [|e es IH]; intros m Hm; simpl; [done|]. apply IH. by apply event_spec_inv. Qed.

Section main.
Context `{KeyHasher}.

(** C22: the sharded endpoint store implements one map.  After any sequence of
    recorded failures, successes and probe results, looking a key up in its
    shard gives what the same events give on a single map, every tracked state
    satisfies the state-machine invariant, and the atomic counter
    [tracked_states] equals the number of tracked endpoints. *)
Theorem endpoint_store_refines_map es :
  Z.of_nat (length es) < U.u64_modulus ->
  let self := foldl event_step EndpointRuntimeStore_default es in
  let m := foldl event_spec ∅ es in
  (forall key, get_cloned self key = m !! key)
  /\ map_Forall (fun _ => state_inv) m
  /\ st_tracked_states self = U.wrap64 (Z.of_nat (size m)).
Proof.
  intros Hb self m. destruct (events_refine es _ default_store_inv) as [(Hp & Ht & _) Hm];
    [by rewrite snapshot_map_default, map_size_empty|].
  rewrite snapshot_map_default in Hm. fold self in Hp, Ht, Hm. split_and!.
  - intros key. rewrite <- snapshot_map_lookup by done. by rewrite Hm.
  - apply event_spec_invs, map_Forall_empty.
  - by rewrite Ht, Hm.
Qed.

(** C30: passive ejection ends.  If no failure was recorded after [T], then 30
    seconds after [T] no endpoint is passively ejected, whatever else was
    recorded. *)
Theorem passive_ejection_expires es T key state :
  Z.of_nat (length es) < U.u64_modulus ->
  Forall (fun e => match failure_time e with Some t => t <= T | None => True end) es ->
  get_cloned (foldl event_step EndpointRuntimeStore_default es) key = Some state ->
  is_ejected_at state (T + PASSIVE_EJECTION_COOLDOWN) = false.
Proof.
  intros Hb Ht Hg. destruct (events_refine es _ default_store_inv) as [(Hp & _ & _) Hm];
    [by rewrite snapshot_map_default, map_size_empty|].
  rewrite snapshot_map_default in Hm. rewrite <- snapshot_map_lookup, Hm in Hg by done.
  pose proof (ejected_until_bounds T es ∅ Ht (map_Forall_empty _) key state Hg) as Hu.
  unfold is_ejected_at. destruct (ers_ejected_until state) as [u|] eqn:E; [|done].
  specialize (Hu u E). lia.
Qed.

(** C34: a new snapshot inherits exactly the runtime states of the endpoints it
    still has: an endpoint of the new backends keeps its failure counters and
    ejection, every other entry is dropped, and the tracked counter is rebuilt. *)
Theorem inherit_for_backends_spec es backends key :
  Z.of_nat (length es) < U.u64_modulus ->
  let self := foldl event_step EndpointRuntimeStore_default es in
  let next := inherit_for_backends self backends in
  get_cloned next key
    = (if bool_decide (key ∈ backends ≫= cluster_keys) then get_cloned self key else None)
  /\ st_tracked_states next = U.wrap64 (Z.of_nat (size (snapshot_map next))).
Proof.
  intros Hb self next. destruct (events_refine es _ default_store_inv) as [Hi _];
    [by rewrite snapshot_map_default, map_size_empty|]. fold self in Hi.
  destruct (inherit_refines self backends Hi) as [(Hp & Ht & _) Hm]. split; [|done].
  subst next. rewrite <- snapshot_map_lookup, Hm by done.
  rewrite map_lookup_filter, snapshot_map_lookup by apply Hi.
  case_bool_decide; destruct (get_cloned self key); simpl; try done;
    by rewrite ?option_guard_True, ?option_guard_False by done.
Qed.

(** The exported runtime snapshot counts, over all shards, the tracked, the
    passively ejected and the actively unhealthy endpoints of the one map the
    store implements. *)
Theorem endpoint_snapshot_counts es now :
  Z.of_nat (length es) < U.u64_modulus ->
  let snap := store_snapshot (foldl event_step EndpointRuntimeStore_default es) now in
  let m := foldl event_spec ∅ es in
  ersn_tracked_endpoints snap = size m
  /\ ersn_passive_ejected_current snap = count_values (fun s => is_ejected_at s now) m
  /\ ersn_active_unhealthy_current snap = count_values is_active_unhealthy m.
Proof.
  intros Hb snap m. destruct (events_refine es _ default_store_inv) as [(Hp & _ & _) Hm];
    [by rewrite snapshot_map_default, map_size_empty|].
  rewrite snapshot_map_default in Hm. subst m. rewrite <- Hm.
  by apply store_snapshot_counts.
Qed.

End main.

(** Consecutive passive failures.  When each failure falls within the
    cooldown of the one before, the endpoint is ejected from the third failure
    on, always until 30 seconds after the latest failure, and its recovery is
    timed from the third failure. *)
Theorem failure_run_ejects times :
  within_cooldown times ->
  foldl record_failure EndpointRuntimeState_default times
  = {| ers_consecutive_failures := Z.min (Z.of_nat (length times)) U.u32_max;
       ers_ejected_until :=
         if bool_decide (3 <= length times)%nat
         then (fun t => t + PASSIVE_EJECTION_COOLDOWN) <$> last times else None;
       ers_recovery_started_at := times !! 2%nat;
       ers_active_consecutive_failures := 0;
       ers_active_unhealthy := false |}.
Proof. apply failure_run_state. Qed.

(** ** Witnesses *)

Definition witness_hasher : KeyHasher :=
  fun key => erk_port key + Z.of_nat (String.length (erk_address key)).
Definition witness_endpoint (port : Z) : BackendEndpoint := mkBackendEndpoint "10.0.0.1" port true.
Definition witness_events : list event :=
  [EvFailure "default/a:80" (witness_endpoint 80) 1; EvFailure "default/a:80" (witness_endpoint 80) 2;
   EvFailure "default/a:80" (witness_endpoint 80) 3; EvProbeFailure "default/b:81" (witness_endpoint 81) 1 4;
   EvFailure "default/c:82" (witness_endpoint 82) 5; EvSuccess "default/c:82" (witness_endpoint 82) 6].
Definition witness_store : EndpointRuntimeStore :=
  foldl (@event_step witness_hasher) EndpointRuntimeStore_default witness_events.
Definition witness_state : EndpointRuntimeState :=
  mkEndpointRuntimeState 3 (Some (3 + PASSIVE_EJECTION_COOLDOWN)) (Some 3) 0 false.

Lemma endpoint_store_refines_map_witness :
  @get_cloned witness_hasher witness_store
    (EndpointRuntimeKey_new "default/a:80" (witness_endpoint 80)) = Some witness_state
  /\ st_tracked_states witness_store
     = U.wrap64 (Z.of_nat (size (foldl event_spec ∅ witness_events))).
Proof.
  destruct (@endpoint_store_refines_map witness_hasher witness_events) as (Hk & _ & Ht);
    [vm_compute; reflexivity|].
  split; [|exact Ht]. unfold witness_store. rewrite Hk. vm_compute. reflexivity.
Defined.

Lemma passive_ejection_expires_witness :
  is_ejected_at witness_state (5 + PASSIVE_EJECTION_COOLDOWN) = false.
Proof.
  apply (@passive_ejection_expires witness_hasher witness_events 5
    (EndpointRuntimeKey_new "default/a:80" (witness_endpoint 80)) witness_state).
  - vm_compute; reflexivity.
  - repeat constructor; vm_compute; congruence.
  - vm_compute; reflexivity.
Defined.

Definition witness_cluster : BackendCluster :=
  mkBackendCluster "a:80" "default" "" [witness_endpoint 80] None None None None None.

Lemma inherit_for_backends_spec_witness :
  @get_cloned witness_hasher
    (@inherit_for_backends witness_hasher witness_store [witness_cluster])
    (EndpointRuntimeKey_new "default/b:81" (witness_endpoint 81)) = None.
Proof.
  destruct (@inherit_for_backends_spec witness_hasher witness_events [witness_cluster]
    (EndpointRuntimeKey_new "default/b:81" (witness_endpoint 81))) as [Hk _];
    [vm_compute; reflexivity|].
  unfold witness_store. rewrite Hk. vm_compute. reflexivity.
Defined.

Lemma endpoint_snapshot_counts_witness :
  ersn_tracked_endpoints (@store_snapshot witness_store 10) = 2%nat
  /\ ersn_passive_ejected_current (@store_snapshot witness_store 10) = 1%nat.
Proof.
  destruct (@endpoint_snapshot_counts witness_hasher witness_events 10) as (Ht & He & _);
    [vm_compute; reflexivity|].
  unfold witness_store. rewrite Ht, He. vm_compute. split; reflexivity.
Defined.

Lemma failure_run_ejects_witness :
  ers_ejected_until (foldl record_failure EndpointRuntimeState_default [1; 2; 3; 4])
  = Some (4 + PASSIVE_EJECTION_COOLDOWN).
Proof.
  rewrite (failure_run_ejects [1; 2; 3; 4]); [reflexivity|].
  intros [|[|[|[|i]]]] a b; simpl; intros; simplify_eq;
    unfold PASSIVE_EJECTION_COOLDOWN, NANOS_PER_SEC; lia.
Defined.

End EndpointRuntime.
