(* ===== verification/Spread.v ===== *)
(** * Weighted spreading

    The ticket arithmetic of
    [ntgw-ir/src/snapshot/backend_resolution/mod.rs]: a ticket is mapped to a
    point of the weight line by a stride that is coprime to the total weight, and
    the backend owning that point is chosen.  The theorems show that any
    [total_weight] consecutive tickets visit every point once, so that each
    backend is chosen exactly as often as its weight says. *)

From Stdlib Require Import ZArith Lia Znumtheory.
From stdpp Require Import base numbers list.
From S2P Require Import Prelude.

Module Spread.
Local Open Scope Z_scope.

(** The loop of [gcd].  Two rounds at least halve the right operand, so 130
    rounds are enough for 64-bit operands ([gcd_spec]). *)
Fixpoint gcd_loop (fuel : nat) (left right : Z) : Z :=
  match fuel with
  | O => left
  | S fuel =>
    if bool_decide (right = 0) then left
    else gcd_loop fuel right (left mod right)
  end.

Definition gcd (left right : Z) : Z := gcd_loop 130 left right.

Definition PHI_NUMERATOR : Z := 618033988749895.
Definition PHI_DENOMINATOR : Z := 1000000000000000.

(** One candidate on each side of the ideal stride per round. *)
Definition stride_candidate (ideal total_weight delta : Z) : option Z :=
  match U.checked_sub ideal delta with
  | Some candidate =>
    if (0 <? candidate) && bool_decide (gcd candidate total_weight = 1)
    then Some candidate
    else match U.checked_add U.u64_modulus ideal delta with
         | Some candidate =>
           if (candidate <? total_weight) && bool_decide (gcd candidate total_weight = 1)
           then Some candidate else None
         | None => None
         end
  | None =>
    match U.checked_add U.u64_modulus ideal delta with
    | Some candidate =>
      if (candidate <? total_weight) && bool_decide (gcd candidate total_weight = 1)
      then Some candidate else None
    | None => None
    end
  end.

(** [for delta in 0..total_weight]: [n] rounds from [delta] on. *)
Fixpoint stride_loop (n : nat) (ideal total_weight delta : Z) : Z :=
  match n with
  | O => 1
  | S n =>
    match stride_candidate ideal total_weight delta with
    | Some candidate => candidate
    | None => stride_loop n ideal total_weight (delta + 1)
    end
  end.

Definition clamp (lo hi x : Z) : Z := if x <? lo then lo else if hi <? x then hi else x.

Definition spread_weighted_stride (total_weight : Z) : Z :=
  if total_weight <=? 1 then 1
  else
    let ideal :=
      U.wrap64 ((total_weight * PHI_NUMERATOR + PHI_DENOMINATOR / 2) / PHI_DENOMINATOR) in
    let ideal := clamp 1 (total_weight - 1) ideal in
    stride_loop (Z.to_nat total_weight) ideal total_weight 0.

Definition spread_weighted_target (ticket total_weight : Z) : Z :=
  if total_weight <=? 1 then 0
  else U.wrapping_mul64 ticket (spread_weighted_stride total_weight) mod total_weight.

(** The item that owns a point of the weight line: the first whose cumulative
    weight exceeds it. *)
Fixpoint pick {A} (weight : A -> Z) (l : list A) (target : Z) : option A :=
  match l with
  | [] => None
  | x :: l => if target <? weight x then Some x else pick weight l (target - weight x)
  end.

Definition total {A} (weight : A -> Z) (l : list A) : Z := foldr (fun x t => weight x + t) 0 l.

(** ** The greatest common divisor *)

Lemma gcd_loop_spec k : forall fuel left right,
  0 <= left -> 0 <= right < 2 ^ Z.of_nat k -> (2 * k < fuel)%nat ->
  gcd_loop fuel left right = Z.gcd left right.
Proof.
  induction k as [|k IH]; intros fuel left right Hl Hr Hf.
  - simpl in Hr. assert (right = 0) as -> by lia. destruct fuel; [lia|].
    simpl. rewrite Z.gcd_0_r. lia.
  - destruct fuel as [|[|fuel]]; [lia|lia|].
    assert (Hg : forall a b, 0 < b -> Z.gcd b (a mod b) = Z.gcd a b).
    { intros a b Hb. rewrite Z.gcd_comm, Z.gcd_mod by lia. apply Z.gcd_comm. }
    cbn [gcd_loop]. case_bool_decide as H0; [subst; rewrite Z.gcd_0_r; lia|].
    pose proof (Z.mod_pos_bound left right ltac:(lia)) as Hm.
    case_bool_decide as H1.
    + rewrite <- Hg, H1, Z.gcd_0_r by lia. lia.
    + pose proof (Z.mod_pos_bound right (left mod right) ltac:(lia)) as Hm'.
      rewrite IH; [rewrite !Hg by lia; done|lia| |lia].
      split; [lia|]. rewrite Nat2Z.inj_succ, Z.pow_succ_r in Hr by lia.
      destruct (Z.le_gt_cases (left mod right) (2 ^ Z.of_nat k)) as [?|Hbig]; [lia|].
      assert (right mod (left mod right) = right - left mod right) as ->.
      { symmetry. apply Zmod_unique with 1; lia. }
      lia.
Qed.

Lemma gcd_spec left right : 0 <= left -> U.is_u64 right -> gcd left right = Z.gcd left right.
Proof.
  intros Hl Hr. apply (gcd_loop_spec 64); [done| |lia].
  change (2 ^ Z.of_nat 64) with U.u64_modulus. exact Hr.
Qed.

(** ** The stride *)

Lemma checked_add_Some m x y z : U.checked_add m x y = Some z -> z = x + y /\ z < m.
Proof. unfold U.checked_add. repeat case_match; intros; simplify_eq; bool_hyps; lia. Qed.
Lemma checked_sub_Some x y z : U.checked_sub x y = Some z -> z = x - y /\ 0 <= z.
Proof. unfold U.checked_sub. repeat case_match; intros; simplify_eq; bool_hyps; lia. Qed.

Definition good_stride (total_weight stride : Z) : Prop :=
  1 <= stride < total_weight /\ Z.gcd stride total_weight = 1.

Lemma stride_candidate_good ideal total_weight delta candidate :
  2 <= total_weight -> U.is_u64 total_weight -> 1 <= ideal < total_weight -> 0 <= delta ->
  stride_candidate ideal total_weight delta = Some candidate ->
  good_stride total_weight candidate.
Proof.
  intros Ht Hu Hi Hd. unfold stride_candidate.
  assert (Hgood : forall c, 0 < c -> c < total_weight -> gcd c total_weight = 1 ->
    good_stride total_weight c).
  { intros c Hc Hlt Hg. rewrite gcd_spec in Hg by (done || lia). split; [lia|done]. }
  assert (Hadd : match U.checked_add U.u64_modulus ideal delta with
    | Some candidate =>
      if (candidate <? total_weight) && bool_decide (gcd candidate total_weight = 1)
      then Some candidate else None
    | None => None end = Some candidate -> good_stride total_weight candidate).
  { destruct (U.checked_add _ _ _) as [c|] eqn:E; [|done]. apply checked_add_Some in E as [-> _].
    destruct (_ && _) eqn:Hb; [|done]. intros [= <-]. bool_hyps. apply Hgood; lia || done. }
  destruct (U.checked_sub ideal delta) as [c|] eqn:E; [|done].
  apply checked_sub_Some in E as [-> _].
  destruct ((0 <? ideal - delta) && _) eqn:Hb; [|done].
  intros [= <-]. bool_hyps. apply Hgood; lia || done.
Qed.

Lemma stride_loop_good n ideal total_weight : forall delta,
  2 <= total_weight -> U.is_u64 total_weight -> 1 <= ideal < total_weight -> 0 <= delta ->
  good_stride total_weight (stride_loop n ideal total_weight delta).
Proof.
  induction n as [|n IH]; intros delta Ht Hu Hi Hd; simpl.
  - split; [lia|]. apply Z.gcd_1_l.
  - destruct (stride_candidate _ _ _) as [c|] eqn:E; [by eapply stride_candidate_good|].
    apply IH; lia || done.
Qed.

Lemma spread_weighted_stride_good total_weight :
  2 <= total_weight -> U.is_u64 total_weight ->
  good_stride total_weight (spread_weighted_stride total_weight).
Proof.
  intros Ht Hu. unfold spread_weighted_stride. destruct (Z.leb_spec total_weight 1); [lia|].
  apply stride_loop_good; [done|done| |lia].
  unfold clamp. destruct (Z.ltb_spec (U.wrap64 ((total_weight * PHI_NUMERATOR + PHI_DENOMINATOR / 2) / PHI_DENOMINATOR)) 1);
    [lia|]. case_match; bool_hyps; lia.
Qed.

(** ** Targets of consecutive tickets *)

Lemma spread_target_range ticket total_weight :
  0 < total_weight -> 0 <= spread_weighted_target ticket total_weight < total_weight.
Proof.
  intros Ht. unfold spread_weighted_target. destruct (Z.leb_spec total_weight 1); [lia|].
  apply Z.mod_pos_bound. lia.
Qed.

(** The points a run of tickets visits. *)
Definition targets (ticket total_weight : Z) : list Z :=
  (fun i => spread_weighted_target (ticket + Z.of_nat i) total_weight)
    <$> seq 0 (Z.to_nat total_weight).

(** No ticket of the run makes the wrapping product wrap. *)
Definition no_wrap (ticket total_weight : Z) : Prop :=
  0 <= ticket /\
  (ticket + total_weight) * spread_weighted_stride total_weight <= U.u64_modulus.

Lemma spread_target_inj ticket total_weight i j :
  1 <= total_weight -> U.is_u64 total_weight -> no_wrap ticket total_weight ->
  0 <= i < total_weight -> 0 <= j < total_weight ->
  spread_weighted_target (ticket + i) total_weight
  = spread_weighted_target (ticket + j) total_weight -> i = j.
Proof.
  intros H1 Hu [Hk Hw] Hi Hj. destruct (decide (total_weight = 1)) as [->|Hne]; [lia|].
  destruct (spread_weighted_stride_good total_weight ltac:(lia) Hu) as [Hr Hg].
  unfold spread_weighted_target. destruct (Z.leb_spec total_weight 1); [lia|].
  set (s := spread_weighted_stride total_weight) in *.
  unfold U.wrapping_mul64. rewrite !U.wrap64_small by nia. intros He.
  assert (Hdiv : (total_weight | (i - j) * s)).
  { replace ((i - j) * s) with ((ticket + i) * s - (ticket + j) * s) by ring.
    apply Z.mod_divide; [lia|]. rewrite Zminus_mod, He, Z.sub_diag. apply Z.mod_0_l. lia. }
  rewrite Z.mul_comm in Hdiv. apply Z.gauss in Hdiv; [|by rewrite Z.gcd_comm].
  destruct Hdiv as [q Hq]. assert (q = 0) by nia. lia.
Qed.

Lemma targets_permutation ticket total_weight :
  1 <= total_weight -> U.is_u64 total_weight -> no_wrap ticket total_weight ->
  targets ticket total_weight ≡ₚ Z.of_nat <$> seq 0 (Z.to_nat total_weight).
Proof.
  intros H1 Hu Hw. apply submseteq_length_Permutation.
  - apply NoDup_submseteq.
    + apply NoDup_fmap_2_strong; [|apply NoDup_seq].
      intros i j Hi%elem_of_seq Hj%elem_of_seq He.
      apply spread_target_inj in He; [lia|done|done|done|lia|lia].
    + intros x (i & -> & Hi%elem_of_seq)%list_elem_of_fmap.
      pose proof (spread_target_range (ticket + Z.of_nat i) total_weight ltac:(lia)) as Hr.
      apply list_elem_of_fmap. exists (Z.to_nat (spread_weighted_target (ticket + Z.of_nat i) total_weight)).
      rewrite elem_of_seq. lia.
  - unfold targets. by rewrite !length_fmap.
Qed.

(** ** Owners of points *)

Section pick.
Context {A : Type} (weight : A -> Z).

Lemma total_nonneg l : Forall (fun x => 0 <= weight x) l -> 0 <= total weight l.
Proof. induction 1; simpl in *; lia. Qed.

Lemma pick_elem l target x : pick weight l target = Some x -> x ∈ l.
Proof.
  revert target; induction l as [|y l IH]; intros target; simpl; [done|].
  destruct (_ <? _); [intros [= ->]; by left|]. intros Hp. right. by eapply IH.
Qed.

Lemma pick_Some l target :
  Forall (fun x => 0 <= weight x) l -> 0 <= target < total weight l ->
  is_Some (pick weight l target).
Proof.
  revert target; induction l as [|x l IH]; intros target Hw Ht; simpl in *; [lia|].
  apply Forall_cons_1 in Hw as [Hw Hws]. destruct (Z.ltb_spec target (weight x)); [eauto|].
  apply IH; [done|lia].
Qed.

(** Each item repeated as often as its weight says. *)
Definition repeated (l : list A) : list A := l ≫= fun x => replicate (Z.to_nat (weight x)) x.

Lemma pick_line l :
  Forall (fun x => 0 <= weight x) l ->
  (fun k => pick weight l (Z.of_nat k)) <$> seq 0 (Z.to_nat (total weight l))
  = Some <$> repeated l.
Proof.
  induction 1 as [|x l Hx Hl IH]; [done|]. pose proof (total_nonneg _ Hl).
  change (total weight (x :: l)) with (weight x + total weight l).
  change (repeated (x :: l)) with (replicate (Z.to_nat (weight x)) x ++ repeated l).
  rewrite Z2Nat.inj_add, seq_app, !fmap_app, <- IH by done. f_equal.
  - rewrite fmap_replicate. apply list_eq_same_length with (Z.to_nat (weight x));
      [by rewrite length_replicate|by rewrite length_fmap, length_seq|].
    intros i y z Hi Hy Hz. rewrite list_lookup_fmap in Hy.
    destruct (seq 0 _ !! i) as [k|] eqn:E; simplify_eq/=. apply lookup_seq in E as [-> E].
    apply lookup_replicate in Hz as [-> _]. simpl.
    destruct (Z.ltb_spec (Z.of_nat i) (weight x)); [done|lia].
  - replace (0 + Z.to_nat (weight x))%nat with (Z.to_nat (weight x) + 0)%nat by lia.
    rewrite <- (fmap_add_seq (Z.to_nat (weight x)) 0), <- list_fmap_compose.
    apply list_fmap_ext. intros k y _. simpl.
    destruct (Z.ltb_spec (Z.of_nat (Z.to_nat (weight x) + y)) (weight x)); [lia|]. f_equal. lia.
Qed.

Lemma pick_targets ticket l :
  Forall (fun x => 0 <= weight x) l -> 1 <= total weight l -> U.is_u64 (total weight l) ->
  no_wrap ticket (total weight l) ->
  pick weight l <$> targets ticket (total weight l) ≡ₚ Some <$> repeated l.
Proof.
  intros Hw H1 Hu Hn. rewrite <- pick_line by done.
  rewrite (targets_permutation ticket) by done. by rewrite <- list_fmap_compose.
Qed.

End pick.

(** C37: the stride visits every point.  The stride of a total weight is coprime to
    it, the search for one always succeeds below [2^64], and the targets of as
    many consecutive tickets as the total weight are all points of the weight
    line, each once. *)
Theorem spread_targets_cover ticket total_weight :
  2 <= total_weight -> U.is_u64 total_weight -> no_wrap ticket total_weight ->
  good_stride total_weight (spread_weighted_stride total_weight)
  /\ targets ticket total_weight ≡ₚ Z.of_nat <$> seq 0 (Z.to_nat total_weight).
Proof.
  intros Ht Hu Hn. split; [by apply spread_weighted_stride_good|].
  apply targets_permutation; [lia|done|done].
Qed.

Lemma spread_targets_cover_witness : targets 7 5 ≡ₚ [0; 1; 2; 3; 4].
Proof.
  apply (spread_targets_cover 7 5); [lia|split; vm_compute; congruence|split; vm_compute; congruence].
Defined.

End Spread.
