(* ===== verification/RouteIndex.v ===== *)
(** * Attachment and service indexes

    [RouteAttachmentListenerIndex] and [BackendServiceIndex] of
    [ntgw-ir/src/types.rs], the cluster-name helpers and the stream listener
    index of [ntgw-ir/src/snapshot/helpers.rs].  Each index is shown to answer
    what a scan of the snapshot's lists answers. *)

From Stdlib Require Import ZArith Lia Ascii.
From stdpp Require Import base gmap strings sorting numbers list.
From S2P Require Import Prelude Strs IrTypes.

Local Open Scope string_scope.
Local Open Scope list_scope.

Module RouteIndex.

(** ** Cluster names *)

Definition backend_cluster_name (cluster : BackendCluster) : string :=
  (bc_namespace cluster +:+ "/" +:+ bc_name cluster)%string.

(** [while value >= 10]: a [u32] has at most ten digits, nine rounds. *)
Fixpoint decimal_digit_loop (fuel : nat) (value : Z) (count : nat) : nat :=
  match fuel with
  | O => count
  | S fuel => if (10 <=? value)%Z then decimal_digit_loop fuel (value / 10) (S count) else count
  end.

Definition decimal_digit_count (value : Z) : nat := decimal_digit_loop 9 value 1.

Definition parse_decimal_port (port : string) : option Z :=
  if Str.is_empty port then None
  else
    parsed ← Str.parse_digits U.u32_modulus 0 port;
    if bool_decide (String.length port = decimal_digit_count parsed) then Some parsed else None.

Definition backend_cluster_service_key (cluster_name : string) : option (string * Z) :=
  '(name, port_text) ← Str.rsplit_once ":"%char cluster_name;
  port ← parse_decimal_port port_text;
  Some (name, port).

Definition port_matches_decimal (port : string) (expected : Z) : bool :=
  match parse_decimal_port port with
  | Some parsed => bool_decide (parsed = expected)
  | None => false
  end.

Definition backend_cluster_name_matches_ref (cluster_name name : string) (port : Z) : bool :=
  match Str.rsplit_once ":"%char cluster_name with
  | None => false
  | Some (cluster_name, cluster_port) =>
    bool_decide (cluster_name = name) && port_matches_decimal cluster_port port
  end.

Definition backend_cluster_matches_ref (cluster : BackendCluster) (namespace name : string)
    (port : Z) : bool :=
  bool_decide (bc_namespace cluster = namespace)
  && backend_cluster_name_matches_ref (bc_name cluster) name port.

(** ** Attachments of routes to listeners *)

Record RouteAttachmentListenerIndex := mkRouteAttachmentListenerIndex {
  rai_routes : StringMap (StringMap (list nat));
}.

Definition RouteAttachmentListenerIndex_default : RouteAttachmentListenerIndex :=
  mkRouteAttachmentListenerIndex ∅.

(** [routes.entry(namespace).or_default().entry(name).or_default().push(index)] *)
Definition push_attachment (routes : StringMap (StringMap (list nat)))
    (namespace name : string) (index : nat) : StringMap (StringMap (list nat)) :=
  let by_name := default ∅ (routes !! namespace) in
  <[namespace := <[name := default [] (by_name !! name) ++ [index]]> by_name]> routes.

Definition attach_route (listener_index : nat) (routes : StringMap (StringMap (list nat)))
    (attached_route : string) : StringMap (StringMap (list nat)) :=
  match Str.split_once "/"%char attached_route with
  | None => routes
  | Some (namespace, name) => push_attachment routes namespace name listener_index
  end.

Fixpoint attach_listeners (listener_index : nat) (listeners : list Listener)
    (routes : StringMap (StringMap (list nat))) : StringMap (StringMap (list nat)) :=
  match listeners with
  | [] => routes
  | listener :: listeners =>
    attach_listeners (S listener_index) listeners
      (foldl (attach_route listener_index) routes (l_attached_routes listener))
  end.

(** [Vec::dedup]: drop an element equal to the one kept before it. *)
Fixpoint dedup_from (last : nat) (l : list nat) : list nat :=
  match l with
  | [] => []
  | x :: l => if bool_decide (x = last) then dedup_from last l else x :: dedup_from x l
  end.
Definition dedup (l : list nat) : list nat :=
  match l with [] => [] | x :: l => x :: dedup_from x l end.

Definition sort_dedup (l : list nat) : list nat := dedup (merge_sort le l).

Definition from_listeners (listeners : list Listener) : RouteAttachmentListenerIndex :=
  mkRouteAttachmentListenerIndex
    ((fun by_name : StringMap (list nat) => sort_dedup <$> by_name)
       <$> attach_listeners 0 listeners ∅).

Definition listeners_for_route (self : RouteAttachmentListenerIndex) (namespace name : string) :
    option (list nat) :=
  routes ← rai_routes self !! namespace; routes !! name.

Definition contains_listener (self : RouteAttachmentListenerIndex) (namespace name : string)
    (listener_index : nat) : bool :=
  match listeners_for_route self namespace name with
  | Some listeners => is_inl (binary_search listeners listener_index)
  | None => false
  end.

Definition route_attachment_matches (attached route_namespace route_name : string) : bool :=
  match Str.split_once "/"%char attached with
  | Some (namespace, name) =>
    bool_decide (namespace = route_namespace) && bool_decide (name = route_name)
  | None => false
  end.

(** ** Services to backends *)

Record BackendServiceEntry := mkBackendServiceEntry {
  bse_namespace : string;
  bse_port : Z;
  bse_index : nat;
}.

Inductive BackendServiceBucket :=
  | Single (entry : BackendServiceEntry)
  | Many (entries : list BackendServiceEntry).

Record BackendServiceIndex := mkBackendServiceIndex {
  bsi_services : StringMap BackendServiceBucket;
}.

Definition BackendServiceIndex_default : BackendServiceIndex := mkBackendServiceIndex ∅.

Definition entry_matches (self : BackendServiceEntry) (namespace : string) (port : Z) : bool :=
  bool_decide (bse_namespace self = namespace) && bool_decide (bse_port self = port).

Definition set_entry_index (self : BackendServiceEntry) (index : nat) : BackendServiceEntry :=
  mkBackendServiceEntry (bse_namespace self) (bse_port self) index.

(** [entries.iter_mut().find(..)]: the first matching entry is updated in place,
    otherwise the new one is pushed. *)
Fixpoint upsert_entry (entries : list BackendServiceEntry) (entry : BackendServiceEntry) :
    list BackendServiceEntry :=
  match entries with
  | [] => [entry]
  | existing :: entries =>
    if entry_matches existing (bse_namespace entry) (bse_port entry)
    then set_entry_index existing (bse_index entry) :: entries
    else existing :: upsert_entry entries entry
  end.

Definition bucket_insert (self : BackendServiceBucket) (entry : BackendServiceEntry) :
    BackendServiceBucket :=
  match self with
  | Single existing =>
    if entry_matches existing (bse_namespace entry) (bse_port entry)
    then Single (set_entry_index existing (bse_index entry))
    else Many [existing; entry]
  | Many entries => Many (upsert_entry entries entry)
  end.

Definition bucket_index_for (self : BackendServiceBucket) (namespace : string) (port : Z) :
    option nat :=
  match self with
  | Single entry => if entry_matches entry namespace port then Some (bse_index entry) else None
  | Many entries =>
    bse_index <$> List.find (fun entry => entry_matches entry namespace port) entries
  end.

(** The loop with its early [return None] on a second namespace. *)
Fixpoint unique_namespace_loop (namespaces : list string) (namespace : option string) :
    option string :=
  match namespaces with
  | [] => namespace
  | n :: namespaces =>
    match namespace with
    | Some current =>
      if bool_decide (current = n) then unique_namespace_loop namespaces namespace else None
    | None => unique_namespace_loop namespaces (Some n)
    end
  end.

Definition bucket_unique_namespace (self : BackendServiceBucket) (port : Z) : option string :=
  match self with
  | Single entry => if bool_decide (bse_port entry = port) then Some (bse_namespace entry) else None
  | Many entries =>
    unique_namespace_loop
      (bse_namespace <$> List.filter (fun entry => bool_decide (bse_port entry = port)) entries)
      None
  end.

Definition service_insert (self : BackendServiceIndex) (namespace name : string) (port : Z)
    (index : nat) : BackendServiceIndex :=
  let entry := mkBackendServiceEntry namespace port index in
  mkBackendServiceIndex
    (<[name := match bsi_services self !! name with
               | None => Single entry
               | Some bucket => bucket_insert bucket entry
               end]> (bsi_services self)).

Definition index_for (self : BackendServiceIndex) (namespace name : string) (port : Z) :
    option nat :=
  bucket ← bsi_services self !! name; bucket_index_for bucket namespace port.

Definition unique_namespace (self : BackendServiceIndex) (name : string) (port : Z) :
    option string :=
  bucket ← bsi_services self !! name; bucket_unique_namespace bucket port.

(** The loop of [Snapshot::rebuild_runtime_indexes] over the backends. *)
Fixpoint index_backends (index : nat) (backends : list BackendCluster)
    (self : BackendServiceIndex) : BackendServiceIndex :=
  match backends with
  | [] => self
  | cluster :: backends =>
    index_backends (S index) backends
      match backend_cluster_service_key (bc_name cluster) with
      | None => self
      | Some (name, port) => service_insert self (bc_namespace cluster) name port index
      end
  end.

Definition build_backend_service_index (backends : list BackendCluster) : BackendServiceIndex :=
  index_backends 0 backends BackendServiceIndex_default.

(** [Snapshot::unique_backend_namespace_for_service]: the scan of the backends. *)
Definition service_namespaces (backends : list BackendCluster) (name : string) (port : Z) :
    list string :=
  omap (fun cluster =>
    match backend_cluster_service_key (bc_name cluster) with
    | Some (cluster_name, cluster_port) =>
      if bool_decide (cluster_name = name) && bool_decide (cluster_port = port)
      then Some (bc_namespace cluster) else None
    | None => None
    end) backends.

Definition unique_backend_namespace_for_service (backends : list BackendCluster)
    (name : string) (port : Z) : option string :=
  unique_namespace_loop (service_namespaces backends name port) None.

(** ** Stream routes of a listener *)

Definition stream_route_key (route : StreamRoute) : string :=
  (sr_namespace route +:+ "/" +:+ sr_name route)%string.

Definition listener_attaches_route (listener : Listener) (route : StreamRoute) : bool :=
  existsb (fun item => bool_decide (item = stream_route_key route)) (l_attached_routes listener).

Fixpoint stream_routes_by_name (index : nat) (routes : list StreamRoute)
    (m : StringMap (list nat)) : StringMap (list nat) :=
  match routes with
  | [] => m
  | route :: routes =>
    stream_routes_by_name (S index) routes
      (<[stream_route_key route := default [] (m !! stream_route_key route) ++ [index]]> m)
  end.

Definition stream_attached (by_name : StringMap (list nat)) (listener : Listener) : list nat :=
  l_attached_routes listener ≫= fun route_name => default [] (by_name !! route_name).

Definition build_stream_listener_route_index (listeners : list Listener)
    (routes : list StreamRoute) : StringMap (list nat) :=
  let by_name := stream_routes_by_name 0 routes ∅ in
  foldl (fun listener_index listener =>
    match stream_attached by_name listener with
    | [] => listener_index
    | attached => <[l_name listener := attached]> listener_index
    end) ∅ listeners.

(** ** The attachment index answers what a scan of the listeners answers *)

Lemma elem_of_dedup_from x last l : x ∈ last :: dedup_from last l <-> x ∈ last :: l.
Proof.
  revert last; induction l as [|y l IH]; intros last; simpl; [done|].
  case_bool_decide as Hy.
  - subst y. rewrite IH. rewrite !elem_of_cons. tauto.
  - rewrite (elem_of_cons (y :: dedup_from y l)), IH, (elem_of_cons (y :: l)). done.
Qed.

Lemma elem_of_sort_dedup x l : x ∈ sort_dedup l <-> x ∈ l.
Proof.
  unfold sort_dedup. rewrite <- (merge_sort_Permutation le l) at 2.
  destruct (merge_sort le l) as [|y k]; simpl; [done|]. apply elem_of_dedup_from.
Qed.

Lemma dedup_from_sorted last l :
  StronglySorted le (last :: l) -> StronglySorted le (last :: dedup_from last l).
Proof.
  revert last; induction l as [|y l IH]; intros last Hs; simpl; [done|].
  apply StronglySorted_inv in Hs as [Hs Hl]. apply Forall_cons_1 in Hl as [Hy Hl].
  case_bool_decide as E.
  - subst. by apply IH.
  - pose proof (IH _ Hs) as Hk. constructor; [done|]. constructor; [done|].
    apply list.Forall_forall. intros z Hz.
    destruct (proj1 (elem_of_cons l z y)) as [->|Hz']; [|done|].
    + apply elem_of_dedup_from. by right.
    + rewrite list.Forall_forall in Hl. by apply Hl.
Qed.

Lemma sort_dedup_sorted l : Sorted le (sort_dedup l).
Proof.
  apply StronglySorted_Sorted. unfold sort_dedup.
  assert (StronglySorted le (merge_sort le l)) as Hs.
  { apply Sorted_StronglySorted; [intros x y z; lia|]. apply Sorted_merge_sort. intros x y; lia. }
  destruct (merge_sort le l) as [|y k]; [done|]. by apply dedup_from_sorted.
Qed.

(** What the nested map holds for a route. *)
Definition attached_indices (routes : StringMap (StringMap (list nat))) (namespace name : string) :
    list nat :=
  default [] (by_name ← routes !! namespace; by_name !! name).

Lemma attached_indices_push routes namespace name i namespace' name' :
  attached_indices (push_attachment routes namespace name i) namespace' name'
  = attached_indices routes namespace' name'
    ++ (if bool_decide (namespace = namespace' /\ name = name') then [i] else []).
Proof.
  unfold attached_indices, push_attachment.
  destruct (decide (namespace = namespace')) as [<-|Hn].
  - rewrite lookup_insert_eq; simpl. destruct (decide (name = name')) as [<-|Hm].
    + rewrite lookup_insert_eq, bool_decide_eq_true_2 by done. simpl.
      destruct (routes !! namespace); simpl; [done|by rewrite lookup_empty].
    + rewrite lookup_insert_ne, bool_decide_eq_false_2, app_nil_r by naive_solver.
      destruct (routes !! namespace); simpl; [done|by rewrite lookup_empty].
  - rewrite lookup_insert_ne, bool_decide_eq_false_2, app_nil_r by naive_solver. done.
Qed.

Lemma elem_of_attach_routes i attached : forall routes namespace name k,
  k ∈ attached_indices (foldl (attach_route i) routes attached) namespace name <->
  k ∈ attached_indices routes namespace name
  \/ k = i /\ existsb (fun a => route_attachment_matches a namespace name) attached = true.
Proof.
  induction attached as [|a attached IH]; intros routes namespace name k; simpl.
  - split; [by left|]. by intros [?|[_ ?]].
  - rewrite IH, orb_true_iff. unfold attach_route, route_attachment_matches at 2.
    destruct (Str.split_once "/"%char a) as [[ns nm]|]; [|naive_solver].
    rewrite attached_indices_push, elem_of_app, andb_true_iff, !bool_decide_eq_true.
    case_bool_decide as Hb; rewrite ?list_elem_of_singleton, ?elem_of_nil; naive_solver.
Qed.

Lemma elem_of_attach_listeners listeners : forall n routes namespace name k,
  k ∈ attached_indices (attach_listeners n listeners routes) namespace name <->
  k ∈ attached_indices routes namespace name
  \/ n <= k /\ exists listener, listeners !! (k - n) = Some listener /\
      existsb (fun a => route_attachment_matches a namespace name) (l_attached_routes listener) = true.
Proof.
  induction listeners as [|l ls IH]; intros n routes namespace name k; simpl.
  - split; [by left|]. intros [?|(_ & ? & H & _)]; [done|]. by rewrite lookup_nil in H.
  - rewrite IH, elem_of_attach_routes. split.
    + intros [[?|[-> Hm]]|(Hk & l' & Hl & Hm)]; [by left| |].
      * right. split; [done|]. exists l. by rewrite Nat.sub_diag.
      * right. split; [lia|]. exists l'. by replace (k - n) with (S (k - S n)) by lia.
    + intros [?|(Hk & l' & Hl & Hm)]; [by left; left|].
      destruct (decide (k = n)) as [->|Hne].
      * rewrite Nat.sub_diag in Hl. simplify_eq/=. left. by right.
      * right. split; [lia|]. exists l'. by replace (k - n) with (S (k - S n)) in Hl by lia.
Qed.

Lemma contains_listener_scan listeners namespace name i :
  contains_listener (from_listeners listeners) namespace name i
  = match listeners !! i with
    | Some listener =>
      existsb (fun a => route_attachment_matches a namespace name) (l_attached_routes listener)
    | None => false
    end.
Proof.
  pose proof (elem_of_attach_listeners listeners 0 ∅ namespace name i) as Hin.
  unfold contains_listener, listeners_for_route, from_listeners; simpl.
  unfold attached_indices in Hin. rewrite !lookup_empty in Hin; simpl in Hin.
  rewrite Nat.sub_0_r, elem_of_nil in Hin. rewrite lookup_fmap.
  destruct (attach_listeners 0 listeners ∅ !! namespace) as [by_name|]; simpl in *.
  - rewrite lookup_fmap. destruct (by_name !! name) as [l|]; simpl in *.
    + rewrite binary_search_elem_of by apply sort_dedup_sorted.
      apply eq_iff_eq_true. rewrite bool_decide_eq_true, elem_of_sort_dedup, Hin.
      destruct (listeners !! i) as [li|]; naive_solver lia.
    + rewrite elem_of_nil in Hin. destruct (listeners !! i) as [li|] eqn:E; [|done].
      symmetry. apply not_true_iff_false. naive_solver lia.
  - rewrite elem_of_nil in Hin. destruct (listeners !! i) as [li|] eqn:E; [|done].
    symmetry. apply not_true_iff_false. naive_solver lia.
Qed.

(** ** The service index answers what a scan of the backends answers *)

Lemma entry_matches_iff e namespace port :
  entry_matches e namespace port = true <-> bse_namespace e = namespace /\ bse_port e = port.
Proof. unfold entry_matches. by rewrite andb_true_iff, !bool_decide_eq_true. Qed.

Lemma entry_matches_key e entry namespace port :
  entry_matches e (bse_namespace entry) (bse_port entry) = true ->
  entry_matches e namespace port = entry_matches entry namespace port.
Proof. intros [Hn Hp]%entry_matches_iff. unfold entry_matches. by rewrite Hn, Hp. Qed.

Lemma entry_matches_trans e entry namespace port :
  entry_matches e namespace port = true -> entry_matches entry namespace port = true ->
  entry_matches e (bse_namespace entry) (bse_port entry) = true.
Proof. rewrite !entry_matches_iff. intros [] []; split; congruence. Qed.

Lemma find_upsert entries entry namespace port :
  bse_index <$> List.find (fun e => entry_matches e namespace port) (upsert_entry entries entry)
  = if entry_matches entry namespace port then Some (bse_index entry)
    else bse_index <$> List.find (fun e => entry_matches e namespace port) entries.
Proof.
  induction entries as [|e entries IH]; simpl; [by destruct (entry_matches _ _ _)|].
  destruct (entry_matches e (bse_namespace entry) (bse_port entry)) eqn:E1; simpl.
  - assert (entry_matches (set_entry_index e (bse_index entry)) namespace port
      = entry_matches entry namespace port) as -> by (by apply (entry_matches_key e entry)).
    rewrite (entry_matches_key e entry namespace port) by done.
    by destruct (entry_matches entry namespace port).
  - destruct (entry_matches e namespace port) eqn:E2; [|done].
    destruct (entry_matches entry namespace port) eqn:E3; [|done].
    rewrite (entry_matches_trans e entry namespace port) in E1 by done. done.
Qed.

Lemma bucket_index_for_insert bucket entry namespace port :
  bucket_index_for (bucket_insert bucket entry) namespace port
  = if entry_matches entry namespace port then Some (bse_index entry)
    else bucket_index_for bucket namespace port.
Proof.
  destruct bucket as [e|entries]; [|apply find_upsert].
  pose proof (find_upsert [e] entry namespace port) as Hf. cbn [upsert_entry] in Hf. simpl.
  destruct (entry_matches e (bse_namespace entry) (bse_port entry)); simpl in *.
  - by destruct (entry_matches (set_entry_index _ _) _ _), (entry_matches entry _ _),
      (entry_matches e namespace port).
  - by destruct (entry_matches entry _ _), (entry_matches e namespace port).
Qed.

Lemma index_for_insert self namespace name port index namespace' name' port' :
  index_for (service_insert self namespace name port index) namespace' name' port'
  = if bool_decide (name = name') && bool_decide (namespace = namespace') && bool_decide (port = port')
    then Some index else index_for self namespace' name' port'.
Proof.
  unfold index_for, service_insert; simpl. destruct (decide (name = name')) as [<-|Hn].
  - rewrite lookup_insert_eq, bool_decide_eq_true_2 by done; simpl.
    destruct (bsi_services self !! name) as [bucket|]; simpl; [apply bucket_index_for_insert|done].
  - by rewrite lookup_insert_ne, bool_decide_eq_false_2 by done.
Qed.

(** The service key of a cluster, with its namespace. *)
Definition service_key (cluster : BackendCluster) : option (string * string * Z) :=
  '(name, port) ← backend_cluster_service_key (bc_name cluster);
  Some (bc_namespace cluster, name, port).

Lemma backend_cluster_matches_ref_iff cluster namespace name port :
  backend_cluster_matches_ref cluster namespace name port = true
  <-> service_key cluster = Some (namespace, name, port).
Proof.
  unfold backend_cluster_matches_ref, backend_cluster_name_matches_ref, service_key,
    backend_cluster_service_key, port_matches_decimal.
  rewrite andb_true_iff, bool_decide_eq_true.
  destruct (Str.rsplit_once ":"%char (bc_name cluster)) as [[n p]|]; simpl; [|naive_solver].
  rewrite andb_true_iff, bool_decide_eq_true.
  destruct (parse_decimal_port p) as [q|]; simpl; [|naive_solver].
  rewrite bool_decide_eq_true. naive_solver.
Qed.

(** No two backends have the same service key, as one Kubernetes service port
    makes one cluster. *)
Definition unique_service_keys (backends : list BackendCluster) : Prop :=
  forall i j c d k, backends !! i = Some c -> backends !! j = Some d ->
  service_key c = Some k -> service_key d = Some k -> i = j.

Lemma index_backends_lookup backends : forall n self namespace name port,
  index_for (index_backends n backends self) namespace name port
  = match last (omap (fun '(i, c) => if backend_cluster_matches_ref c namespace name port
                                     then Some i else None)
                (imap (fun i c => (n + i, c)) backends)) with
    | Some i => Some i
    | None => index_for self namespace name port
    end.
Proof.
  induction backends as [|c cs IH]; intros n self namespace name port; simpl; [done|].
  rewrite IH. replace (imap ((fun i c => (n + i, c)) ∘ S) cs) with (imap (fun i c => (S n + i, c)) cs).
  2:{ apply imap_ext. intros i x _. simpl. f_equal. lia. }
  set (rest := omap _ _). rewrite Nat.add_0_r.
  assert (Hs : index_for match backend_cluster_service_key (bc_name c) with
      | None => self
      | Some (nm, p) => service_insert self (bc_namespace c) nm p n end namespace name port
    = if backend_cluster_matches_ref c namespace name port then Some n
      else index_for self namespace name port).
  { pose proof (backend_cluster_matches_ref_iff c namespace name port) as Hk.
    unfold service_key in Hk. destruct (backend_cluster_service_key (bc_name c)) as [[nm p]|]; simpl in *.
    - rewrite index_for_insert. destruct (backend_cluster_matches_ref c namespace name port).
      + pose proof (proj1 Hk eq_refl) as [= <- <- <-]. by rewrite !bool_decide_eq_true_2.
      + destruct (bool_decide _ && _ && _) eqn:E; [|done]. bool_hyps. subst.
        by discriminate (proj2 Hk eq_refl).
    - destruct (backend_cluster_matches_ref c namespace name port); [by discriminate (proj1 Hk eq_refl)|done]. }
  rewrite Hs. destruct (backend_cluster_matches_ref c namespace name port); [|done].
  rewrite last_cons. fold rest. unfold rest, omap. by destruct (last _).
Qed.

Lemma last_elem {A} (l : list A) x : last l = Some x -> x ∈ l.
Proof. intros H. rewrite last_lookup in H. by eapply list_elem_of_lookup_2. Qed.

Lemma elem_of_matching_indices backends namespace name port i :
  i ∈ omap (fun '(i, c) => if backend_cluster_matches_ref c namespace name port
                           then Some i else None) (imap (fun i c => (0 + i, c)) backends) <->
  exists c, backends !! i = Some c /\ backend_cluster_matches_ref c namespace name port = true.
Proof.
  rewrite list_elem_of_omap. split.
  - intros ([j c] & Hj & Hm). apply list_elem_of_lookup in Hj as [k Hk].
    rewrite list_lookup_imap in Hk. destruct (backends !! k) eqn:E; simplify_eq/=.
    destruct (backend_cluster_matches_ref c namespace name port) eqn:Hc; simplify_eq. eauto.
  - intros (c & Hi & Hm). exists (i, c). rewrite Hm. split; [|done].
    apply list_elem_of_lookup. exists i. by rewrite list_lookup_imap, Hi.
Qed.

Lemma last_None {A} (l : list A) : last l = None -> l = [].
Proof. apply last_None. Qed.

Lemma find_first {A} (p : A -> bool) (l : list A) x :
  List.find p l = Some x ->
  exists i, l !! i = Some x /\ p x = true /\ forall j y, j < i -> l !! j = Some y -> p y = false.
Proof.
  induction l as [|y l IH]; simpl; [done|]. destruct (p y) eqn:E.
  - intros [= <-]. exists 0. split_and!; [done|done|lia].
  - intros Hf. destruct (IH Hf) as (i & Hi & Hp & Hj). exists (S i). split_and!; [done|done|].
    intros [|j] z Hlt Hz; simplify_eq/=; [done|]. apply (Hj j); [lia|done].
Qed.

(** With unique service keys the index finds the one backend a scan finds. *)
Lemma index_for_scan backends namespace name port :
  unique_service_keys backends ->
  (i ← index_for (build_backend_service_index backends) namespace name port;
   c ← backends !! i; Some (i, c))
  = List.find (fun '(_, c) => backend_cluster_matches_ref c namespace name port)
      (imap pair backends).
Proof.
  intros Hu. unfold build_backend_service_index. rewrite index_backends_lookup.
  pose proof (elem_of_matching_indices backends namespace name port) as Hin.
  set (l := omap _ _) in *.
  destruct (List.find _ (imap pair backends)) as [[i c]|] eqn:Ef.
  - apply find_first in Ef as (k & Hk & Hp & _). rewrite list_lookup_imap in Hk.
    destruct (backends !! k) as [d|] eqn:Ek; simplify_eq/=.
    destruct (last l) as [j|] eqn:El.
    + apply last_elem, Hin in El as (c' & Hc' & Hm'). simpl. rewrite Hc'; simpl.
      assert (j = i) as ->; [|congruence].
      eapply Hu; [exact Hc'|exact Ek|by apply backend_cluster_matches_ref_iff..].
    + apply last_None in El. destruct (not_elem_of_nil i). rewrite <- El. apply Hin. eauto.
  - destruct (last l) as [j|] eqn:El; [|done].
    apply last_elem, Hin in El as (c & Hc & Hm).
    pose proof (List.find_none _ _ Ef (j, c)) as Hn. simpl in Hn. rewrite Hm in Hn.
    discriminate Hn. apply list_elem_of_In, list_elem_of_lookup. exists j.
    by rewrite list_lookup_imap, Hc.
Qed.

(** *** Unique namespaces *)

Lemma unique_namespace_loop_Some l acc x :
  unique_namespace_loop l acc = Some x <->
  match acc with
  | Some a => a = x /\ Forall (eq x) l
  | None => l <> [] /\ Forall (eq x) l
  end.
Proof.
  revert acc; induction l as [|y l IH]; intros acc; simpl.
  - destruct acc; [|naive_solver]. split; [by intros [= ->]|by intros [-> _]].
  - destruct acc as [a|].
    + case_bool_decide as E; [subst; rewrite IH, Forall_cons; naive_solver|].
      rewrite Forall_cons. naive_solver.
    + rewrite IH, Forall_cons. naive_solver.
Qed.

(** The answer depends only on which namespaces occur. *)
Lemma unique_namespace_loop_set l k :
  (forall x, x ∈ l <-> x ∈ k) -> unique_namespace_loop l None = unique_namespace_loop k None.
Proof.
  intros Hlk. assert (forall x, unique_namespace_loop l None = Some x
    <-> unique_namespace_loop k None = Some x) as Hx.
  { intros x. rewrite !unique_namespace_loop_Some, !list.Forall_forall.
    assert (l = [] <-> k = []) as He.
    { split; intros ->; [destruct k as [|y k]|destruct l as [|y l]]; try done;
        destruct (not_elem_of_nil y); apply Hlk; by left. }
    rewrite He. setoid_rewrite Hlk. done. }
  destruct (unique_namespace_loop l None) as [x|]; [symmetry; by apply Hx|].
  destruct (unique_namespace_loop k None) as [x|]; [by apply Hx|done].
Qed.

Definition bucket_entries (bucket : BackendServiceBucket) : list BackendServiceEntry :=
  match bucket with Single e => [e] | Many entries => entries end.

Lemma bucket_unique_namespace_eq bucket port :
  bucket_unique_namespace bucket port
  = unique_namespace_loop
      (bse_namespace <$> List.filter (fun e => bool_decide (bse_port e = port)) (bucket_entries bucket))
      None.
Proof. destruct bucket as [e|]; simpl; [by case_bool_decide|done]. Qed.

(** The (namespace, port) pairs an index holds for a service name. *)
Definition holds_service (self : BackendServiceIndex) (name namespace : string) (port : Z) : Prop :=
  exists bucket e, bsi_services self !! name = Some bucket /\ e ∈ bucket_entries bucket
    /\ bse_namespace e = namespace /\ bse_port e = port.

Lemma elem_of_bucket_insert bucket entry namespace port :
  (exists e, e ∈ bucket_entries (bucket_insert bucket entry)
    /\ bse_namespace e = namespace /\ bse_port e = port) <->
  (exists e, e ∈ bucket_entries bucket /\ bse_namespace e = namespace /\ bse_port e = port)
  \/ bse_namespace entry = namespace /\ bse_port entry = port.
Proof.
  assert (Hup : forall entries,
    (exists e, e ∈ upsert_entry entries entry /\ bse_namespace e = namespace /\ bse_port e = port) <->
    (exists e, e ∈ entries /\ bse_namespace e = namespace /\ bse_port e = port)
    \/ bse_namespace entry = namespace /\ bse_port entry = port).
  { induction entries as [|e entries IH]; simpl.
    - setoid_rewrite list_elem_of_singleton. setoid_rewrite elem_of_nil. naive_solver.
    - destruct (entry_matches e _ _) eqn:E.
      + apply entry_matches_iff in E as [En Ep]. setoid_rewrite elem_of_cons. split.
        * intros (x & [->|Hx] & Hn & Hp); simpl in *; naive_solver.
        * intros [(x & [->|Hx] & Hn & Hp)|[Hn Hp]].
          -- exists (set_entry_index e (bse_index entry)). naive_solver.
          -- naive_solver.
          -- exists (set_entry_index e (bse_index entry)). simpl. split_and!; [by left|congruence..].
      + setoid_rewrite elem_of_cons. naive_solver. }
  destruct bucket as [e|entries]; [|apply Hup]. specialize (Hup [e]). simpl in *.
  by destruct (entry_matches e _ _).
Qed.

Lemma holds_service_insert self namespace name port index namespace' name' port' :
  holds_service (service_insert self namespace name port index) name' namespace' port' <->
  holds_service self name' namespace' port'
  \/ (name = name' /\ namespace = namespace' /\ port = port').
Proof.
  unfold holds_service, service_insert; simpl. destruct (decide (name = name')) as [<-|Hn].
  - rewrite lookup_insert_eq. destruct (bsi_services self !! name) as [bucket|].
    + pose proof (elem_of_bucket_insert bucket (mkBackendServiceEntry namespace port index)
        namespace' port'). naive_solver.
    + split.
      * intros (? & e & [= <-] & ->%list_elem_of_singleton & <- & <-). naive_solver.
      * intros [(? & ? & ? & ?)|(_ & <- & <-)]; [done|].
        eexists _, _. split_and!; [done|by apply list_elem_of_singleton|done|done].
  - rewrite lookup_insert_ne by done. naive_solver.
Qed.

Lemma holds_service_backends backends : forall n self name namespace port,
  holds_service (index_backends n backends self) name namespace port <->
  holds_service self name namespace port
  \/ namespace ∈ service_namespaces backends name port.
Proof.
  induction backends as [|c cs IH]; intros n self name namespace port; simpl.
  - rewrite elem_of_nil. tauto.
  - rewrite IH. fold (service_namespaces cs name port).
    destruct (backend_cluster_service_key (bc_name c)) as [[nm p]|]; [|done].
    rewrite holds_service_insert.
    destruct (bool_decide (nm = name) && bool_decide (p = port)) eqn:E.
    + bool_hyps. subst. rewrite elem_of_cons. naive_solver.
    + apply andb_false_iff in E. rewrite !bool_decide_eq_false in E. naive_solver.
Qed.

(** The namespace of a bare service name.  The service index knows a namespace
    for a name and port exactly when all backends of that name and port are in it,
    as the scan of the backends does. *)
Theorem unique_namespace_scan backends name port :
  unique_namespace (build_backend_service_index backends) name port
  = unique_backend_namespace_for_service backends name port.
Proof.
  pose proof (holds_service_backends backends 0 BackendServiceIndex_default name) as Hh.
  unfold unique_namespace, unique_backend_namespace_for_service, build_backend_service_index in *.
  unfold holds_service at 2 in Hh. simpl in Hh. rewrite lookup_empty in Hh.
  unfold holds_service in Hh.
  destruct (bsi_services (index_backends 0 backends BackendServiceIndex_default) !! name)
    as [bucket|] eqn:E; simpl.
  - rewrite bucket_unique_namespace_eq. apply unique_namespace_loop_set. intros namespace.
    specialize (Hh namespace port). rewrite list_elem_of_fmap.
    setoid_rewrite list_elem_of_In at 1. setoid_rewrite filter_In.
    setoid_rewrite <- list_elem_of_In. setoid_rewrite bool_decide_eq_true. naive_solver.
  - destruct (service_namespaces backends name port) as [|namespace l] eqn:En; [done|].
    specialize (Hh namespace port). rewrite En in Hh.
    destruct (proj2 Hh) as (? & ? & ? & _); [right; by left|done].
Qed.

(** The attachment index answers as a scan of the listeners.  A listener is
    among those of a route if and only if it lists the route among its attached
    routes; a listener that does not exist never is. *)
Theorem attachment_index_scan listeners namespace name i :
  contains_listener (from_listeners listeners) namespace name i
  = match listeners !! i with
    | Some listener =>
      existsb (fun a => route_attachment_matches a namespace name) (l_attached_routes listener)
    | None => false
    end.
Proof. apply contains_listener_scan. Qed.

(** The service index answers as a scan of the backends.  When no two backends
    have the same namespace, service name and port, the index returns the backend
    the scan returns, and none when there is none. *)
Theorem service_index_scan backends namespace name port :
  unique_service_keys backends ->
  (i ← index_for (build_backend_service_index backends) namespace name port;
   c ← backends !! i; Some (i, c))
  = List.find (fun '(_, c) => backend_cluster_matches_ref c namespace name port)
      (imap pair backends).
Proof. apply index_for_scan. Qed.

Definition witness_services : list BackendCluster :=
  [mkBackendCluster "a:80" "x" "" [] None None None None None;
   mkBackendCluster "a:80" "y" "" [] None None None None None].

Lemma service_index_scan_witness :
  fst <$> (i ← index_for (build_backend_service_index witness_services) "y" "a" 80;
           c ← witness_services !! i; Some (i, c)) = Some 1.
Proof.
  rewrite service_index_scan; [vm_compute; reflexivity|].
  intros i j c d k Hi Hj Hc Hd.
  destruct i as [|[|i]], j as [|[|j]]; try reflexivity; try discriminate Hi;
    try discriminate Hj; injection Hi as <-; injection Hj as <-; vm_compute in Hc, Hd; congruence.
Defined.

End RouteIndex.
