(* ===== verification/Decimal.v ===== *)
(** * Decimal text

    The digits that [Display] writes and [from_str] reads, the port texts of
    cluster names ([parse_decimal_port]), and the cluster names that references
    and services are looked up by. *)

From Stdlib Require Import ZArith Lia Ascii.
From stdpp Require Import base gmap strings numbers list.
From S2P Require Import Prelude Strs IrTypes Matching Scoring HostIndex RouteIndex.

Local Open Scope string_scope.
Local Open Scope list_scope.
Local Open Scope Z_scope.

Module Decimal.
Import RouteIndex.

Lemma digit_facts d :
  0 <= d < 10 -> Str.is_digit (Str.digit_char d) = true /\ Str.digit_value (Str.digit_char d) = d.
Proof.
  intros Hd. assert (d ∈ [0; 1; 2; 3; 4; 5; 6; 7; 8; 9]) as Hin by (rewrite !elem_of_cons; lia).
  rewrite !elem_of_cons, elem_of_nil in Hin. naive_solver.
Qed.

Lemma digit_range a : Str.is_digit a = true -> 0 <= Str.digit_value a < 10.
Proof.
  destruct a as [[] [] [] [] [] [] [] []]; intros H; try discriminate H; vm_compute; split; congruence.
Qed.

Lemma digit_value_inj a b :
  Str.is_digit a = true -> Str.is_digit b = true -> Str.digit_value a = Str.digit_value b -> a = b.
Proof.
  unfold Str.digit_value. intros _ _ Hv.
  rewrite <- (ascii_nat_embedding a), <- (ascii_nat_embedding b). f_equal. lia.
Qed.

(** A digit is read when the value stays in range. *)
Lemma parse_digit modulus acc a s :
  0 <= acc -> Str.is_digit a = true -> acc * 10 + Str.digit_value a < modulus ->
  Str.parse_digits modulus acc (String a s)
  = Str.parse_digits modulus (acc * 10 + Str.digit_value a) s.
Proof.
  intros Ha Hd Hb. pose proof (digit_range a Hd). cbn [Str.parse_digits]. rewrite Hd.
  unfold U.checked_mul, U.checked_add.
  rewrite bool_decide_eq_true_2 by lia. simpl. by rewrite bool_decide_eq_true_2 by lia.
Qed.

Lemma parse_digit_inv modulus acc a s n :
  Str.parse_digits modulus acc (String a s) = Some n ->
  Str.is_digit a = true
  /\ Str.parse_digits modulus (acc * 10 + Str.digit_value a) s = Some n.
Proof.
  cbn [Str.parse_digits]. destruct (Str.is_digit a); [|done].
  unfold U.checked_mul, U.checked_add. case_bool_decide; [|done]. simpl.
  by case_bool_decide.
Qed.

Lemma parse_dec_digits modulus fuel : forall n rest,
  0 <= n < 10 ^ Z.of_nat fuel -> n < modulus -> (0 < fuel)%nat ->
  Str.parse_digits modulus 0 (Str.dec_digits fuel n rest) = Str.parse_digits modulus n rest.
Proof.
  induction fuel as [|fuel IH]; intros n rest Hn Hm Hf; [lia|]. cbn [Str.dec_digits].
  pose proof (Z.mod_pos_bound n 10 ltac:(lia)) as Hmod.
  pose proof (Z.div_mod n 10 ltac:(lia)) as Hdm.
  destruct (digit_facts (n mod 10) Hmod) as [Hd Hv].
  rewrite Nat2Z.inj_succ, Z.pow_succ_r in Hn by lia.
  assert (0 <= n / 10) by (apply Z.div_pos; lia).
  case_bool_decide as Hz.
  - rewrite parse_digit; rewrite ?Hv; [f_equal|..|]; lia || done.
  - assert (n / 10 < 10 ^ Z.of_nat fuel) by (apply Z.div_lt_upper_bound; lia).
    assert (0 < fuel)%nat by (destruct fuel; simpl in *; lia).
    rewrite IH by lia. rewrite parse_digit; rewrite ?Hv; [f_equal|..|]; lia || done.
Qed.

(** What was read bounds the value by its number of digits. *)
Lemma parse_digits_bounds modulus s : forall acc n,
  Str.parse_digits modulus acc s = Some n ->
  acc * 10 ^ Z.of_nat (String.length s) <= n
  /\ n < (acc + 1) * 10 ^ Z.of_nat (String.length s).
Proof.
  induction s as [|a s IH]; intros acc n Hp; [simpl in *; simplify_eq; lia|].
  apply parse_digit_inv in Hp as [Hd Hp]. apply IH in Hp. pose proof (digit_range a Hd).
  cbn [String.length]. rewrite Nat2Z.inj_succ, Z.pow_succ_r by lia.
  set (k := 10 ^ Z.of_nat (String.length s)) in *. assert (0 < k) by (apply Z.pow_pos_nonneg; lia).
  nia.
Qed.

Lemma parse_digits_inj modulus s : forall t acc n,
  Str.parse_digits modulus acc s = Some n -> Str.parse_digits modulus acc t = Some n ->
  String.length s = String.length t -> s = t.
Proof.
  induction s as [|a s IH]; intros [|b t] acc n Hs Ht Hl; try done.
  apply parse_digit_inv in Hs as [Ha Hs]. apply parse_digit_inv in Ht as [Hb Ht].
  cbn [String.length] in Hl. apply Nat.succ_inj in Hl.
  pose proof (parse_digits_bounds _ _ _ _ Hs) as Bs. pose proof (parse_digits_bounds _ _ _ _ Ht) as Bt.
  rewrite <- Hl in Bt. set (k := 10 ^ Z.of_nat (String.length s)) in *.
  assert (0 < k) by (apply Z.pow_pos_nonneg; lia).
  assert (Str.digit_value a = Str.digit_value b) as Hv by nia.
  assert (a = b) as -> by (by apply digit_value_inj). f_equal. by eapply IH; [exact Hs|exact Ht|].
Qed.

(** Digits are counted as they are written. *)
Lemma digit_loop_count fuel : forall n c,
  decimal_digit_loop fuel n c = (decimal_digit_loop fuel n 0 + c)%nat.
Proof.
  induction fuel as [|fuel IH]; intros n c; cbn [decimal_digit_loop]; [done|].
  destruct (10 <=? n); [|done]. rewrite IH, (IH _ 1%nat). lia.
Qed.

Lemma dec_digits_length fuel : forall n rest,
  0 <= n < 10 ^ Z.of_nat (S fuel) ->
  String.length (Str.dec_digits (S fuel) n rest)
  = (S (decimal_digit_loop fuel n 0) + String.length rest)%nat.
Proof.
  induction fuel as [|fuel IH]; intros n rest Hn; cbn [Str.dec_digits decimal_digit_loop].
  - simpl in Hn. case_bool_decide; [done|]. rewrite Z.div_small in *; lia.
  - rewrite Nat2Z.inj_succ, Z.pow_succ_r in Hn by lia.
    assert (0 <= n / 10) by (apply Z.div_pos; lia).
    assert (n / 10 < 10 ^ Z.of_nat (S fuel)) by (apply Z.div_lt_upper_bound; lia).
    case_bool_decide as Hz; destruct (Z.leb_spec 10 n).
    + apply (Z.div_le_mono 10 n 10) in H1; [|lia]. rewrite Z.div_same in H1; lia.
    + done.
    + change (if bool_decide (n / 10 / 10 = 0) then ?x else ?y) with
        (Str.dec_digits (S fuel) (n / 10) (String (Str.digit_char (n mod 10)) rest)).
      rewrite IH by lia. rewrite (digit_loop_count _ _ 1). simpl. lia.
    + rewrite Z.div_small in Hz; lia.
Qed.

Lemma digit_loop_fuel fuel : forall fuel' n c,
  0 <= n < 10 ^ Z.of_nat (S fuel) -> (fuel <= fuel')%nat ->
  decimal_digit_loop fuel' n c = decimal_digit_loop fuel n c.
Proof.
  induction fuel as [|fuel IH]; intros fuel' n c Hn Hle.
  - simpl in Hn. destruct fuel'; [done|]. simpl. destruct (Z.leb_spec 10 n); [lia|done].
  - destruct fuel' as [|fuel']; [lia|]. cbn [decimal_digit_loop].
    destruct (10 <=? n); [|done]. apply IH; [|lia].
    rewrite Nat2Z.inj_succ, Z.pow_succ_r in Hn by lia.
    split; [apply Z.div_pos; lia|apply Z.div_lt_upper_bound; lia].
Qed.

Lemma u32_digits n : U.is_u32 n -> 0 <= n < 10 ^ Z.of_nat 10.
Proof. unfold U.is_u32, U.u32_modulus. intros Hn. change (10 ^ Z.of_nat 10) with 10000000000. lia. Qed.

Lemma to_string_length n :
  U.is_u32 n -> String.length (Str.to_string n) = decimal_digit_count n.
Proof.
  intros Hn. apply u32_digits in Hn as Hd. unfold Str.to_string, decimal_digit_count.
  rewrite dec_digits_length by (split; [lia|]; eapply Z.lt_trans; [apply Hd|done]).
  rewrite (digit_loop_fuel 9 19) by (done || lia). rewrite (digit_loop_count 9 n 1). simpl. lia.
Qed.

Lemma parse_to_string modulus n :
  0 <= n < modulus -> n < 10 ^ 20 -> Str.parse_digits modulus 0 (Str.to_string n) = Some n.
Proof. intros Hn Hd. unfold Str.to_string. rewrite parse_dec_digits by (simpl; lia). done. Qed.

Lemma parse_decimal_port_to_string n :
  U.is_u32 n -> parse_decimal_port (Str.to_string n) = Some n.
Proof.
  intros Hn. unfold parse_decimal_port. pose proof (to_string_length n Hn) as Hl.
  destruct (Str.is_empty (Str.to_string n)) eqn:E.
  { apply Str.is_empty_true in E. rewrite E in Hl. unfold decimal_digit_count in Hl.
    rewrite digit_loop_count in Hl. simpl in Hl. lia. }
  apply u32_digits in Hn as Hd. rewrite parse_to_string; [|exact Hn|].
  - simpl. by rewrite bool_decide_eq_true_2.
  - eapply Z.lt_trans; [apply Hd|done].
Qed.

Lemma parse_digits_range modulus s : forall acc n,
  0 <= acc < modulus -> Str.parse_digits modulus acc s = Some n -> 0 <= n < modulus.
Proof.
  induction s as [|a s IH]; intros acc n Ha Hp; [simpl in *; by simplify_eq|].
  cbn [Str.parse_digits] in Hp. destruct (Str.is_digit a) eqn:Ed; [|done].
  apply digit_range in Ed. unfold U.checked_mul, U.checked_add in Hp.
  case_bool_decide; [|done]. simpl in Hp. case_bool_decide; [|done]. simpl in Hp.
  eapply IH; [|exact Hp]. lia.
Qed.

Lemma parse_decimal_port_inv t n :
  parse_decimal_port t = Some n -> U.is_u32 n /\ t = Str.to_string n.
Proof.
  unfold parse_decimal_port. destruct (Str.is_empty t); [done|].
  destruct (Str.parse_digits U.u32_modulus 0 t) as [m|] eqn:Ep; [|done]. simpl.
  case_bool_decide as Hl; [|done]. intros [= <-].
  assert (U.is_u32 m) as Hm by (eapply parse_digits_range; [|exact Ep]; done).
  split; [done|]. eapply (parse_digits_inj U.u32_modulus t _ 0 m Ep).
  - apply parse_to_string; [done|]. apply u32_digits in Hm. eapply Z.lt_trans; [apply Hm|done].
  - by rewrite to_string_length.
Qed.

(** ** Names *)

Lemma rsplit_once_None c s : Str.contains_char c s = false -> Str.rsplit_once c s = None.
Proof.
  induction s as [|a s IH]; cbn [Str.contains_char Str.rsplit_once]; [done|].
  intros [Ha Hs]%orb_false_iff. by rewrite IH, Ha.
Qed.

Lemma rsplit_once_app c l r :
  Str.contains_char c r = false -> Str.rsplit_once c (l +:+ String c r)%string = Some (l, r).
Proof.
  intros Hr. induction l as [|a l IH].
  - rewrite Str.app_nil_l. cbn [Str.rsplit_once]. rewrite rsplit_once_None by done.
    by rewrite bool_decide_eq_true_2.
  - rewrite Str.app_cons. cbn [Str.rsplit_once]. by rewrite IH.
Qed.

Lemma rsplit_once_Some c s : forall l r,
  Str.rsplit_once c s = Some (l, r) -> s = (l +:+ String c r)%string.
Proof.
  induction s as [|a s IH]; intros l r; cbn [Str.rsplit_once]; [done|].
  destruct (Str.rsplit_once c s) as [[l' r']|].
  - intros [= <- <-]. rewrite Str.app_cons. f_equal. by apply IH.
  - case_bool_decide as E; [|done]. subst. by intros [= <- <-].
Qed.

Lemma dec_digits_chars c fuel : forall n rest,
  Str.is_digit c = false -> 0 <= n ->
  Str.contains_char c (Str.dec_digits fuel n rest) = Str.contains_char c rest.
Proof.
  induction fuel as [|fuel IH]; intros n rest Hc Hn; cbn [Str.dec_digits]; [done|].
  assert (Str.contains_char c (String (Str.digit_char (n mod 10)) rest)
    = Str.contains_char c rest) as Hs.
  { cbn [Str.contains_char]. rewrite bool_decide_eq_false_2; [done|]. intros <-.
    destruct (digit_facts (n mod 10)) as [Hd _]; [apply Z.mod_pos_bound; lia|congruence]. }
  case_bool_decide; [done|]. rewrite IH; [done|done|]. apply Z.div_pos; lia.
Qed.

(** The text of a service: [name:port]. *)
Definition service_text (name : string) (port : Z) : string :=
  (name +:+ String ":"%char (Str.to_string port))%string.

Lemma service_key_iff cluster namespace name port :
  service_key cluster = Some (namespace, name, port)
  <-> bc_namespace cluster = namespace /\ bc_name cluster = service_text name port
      /\ U.is_u32 port.
Proof.
  unfold service_key, backend_cluster_service_key, service_text. split.
  - destruct (Str.rsplit_once _ _) as [[l r]|] eqn:E; [|done]. simpl.
    destruct (parse_decimal_port r) as [p|] eqn:Ep; [|done]. simpl. intros [= <- <- <-].
    apply rsplit_once_Some in E. apply parse_decimal_port_inv in Ep as [Hp ->]. done.
  - intros (<- & -> & Hp). rewrite rsplit_once_app; simpl.
    + by rewrite parse_decimal_port_to_string.
    + unfold Str.to_string. by rewrite dec_digits_chars by (done || apply Hp).
Qed.

(** A namespace without a slash is read back from a name. *)
Lemma slash_inj x y u v :
  Str.contains_char "/"%char x = false -> Str.contains_char "/"%char y = false ->
  (x +:+ String "/"%char u)%string = (y +:+ String "/"%char v)%string -> x = y /\ u = v.
Proof.
  intros Hx Hy He.
  assert (Str.split_once "/"%char (x +:+ String "/"%char u)%string = Some (x, u)) as H1
    by (by apply Str.split_once_Some).
  assert (Str.split_once "/"%char (y +:+ String "/"%char v)%string = Some (y, v)) as H2
    by (by apply Str.split_once_Some).
  rewrite He in H1. rewrite H1 in H2. by simplify_eq.
Qed.

(** The port text of a cluster name is read back exactly.  The reader of
    [name:port] accepts a text if and only if it is the decimal form [Display]
    writes of a [u32], without signs, leading zeros or overflow, and returns that
    number. *)
Theorem parse_decimal_port_roundtrip t n :
  parse_decimal_port t = Some n <-> U.is_u32 n /\ t = Str.to_string n.
Proof.
  split; [apply parse_decimal_port_inv|]. intros [Hn ->]. by apply parse_decimal_port_to_string.
Qed.

End Decimal.
