(* ===== verification/RuntimeIds.v ===== *)
(** * Runtime identifiers

    [ntgw-ir/src/runtime_id.rs]: stable 64-bit FNV identifiers of the resources
    of a snapshot, the index from names to identifiers and back, and the
    hexadecimal form of an identifier. *)

From Stdlib Require Import ZArith Lia Ascii.
From stdpp Require Import base gmap strings numbers list.
From S2P Require Import Prelude Strs IrTypes EndpointRuntime.

Local Open Scope string_scope.
Local Open Scope list_scope.
Local Open Scope Z_scope.

Module RuntimeIds.
Import EndpointRuntime.

(** A [RuntimeId] is a [u64]. *)
Notation RuntimeId := Z (only parsing).

Definition FNV_OFFSET_BASIS : Z := 14695981039346656037.
Definition FNV_PRIME : Z := 1099511628211.

(** ** Hashing *)

Fixpoint string_bytes (s : string) : list Z :=
  match s with
  | EmptyString => []
  | String a s => Z.of_nat (nat_of_ascii a) :: string_bytes s
  end.

Definition write_bytes (hash : Z) (bytes : list Z) : Z :=
  foldl (fun hash byte => U.wrapping_mul64 (Z.lxor hash byte) FNV_PRIME) hash bytes.

(** [u64::to_le_bytes] *)
Fixpoint le_bytes (n : nat) (x : Z) : list Z :=
  match n with
  | O => []
  | S n => Z.land x 255 :: le_bytes n (Z.shiftr x 8)
  end.

Definition stable_runtime_id (parts : list string) : RuntimeId :=
  let hash :=
    foldl (fun hash part =>
      let hash := write_bytes hash (le_bytes 8 (Z.of_nat (String.length part))) in
      write_bytes hash (string_bytes part)) FNV_OFFSET_BASIS parts in
  Z.max hash 1.

(** ** Hexadecimal form *)

Definition hex_digit (d : Z) : ascii :=
  if d <? 10 then ascii_of_nat (48 + Z.to_nat d) else ascii_of_nat (87 + Z.to_nat d).

(** [{:016x}]: sixteen digits, the most significant first. *)
Fixpoint hex_digits (n : nat) (x : Z) : string :=
  match n with
  | O => EmptyString
  | S n => String (hex_digit (Z.land (Z.shiftr x (4 * Z.of_nat n)) 15)) (hex_digits n x)
  end.
Definition RuntimeId_to_string (id : RuntimeId) : string := hex_digits 16 id.

Definition hex_value (a : ascii) : option Z :=
  let n := Z.of_nat (nat_of_ascii a) in
  if Str.is_digit a then Some (n - 48)
  else if (97 <=? n) && (n <=? 102) then Some (n - 87)
  else if (65 <=? n) && (n <=? 70) then Some (n - 55)
  else None.

(** [u64::from_str_radix(_, 16)] on a string of hexadecimal digits. *)
Fixpoint from_str_radix16 (acc : Z) (s : string) : option Z :=
  match s with
  | EmptyString => Some acc
  | String a s =>
    d ← hex_value a;
    m ← U.checked_mul U.u64_modulus acc 16;
    n ← U.checked_add U.u64_modulus m d;
    from_str_radix16 n s
  end.

Definition parse_hex (value : string) : option RuntimeId :=
  let value := Str.trim value in
  if negb (bool_decide (String.length value = 16%nat))
     || Str.any_byte (fun a => bool_decide (hex_value a = None)) value
  then None
  else
    parsed ← from_str_radix16 0 value;
    if bool_decide (parsed = 0) then None else Some parsed.

(** ** The index *)

Inductive RuntimeResourceRef :=
  | RefListener (name : string)
  | RefHttpRoute (namespace name : string)
  | RefGrpcRoute (namespace name : string)
  | RefStreamRoute (kind namespace name : string)
  | RefHttpRule (namespace name : string) (rule_index : nat)
  | RefGrpcRule (namespace name : string) (rule_index : nat)
  | RefStreamRule (kind namespace name : string) (rule_index : nat)
  | RefBackend (name : string)
  | RefEndpoint (backend_name address : string) (port : Z).

Record RuntimeIdIndex := mkRuntimeIdIndex {
  ri_listeners : StringMap RuntimeId;
  ri_http_routes : StringMap RuntimeId;
  ri_grpc_routes : StringMap RuntimeId;
  ri_stream_routes : StringMap RuntimeId;
  ri_http_rules : StringMap RuntimeId;
  ri_grpc_rules : StringMap RuntimeId;
  ri_stream_rules : StringMap RuntimeId;
  ri_backends : StringMap RuntimeId;
  ri_endpoints : gmap EndpointRuntimeKey RuntimeId;
  ri_resource_refs : gmap Z RuntimeResourceRef;
}.

Definition RuntimeIdIndex_default : RuntimeIdIndex :=
  mkRuntimeIdIndex ∅ ∅ ∅ ∅ ∅ ∅ ∅ ∅ ∅ ∅.

Record SelectedBackendRuntimeIds := mkSelectedBackendRuntimeIds {
  sri_listener : option RuntimeId;
  sri_route : option RuntimeId;
  sri_rule : option RuntimeId;
  sri_backend : option RuntimeId;
  sri_endpoint : option RuntimeId;
}.

Definition namespaced_key (namespace name : string) : string :=
  (namespace +:+ "/" +:+ name)%string.

Definition canonical_stream_route_kind (kind : string) : string :=
  if bool_decide (kind ∈ ["ROUTE_KIND_TCP"; "TCP"; "TCPRoute"]) then "TCPRoute"
  else if bool_decide (kind ∈ ["ROUTE_KIND_UDP"; "UDP"; "UDPRoute"]) then "UDPRoute"
  else if bool_decide (kind ∈ ["ROUTE_KIND_TLS"; "TLS"; "TLSRoute"]) then "TLSRoute"
  else kind.

Definition stream_route_key (kind namespace name : string) : string :=
  (canonical_stream_route_kind kind +:+ "/" +:+ namespace +:+ "/" +:+ name)%string.

Definition index_text (rule_index : nat) : string := Str.to_string (Z.of_nat rule_index).

Definition rule_key (route_key : string) (rule_index : nat) : string :=
  (route_key +:+ "#rule-" +:+ index_text rule_index)%string.

(** A vacant entry is filled; an occupied one is kept (release builds do not
    run the [debug_assert_eq!]). *)
Definition insert_resource_ref (refs : gmap Z RuntimeResourceRef) (runtime_id : RuntimeId)
    (resource_ref : RuntimeResourceRef) : gmap Z RuntimeResourceRef :=
  match refs !! runtime_id with
  | None => <[runtime_id := resource_ref]> refs
  | Some _ => refs
  end.

Definition listener_id (name : string) : RuntimeId := stable_runtime_id ["listener"; name].
Definition http_route_id (namespace name : string) : RuntimeId :=
  stable_runtime_id ["http-route"; namespace; name].
Definition http_rule_id (namespace name : string) (i : nat) : RuntimeId :=
  stable_runtime_id ["http-rule"; namespace; name; index_text i].
Definition grpc_route_id (namespace name : string) : RuntimeId :=
  stable_runtime_id ["grpc-route"; namespace; name].
Definition grpc_rule_id (namespace name : string) (i : nat) : RuntimeId :=
  stable_runtime_id ["grpc-rule"; namespace; name; index_text i].
Definition stream_route_id (kind namespace name : string) : RuntimeId :=
  stable_runtime_id ["stream-route"; kind; namespace; name].
Definition stream_rule_id (kind namespace name : string) (i : nat) : RuntimeId :=
  stable_runtime_id ["stream-rule"; kind; namespace; name; index_text i].
Definition backend_id (backend_name : string) : RuntimeId :=
  stable_runtime_id ["backend"; backend_name].
Definition endpoint_id (backend_name : string) (endpoint : BackendEndpoint) : RuntimeId :=
  stable_runtime_id
    ["endpoint"; backend_name; be_address endpoint; Str.to_string (be_port endpoint)].

Definition add_listener (index : RuntimeIdIndex) (listener : Listener) : RuntimeIdIndex :=
  let runtime_id := listener_id (l_name listener) in
  {| ri_listeners := <[l_name listener := runtime_id]> (ri_listeners index);
     ri_http_routes := ri_http_routes index;
     ri_grpc_routes := ri_grpc_routes index;
     ri_stream_routes := ri_stream_routes index;
     ri_http_rules := ri_http_rules index;
     ri_grpc_rules := ri_grpc_rules index;
     ri_stream_rules := ri_stream_rules index;
     ri_backends := ri_backends index;
     ri_endpoints := ri_endpoints index;
     ri_resource_refs :=
       insert_resource_ref (ri_resource_refs index) runtime_id (RefListener (l_name listener)) |}.

(** The rule loops insert [n] rule identifiers and their references. *)
Definition add_rules (key : string) (rule_id : nat -> RuntimeId)
    (rule_ref : nat -> RuntimeResourceRef) (n : nat)
    (rules : StringMap RuntimeId) (refs : gmap Z RuntimeResourceRef) :
    StringMap RuntimeId * gmap Z RuntimeResourceRef :=
  foldl (fun '(rules, refs) i =>
    (<[rule_key key i := rule_id i]> rules, insert_resource_ref refs (rule_id i) (rule_ref i)))
    (rules, refs) (seq 0 n).

Definition add_http_route (index : RuntimeIdIndex) (route : HttpRoute) : RuntimeIdIndex :=
  let key := namespaced_key (hr_namespace route) (hr_name route) in
  let runtime_id := http_route_id (hr_namespace route) (hr_name route) in
  let refs := insert_resource_ref (ri_resource_refs index) runtime_id
                (RefHttpRoute (hr_namespace route) (hr_name route)) in
  let '(rules, refs) :=
    add_rules key (http_rule_id (hr_namespace route) (hr_name route))
      (RefHttpRule (hr_namespace route) (hr_name route)) (length (hr_rules route))
      (ri_http_rules index) refs in
  {| ri_listeners := ri_listeners index;
     ri_http_routes := <[key := runtime_id]> (ri_http_routes index);
     ri_grpc_routes := ri_grpc_routes index;
     ri_stream_routes := ri_stream_routes index;
     ri_http_rules := rules;
     ri_grpc_rules := ri_grpc_rules index;
     ri_stream_rules := ri_stream_rules index;
     ri_backends := ri_backends index;
     ri_endpoints := ri_endpoints index;
     ri_resource_refs := refs |}.

Definition add_grpc_route (index : RuntimeIdIndex) (route : GrpcRoute) : RuntimeIdIndex :=
  let key := namespaced_key (gr_namespace route) (gr_name route) in
  let runtime_id := grpc_route_id (gr_namespace route) (gr_name route) in
  let refs := insert_resource_ref (ri_resource_refs index) runtime_id
                (RefGrpcRoute (gr_namespace route) (gr_name route)) in
  let '(rules, refs) :=
    add_rules key (grpc_rule_id (gr_namespace route) (gr_name route))
      (RefGrpcRule (gr_namespace route) (gr_name route)) (length (gr_rules route))
      (ri_grpc_rules index) refs in
  {| ri_listeners := ri_listeners index;
     ri_http_routes := ri_http_routes index;
     ri_grpc_routes := <[key := runtime_id]> (ri_grpc_routes index);
     ri_stream_routes := ri_stream_routes index;
     ri_http_rules := ri_http_rules index;
     ri_grpc_rules := rules;
     ri_stream_rules := ri_stream_rules index;
     ri_backends := ri_backends index;
     ri_endpoints := ri_endpoints index;
     ri_resource_refs := refs |}.

Definition add_stream_route (index : RuntimeIdIndex) (route : StreamRoute) : RuntimeIdIndex :=
  let canonical_kind := canonical_stream_route_kind (sr_kind route) in
  let key := stream_route_key (sr_kind route) (sr_namespace route) (sr_name route) in
  let runtime_id := stream_route_id (sr_kind route) (sr_namespace route) (sr_name route) in
  let refs := insert_resource_ref (ri_resource_refs index) runtime_id
                (RefStreamRoute canonical_kind (sr_namespace route) (sr_name route)) in
  let '(rules, refs) :=
    add_rules key (stream_rule_id (sr_kind route) (sr_namespace route) (sr_name route))
      (RefStreamRule canonical_kind (sr_namespace route) (sr_name route))
      (length (sr_rules route)) (ri_stream_rules index) refs in
  {| ri_listeners := ri_listeners index;
     ri_http_routes := ri_http_routes index;
     ri_grpc_routes := ri_grpc_routes index;
     ri_stream_routes := <[key := runtime_id]> (ri_stream_routes index);
     ri_http_rules := ri_http_rules index;
     ri_grpc_rules := ri_grpc_rules index;
     ri_stream_rules := rules;
     ri_backends := ri_backends index;
     ri_endpoints := ri_endpoints index;
     ri_resource_refs := refs |}.

Definition add_endpoint (backend_name : string)
    (acc : gmap EndpointRuntimeKey RuntimeId * gmap Z RuntimeResourceRef)
    (endpoint : BackendEndpoint) :
    gmap EndpointRuntimeKey RuntimeId * gmap Z RuntimeResourceRef :=
  let '(endpoints, refs) := acc in
  let runtime_id := endpoint_id backend_name endpoint in
  (<[EndpointRuntimeKey_new backend_name endpoint := runtime_id]> endpoints,
   insert_resource_ref refs runtime_id
     (RefEndpoint backend_name (be_address endpoint) (be_port endpoint))).

Definition add_backend (index : RuntimeIdIndex) (backend : BackendCluster) : RuntimeIdIndex :=
  let backend_name := namespaced_key (bc_namespace backend) (bc_name backend) in
  let runtime_id := backend_id backend_name in
  let refs :=
    insert_resource_ref (ri_resource_refs index) runtime_id (RefBackend backend_name) in
  let '(endpoints, refs) :=
    foldl (add_endpoint backend_name) (ri_endpoints index, refs) (bc_endpoints backend) in
  {| ri_listeners := ri_listeners index;
     ri_http_routes := ri_http_routes index;
     ri_grpc_routes := ri_grpc_routes index;
     ri_stream_routes := ri_stream_routes index;
     ri_http_rules := ri_http_rules index;
     ri_grpc_rules := ri_grpc_rules index;
     ri_stream_rules := ri_stream_rules index;
     ri_backends := <[backend_name := runtime_id]> (ri_backends index);
     ri_endpoints := endpoints;
     ri_resource_refs := refs |}.

(** [RuntimeIdIndex::from_snapshot] reads these five lists of the snapshot. *)
Definition from_lists (listeners : list Listener) (http_routes : list HttpRoute)
    (grpc_routes : list GrpcRoute) (stream_routes : list StreamRoute)
    (backends : list BackendCluster) : RuntimeIdIndex :=
  let index := foldl add_listener RuntimeIdIndex_default listeners in
  let index := foldl add_http_route index http_routes in
  let index := foldl add_grpc_route index grpc_routes in
  let index := foldl add_stream_route index stream_routes in
  foldl add_backend index backends.

(** ** Lookups *)

Definition id_listener (self : RuntimeIdIndex) (listener_name : string) : option RuntimeId :=
  ri_listeners self !! listener_name.
Definition id_http_route (self : RuntimeIdIndex) (namespace name : string) : option RuntimeId :=
  ri_http_routes self !! namespaced_key namespace name.
Definition id_grpc_route (self : RuntimeIdIndex) (namespace name : string) : option RuntimeId :=
  ri_grpc_routes self !! namespaced_key namespace name.
Definition id_stream_route (self : RuntimeIdIndex) (kind namespace name : string) :
    option RuntimeId :=
  ri_stream_routes self !! stream_route_key kind namespace name.
Definition id_http_rule (self : RuntimeIdIndex) (namespace name : string) (rule_index : nat) :
    option RuntimeId :=
  ri_http_rules self !! rule_key (namespaced_key namespace name) rule_index.
Definition id_grpc_rule (self : RuntimeIdIndex) (namespace name : string) (rule_index : nat) :
    option RuntimeId :=
  ri_grpc_rules self !! rule_key (namespaced_key namespace name) rule_index.
Definition id_stream_rule (self : RuntimeIdIndex) (kind namespace name : string)
    (rule_index : nat) : option RuntimeId :=
  ri_stream_rules self !! rule_key (stream_route_key kind namespace name) rule_index.
Definition id_backend (self : RuntimeIdIndex) (backend_name : string) : option RuntimeId :=
  ri_backends self !! backend_name.
Definition id_endpoint (self : RuntimeIdIndex) (backend_name : string)
    (endpoint : BackendEndpoint) : option RuntimeId :=
  ri_endpoints self !! EndpointRuntimeKey_new backend_name endpoint.
Definition resource_ref (self : RuntimeIdIndex) (runtime_id : RuntimeId) :
    option RuntimeResourceRef :=
  ri_resource_refs self !! runtime_id.

Definition runtime_id_key (kind : RouteKind) : string :=
  match kind with
  | KindHttp => "http-route"
  | KindGrpc => "grpc-route"
  | KindTcp => "TCPRoute"
  | KindUdp => "UDPRoute"
  | KindTls => "TLSRoute"
  end.

Definition route_kind_runtime_id (self : RuntimeIdIndex) (selected : SelectedBackend) :
    option RuntimeId :=
  match sb_route_kind selected with
  | KindHttp => id_http_route self (sb_route_namespace selected) (sb_route_name selected)
  | KindGrpc => id_grpc_route self (sb_route_namespace selected) (sb_route_name selected)
  | kind =>
    id_stream_route self (runtime_id_key kind) (sb_route_namespace selected)
      (sb_route_name selected)
  end.

Definition rule_kind_runtime_id (self : RuntimeIdIndex) (selected : SelectedBackend) :
    option RuntimeId :=
  rule_index ← sb_rule_index selected;
  match sb_route_kind selected with
  | KindHttp => id_http_rule self (sb_route_namespace selected) (sb_route_name selected) rule_index
  | KindGrpc => id_grpc_rule self (sb_route_namespace selected) (sb_route_name selected) rule_index
  | kind =>
    id_stream_rule self (runtime_id_key kind) (sb_route_namespace selected)
      (sb_route_name selected) rule_index
  end.

Definition id_selected_backend (self : RuntimeIdIndex) (selected : SelectedBackend) :
    SelectedBackendRuntimeIds :=
  {| sri_listener := id_listener self (sb_listener_name selected);
     sri_route := route_kind_runtime_id self selected;
     sri_rule := rule_kind_runtime_id self selected;
     sri_backend := id_backend self (sb_backend_name selected);
     sri_endpoint := id_endpoint self (sb_backend_name selected) (sb_backend selected) |}.

(** ** The text of an id *)

Definition is_hex (a : ascii) : bool := negb (bool_decide (hex_value a = None)).

(** No whitespace begins or ends with a hexadecimal digit. *)
Lemma strip_hex a s :
  is_hex a = true ->
  Str.strip_any Str.ws_strings (String a s) = None
  /\ Str.strip_any Str.ws_strings_rev (String a s) = None.
Proof.
  destruct a as [[] [] [] [] [] [] [] []]; intros Ha; try discriminate Ha; split; reflexivity.
Qed.

Lemma rev_append_hex s : forall acc,
  Str.any_byte (fun a => negb (is_hex a)) (Str.rev_append_str s acc)
  = Str.any_byte (fun a => negb (is_hex a)) s || Str.any_byte (fun a => negb (is_hex a)) acc.
Proof.
  induction s as [|a s IH]; intros acc; simpl; [done|]. rewrite IH. simpl.
  by destruct (negb (is_hex a)), (Str.any_byte _ s).
Qed.

Lemma rev_append_rev s : forall acc e,
  Str.rev_append_str (Str.rev_append_str s acc) e = Str.rev_append_str acc (s +:+ e)%string.
Proof.
  induction s as [|a s IH]; intros acc e; [done|]. cbn [Str.rev_append_str].
  rewrite IH. cbn [Str.rev_append_str]. by rewrite Str.app_cons.
Qed.

Lemma trim_hex s : Str.any_byte (fun a => negb (is_hex a)) s = false -> Str.trim s = s.
Proof.
  intros Hs. unfold Str.trim, Str.trim_start.
  assert (forall t fuel ps, Str.any_byte (fun a => negb (is_hex a)) t = false ->
    ps = Str.ws_strings \/ ps = Str.ws_strings_rev -> Str.trim_start_loop ps fuel t = t) as Hl.
  { intros t fuel ps Ht Hps. destruct fuel; [done|]. cbn [Str.trim_start_loop].
    destruct t as [|a t]; [by destruct Hps as [-> | ->]|]. simpl in Ht.
    apply orb_false_iff in Ht as [Ha _]. apply negb_false_iff in Ha.
    destruct (strip_hex a t Ha) as [H1 H2]. by destruct Hps as [-> | ->]; rewrite ?H1, ?H2. }
  rewrite Hl by auto. unfold Str.trim_end. unfold Str.rev_str at 2.
  rewrite Hl by (rewrite ?rev_append_hex, ?Hs; auto). unfold Str.rev_str.
  rewrite rev_append_rev. cbn [Str.rev_append_str]. apply Str.append_nil_r.
Qed.

Lemma hex_digit_value d : 0 <= d < 16 -> hex_value (hex_digit d) = Some d.
Proof.
  intros Hd.
  assert (d ∈ [0; 1; 2; 3; 4; 5; 6; 7; 8; 9; 10; 11; 12; 13; 14; 15]) as Hin
    by (rewrite !elem_of_cons; lia).
  rewrite !elem_of_cons, elem_of_nil in Hin. naive_solver.
Qed.

Lemma hex_nibble x k : Z.land (Z.shiftr x (4 * Z.of_nat k)) 15 = (x / 16 ^ Z.of_nat k) mod 16.
Proof.
  rewrite (Z.land_ones _ 4), Z.shiftr_div_pow2 by lia. change (2 ^ 4) with 16. do 2 f_equal.
  change 16 with (2 ^ 4). by rewrite <- Z.pow_mul_r by lia.
Qed.

Lemma hex_digits_hex n x :
  Str.any_byte (fun a => negb (is_hex a)) (hex_digits n x) = false
  /\ String.length (hex_digits n x) = n.
Proof.
  induction n as [|n IH]; cbn [hex_digits Str.any_byte String.length]; [done|].
  destruct IH as [-> ->]. split; [|done]. rewrite hex_nibble, orb_false_r. unfold is_hex.
  by rewrite hex_digit_value by (apply Z.mod_pos_bound; lia).
Qed.

Lemma from_hex_digits x n : forall acc,
  0 <= acc -> acc * 16 ^ Z.of_nat n + x mod 16 ^ Z.of_nat n < U.u64_modulus ->
  from_str_radix16 acc (hex_digits n x) = Some (acc * 16 ^ Z.of_nat n + x mod 16 ^ Z.of_nat n).
Proof.
  induction n as [|n IH]; intros acc Ha Hb.
  { simpl. f_equal. rewrite Z.mod_1_r. lia. }
  cbn [hex_digits from_str_radix16]. rewrite hex_nibble.
  pose proof (Z.mod_pos_bound (x / 16 ^ Z.of_nat n) 16 ltac:(lia)) as Hd.
  rewrite hex_digit_value by done. simpl.
  rewrite Nat2Z.inj_succ, Z.pow_succ_r in Hb |- * by lia.
  set (k := 16 ^ Z.of_nat n) in *. assert (0 < k) as Hk by (apply Z.pow_pos_nonneg; lia).
  assert (x mod (16 * k) = k * ((x / k) mod 16) + x mod k) as Hx.
  { rewrite Z.mul_comm, Z.rem_mul_r by lia. lia. }
  pose proof (Z.mod_pos_bound x k Hk) as Hxk. rewrite Hx in Hb |- *.
  set (d := (x / k) mod 16) in *. unfold U.checked_mul, U.checked_add.
  rewrite bool_decide_eq_true_2 by nia. simpl. rewrite bool_decide_eq_true_2 by nia. simpl.
  rewrite IH by nia. f_equal. lia.
Qed.

Lemma any_byte_ext p q s : (forall a, p a = q a) -> Str.any_byte p s = Str.any_byte q s.
Proof. intros Hpq. induction s as [|a s IH]; simpl; [done|]. by rewrite Hpq, IH. Qed.

Lemma parse_hex_to_string id :
  0 < id < U.u64_modulus -> parse_hex (RuntimeId_to_string id) = Some id.
Proof.
  intros Hid. unfold parse_hex, RuntimeId_to_string. destruct (hex_digits_hex 16 id) as [Hh Hl].
  rewrite trim_hex by done. rewrite Hl, bool_decide_eq_true_2 by done. simpl negb. rewrite orb_false_l.
  replace (Str.any_byte (fun a => bool_decide (hex_value a = None)) (hex_digits 16 id)) with false.
  2: { rewrite <- Hh. apply any_byte_ext. intros a. unfold is_hex. by rewrite negb_involutive. }
  change (16 ^ Z.of_nat 16) with U.u64_modulus in *.
  rewrite from_hex_digits; [|lia|]; change (16 ^ Z.of_nat 16) with U.u64_modulus;
    rewrite Z.mod_small by lia; [|lia]. simpl. by rewrite bool_decide_eq_false_2 by lia.
Qed.

Lemma write_bytes_range bytes : forall hash,
  0 <= hash < U.u64_modulus -> 0 <= write_bytes hash bytes < U.u64_modulus.
Proof.
  unfold write_bytes. induction bytes as [|b bytes IH]; intros hash Hh; simpl; [done|].
  apply IH, U.wrap64_range.
Qed.

Lemma stable_runtime_id_range parts : 0 < stable_runtime_id parts < U.u64_modulus.
Proof.
  unfold stable_runtime_id.
  assert (forall parts hash, 0 <= hash < U.u64_modulus ->
    0 <= foldl (fun hash part => write_bytes (write_bytes hash
      (le_bytes 8 (Z.of_nat (String.length part)))) (string_bytes part)) hash parts < U.u64_modulus)
    as Hf.
  { clear. induction parts as [|p parts IH]; intros hash Hh; cbn [foldl]; [done|].
    apply IH. by do 2 apply write_bytes_range. }
  pose proof (Hf parts FNV_OFFSET_BASIS ltac:(by vm_compute)) as Hr.
  unfold U.u64_modulus in *. lia.
Qed.

(** A runtime id survives its text.  Every id the index gives out is a non-zero
    [u64], its text is sixteen hexadecimal digits, and reading the text back
    gives the id. *)
Theorem runtime_id_roundtrip parts :
  let id := stable_runtime_id parts in
  0 < id < U.u64_modulus /\ String.length (RuntimeId_to_string id) = 16%nat
  /\ parse_hex (RuntimeId_to_string id) = Some id.
Proof.
  intros id. pose proof (stable_runtime_id_range parts) as Hr. split_and!; [apply Hr..| |].
  - apply hex_digits_hex.
  - by apply parse_hex_to_string.
Qed.

End RuntimeIds.
