(* ===== verification/Snapshot.v ===== *)
(** * The snapshot

    The [Snapshot] struct of [ntgw-ir/src/types.rs] with the construction of its
    runtime indexes ([rebuild_runtime_indexes] and [rebuild_listener_indexes] of
    [snapshot.rs]), the lookups that use them, the service frontends of
    [mesh.rs], and the compiled plans of [http_fast_path.rs] and
    [stream_fast_path.rs].

    The serialised fields are the record [Snapshot]; the fields marked
    [#[serde(skip)]] that hold indexes are its sub-record [SnapshotIndexes], with
    those that [rebuild_listener_indexes] fills in [ListenerIndexes].  The
    selection cursors and the endpoint runtime store, which are shared between
    snapshots and change under a shared reference, are the [World] of the file
    Resolution. *)

From Stdlib Require Import ZArith Lia Ascii.
From stdpp Require Import base gmap strings numbers list.
From S2P Require Import Prelude Strs IrTypes Matching Scoring HostIndex EndpointRuntime RouteIndex RuntimeIds.

Local Open Scope string_scope.
Local Open Scope list_scope.

Module Snapshots.
Import Matching Scoring HostIndex EndpointRuntime RouteIndex RuntimeIds.

Record RequestMaterializationHints := mkRequestMaterializationHints {
  rmh_http_route_headers : bool;
  rmh_grpc_route_headers : bool;
  rmh_session_headers : bool;
  rmh_backend_hash_headers : bool;
  rmh_source_ip : bool;
}.

Definition requires_full_headers (self : RequestMaterializationHints) : bool :=
  rmh_http_route_headers self || rmh_grpc_route_headers self || rmh_session_headers self
  || rmh_backend_hash_headers self.

(** ** Compiled plans *)

Record CompiledHttpFastEndpoint := mkCompiledHttpFastEndpoint {
  cfe_endpoint : BackendEndpoint;
  cfe_runtime_id : option Z;
}.

Record CompiledHttpFastBackendRef := mkCompiledHttpFastBackendRef {
  cfb_backend_index : nat;
  cfb_backend_name : string;
  cfb_weight : Z;
  cfb_backend_runtime_id : option Z;
  cfb_endpoints : list CompiledHttpFastEndpoint;
}.

Record FastHttpRuleScore := mkFastHttpRuleScore {
  frs_path_rank : Z;
  frs_path_length : nat;
  frs_method_specified : bool;
}.

Record CompiledHttpFastMatch := mkCompiledHttpFastMatch {
  cfm_path : string;
  cfm_path_type : string;
  cfm_method : string;
  cfm_compiled_path_regex : option Regex;
  cfm_matched_http_path : MatchedHttpPath;
  cfm_score : FastHttpRuleScore;
}.

Record CompiledHttpFastRule := mkCompiledHttpFastRule {
  cfr_rule_index : nat;
  cfr_matches : list CompiledHttpFastMatch;
  cfr_default_matched_http_path : MatchedHttpPath;
  cfr_runtime_ids : SelectedBackendRuntimeIds;
  cfr_backend_refs : list CompiledHttpFastBackendRef;
}.

Record CompiledHttpFastRoute := mkCompiledHttpFastRoute {
  cfo_route_index : nat;
  cfo_route_name : string;
  cfo_route_namespace : string;
  cfo_route_annotations : StringMap string;
  cfo_eligible_rules : list CompiledHttpFastRule;
}.

Record CompiledHttpFastListener := mkCompiledHttpFastListener {
  cfl_name : string;
  cfl_protocol : string;
  cfl_runtime_id : option Z;
  cfl_has_backend_tls : bool;
}.

Record HttpFastPathPlan := mkHttpFastPathPlan {
  hfp_listeners : list CompiledHttpFastListener;
  hfp_routes : list CompiledHttpFastRoute;
  hfp_route_plan_indices : list (option nat);
  hfp_selection_safe : bool;
}.
Definition HttpFastPathPlan_default : HttpFastPathPlan := mkHttpFastPathPlan [] [] [] false.

Record CompiledStreamFastRule := mkCompiledStreamFastRule {
  csr_rule_index : nat;
  csr_backend_refs : list CompiledHttpFastBackendRef;
}.
Record CompiledStreamFastRoute := mkCompiledStreamFastRoute {
  cso_rules : list CompiledStreamFastRule;
}.
Record StreamFastPathPlan := mkStreamFastPathPlan {
  sfp_routes : list (option CompiledStreamFastRoute);
  sfp_route_count : nat;
  sfp_eligible_rule_count : nat;
  sfp_compiled_backend_ref_count : nat;
}.
Definition StreamFastPathPlan_default : StreamFastPathPlan := mkStreamFastPathPlan [] 0 0 0.

(** ** The snapshot *)

Record ListenerIndexes := mkListenerIndexes {
  li_listener_name_index : StringMap nat;
  li_http_listener_indices : list nat;
  li_grpc_listener_indices : list nat;
  li_http_listener_port_index : gmap Z (list nat);
  li_grpc_listener_port_index : gmap Z (list nat);
  li_frontend_client_certificate_index : StringMap FrontendClientCertificateRequirement;
  li_service_frontend_index : StringMap ServiceFrontendRef;
  li_service_frontend_listener_port_index : gmap Z (list nat);
  li_service_frontend_attachment_index : StringMap (gset string);
}.
Definition ListenerIndexes_default : ListenerIndexes := mkListenerIndexes ∅ [] [] ∅ ∅ ∅ ∅ ∅ ∅.

Record SnapshotIndexes := mkSnapshotIndexes {
  ix_runtime_ids : RuntimeIdIndex;
  ix_backend_names : list string;
  ix_backend_index : StringMap nat;
  ix_backend_service_index : BackendServiceIndex;
  ix_secret_index : StringMap nat;
  ix_workload_namespace_index : StringMap string;
  ix_listeners : ListenerIndexes;
  ix_route_attachment_listener_index : RouteAttachmentListenerIndex;
  ix_http_route_hostname_index : HostnameRouteIndex;
  ix_grpc_route_hostname_index : HostnameRouteIndex;
  ix_stream_listener_route_index : StringMap (list nat);
  ix_request_materialization : RequestMaterializationHints;
  ix_http_fast_path : HttpFastPathPlan;
  ix_stream_fast_path : StreamFastPathPlan;
  ix_runtime_indexes_ready : bool;
}.
Definition SnapshotIndexes_default : SnapshotIndexes :=
  mkSnapshotIndexes RuntimeIdIndex_default [] ∅ BackendServiceIndex_default ∅ ∅
    ListenerIndexes_default RouteAttachmentListenerIndex_default HostnameRouteIndex_default
    HostnameRouteIndex_default ∅ (mkRequestMaterializationHints false false false false false)
    HttpFastPathPlan_default StreamFastPathPlan_default false.

Record Snapshot := mkSnapshot {
  sn_id : string;
  sn_listeners : list Listener;
  sn_http_routes : list HttpRoute;
  sn_grpc_routes : list GrpcRoute;
  sn_stream_routes : list StreamRoute;
  sn_backends : list BackendCluster;
  sn_backend_policies : StringMap BackendPolicy;
  sn_secrets : list SecretMaterial;
  sn_workloads : list Workload;
  sn_indexes : SnapshotIndexes;
}.

Definition sn_ready (self : Snapshot) : bool := ix_runtime_indexes_ready (sn_indexes self).

Definition set_indexes (self : Snapshot) (indexes : SnapshotIndexes) : Snapshot :=
  mkSnapshot (sn_id self) (sn_listeners self) (sn_http_routes self) (sn_grpc_routes self)
    (sn_stream_routes self) (sn_backends self) (sn_backend_policies self) (sn_secrets self)
    (sn_workloads self) indexes.

(** ** Service frontends *)

Definition FRONTEND_KIND_METADATA_KEY : string := "nantian.dev/frontend-kind".
Definition FRONTEND_NAMESPACE_METADATA_KEY : string := "nantian.dev/frontend-namespace".
Definition FRONTEND_NAME_METADATA_KEY : string := "nantian.dev/frontend-name".
Definition FRONTEND_PORT_METADATA_KEY : string := "nantian.dev/frontend-port".
Definition FRONTEND_KIND_SERVICE : string := "Service".

Definition service_frontend (listener : Listener) : option ServiceFrontendRef :=
  if negb (bool_decide
        (l_metadata listener !! FRONTEND_KIND_METADATA_KEY = Some FRONTEND_KIND_SERVICE))
  then None
  else
    namespace ← l_metadata listener !! FRONTEND_NAMESPACE_METADATA_KEY;
    name ← l_metadata listener !! FRONTEND_NAME_METADATA_KEY;
    port_text ← l_metadata listener !! FRONTEND_PORT_METADATA_KEY;
    port ← Str.parse_u32 port_text;
    Some (mkServiceFrontendRef namespace name port).

Definition is_service_parent (parent_ref : ParentRef) : bool :=
  Str.is_empty (pr_group parent_ref)
  && bool_decide (pr_kind parent_ref = FRONTEND_KIND_SERVICE).

Definition service_frontend_for_listener (self : Snapshot) (listener : Listener) :
    option ServiceFrontendRef :=
  if sn_ready self
  then li_service_frontend_index (ix_listeners (sn_indexes self)) !! l_name listener
  else service_frontend listener.

Definition parent_matches_frontend (route_namespace : string) (frontend : ServiceFrontendRef)
    (parent_ref : ParentRef) : bool :=
  let parent_namespace :=
    if Str.is_empty (pr_namespace parent_ref) then route_namespace else pr_namespace parent_ref in
  negb (negb (bool_decide (parent_namespace = sf_namespace frontend))
        || negb (bool_decide (pr_name parent_ref = sf_name frontend))
        || (negb (bool_decide (pr_port parent_ref = 0%Z))
            && negb (bool_decide (pr_port parent_ref = sf_port frontend)))).

(** The loop returns [true] at the first parent that matches, and [true] is also
    what follows the loop. *)
Fixpoint accepts_service_frontend_loop (parent_refs : list ParentRef) (route_namespace : string)
    (frontend : ServiceFrontendRef) : bool :=
  match parent_refs with
  | [] => true
  | parent_ref :: parent_refs =>
    if negb (is_service_parent parent_ref)
    then accepts_service_frontend_loop parent_refs route_namespace frontend
    else if negb (parent_matches_frontend route_namespace frontend parent_ref)
    then accepts_service_frontend_loop parent_refs route_namespace frontend
    else true
  end.

Definition route_accepts_service_frontend (snapshot : Snapshot) (parent_refs : list ParentRef)
    (route_namespace : string) (listener : Listener) : bool :=
  match service_frontend_for_listener snapshot listener with
  | None => true
  | Some frontend => accepts_service_frontend_loop parent_refs route_namespace frontend
  end.

(** ** Listener protocols *)

Definition is_http_listener (protocol : string) : bool :=
  bool_decide (protocol ∈ ["LISTENER_PROTOCOL_HTTP"; "LISTENER_PROTOCOL_HTTPS";
    "LISTENER_PROTOCOL_HTTP3"; "HTTP"; "HTTPS"; "HTTP3"]).
Definition is_grpc_listener (protocol : string) : bool :=
  bool_decide (protocol ∈ ["LISTENER_PROTOCOL_GRPC"; "LISTENER_PROTOCOL_HTTP";
    "LISTENER_PROTOCOL_HTTPS"; "GRPC"; "HTTP"; "HTTPS"]).
Definition is_https_listener (protocol : string) : bool :=
  bool_decide (protocol ∈ ["LISTENER_PROTOCOL_HTTPS"; "HTTPS"]).

(** ** Client certificates *)

Definition FRONTEND_VALIDATION_REJECT_MODE : string := "RejectClientCertificate".
Definition FRONTEND_VALIDATION_ALLOW_INSECURE_FALLBACK_MODE : string := "AllowInsecureFallback".

Definition listener_frontend_client_certificate_requirement (listener : Listener) :
    FrontendClientCertificateRequirement :=
  match tls ← l_tls listener; tls_frontend_validation tls with
  | None => CertNone
  | Some validation =>
    let mode := Str.trim (fv_mode validation) in
    if bool_decide (mode = FRONTEND_VALIDATION_REJECT_MODE) then CertReject
    else if bool_decide (mode = FRONTEND_VALIDATION_ALLOW_INSECURE_FALLBACK_MODE) then CertNone
    else match fv_ca_pems validation with [] => CertNone | _ => CertRequire end
  end.

Definition closes_connection_without_valid_client_certificate
    (self : FrontendClientCertificateRequirement) (client_certificate_present : bool) : bool :=
  match self with
  | CertNone => false
  | CertReject => true
  | CertRequire => negb client_certificate_present
  end.

Definition frontend_client_certificate_requirement (self : Snapshot) (listener_name : string) :
    FrontendClientCertificateRequirement :=
  if Str.is_empty listener_name then CertNone
  else default CertNone
    (li_frontend_client_certificate_index (ix_listeners (sn_indexes self)) !! listener_name).

Definition listener_requires_frontend_client_certificate_close (self : Snapshot)
    (listener_name : string) (client_certificate_present : bool) : bool :=
  closes_connection_without_valid_client_certificate
    (frontend_client_certificate_requirement self listener_name) client_certificate_present.

(** ** The listener indexes *)

Definition push_port (m : gmap Z (list nat)) (port : Z) (index : nat) : gmap Z (list nat) :=
  <[port := default [] (m !! port) ++ [index]]> m.

Definition index_listener (ix : ListenerIndexes) (index : nat) (listener : Listener) :
    ListenerIndexes :=
  let frontend := service_frontend listener in
  let requirement := listener_frontend_client_certificate_requirement listener in
  let http := is_http_listener (l_protocol listener) in
  let grpc := is_grpc_listener (l_protocol listener) in
  {| li_listener_name_index :=
       match li_listener_name_index ix !! l_name listener with
       | Some _ => li_listener_name_index ix
       | None => <[l_name listener := index]> (li_listener_name_index ix)
       end;
     li_http_listener_indices :=
       if http then li_http_listener_indices ix ++ [index] else li_http_listener_indices ix;
     li_grpc_listener_indices :=
       if grpc then li_grpc_listener_indices ix ++ [index] else li_grpc_listener_indices ix;
     li_http_listener_port_index :=
       if http then push_port (li_http_listener_port_index ix) (l_port listener) index
       else li_http_listener_port_index ix;
     li_grpc_listener_port_index :=
       if grpc then push_port (li_grpc_listener_port_index ix) (l_port listener) index
       else li_grpc_listener_port_index ix;
     li_frontend_client_certificate_index :=
       if bool_decide (requirement = CertNone) then li_frontend_client_certificate_index ix
       else <[l_name listener := requirement]> (li_frontend_client_certificate_index ix);
     li_service_frontend_index :=
       match frontend with
       | Some frontend => <[l_name listener := frontend]> (li_service_frontend_index ix)
       | None => li_service_frontend_index ix
       end;
     li_service_frontend_listener_port_index :=
       match frontend with
       | Some _ => push_port (li_service_frontend_listener_port_index ix) (l_port listener) index
       | None => li_service_frontend_listener_port_index ix
       end;
     li_service_frontend_attachment_index :=
       match frontend, l_attached_routes listener with
       | Some frontend, _ :: _ =>
         <[sf_namespace frontend :=
             {[sf_name frontend]}
             ∪ default ∅ (li_service_frontend_attachment_index ix !! sf_namespace frontend)]>
           (li_service_frontend_attachment_index ix)
       | _, _ => li_service_frontend_attachment_index ix
       end |}.

Fixpoint index_listeners (index : nat) (listeners : list Listener) (ix : ListenerIndexes) :
    ListenerIndexes :=
  match listeners with
  | [] => ix
  | listener :: listeners =>
    index_listeners (S index) listeners (index_listener ix index listener)
  end.

Definition rebuild_listener_indexes (listeners : list Listener) : ListenerIndexes :=
  index_listeners 0 listeners ListenerIndexes_default.

(** ** Request materialisation hints *)

Definition consistent_hash_key_type (policy : BackendPolicy) : option string :=
  load_balancing ← bp_load_balancing policy;
  if bool_decide (lb_policy_type load_balancing = "ConsistentHash")
  then ch_key_type <$> lb_consistent_hash load_balancing else None.

Definition any_policy (policies : StringMap BackendPolicy) (p : BackendPolicy -> bool) : bool :=
  existsb p (map_to_list policies).*2.

Definition build_request_materialization_hints (snapshot : Snapshot) :
    RequestMaterializationHints :=
  let http_route_headers :=
    existsb (fun route => existsb (fun rule =>
      existsb (fun matcher => negb (bool_decide (length (hm_headers matcher) = 0)))
        (hru_matches rule)) (hr_rules route)) (sn_http_routes snapshot) in
  let grpc_route_headers :=
    existsb (fun route => existsb (fun rule =>
      existsb (fun matcher => negb (bool_decide (length (gm_headers matcher) = 0)))
        (gru_matches rule)) (gr_rules route)) (sn_grpc_routes snapshot) in
  let route_session_headers :=
    existsb (fun route => existsb (fun rule =>
      bool_decide (is_Some (hru_session_persistence rule))) (hr_rules route))
      (sn_http_routes snapshot)
    || existsb (fun route => existsb (fun rule =>
         bool_decide (is_Some (gru_session_persistence rule))) (gr_rules route))
         (sn_grpc_routes snapshot) in
  let policies := sn_backend_policies snapshot in
  let policy_session_headers :=
    any_policy policies (fun policy => bool_decide (is_Some (bp_session_persistence policy))) in
  let backend_hash_headers :=
    any_policy policies (fun policy =>
      bool_decide (consistent_hash_key_type policy = Some "Header")) in
  let backend_hash_source_ip :=
    any_policy policies (fun policy =>
      bool_decide (consistent_hash_key_type policy = Some "SourceIP")) in
  let mesh_source_ip := negb (bool_decide (length (sn_workloads snapshot) = 0)) in
  {| rmh_http_route_headers := http_route_headers;
     rmh_grpc_route_headers := grpc_route_headers;
     rmh_session_headers := route_session_headers || policy_session_headers;
     rmh_backend_hash_headers := backend_hash_headers;
     rmh_source_ip := backend_hash_source_ip || mesh_source_ip |}.

(** ** Lookups *)

Definition listener_by_name (self : Snapshot) (listener_name : string) : option Listener :=
  if sn_ready self then
    index ← li_listener_name_index (ix_listeners (sn_indexes self)) !! listener_name;
    sn_listeners self !! index
  else List.find (fun listener => bool_decide (l_name listener = listener_name)) (sn_listeners self).

Definition secret_material (self : Snapshot) (namespace name : string) : option SecretMaterial :=
  let scan :=
    List.find (fun secret => bool_decide (sec_namespace secret = namespace)
                             && bool_decide (sec_name secret = name)) (sn_secrets self) in
  if sn_ready self then
    match index ← ix_secret_index (sn_indexes self) !! namespaced_key namespace name;
          sn_secrets self !! index with
    | Some secret => Some secret
    | None => scan
    end
  else scan.

Definition source_namespace (self : Snapshot) (request : RequestMeta) : option string :=
  source_ip ← rq_source_ip request;
  let scan :=
    w_namespace <$> List.find (fun workload => bool_decide (w_ip workload = source_ip))
      (sn_workloads self) in
  if sn_ready self then
    match ix_workload_namespace_index (sn_indexes self) !! source_ip with
    | Some namespace => Some namespace
    | None => scan
    end
  else scan.

Definition backend_policy (self : Snapshot) (backend_name : string) : option BackendPolicy :=
  sn_backend_policies self !! backend_name.

Definition backend_session_persistence (self : Snapshot) (backend_name : string) :
    option SessionPersistence :=
  policy ← backend_policy self backend_name; bp_session_persistence policy.

Definition backend_load_balancing (self : Snapshot) (backend_name : string) :
    option LoadBalancingPolicy :=
  policy ← backend_policy self backend_name; bp_load_balancing policy.

Definition backend_cluster_by_name (self : Snapshot) (backend_name : string) :
    option BackendCluster :=
  let scan :=
    '(namespace, name) ← Str.split_once "/"%char backend_name;
    List.find (fun cluster => bool_decide (bc_namespace cluster = namespace)
                              && bool_decide (bc_name cluster = name)) (sn_backends self) in
  if sn_ready self then
    match index ← ix_backend_index (sn_indexes self) !! backend_name;
          sn_backends self !! index with
    | Some cluster => Some cluster
    | None => scan
    end
  else scan.

Definition backend_protocol (self : Snapshot) (backend_name : string) : option string :=
  bc_protocol <$> backend_cluster_by_name self backend_name.

Definition backend_namespace_for_service (self : Snapshot) (name : string) (port : Z) :
    option string :=
  if Str.is_empty name then None
  else if sn_ready self
  then unique_namespace (ix_backend_service_index (sn_indexes self)) name port
  else unique_backend_namespace_for_service (sn_backends self) name port.

Definition backend_cluster_for_service_index (self : Snapshot) (namespace name : string)
    (port : Z) : option (nat * BackendCluster) :=
  if sn_ready self then
    index ← index_for (ix_backend_service_index (sn_indexes self)) namespace name port;
    cluster ← sn_backends self !! index;
    Some (index, cluster)
  else
    List.find (fun '(_, cluster) => backend_cluster_matches_ref cluster namespace name port)
      (imap pair (sn_backends self)).

Definition backend_cluster_for_service (self : Snapshot) (namespace name : string) (port : Z) :
    option BackendCluster :=
  snd <$> backend_cluster_for_service_index self namespace name port.

Definition backend_name_for_index (self : Snapshot) (index : nat) (cluster : BackendCluster) :
    string :=
  if sn_ready self then
    match ix_backend_names (sn_indexes self) !! index with
    | Some backend_name => backend_name
    | None => backend_cluster_name cluster
    end
  else backend_cluster_name cluster.

(** ** Backend references *)

Definition BACKEND_REF_META_VALID : string := "nantian.dev/backend-ref-valid".

Definition backend_ref_is_routable (backend_ref : BackendRef) : bool :=
  if bool_decide (br_metadata backend_ref !! BACKEND_REF_META_VALID = Some "false") then false
  else bool_decide ((br_group backend_ref, br_kind backend_ref)
         ∈ [("", ""); ("", "Service"); ("multicluster.x-k8s.io", "ServiceImport")]).

Definition backend_ref_name (backend_ref : BackendRef) : string :=
  (br_namespace backend_ref +:+ "/" +:+ br_name backend_ref +:+ ":"
     +:+ Str.to_string (br_port backend_ref))%string.

(** ** Construction of the plans *)

Definition compile_http_fast_backend_ref (self : Snapshot) (backend_ref : BackendRef) :
    option CompiledHttpFastBackendRef :=
  if bool_decide (br_weight backend_ref = 0%Z) || negb (backend_ref_is_routable backend_ref)
  then None
  else
    backend_index ← ix_backend_index (sn_indexes self) !! backend_ref_name backend_ref;
    cluster ← sn_backends self !! backend_index;
    let backend_name := backend_cluster_name cluster in
    let ids := ix_runtime_ids (sn_indexes self) in
    Some {| cfb_backend_index := backend_index;
            cfb_backend_runtime_id := id_backend ids backend_name;
            cfb_backend_name := backend_name;
            cfb_weight := br_weight backend_ref;
            cfb_endpoints :=
              (fun endpoint => mkCompiledHttpFastEndpoint endpoint
                                 (id_endpoint ids backend_name endpoint))
                <$> bc_endpoints cluster |}.

Definition compiled_stream_rule (self : Snapshot) (rule_index : nat) (rule : StreamRule) :
    option CompiledStreamFastRule :=
  match omap (compile_http_fast_backend_ref self) (sru_backend_refs rule) with
  | [] => None
  | backend_refs => Some (mkCompiledStreamFastRule rule_index backend_refs)
  end.

Definition compiled_stream_rules (self : Snapshot) (route : StreamRoute) :
    list CompiledStreamFastRule :=
  omap id (imap (compiled_stream_rule self) (sr_rules route)).

Definition compiled_stream_route (self : Snapshot) (route : StreamRoute) :
    option CompiledStreamFastRoute :=
  match compiled_stream_rules self route with
  | [] => None
  | rules => Some (mkCompiledStreamFastRoute rules)
  end.

Definition StreamFastPathPlan_build (snapshot : Snapshot) : StreamFastPathPlan :=
  let routes := compiled_stream_route snapshot <$> sn_stream_routes snapshot in
  let compiled := omap id routes in
  {| sfp_routes := routes;
     sfp_route_count := length compiled;
     sfp_eligible_rule_count := sum_list ((fun route => length (cso_rules route)) <$> compiled);
     sfp_compiled_backend_ref_count :=
       sum_list ((fun route =>
         sum_list ((fun rule => length (csr_backend_refs rule)) <$> cso_rules route))
           <$> compiled) |}.

Definition http_match_is_fast_path_eligible (matcher : HttpMatch) : bool :=
  bool_decide (length (hm_headers matcher) = 0) && bool_decide (length (hm_query_params matcher) = 0).

Definition backend_ref_is_fast_path_eligible (backend_ref : BackendRef) (snapshot : Snapshot) :
    bool :=
  if negb (bool_decide (length (br_filters backend_ref) = 0)) then false
  else
    match backend_policy snapshot (backend_ref_name backend_ref) with
    | None => true
    | Some policy =>
      negb (bool_decide (is_Some (bp_session_persistence policy)))
      && match bp_load_balancing policy with
         | None => true
         | Some load_balancing =>
           negb (bool_decide (lb_policy_type load_balancing = "ConsistentHash"))
         end
    end.

Definition weighted_refs (rule : HttpRule) : list BackendRef :=
  List.filter (fun backend_ref => (0 <? br_weight backend_ref)%Z) (hru_backend_refs rule).

Definition http_rule_is_fast_path_selection_safe (rule : HttpRule) (snapshot : Snapshot) : bool :=
  negb (bool_decide (is_Some (hru_timeouts rule)))
  && negb (bool_decide (is_Some (hru_retry rule)))
  && negb (bool_decide (is_Some (hru_session_persistence rule)))
  && bool_decide (length (hru_filters rule) = 0)
  && forallb http_match_is_fast_path_eligible (hru_matches rule)
  && forallb (fun backend_ref => backend_ref_is_fast_path_eligible backend_ref snapshot)
       (weighted_refs rule).

Definition http_rule_has_selectable_backend (rule : HttpRule) : bool :=
  existsb (fun backend_ref => (0 <? br_weight backend_ref)%Z) (hru_backend_refs rule).

Definition fast_http_path_rank (path_type : string) : Z :=
  if bool_decide (path_type = "Exact") then 3
  else if bool_decide (path_type = "RegularExpression") then 2
  else 1.

Definition compile_http_fast_match (matcher : HttpMatch) : CompiledHttpFastMatch :=
  let matched_http_path := normalize_http_path_match matcher in
  {| cfm_path := hm_path matcher;
     cfm_path_type := hm_path_type matcher;
     cfm_method := hm_method matcher;
     cfm_compiled_path_regex := hm_compiled_path_regex matcher;
     cfm_matched_http_path := matched_http_path;
     cfm_score :=
       {| frs_path_rank := fast_http_path_rank (mhp_path_type matched_http_path);
          frs_path_length := String.length (mhp_path matched_http_path);
          frs_method_specified := negb (Str.is_empty (hm_method matcher)) |} |}.

Definition compile_http_fast_matches (rule : HttpRule) : list CompiledHttpFastMatch :=
  compile_http_fast_match <$> hru_matches rule.

Definition compile_http_fast_backend_refs (rule : HttpRule) (snapshot : Snapshot) :
    option (list CompiledHttpFastBackendRef) :=
  compiled ← mapM (compile_http_fast_backend_ref snapshot) (weighted_refs rule);
  match compiled with [] => None | _ => Some compiled end.

(** One rule: the compiled rule when it is eligible, and whether the rule keeps
    the whole plan safe for selection. *)
Definition compile_http_fast_rule (snapshot : Snapshot) (route : HttpRoute) (rule_index : nat)
    (rule : HttpRule) : option CompiledHttpFastRule * bool :=
  if negb (http_rule_is_fast_path_selection_safe rule snapshot) then (None, false)
  else
    match compile_http_fast_backend_refs rule snapshot with
    | None => (None, negb (http_rule_has_selectable_backend rule))
    | Some backend_refs =>
      let ids := ix_runtime_ids (sn_indexes snapshot) in
      (Some {| cfr_rule_index := rule_index;
               cfr_matches := compile_http_fast_matches rule;
               cfr_default_matched_http_path := default_http_path_match;
               cfr_runtime_ids :=
                 {| sri_listener := None;
                    sri_route := id_http_route ids (hr_namespace route) (hr_name route);
                    sri_rule := id_http_rule ids (hr_namespace route) (hr_name route) rule_index;
                    sri_backend := None;
                    sri_endpoint := None |};
               cfr_backend_refs := backend_refs |}, true)
    end.

Fixpoint compile_http_fast_routes (snapshot : Snapshot) (route_index : nat)
    (http_routes : list HttpRoute) (routes : list CompiledHttpFastRoute)
    (route_plan_indices : list (option nat)) (selection_safe : bool) :
    list CompiledHttpFastRoute * list (option nat) * bool :=
  match http_routes with
  | [] => (routes, route_plan_indices, selection_safe)
  | route :: http_routes =>
    let compiled := imap (compile_http_fast_rule snapshot route) (hr_rules route) in
    let selection_safe := selection_safe && forallb snd compiled in
    match omap fst compiled with
    | [] =>
      compile_http_fast_routes snapshot (S route_index) http_routes routes
        (route_plan_indices ++ [None]) selection_safe
    | eligible_rules =>
      compile_http_fast_routes snapshot (S route_index) http_routes
        (routes ++ [{| cfo_route_index := route_index;
                       cfo_route_name := hr_name route;
                       cfo_route_namespace := hr_namespace route;
                       cfo_route_annotations := hr_annotations route;
                       cfo_eligible_rules := eligible_rules |}])
        (route_plan_indices ++ [Some (length routes)]) selection_safe
    end
  end.

Definition HttpFastPathPlan_build (snapshot : Snapshot) : HttpFastPathPlan :=
  let listeners :=
    (fun listener =>
      {| cfl_name := l_name listener;
         cfl_protocol := l_protocol listener;
         cfl_runtime_id := id_listener (ix_runtime_ids (sn_indexes snapshot)) (l_name listener);
         cfl_has_backend_tls := bool_decide (is_Some (l_backend_tls listener)) |})
      <$> sn_listeners snapshot in
  let '(routes, route_plan_indices, selection_safe) :=
    compile_http_fast_routes snapshot 0 (sn_http_routes snapshot) [] [] true in
  mkHttpFastPathPlan listeners routes route_plan_indices selection_safe.

(** ** Rebuilding *)

Section with_regex.
Context `{RegexEngine}.

Definition compile_http_route (route : HttpRoute) : HttpRoute :=
  mkHttpRoute (hr_name route) (hr_namespace route) (hr_hostnames route) (hr_parent_refs route)
    ((fun rule =>
        mkHttpRule (hru_name rule) (HttpMatch_compile_runtime_state <$> hru_matches rule)
          (hru_filters rule) (hru_backend_refs rule) (hru_timeouts rule) (hru_retry rule)
          (hru_session_persistence rule)) <$> hr_rules route)
    (hr_labels route) (hr_annotations route).

Definition compile_grpc_route (route : GrpcRoute) : GrpcRoute :=
  mkGrpcRoute (gr_name route) (gr_namespace route) (gr_hostnames route) (gr_parent_refs route)
    ((fun rule =>
        mkGrpcRule (gru_name rule) (GrpcMatch_compile_runtime_state <$> gru_matches rule)
          (gru_filters rule) (gru_backend_refs rule) (gru_session_persistence rule))
       <$> gr_rules route)
    (gr_labels route) (gr_annotations route).

Definition compile_matchers (self : Snapshot) : Snapshot :=
  mkSnapshot (sn_id self) (sn_listeners self) (compile_http_route <$> sn_http_routes self)
    (compile_grpc_route <$> sn_grpc_routes self) (sn_stream_routes self) (sn_backends self)
    (sn_backend_policies self) (sn_secrets self) (sn_workloads self) (sn_indexes self).

(** [iter().enumerate().map(|(i, k)| (k, i)).collect::<HashMap<_, _>>()]: a later
    entry replaces an earlier one. *)
Definition collect_indices (keys : list string) : StringMap nat :=
  foldl (fun m '(i, key) => <[key := i]> m) ∅ (imap pair keys).

(** Every field of the indexes that does not depend on another one. *)
Definition base_indexes (self : Snapshot) : SnapshotIndexes :=
  let backend_names := backend_cluster_name <$> sn_backends self in
  {| ix_runtime_ids :=
       from_lists (sn_listeners self) (sn_http_routes self) (sn_grpc_routes self)
         (sn_stream_routes self) (sn_backends self);
     ix_backend_names := backend_names;
     ix_backend_index := collect_indices backend_names;
     ix_backend_service_index := build_backend_service_index (sn_backends self);
     ix_secret_index :=
       collect_indices
         ((fun secret => namespaced_key (sec_namespace secret) (sec_name secret))
            <$> sn_secrets self);
     ix_workload_namespace_index :=
       foldl (fun m workload => <[w_ip workload := w_namespace workload]> m) ∅ (sn_workloads self);
     ix_listeners := rebuild_listener_indexes (sn_listeners self);
     ix_route_attachment_listener_index := from_listeners (sn_listeners self);
     ix_http_route_hostname_index := build_http_route_hostname_index (sn_http_routes self);
     ix_grpc_route_hostname_index := build_grpc_route_hostname_index (sn_grpc_routes self);
     ix_stream_listener_route_index :=
       build_stream_listener_route_index (sn_listeners self) (sn_stream_routes self);
     ix_request_materialization := build_request_materialization_hints self;
     ix_http_fast_path := ix_http_fast_path (sn_indexes self);
     ix_stream_fast_path := ix_stream_fast_path (sn_indexes self);
     ix_runtime_indexes_ready := sn_ready self |}.

Definition with_plans (ix : SnapshotIndexes) (http : HttpFastPathPlan)
    (stream : StreamFastPathPlan) (ready : bool) : SnapshotIndexes :=
  mkSnapshotIndexes (ix_runtime_ids ix) (ix_backend_names ix) (ix_backend_index ix)
    (ix_backend_service_index ix) (ix_secret_index ix) (ix_workload_namespace_index ix)
    (ix_listeners ix) (ix_route_attachment_listener_index ix) (ix_http_route_hostname_index ix)
    (ix_grpc_route_hostname_index ix) (ix_stream_listener_route_index ix)
    (ix_request_materialization ix) http stream ready.

Definition rebuild_runtime_indexes (self : Snapshot) : Snapshot :=
  let self := compile_matchers self in
  let self := set_indexes self (base_indexes self) in
  set_indexes self
    (with_plans (sn_indexes self) (HttpFastPathPlan_build self) (StreamFastPathPlan_build self)
       true).

End with_regex.

End Snapshots.
