(* ===== verification/Resolution.v ===== *)
(** * Backend resolution

    [ntgw-ir/src/snapshot/backend_resolution/resolution.rs] with the selection
    cursors of [lib.rs] and the hashing helpers of [snapshot/helpers.rs]: from
    the weighted backend references of a rule to one endpoint.

    The code works under a shared reference and changes only atomics; the
    [World] holds those: the three ticket cursors, the endpoint runtime store
    and the number of [Instant::now()] readings taken.  An operation that reads
    the clock or takes a ticket is a state transformer on the [World].  The
    class [Clock] gives the successive readings, the class [Libm] the natural
    logarithm of [f64]; other [f64] arithmetic is IEEE 754 binary64. *)

From Stdlib Require Import ZArith Lia Ascii.
From Corelib Require Import SpecFloat.
From stdpp Require Import base gmap strings sorting numbers list.
From S2P Require Import Prelude Strs IrTypes Matching Scoring HostIndex EndpointRuntime Spread RouteIndex RuntimeIds Snapshot.

Local Open Scope string_scope.
Local Open Scope list_scope.
Local Open Scope Z_scope.

Class Libm := f64_ln : spec_float -> spec_float.

Module Resolution.
Import Matching Scoring HostIndex EndpointRuntime Spread RouteIndex RuntimeIds Snapshots.

(** ** The shared state *)

Record World := mkWorld {
  w_backend_cursor : Z;
  w_endpoint_cursor : Z;
  w_mirror_cursor : Z;
  w_endpoint_runtime : EndpointRuntimeStore;
  w_ticks : nat;
}.

Definition M (A : Type) : Type := World -> A * World.
#[global] Instance M_ret : MRet M := fun A x w => (x, w).
#[global] Instance M_bind : MBind M := fun A B f m w => let '(x, w) := m w in f x w.

Definition next_backend_ticket : M Z := fun w =>
  (w_backend_cursor w,
   mkWorld (U.wrapping_add64 (w_backend_cursor w) 1) (w_endpoint_cursor w) (w_mirror_cursor w)
     (w_endpoint_runtime w) (w_ticks w)).
Definition next_endpoint_ticket : M Z := fun w =>
  (w_endpoint_cursor w,
   mkWorld (w_backend_cursor w) (U.wrapping_add64 (w_endpoint_cursor w) 1) (w_mirror_cursor w)
     (w_endpoint_runtime w) (w_ticks w)).
Definition next_mirror_ticket : M Z := fun w =>
  (w_mirror_cursor w,
   mkWorld (w_backend_cursor w) (w_endpoint_cursor w) (U.wrapping_add64 (w_mirror_cursor w) 1)
     (w_endpoint_runtime w) (w_ticks w)).

Definition get_runtime : M EndpointRuntimeStore := fun w => (w_endpoint_runtime w, w).

(** ** Consistent hashing *)

Definition RENDEZVOUS_HASH_OFFSET_BASIS : Z := 14695981039346656037.
Definition RENDEZVOUS_HASH_PRIME : Z := 1099511628211.

Definition hash_rendezvous_part (hash : Z) (bytes : string) : Z :=
  let hash :=
    foldl (fun hash byte => U.wrapping_mul64 (Z.lxor hash byte) RENDEZVOUS_HASH_PRIME) hash
      (string_bytes bytes) in
  U.wrapping_mul64 (Z.lxor hash 0) RENDEZVOUS_HASH_PRIME.

(** The digit loop fills a ten-byte buffer from the end. *)
Definition hash_rendezvous_u32_part (hash : Z) (value : Z) : Z :=
  hash_rendezvous_part hash (Str.dec_digits 10 value EmptyString).

Definition rendezvous_hash (parts : list string) : Z :=
  foldl hash_rendezvous_part RENDEZVOUS_HASH_OFFSET_BASIS parts.

Definition rendezvous_hash_endpoint (hash_key backend_name : string)
    (endpoint : BackendEndpoint) : Z :=
  let hash := hash_rendezvous_part RENDEZVOUS_HASH_OFFSET_BASIS hash_key in
  let hash := hash_rendezvous_part hash backend_name in
  let hash := hash_rendezvous_part hash (be_address endpoint) in
  hash_rendezvous_u32_part hash (be_port endpoint).

(** [BTreeMap::iter]: by key, bytewise. *)
Definition key_le {A} (p q : string * A) : Prop := String.leb p.1 q.1 = true.
#[global] Instance key_le_dec {A} : RelDecision (@key_le A) :=
  fun p q => decide (String.leb p.1 q.1 = true).
Definition btree_iter {A} (m : StringMap A) : list (string * A) :=
  merge_sort key_le (map_to_list m).

Definition request_header_value (request : RequestMeta) (header_name : string) : option string :=
  if Str.is_empty header_name then None
  else
    match values ← rq_headers request !! header_name; head values with
    | Some v => Some v
    | None =>
      '(_, values) ← List.find (fun '(name, _) => Str.eq_ignore_ascii_case name header_name)
                       (btree_iter (rq_headers request));
      head values
    end.

Definition consistent_hash_key (policy : LoadBalancingPolicy) (request : RequestMeta) :
    option string :=
  hash ← lb_consistent_hash policy;
  if bool_decide (ch_key_type hash = "SourceIP") then rq_source_ip request
  else if bool_decide (ch_key_type hash = "Header")
  then request_header_value request (ch_header_name hash)
  else if bool_decide (ch_key_type hash = "Hostname") then rq_host request
  else None.

(** [f64] *)
Notation f64_add := (SFadd 53 1024).
Notation f64_div := (SFdiv 53 1024).
Definition f64_of_int (n : Z) : spec_float := binary_normalize 53 1024 n 0 false.

Section with_libm.
Context `{Libm}.

Definition hash_unit_interval (parts : list string) : spec_float :=
  let value := rendezvous_hash parts in
  f64_div (f64_add (f64_of_int value) (f64_of_int 1))
    (f64_add (f64_of_int U.u64_max) (f64_of_int 2)).

Definition weighted_rendezvous_score (hash_key backend_name : string) (weight : spec_float) :
    spec_float :=
  let unit := hash_unit_interval [hash_key; backend_name] in
  f64_div weight (SFopp (f64_ln unit)).

End with_libm.

(** ** Availability of endpoints *)

Inductive EndpointAvailability := Primary | PassiveLastResort | Unavailable.

Record EndpointSelectionAvailability := mkEndpointSelectionAvailability {
  esa_count : nat;
  esa_include_passive_ejected : bool;
}.

Section with_hasher.
Context `{KeyHasher}.

Definition endpoint_availability_at (runtime : EndpointRuntimeStore) (backend_name : string)
    (endpoint : BackendEndpoint) (now : Instant) : EndpointAvailability :=
  if negb (be_healthy endpoint) then Unavailable
  else if negb (has_tracked_states runtime) then Primary
  else
    match get_cloned runtime (EndpointRuntimeKey_new backend_name endpoint) with
    | Some state =>
      if ers_active_unhealthy state then Unavailable
      else if is_ejected_at state now then PassiveLastResort
      else Primary
    | None => Primary
    end.

Definition endpoint_is_available_at (runtime : EndpointRuntimeStore) (backend_name : string)
    (endpoint : BackendEndpoint) (now : Instant) : bool :=
  match endpoint_availability_at runtime backend_name endpoint now with
  | Primary => true
  | _ => false
  end.

Definition endpoint_selection_availability (runtime : EndpointRuntimeStore)
    (cluster : BackendCluster) (backend_name : string) (now : Instant) :
    EndpointSelectionAvailability :=
  let '(primary, last_resort) :=
    foldl (fun '(primary, last_resort) endpoint =>
      match endpoint_availability_at runtime backend_name endpoint now with
      | Primary => (S primary, S last_resort)
      | PassiveLastResort => (primary, S last_resort)
      | Unavailable => (primary, last_resort)
      end) (O, O) (bc_endpoints cluster) in
  if (0 <? primary)%nat then mkEndpointSelectionAvailability primary false
  else mkEndpointSelectionAvailability last_resort true.

Definition endpoint_matches_selection_availability (runtime : EndpointRuntimeStore)
    (backend_name : string) (now : Instant) (availability : EndpointSelectionAvailability)
    (endpoint : BackendEndpoint) : bool :=
  match endpoint_availability_at runtime backend_name endpoint now with
  | Primary => true
  | PassiveLastResort => esa_include_passive_ejected availability
  | Unavailable => false
  end.

Definition eligible_endpoint_count (runtime : EndpointRuntimeStore) (cluster : BackendCluster)
    (backend_name : string) (now : Instant) : nat :=
  esa_count (endpoint_selection_availability runtime cluster backend_name now).

Definition eligible_endpoints (runtime : EndpointRuntimeStore) (cluster : BackendCluster)
    (backend_name : string) (now : Instant) : list BackendEndpoint :=
  let availability := endpoint_selection_availability runtime cluster backend_name now in
  List.filter (endpoint_matches_selection_availability runtime backend_name now availability)
    (bc_endpoints cluster).

Section with_clock.
Context `{Clock}.

Definition instant_now : M Instant := fun w =>
  (instant_at (w_ticks w),
   mkWorld (w_backend_cursor w) (w_endpoint_cursor w) (w_mirror_cursor w)
     (w_endpoint_runtime w) (S (w_ticks w))).

Definition select_cluster_endpoint (cluster : BackendCluster) (backend_name : string) :
    M (option BackendEndpoint) :=
  now ← instant_now;
  runtime ← get_runtime;
  let availability := endpoint_selection_availability runtime cluster backend_name now in
  if bool_decide (esa_count availability = O) then mret None
  else
    ticket ← next_endpoint_ticket;
    let index := Z.to_nat (ticket mod Z.of_nat (esa_count availability)) in
    mret (List.filter
            (endpoint_matches_selection_availability runtime backend_name now availability)
            (bc_endpoints cluster) !! index).

(** [match &best { Some((current, _)) if score <= *current => {}, _ => best = .. }] *)
Definition keep_better {A} (le : A -> A -> bool) {B} (best : option (A * B)) (score : A) (x : B) :
    option (A * B) :=
  match best with
  | Some (current_score, _) => if le score current_score then best else Some (score, x)
  | None => Some (score, x)
  end.

Definition select_cluster_endpoint_by_hash (cluster : BackendCluster)
    (backend_name hash_key : string) : M (option BackendEndpoint) :=
  now ← instant_now;
  runtime ← get_runtime;
  let availability := endpoint_selection_availability runtime cluster backend_name now in
  if bool_decide (esa_count availability = O) then mret None
  else
    mret (snd <$>
      foldl (fun best endpoint =>
        if negb (endpoint_matches_selection_availability runtime backend_name now availability
                   endpoint) then best
        else keep_better Z.leb best (rendezvous_hash_endpoint hash_key backend_name endpoint)
               endpoint) None (bc_endpoints cluster)).

End with_clock.
End with_hasher.

(** ** Candidates *)

Record BackendSelectionCandidate := mkBackendSelectionCandidate {
  bsc_cluster : BackendCluster;
  bsc_backend_ref : BackendRef;
  bsc_backend_name : string;
}.

Record BackendCandidateVisit := mkBackendCandidateVisit {
  bcv_candidate_count : nat;
  bcv_total_weight : Z;
  bcv_saw_invalid_refs : bool;
  bcv_saw_unhealthy_backend : bool;
  bcv_effective_load_balancing : option LoadBalancingPolicy;
  bcv_load_balancing_mismatch : bool;
}.
Definition BackendCandidateVisit_default : BackendCandidateVisit :=
  mkBackendCandidateVisit 0 0 false false None false.

Definition observe_candidate (self : BackendCandidateVisit) (backend_ref : BackendRef)
    (load_balancing : option LoadBalancingPolicy) : BackendCandidateVisit :=
  let count := S (bcv_candidate_count self) in
  let total := U.wrapping_add64 (bcv_total_weight self) (br_weight backend_ref) in
  let set_lb := mkBackendCandidateVisit count total (bcv_saw_invalid_refs self)
                  (bcv_saw_unhealthy_backend self) in
  if bcv_load_balancing_mismatch self
  then set_lb (bcv_effective_load_balancing self) true
  else
    match load_balancing with
    | None => set_lb None true
    | Some load_balancing =>
      match bcv_effective_load_balancing self with
      | Some current =>
        if bool_decide (current = load_balancing) then set_lb (Some current) false
        else set_lb None true
      | None => set_lb (Some load_balancing) false
      end
    end.

Definition visit_error (self : BackendCandidateVisit) : option BackendSelectionError :=
  if bcv_saw_unhealthy_backend self then Some NoHealthyBackends
  else if bcv_saw_invalid_refs self then Some InvalidBackendRefs
  else None.

Definition saw_invalid (self : BackendCandidateVisit) : BackendCandidateVisit :=
  mkBackendCandidateVisit (bcv_candidate_count self) (bcv_total_weight self) true
    (bcv_saw_unhealthy_backend self) (bcv_effective_load_balancing self)
    (bcv_load_balancing_mismatch self).
Definition saw_unhealthy (self : BackendCandidateVisit) : BackendCandidateVisit :=
  mkBackendCandidateVisit (bcv_candidate_count self) (bcv_total_weight self)
    (bcv_saw_invalid_refs self) true (bcv_effective_load_balancing self)
    (bcv_load_balancing_mismatch self).

Definition find_backend_cluster_index (self : Snapshot) (backend_ref : BackendRef) :
    option (nat * BackendCluster) :=
  if negb (backend_ref_is_routable backend_ref) then None
  else backend_cluster_for_service_index self (br_namespace backend_ref) (br_name backend_ref)
         (br_port backend_ref).

Section with_env.
Context `{KeyHasher, Clock, Libm}.

(** The visitor's captured state is [St]; a visitor that takes tickets has the
    [World] in it. *)
Fixpoint visit_http_backend_candidates {St} (self : Snapshot) (runtime : EndpointRuntimeStore)
    (refs : list BackendRef) (now : Instant)
    (visit : BackendSelectionCandidate -> St -> St * bool)
    (outcome : BackendCandidateVisit) (s : St) : BackendCandidateVisit * St :=
  match refs with
  | [] => (outcome, s)
  | backend_ref :: refs =>
    let continue := visit_http_backend_candidates self runtime refs now visit in
    if bool_decide (br_weight backend_ref = 0) then continue outcome s
    else if negb (backend_ref_is_routable backend_ref) then continue (saw_invalid outcome) s
    else
      match find_backend_cluster_index self backend_ref with
      | None => continue (saw_invalid outcome) s
      | Some (backend_index, cluster) =>
        let backend_name := backend_name_for_index self backend_index cluster in
        if bool_decide (eligible_endpoint_count runtime cluster backend_name now = O)
        then continue (saw_unhealthy outcome) s
        else
          let outcome :=
            observe_candidate outcome backend_ref (backend_load_balancing self backend_name) in
          let '(s, go_on) :=
            visit (mkBackendSelectionCandidate cluster backend_ref backend_name) s in
          if go_on then continue outcome s else (outcome, s)
      end
  end.

Definition route_session_persistence (self : Snapshot) (route_session : option SessionPersistence)
    (backend_name : string) : option SessionPersistence :=
  match route_session with
  | None => backend_session_persistence self backend_name
  | Some _ => None
  end.

Definition consistent_hash_visitor (self : Snapshot) (route_session : option SessionPersistence)
    (hash_key : string) (candidate : BackendSelectionCandidate)
    (s : option (spec_float * ResolvedHttpBackend) * World) :
    (option (spec_float * ResolvedHttpBackend) * World) * bool :=
  let '(best, w) := s in
  let backend_name := bsc_backend_name candidate in
  let '(endpoint, w) :=
    select_cluster_endpoint_by_hash (bsc_cluster candidate) backend_name hash_key w in
  match endpoint with
  | None => ((best, w), true)
  | Some endpoint =>
    let score :=
      weighted_rendezvous_score hash_key backend_name
        (f64_of_int (Z.max (br_weight (bsc_backend_ref candidate)) 1)) in
    let resolved :=
      {| rhb_endpoint := endpoint;
         rhb_backend_name := backend_name;
         rhb_filters := br_filters (bsc_backend_ref candidate);
         rhb_session_persistence := route_session_persistence self route_session backend_name |} in
    ((keep_better SFleb best score resolved, w), true)
  end.

Definition resolve_consistent_hash_http_backend (self : Snapshot) (refs : list BackendRef)
    (now : Instant) (policy : option LoadBalancingPolicy)
    (route_session : option SessionPersistence) (request : RequestMeta) :
    M (option ResolvedHttpBackend) := fun w =>
  match policy with
  | None => (None, w)
  | Some policy =>
    if negb (bool_decide (lb_policy_type policy = "ConsistentHash")) then (None, w)
    else
      match consistent_hash_key policy request with
      | None => (None, w)
      | Some hash_key =>
        let '(_, (best, w)) :=
          visit_http_backend_candidates self (w_endpoint_runtime w) refs now
            (consistent_hash_visitor self route_session hash_key)
            BackendCandidateVisit_default (None, w) in
        (snd <$> best, w)
      end
  end.

Definition weighted_visitor (self : Snapshot) (route_session : option SessionPersistence)
    (target : Z) (candidate : BackendSelectionCandidate)
    (s : Z * option HttpBackendResolution * World) :
    (Z * option HttpBackendResolution * World) * bool :=
  let '(seen_weight, resolution, w) := s in
  let seen_weight := U.wrapping_add64 seen_weight (br_weight (bsc_backend_ref candidate)) in
  if target <? seen_weight then
    let backend_name := bsc_backend_name candidate in
    let session_persistence := route_session_persistence self route_session backend_name in
    let '(endpoint, w) := select_cluster_endpoint (bsc_cluster candidate) backend_name w in
    let selected :=
      (fun endpoint =>
        {| rhb_endpoint := endpoint;
           rhb_backend_name := backend_name;
           rhb_filters := br_filters (bsc_backend_ref candidate);
           rhb_session_persistence := session_persistence |}) <$> endpoint in
    ((seen_weight, Some (mkHttpBackendResolution selected None), w), false)
  else ((seen_weight, resolution, w), true).

Fixpoint resolve_persistent_http_backend (self : Snapshot) (refs : list BackendRef)
    (target : PersistentSessionTarget) (session_persistence : option SessionPersistence) :
    M (option ResolvedHttpBackend) := fun w =>
  match refs with
  | [] => (None, w)
  | backend_ref :: refs =>
    let continue := resolve_persistent_http_backend self refs target session_persistence w in
    if bool_decide (br_weight backend_ref = 0) || negb (backend_ref_is_routable backend_ref)
    then continue
    else
      match find_backend_cluster_index self backend_ref with
      | None => continue
      | Some (backend_index, cluster) =>
        let backend_name := backend_name_for_index self backend_index cluster in
        if negb (bool_decide (backend_name = pst_backend_name target)) then continue
        else
          let '(now, w) := instant_now w in
          let runtime := w_endpoint_runtime w in
          let availability := endpoint_selection_availability runtime cluster backend_name now in
          let endpoint :=
            List.find (fun endpoint =>
              endpoint_matches_selection_availability runtime backend_name now availability
                endpoint
              && bool_decide (be_address endpoint = be_address (pst_endpoint target))
              && bool_decide (be_port endpoint = be_port (pst_endpoint target)))
              (bc_endpoints cluster) in
          ((fun endpoint =>
             {| rhb_endpoint := endpoint;
                rhb_backend_name := backend_name;
                rhb_filters := br_filters backend_ref;
                rhb_session_persistence := session_persistence |}) <$> endpoint, w)
      end
  end.

Definition SessionResolver : Type := SessionPersistence -> option PersistentSessionTarget.

(** The loop runs over [todo], the rest of [refs]. *)
Fixpoint policy_persistent_loop (self : Snapshot) (refs todo : list BackendRef)
    (session_resolver : SessionResolver) : M (option ResolvedHttpBackend) := fun w =>
  match todo with
  | [] => (None, w)
  | backend_ref :: todo =>
    let continue := policy_persistent_loop self refs todo session_resolver in
    if bool_decide (br_weight backend_ref = 0) || negb (backend_ref_is_routable backend_ref)
    then continue w
    else
      match find_backend_cluster_index self backend_ref with
      | None => continue w
      | Some (backend_index, cluster) =>
        let backend_name := backend_name_for_index self backend_index cluster in
        match backend_session_persistence self backend_name with
        | None => continue w
        | Some session_persistence =>
          match session_resolver session_persistence with
          | None => continue w
          | Some target =>
            let '(selected, w) :=
              resolve_persistent_http_backend self refs target (Some session_persistence) w in
            match selected with
            | Some selected => (Some selected, w)
            | None => continue w
            end
          end
        end
      end
  end.

Definition resolve_backend_policy_persistent_http_backend (self : Snapshot)
    (refs : list BackendRef) (session_resolver : SessionResolver) :
    M (option ResolvedHttpBackend) :=
  policy_persistent_loop self refs refs session_resolver.

Definition no_visit (candidate : BackendSelectionCandidate) (s : unit) : unit * bool := (s, true).

(** The second visit: the candidate that owns the target. *)
Definition spread_candidates (self : Snapshot) (refs : list BackendRef)
    (route_session : option SessionPersistence) (now : Instant) (target : Z) :
    M HttpBackendResolution := fun w =>
  let '(_, (_, resolution, w)) :=
    visit_http_backend_candidates self (w_endpoint_runtime w) refs now
      (weighted_visitor self route_session target)
      BackendCandidateVisit_default (0, None, w) in
  (default (mkHttpBackendResolution None None) resolution, w).

(** What follows the session lookups: weigh the candidates, then hash or spread. *)
Definition resolve_candidates (self : Snapshot) (refs : list BackendRef)
    (route_session : option SessionPersistence) (request : RequestMeta) :
    M HttpBackendResolution :=
  now ← instant_now;
  runtime ← get_runtime;
  let outcome :=
    (visit_http_backend_candidates self runtime refs now no_visit
       BackendCandidateVisit_default tt).1 in
  if bool_decide (bcv_candidate_count outcome = O)
  then mret (mkHttpBackendResolution None (visit_error outcome))
  else
    hashed ← resolve_consistent_hash_http_backend self refs now
               (bcv_effective_load_balancing outcome) route_session request;
    match hashed with
    | Some selected => mret (mkHttpBackendResolution (Some selected) None)
    | None =>
      ticket ← next_backend_ticket;
      spread_candidates self refs route_session now
        (spread_weighted_target ticket (bcv_total_weight outcome))
    end.

(** A session of the route decides first; only a route without one looks at the
    sessions of the backend policies. *)
Definition resolve_route_session (self : Snapshot) (refs : list BackendRef)
    (route_session : option SessionPersistence) (session_resolver : SessionResolver) :
    M (option ResolvedHttpBackend) :=
  match route_session ≫= session_resolver with
  | Some target => resolve_persistent_http_backend self refs target None
  | None => mret None
  end.

Definition resolve_policy_session (self : Snapshot) (refs : list BackendRef)
    (route_session : option SessionPersistence) (session_resolver : SessionResolver) :
    M (option ResolvedHttpBackend) :=
  match route_session with
  | None => resolve_backend_policy_persistent_http_backend self refs session_resolver
  | Some _ => mret None
  end.

Definition resolve_http_backend_refs_with_session (self : Snapshot) (refs : list BackendRef)
    (route_session : option SessionPersistence) (request : RequestMeta)
    (session_resolver : SessionResolver) : M HttpBackendResolution :=
  persistent ← resolve_route_session self refs route_session session_resolver;
  match persistent with
  | Some selected => mret (mkHttpBackendResolution (Some selected) None)
  | None =>
    policy_persistent ← resolve_policy_session self refs route_session session_resolver;
    match policy_persistent with
    | Some selected => mret (mkHttpBackendResolution (Some selected) None)
    | None => resolve_candidates self refs route_session request
    end
  end.

Definition RequestMeta_default : RequestMeta := mkRequestMeta None 0 "" "" None ∅ ∅.

Definition resolve_http_backend_refs (self : Snapshot) (refs : list BackendRef) :
    M HttpBackendResolution :=
  resolve_http_backend_refs_with_session self refs None RequestMeta_default (fun _ => None).

Definition resolve_backend_refs (self : Snapshot) (refs : list BackendRef) :
    M (option (BackendEndpoint * string)) :=
  resolution ← resolve_http_backend_refs self refs;
  mret ((fun item => (rhb_endpoint item, rhb_backend_name item)) <$> hbr_selected resolution).

Definition select_backend_ref (self : Snapshot) (backend_ref : BackendRef) :
    M (option (BackendEndpoint * string)) :=
  if negb (backend_ref_is_routable backend_ref) then mret None
  else
    match find_backend_cluster_index self backend_ref with
    | None => mret None
    | Some (backend_index, cluster) =>
      let backend_name := backend_name_for_index self backend_index cluster in
      endpoint ← select_cluster_endpoint cluster backend_name;
      mret ((fun endpoint => (endpoint, backend_name)) <$> endpoint)
    end.

Definition should_mirror (filter : RequestMirrorFilter) : M bool :=
  let '(numerator, denominator) :=
    match rm_fraction filter with
    | Some fraction => (fr_numerator fraction, Z.max (fr_denominator fraction) 1)
    | None => (default 100 (rm_percent filter), 100)
    end in
  if bool_decide (numerator = 0) then mret false
  else if denominator <=? numerator then mret true
  else
    ticket ← next_mirror_ticket;
    mret (ticket mod denominator <? numerator).

(** ** The compiled backends of the fast paths *)

Record CompiledHttpFastBackendSelection := mkCompiledHttpFastBackendSelection {
  cfs_endpoint : BackendEndpoint;
  cfs_backend_name : string;
  cfs_backend_runtime_id : option Z;
  cfs_endpoint_runtime_id : option Z;
}.

(** The scan for the [target]-th eligible endpoint; [compiled.endpoints] runs
    along the cluster's endpoints. *)
Fixpoint compiled_endpoint_loop (runtime : EndpointRuntimeStore)
    (compiled : CompiledHttpFastBackendRef) (availability : EndpointSelectionAvailability)
    (now : Instant) (target seen endpoint_index : nat) (endpoints : list BackendEndpoint) :
    option CompiledHttpFastBackendSelection :=
  match endpoints with
  | [] => None
  | endpoint :: endpoints =>
    if negb (endpoint_matches_selection_availability runtime (cfb_backend_name compiled) now
               availability endpoint)
    then compiled_endpoint_loop runtime compiled availability now target seen
           (S endpoint_index) endpoints
    else if bool_decide (seen = target) then
      compiled_endpoint ← cfb_endpoints compiled !! endpoint_index;
      Some {| cfs_endpoint := cfe_endpoint compiled_endpoint;
              cfs_backend_name := cfb_backend_name compiled;
              cfs_backend_runtime_id := cfb_backend_runtime_id compiled;
              cfs_endpoint_runtime_id := cfe_runtime_id compiled_endpoint |}
    else compiled_endpoint_loop runtime compiled availability now target (S seen)
           (S endpoint_index) endpoints
  end.

Definition select_compiled_http_fast_endpoint (compiled : CompiledHttpFastBackendRef)
    (cluster : BackendCluster) (availability : EndpointSelectionAvailability) (now : Instant) :
    M (option CompiledHttpFastBackendSelection) :=
  if bool_decide (esa_count availability = O) then mret None
  else
    ticket ← next_endpoint_ticket;
    runtime ← get_runtime;
    let target := Z.to_nat (ticket mod Z.of_nat (esa_count availability)) in
    mret (compiled_endpoint_loop runtime compiled availability now target 0 0
            (bc_endpoints cluster)).

Definition compiled_availability (self : Snapshot) (runtime : EndpointRuntimeStore)
    (now : Instant) (compiled : CompiledHttpFastBackendRef) :
    option (BackendCluster * EndpointSelectionAvailability) :=
  cluster ← sn_backends self !! cfb_backend_index compiled;
  Some (cluster,
    endpoint_selection_availability runtime cluster (cfb_backend_name compiled) now).

Definition compiled_weight (self : Snapshot) (runtime : EndpointRuntimeStore) (now : Instant)
    (compiled : CompiledHttpFastBackendRef) : option Z :=
  '(_, availability) ← compiled_availability self runtime now compiled;
  if (0 <? esa_count availability)%nat then Some (cfb_weight compiled) else None.

Fixpoint compiled_backend_loop (self : Snapshot) (now : Instant) (target seen_weight : Z)
    (refs : list CompiledHttpFastBackendRef) : M (option CompiledHttpFastBackendSelection) :=
  match refs with
  | [] => mret None
  | compiled :: refs => fun w =>
    match compiled_availability self (w_endpoint_runtime w) now compiled with
    | None => compiled_backend_loop self now target seen_weight refs w
    | Some (cluster, availability) =>
      if bool_decide (esa_count availability = O)
      then compiled_backend_loop self now target seen_weight refs w
      else
        let seen_weight := U.wrapping_add64 seen_weight (cfb_weight compiled) in
        if target <? seen_weight
        then select_compiled_http_fast_endpoint compiled cluster availability now w
        else compiled_backend_loop self now target seen_weight refs w
    end
  end.

Definition select_compiled_http_fast_backend (self : Snapshot)
    (refs : list CompiledHttpFastBackendRef) : M (option CompiledHttpFastBackendSelection) :=
  now ← instant_now;
  runtime ← get_runtime;
  let total_weight :=
    foldl U.wrapping_add64 0 (omap (compiled_weight self runtime now) refs) in
  if bool_decide (total_weight = 0) then mret None
  else
    ticket ← next_backend_ticket;
    compiled_backend_loop self now (spread_weighted_target ticket total_weight) 0 refs.

End with_env.

(** ** Eligible endpoints *)

Section availability_facts.
Context `{KeyHasher}.
Implicit Types (runtime : EndpointRuntimeStore) (now : Instant).

(** An endpoint that can be used at all: the control plane calls it healthy and
    no active probe has marked it unhealthy.  No clock is involved. *)
Definition endpoint_usable runtime (backend_name : string) (endpoint : BackendEndpoint) : bool :=
  be_healthy endpoint &&
  (negb (has_tracked_states runtime) ||
   match get_cloned runtime (EndpointRuntimeKey_new backend_name endpoint) with
   | Some state => negb (ers_active_unhealthy state)
   | None => true
   end).

Definition is_primary (a : EndpointAvailability) : bool :=
  match a with Primary => true | _ => false end.
Definition is_available (a : EndpointAvailability) : bool :=
  match a with Unavailable => false | _ => true end.

Lemma available_usable runtime backend_name endpoint now :
  is_available (endpoint_availability_at runtime backend_name endpoint now)
  = endpoint_usable runtime backend_name endpoint.
Proof.
  unfold endpoint_availability_at, endpoint_usable. destruct (be_healthy endpoint); [|done].
  destruct (has_tracked_states runtime); [|done]. simpl.
  destruct (get_cloned _ _) as [state|]; [|done].
  destruct (ers_active_unhealthy state); [done|]. by destruct (is_ejected_at _ _).
Qed.

Lemma availability_fold runtime backend_name now eps p l :
  foldl (fun '(primary, last_resort) endpoint =>
      match endpoint_availability_at runtime backend_name endpoint now with
      | Primary => (S primary, S last_resort)
      | PassiveLastResort => (primary, S last_resort)
      | Unavailable => (primary, last_resort)
      end) (p, l) eps
  = (p + length (List.filter (fun e =>
           is_primary (endpoint_availability_at runtime backend_name e now)) eps),
     l + length (List.filter (endpoint_usable runtime backend_name) eps))%nat.
Proof.
  revert p l; induction eps as [|e eps IH]; intros p l; simpl; [by rewrite !Nat.add_0_r|].
  rewrite <- (available_usable runtime backend_name e now).
  destruct (endpoint_availability_at runtime backend_name e now); simpl; rewrite IH; f_equal; lia.
Qed.

Lemma filter_ext_length {A} (p q : A -> bool) l :
  (forall x, p x = q x) -> List.filter p l = List.filter q l.
Proof. intros Hpq. apply List.filter_ext. exact Hpq. Qed.

(** The count that bounds the endpoint ticket is the number of endpoints the
    selection then filters. *)
Lemma eligible_count runtime cluster backend_name now :
  eligible_endpoint_count runtime cluster backend_name now
  = length (eligible_endpoints runtime cluster backend_name now).
Proof.
  unfold eligible_endpoint_count, eligible_endpoints, endpoint_selection_availability.
  rewrite availability_fold; simpl.
  destruct (0 <? _)%nat; simpl; f_equal; apply filter_ext_length; intros e;
    unfold endpoint_matches_selection_availability; simpl.
  rewrite <- (available_usable _ _ _ now). by destruct (endpoint_availability_at _ _ _ _).
Qed.

Lemma eligible_endpoints_usable runtime cluster backend_name now e :
  e ∈ eligible_endpoints runtime cluster backend_name now ->
  e ∈ bc_endpoints cluster /\ endpoint_usable runtime backend_name e = true.
Proof.
  unfold eligible_endpoints. intros [He Hm]%list_elem_of_In%filter_In.
  split; [by apply list_elem_of_In|]. rewrite <- (available_usable _ _ _ now).
  unfold endpoint_matches_selection_availability in Hm.
  by destruct (endpoint_availability_at _ _ _ _).
Qed.

(** Passive ejection never empties a cluster: it has an eligible endpoint
    whenever it has a usable one, at any time. *)
Lemma eligible_count_zero runtime cluster backend_name now :
  eligible_endpoint_count runtime cluster backend_name now = O
  <-> Forall (fun e => endpoint_usable runtime backend_name e = false) (bc_endpoints cluster).
Proof.
  unfold eligible_endpoint_count, endpoint_selection_availability.
  rewrite availability_fold; simpl.
  set (np := length _). set (nl := length _).
  assert (np <= nl)%nat as Hle.
  { subst np nl. induction (bc_endpoints cluster) as [|e eps IH]; simpl; [done|].
    rewrite <- (available_usable _ _ _ now). destruct (endpoint_availability_at _ _ _ _); simpl; lia. }
  assert (nl = O <-> Forall (fun e => endpoint_usable runtime backend_name e = false)
    (bc_endpoints cluster)) as <-.
  { subst nl. clear. induction (bc_endpoints cluster) as [|e eps IH]; simpl; [by split; constructor|].
    rewrite Forall_cons. destruct (endpoint_usable runtime backend_name e); simpl; [|tauto].
    split; [lia|]. by intros [? _]. }
  destruct (Nat.ltb_spec 0 np); simpl; lia.
Qed.

End availability_facts.

(** ** The candidates of a list of references *)

Section candidate_facts.
Context `{KeyHasher, Clock, Libm}.

Definition usable_cluster (runtime : EndpointRuntimeStore) (cluster : BackendCluster)
    (backend_name : string) : bool :=
  existsb (endpoint_usable runtime backend_name) (bc_endpoints cluster).

Lemma usable_cluster_count runtime cluster backend_name now :
  bool_decide (eligible_endpoint_count runtime cluster backend_name now = O)
  = negb (usable_cluster runtime cluster backend_name).
Proof.
  apply eq_iff_eq_true. rewrite bool_decide_eq_true, eligible_count_zero, negb_true_iff.
  unfold usable_cluster. induction (bc_endpoints cluster) as [|e eps IH]; simpl.
  - by split; constructor.
  - rewrite Forall_cons, IH, orb_false_iff. done.
Qed.

(** What one reference contributes. *)
Inductive ref_class :=
  | RefSkipped
  | RefInvalid
  | RefUnhealthy
  | RefCandidate (candidate : BackendSelectionCandidate).

Definition classify (self : Snapshot) (runtime : EndpointRuntimeStore) (backend_ref : BackendRef) :
    ref_class :=
  if bool_decide (br_weight backend_ref = 0) then RefSkipped
  else
    match find_backend_cluster_index self backend_ref with
    | None => RefInvalid
    | Some (backend_index, cluster) =>
      let backend_name := backend_name_for_index self backend_index cluster in
      if usable_cluster runtime cluster backend_name
      then RefCandidate (mkBackendSelectionCandidate cluster backend_ref backend_name)
      else RefUnhealthy
    end.

Definition class_candidate (c : ref_class) : option BackendSelectionCandidate :=
  match c with RefCandidate candidate => Some candidate | _ => None end.

Definition candidates (self : Snapshot) (runtime : EndpointRuntimeStore)
    (refs : list BackendRef) : list BackendSelectionCandidate :=
  omap (fun backend_ref => class_candidate (classify self runtime backend_ref)) refs.

Lemma candidates_cons self runtime backend_ref refs :
  candidates self runtime (backend_ref :: refs)
  = match classify self runtime backend_ref with
    | RefCandidate candidate => candidate :: candidates self runtime refs
    | _ => candidates self runtime refs
    end.
Proof. unfold candidates. csimpl. by destruct (classify self runtime backend_ref). Qed.

Definition visit_class (self : Snapshot) (outcome : BackendCandidateVisit) (c : ref_class) :
    BackendCandidateVisit :=
  match c with
  | RefSkipped => outcome
  | RefInvalid => saw_invalid outcome
  | RefUnhealthy => saw_unhealthy outcome
  | RefCandidate candidate =>
    observe_candidate outcome (bsc_backend_ref candidate)
      (backend_load_balancing self (bsc_backend_name candidate))
  end.

(** One round of the visit, by the class of its reference. *)
Lemma visit_cons {St} self runtime backend_ref refs now
    (visit : BackendSelectionCandidate -> St -> St * bool) outcome s :
  visit_http_backend_candidates self runtime (backend_ref :: refs) now visit outcome s
  = match classify self runtime backend_ref with
    | RefCandidate candidate =>
      let outcome := visit_class self outcome (RefCandidate candidate) in
      let '(s, go_on) := visit candidate s in
      if go_on then visit_http_backend_candidates self runtime refs now visit outcome s
      else (outcome, s)
    | c =>
      visit_http_backend_candidates self runtime refs now visit (visit_class self outcome c) s
    end.
Proof.
  cbn [visit_http_backend_candidates]. unfold classify.
  case_bool_decide; [done|]. destruct (backend_ref_is_routable backend_ref) eqn:Er; simpl.
  - destruct (find_backend_cluster_index self backend_ref) as [[i cluster]|]; [|done].
    rewrite usable_cluster_count. by destruct (usable_cluster _ _ _).
  - unfold find_backend_cluster_index. by rewrite Er.
Qed.

(** The visitor sees the candidates, in order, until it stops. *)
Lemma visit_state {St} self runtime refs now
    (visit : BackendSelectionCandidate -> St -> St * bool) outcome s :
  (visit_http_backend_candidates self runtime refs now visit outcome s).2
  = (visit_list visit (candidates self runtime refs) s).1.
Proof.
  revert outcome s; induction refs as [|r refs IH]; intros outcome s; [done|].
  rewrite visit_cons, candidates_cons.
  destruct (classify self runtime r) as [| | |candidate]; csimpl; try apply IH.
  destruct (visit candidate s) as [s' []]; [apply IH|done].
Qed.

Lemma visit_outcome self runtime refs now outcome :
  (visit_http_backend_candidates self runtime refs now no_visit outcome tt).1
  = foldl (visit_class self) outcome (classify self runtime <$> refs).
Proof.
  revert outcome; induction refs as [|r refs IH]; intros outcome; [done|].
  rewrite visit_cons. csimpl. by destruct (classify self runtime r); rewrite IH.
Qed.

Definition candidate_weight (candidate : BackendSelectionCandidate) : Z :=
  br_weight (bsc_backend_ref candidate).

Lemma observe_count outcome backend_ref lb :
  bcv_candidate_count (observe_candidate outcome backend_ref lb)
    = S (bcv_candidate_count outcome)
  /\ bcv_total_weight (observe_candidate outcome backend_ref lb)
    = U.wrapping_add64 (bcv_total_weight outcome) (br_weight backend_ref)
  /\ visit_error (observe_candidate outcome backend_ref lb) = visit_error outcome.
Proof. unfold observe_candidate. by repeat case_match. Qed.

Lemma wrapping_add64_wrap x y : U.wrapping_add64 (U.wrap64 x) y = U.wrap64 (x + y).
Proof. unfold U.wrapping_add64, U.wrap64. by rewrite Zplus_mod_idemp_l. Qed.

Lemma outcome_totals self runtime refs outcome x :
  bcv_total_weight outcome = U.wrap64 x ->
  let final := foldl (visit_class self) outcome (classify self runtime <$> refs) in
  bcv_candidate_count final
    = (bcv_candidate_count outcome + length (candidates self runtime refs))%nat
  /\ bcv_total_weight final
    = U.wrap64 (x + total candidate_weight (candidates self runtime refs)).
Proof.
  revert outcome x; induction refs as [|r refs IH]; intros outcome x Hx.
  - simpl. rewrite Nat.add_0_r, Z.add_0_r. done.
  - rewrite candidates_cons, fmap_cons. cbn [foldl].
    destruct (classify self runtime r) as [| | |candidate] eqn:E; csimpl.
    1: exact (IH outcome x Hx).
    1: exact (IH (saw_invalid outcome) x Hx).
    1: exact (IH (saw_unhealthy outcome) x Hx).
    destruct (observe_count outcome (bsc_backend_ref candidate)
      (backend_load_balancing self (bsc_backend_name candidate))) as (Hc & Ht & _).
    destruct (IH (observe_candidate outcome (bsc_backend_ref candidate)
      (backend_load_balancing self (bsc_backend_name candidate))) (x + candidate_weight candidate))
      as [Hc' Ht'].
    { rewrite Ht, Hx. apply wrapping_add64_wrap. }
    rewrite Hc', Ht', Hc. split; [lia|]. f_equal. lia.
Qed.

Lemma candidates_of self runtime refs candidate :
  candidate ∈ candidates self runtime refs ->
  bsc_backend_ref candidate ∈ refs
  /\ br_weight (bsc_backend_ref candidate) <> 0
  /\ (exists i, find_backend_cluster_index self (bsc_backend_ref candidate)
                = Some (i, bsc_cluster candidate)
      /\ bsc_backend_name candidate = backend_name_for_index self i (bsc_cluster candidate))
  /\ usable_cluster runtime (bsc_cluster candidate) (bsc_backend_name candidate) = true.
Proof.
  unfold candidates. rewrite list_elem_of_omap. intros (r & Hr & Hc). unfold classify in Hc.
  case_bool_decide as Hw; [done|].
  destruct (find_backend_cluster_index self r) as [[i cluster]|] eqn:Ef; [|done].
  destruct (usable_cluster _ _ _) eqn:Eu; [|done]. simplify_eq/=. split_and!; eauto.
Qed.

(** ** Endpoints of a chosen candidate *)

Definition bump_endpoint (w : World) : World :=
  mkWorld (w_backend_cursor w) (U.wrapping_add64 (w_endpoint_cursor w) 1) (w_mirror_cursor w)
    (w_endpoint_runtime w) (S (w_ticks w)).

Definition tick (w : World) : World :=
  mkWorld (w_backend_cursor w) (w_endpoint_cursor w) (w_mirror_cursor w)
    (w_endpoint_runtime w) (S (w_ticks w)).

Lemma select_cluster_endpoint_Some cluster backend_name w :
  usable_cluster (w_endpoint_runtime w) cluster backend_name = true ->
  exists e, select_cluster_endpoint cluster backend_name w = (Some e, bump_endpoint w)
    /\ e ∈ eligible_endpoints (w_endpoint_runtime w) cluster backend_name
            (instant_at (w_ticks w)).
Proof.
  intros Hu. unfold select_cluster_endpoint, mbind, M_bind, instant_now, get_runtime; simpl.
  set (now := instant_at (w_ticks w)). set (runtime := w_endpoint_runtime w) in *.
  pose proof (eligible_count runtime cluster backend_name now) as Hc.
  pose proof (usable_cluster_count runtime cluster backend_name now) as Hz.
  unfold eligible_endpoint_count in *. rewrite Hu in Hz. simpl in Hz. rewrite Hz.
  apply bool_decide_eq_false in Hz. simpl. unfold mret, M_ret.
  fold (eligible_endpoints runtime cluster backend_name now).
  set (count := esa_count _) in *. set (ticket := w_endpoint_cursor w).
  destruct (lookup_lt_is_Some_2 (eligible_endpoints runtime cluster backend_name now)
    (Z.to_nat (ticket mod Z.of_nat count))) as [e He].
  { rewrite <- Hc. pose proof (Z.mod_pos_bound ticket (Z.of_nat count)). lia. }
  exists e. rewrite He. split; [done|]. by eapply list_elem_of_lookup_2.
Qed.

Lemma select_cluster_endpoint_None cluster backend_name w :
  usable_cluster (w_endpoint_runtime w) cluster backend_name = false ->
  select_cluster_endpoint cluster backend_name w = (None, tick w).
Proof.
  intros Hu. unfold select_cluster_endpoint, mbind, M_bind, instant_now, get_runtime; simpl.
  pose proof (usable_cluster_count (w_endpoint_runtime w) cluster backend_name
    (instant_at (w_ticks w))) as Hz.
  unfold eligible_endpoint_count in Hz. rewrite Hu in Hz. simpl in Hz. by rewrite Hz.
Qed.

(** ** Spreading *)

Definition resolved (self : Snapshot) (route_session : option SessionPersistence)
    (candidate : BackendSelectionCandidate) (endpoint : BackendEndpoint) : ResolvedHttpBackend :=
  {| rhb_endpoint := endpoint;
     rhb_backend_name := bsc_backend_name candidate;
     rhb_filters := br_filters (bsc_backend_ref candidate);
     rhb_session_persistence :=
       route_session_persistence self route_session (bsc_backend_name candidate) |}.

Lemma weighted_visit self route_session target cs seen w :
  Forall (fun c => 0 <= candidate_weight c) cs ->
  0 <= seen -> seen + total candidate_weight cs < U.u64_modulus ->
  let '(_, resolution, w') :=
    (visit_list (weighted_visitor self route_session target) cs (seen, None, w)).1 in
  (resolution, w')
  = match pick candidate_weight cs (target - seen) with
    | Some c =>
      let '(endpoint, w') := select_cluster_endpoint (bsc_cluster c) (bsc_backend_name c) w in
      (Some (mkHttpBackendResolution (resolved self route_session c <$> endpoint) None), w')
    | None => (None, w)
    end.
Proof.
  revert seen; induction cs as [|c cs IH]; intros seen Hw Hs Ht; [done|].
  apply Forall_cons_1 in Hw as [Hc Hcs]. pose proof (total_nonneg candidate_weight cs Hcs).
  cbn [total foldr] in Ht. fold (total candidate_weight cs) in Ht.
  cbn [visit_list pick]. unfold weighted_visitor at 1.
  fold (candidate_weight c). unfold U.wrapping_add64. rewrite U.wrap64_small by lia.
  destruct (Z.ltb_spec target (seen + candidate_weight c)) as [Hlt|Hge].
  - destruct (Z.ltb_spec (target - seen) (candidate_weight c)); [|lia].
    destruct (select_cluster_endpoint _ _ w) as [endpoint w']. done.
  - destruct (Z.ltb_spec (target - seen) (candidate_weight c)); [lia|].
    specialize (IH (seen + candidate_weight c) Hcs ltac:(lia) ltac:(lia)).
    by replace (target - seen - candidate_weight c) with (target - (seen + candidate_weight c)) by lia.
Qed.

Lemma spread_candidates_spec self refs route_session now target w :
  let cs := candidates self (w_endpoint_runtime w) refs in
  Forall (fun c => 0 <= candidate_weight c) cs -> total candidate_weight cs < U.u64_modulus ->
  spread_candidates self refs route_session now target w
  = match pick candidate_weight cs target with
    | Some c =>
      let '(endpoint, w') := select_cluster_endpoint (bsc_cluster c) (bsc_backend_name c) w in
      (mkHttpBackendResolution (resolved self route_session c <$> endpoint) None, w')
    | None => (mkHttpBackendResolution None None, w)
    end.
Proof.
  intros cs Hw Ht. unfold spread_candidates.
  pose proof (visit_state self (w_endpoint_runtime w) refs now
    (weighted_visitor self route_session target) BackendCandidateVisit_default (0, None, w)) as Hv.
  pose proof (weighted_visit self route_session target cs 0 w Hw ltac:(lia) ltac:(lia)) as Hr.
  fold cs in Hv. rewrite Z.sub_0_r in Hr.
  destruct (visit_http_backend_candidates _ _ _ _ _ _ _) as [o [[seen r] w']]. simpl in Hv.
  rewrite <- Hv in Hr. destruct (pick candidate_weight cs target) as [c|].
  - destruct (select_cluster_endpoint _ _ w) as [endpoint w'']. by simplify_eq/=.
  - by simplify_eq/=.
Qed.

(** ** Hashing *)

Lemma foldl_better_Some {A B} (le : A -> A -> bool) (score : B -> A) (p : B -> bool) l best :
  (is_Some best \/ exists x, x ∈ l /\ p x = true) ->
  is_Some (foldl (fun best x => if negb (p x) then best else keep_better le best (score x) x)
    best l).
Proof.
  revert best; induction l as [|x l IH]; intros best Hx; simpl.
  - destruct Hx as [?|(x & Hx & _)]; [done|]. by apply not_elem_of_nil in Hx.
  - apply IH. assert (forall b y, is_Some (keep_better le b (score y) y)) as Hk.
    { intros [[]|] y; simpl; [case_match|]; eauto. }
    destruct (p x) eqn:E; simpl; [left; apply Hk|].
    destruct Hx as [?|(y & [->|Hy]%elem_of_cons & Hp)]; [by left|congruence|right; eauto].
Qed.

Lemma foldl_better_elem {A B} (le : A -> A -> bool) (score : B -> A) (p : B -> bool) l best s x :
  foldl (fun best x => if negb (p x) then best else keep_better le best (score x) x) best l
    = Some (s, x) ->
  best = Some (s, x) \/ (x ∈ l /\ p x = true).
Proof.
  revert best; induction l as [|y l IH]; intros best; simpl; [by left|]. intros Hf.
  destruct (IH _ Hf) as [Hb|[Hx Hp]]; [|right; split; [by right|done]].
  destruct (p y) eqn:E; simpl in Hb; [|by left].
  destruct best as [[s' x']|]; simpl in Hb; [destruct (le _ _)|]; simplify_eq/=; eauto;
    right; (split; [by left|done]).
Qed.

Lemma select_by_hash_Some cluster backend_name hash_key w :
  usable_cluster (w_endpoint_runtime w) cluster backend_name = true ->
  exists e, select_cluster_endpoint_by_hash cluster backend_name hash_key w = (Some e, tick w)
    /\ e ∈ eligible_endpoints (w_endpoint_runtime w) cluster backend_name
            (instant_at (w_ticks w)).
Proof.
  intros Hu. unfold select_cluster_endpoint_by_hash, mbind, M_bind, instant_now, get_runtime; simpl.
  set (now := instant_at (w_ticks w)). set (runtime := w_endpoint_runtime w) in *.
  pose proof (eligible_count runtime cluster backend_name now) as Hc.
  pose proof (usable_cluster_count runtime cluster backend_name now) as Hz.
  unfold eligible_endpoint_count in *. rewrite Hu in Hz. simpl in Hz. rewrite Hz.
  apply bool_decide_eq_false in Hz. simpl. unfold mret, M_ret.
  set (av := endpoint_selection_availability runtime cluster backend_name now) in *.
  set (p := endpoint_matches_selection_availability runtime backend_name now av).
  set (score := rendezvous_hash_endpoint hash_key backend_name).
  assert (Hel : eligible_endpoints runtime cluster backend_name now
    = List.filter p (bc_endpoints cluster)) by done.
  destruct (foldl_better_Some Z.leb score p (bc_endpoints cluster) None) as [[sc e] He].
  { right. destruct (List.filter p (bc_endpoints cluster)) as [|e l] eqn:Ef;
      [rewrite Hel in Hc; simpl in Hc; lia|].
    exists e. assert (In e (List.filter p (bc_endpoints cluster))) as [Hin Hp]%filter_In
      by (rewrite Ef; by left). split; [by apply list_elem_of_In|done]. }
  exists e. rewrite He. split; [done|].
  destruct (foldl_better_elem _ _ _ _ _ _ _ He) as [?|[Hin Hp]]; [done|].
  rewrite Hel. apply list_elem_of_In, filter_In. split; [by apply list_elem_of_In|done].
Qed.

(** What a resolution may choose: the candidate of a routable reference with a
    weight, and one of its cluster's usable endpoints. *)
Definition chosen_from (self : Snapshot) (runtime : EndpointRuntimeStore)
    (cs : list BackendSelectionCandidate) (r : ResolvedHttpBackend) : Prop :=
  exists c, c ∈ cs /\ rhb_backend_name r = bsc_backend_name c
    /\ rhb_filters r = br_filters (bsc_backend_ref c)
    /\ rhb_endpoint r ∈ bc_endpoints (bsc_cluster c)
    /\ endpoint_usable runtime (bsc_backend_name c) (rhb_endpoint r) = true.

Lemma resolved_chosen self runtime route_session cs c e now :
  c ∈ cs -> e ∈ eligible_endpoints runtime (bsc_cluster c) (bsc_backend_name c) now ->
  chosen_from self runtime cs (resolved self route_session c e).
Proof. intros Hc [Hin Hu]%eligible_endpoints_usable. exists c. by split_and!. Qed.

(** The worlds a resolution can lead to differ in cursors and clock only. *)
Definition same_runtime (w w' : World) : Prop := w_endpoint_runtime w' = w_endpoint_runtime w.

Lemma hash_visit self route_session hash_key runtime all cs : forall best w,
  w_endpoint_runtime w = runtime -> (forall c, c ∈ cs -> c ∈ all) ->
  Forall (fun c => usable_cluster runtime (bsc_cluster c) (bsc_backend_name c) = true) cs ->
  (forall sc r, best = Some (sc, r) -> chosen_from self runtime all r) ->
  let '(best', w') :=
    (visit_list (consistent_hash_visitor self route_session hash_key) cs (best, w)).1 in
  w_endpoint_runtime w' = runtime
  /\ (is_Some best \/ cs <> [] -> is_Some best')
  /\ (forall sc r, best' = Some (sc, r) -> chosen_from self runtime all r).
Proof.
  induction cs as [|c cs IH]; intros best w Hr Hall Hu Hb; simpl.
  - split_and!; [done|by intros [?|?]|done].
  - apply Forall_cons_1 in Hu as [Hc Hcs]. rewrite <- Hr in Hc.
    destruct (select_by_hash_Some _ _ hash_key w Hc) as (e & He & Hel). rewrite He.
    set (score := weighted_rendezvous_score _ _ _).
    fold (resolved self route_session c e).
    assert (chosen_from self runtime all (resolved self route_session c e)) as Hch.
    { rewrite Hr in Hel. eapply resolved_chosen; [apply Hall; by left|done]. }
    specialize (IH (keep_better SFleb best score (resolved self route_session c e)) (tick w) Hr).
    destruct (visit_list _ cs _).1 as [best' w'] eqn:Ev.
    destruct IH as (Hw & Hs & Hg); [intros c' Hc'; apply Hall; by right|done| |].
    + intros sc r. destruct best as [[sb rb]|]; simpl; [destruct (SFleb _ _)|];
        intros [= <- <-]; eauto.
    + split_and!; [done| |done]. intros _. apply Hs. left.
      destruct best as [[]|]; simpl; [destruct (SFleb _ _)|]; eauto.
Qed.

Lemma candidates_usable self runtime refs :
  Forall (fun c => usable_cluster runtime (bsc_cluster c) (bsc_backend_name c) = true)
    (candidates self runtime refs).
Proof. apply list.Forall_forall. intros c Hc. by apply candidates_of in Hc as (_ & _ & _ & Hu). Qed.

Lemma resolve_consistent_hash_spec self refs now policy route_session request w :
  let '(selected, w') :=
    resolve_consistent_hash_http_backend self refs now policy route_session request w in
  same_runtime w w'
  /\ (forall r, selected = Some r ->
      chosen_from self (w_endpoint_runtime w) (candidates self (w_endpoint_runtime w) refs) r)
  /\ (selected = None -> w' = w \/ candidates self (w_endpoint_runtime w) refs = []).
Proof.
  unfold resolve_consistent_hash_http_backend, same_runtime.
  destruct policy as [policy|]; [|by split_and!; auto].
  destruct (negb _); [by split_and!; auto|].
  destruct (consistent_hash_key policy request) as [hash_key|]; [|by split_and!; auto].
  set (runtime := w_endpoint_runtime w). set (cs := candidates self runtime refs).
  pose proof (visit_state self runtime refs now
    (consistent_hash_visitor self route_session hash_key) BackendCandidateVisit_default (None, w)) as Hv.
  pose proof (hash_visit self route_session hash_key runtime cs cs None w eq_refl
    (fun c Hc => Hc) (candidates_usable self runtime refs)) as Hh.
  destruct (visit_http_backend_candidates _ _ _ _ _ _ _) as [o [best w']]. simpl in Hv.
  fold cs in Hv. rewrite <- Hv in Hh. destruct Hh as (Hw & Hs & Hg); [done|].
  split_and!; [done| |].
  - intros r Hr. destruct best as [[sc r']|]; simplify_eq/=. by eapply Hg.
  - intros Hn. right. destruct best as [[sc r']|]; simplify_eq/=.
    destruct cs as [|c cs']; [done|]. destruct Hs as [? ?]; [by right|done].
Qed.

(** ** Sessions *)

Lemma persistent_chosen self target session_persistence all refs w :
  (forall r, r ∈ refs -> r ∈ all) ->
  let '(selected, w') :=
    resolve_persistent_http_backend self refs target session_persistence w in
  same_runtime w w'
  /\ forall r, selected = Some r ->
     chosen_from self (w_endpoint_runtime w) (candidates self (w_endpoint_runtime w) all) r
     /\ rhb_backend_name r = pst_backend_name target
     /\ be_address (rhb_endpoint r) = be_address (pst_endpoint target)
     /\ be_port (rhb_endpoint r) = be_port (pst_endpoint target).
Proof.
  unfold same_runtime. revert w. induction refs as [|b refs IH]; intros w Hall; [done|].
  assert (Hrest : forall r, r ∈ refs -> r ∈ all) by (intros r Hr; apply Hall; by right).
  specialize (IH w Hrest). cbn [resolve_persistent_http_backend].
  destruct (bool_decide (br_weight b = 0)) eqn:Hw; [done|]. simpl.
  destruct (backend_ref_is_routable b) eqn:Hrt; [|done]. simpl.
  destruct (find_backend_cluster_index self b) as [[i cluster]|] eqn:Ef; [|done].
  destruct (bool_decide (_ = pst_backend_name target)) eqn:Hn; [|done]. simpl.
  split; [done|]. intros r Hr.
  destruct (List.find _ _) as [e|] eqn:Efind; simplify_eq/=.
  apply List.find_some in Efind as [Hin Hm]. bool_hyps.
  set (runtime := w_endpoint_runtime w) in *.
  set (name := backend_name_for_index self i cluster) in *.
  assert (endpoint_usable runtime name e = true) as Hu.
  { rewrite <- (available_usable _ _ _ (instant_at (w_ticks w))).
    unfold endpoint_matches_selection_availability in *.
    by destruct (endpoint_availability_at runtime name e (instant_at (w_ticks w))). }
  split_and!; [|done|done|done].
  exists (mkBackendSelectionCandidate cluster b name).
  split_and!; simpl; [|done|done|by apply list_elem_of_In|done].
  apply list_elem_of_omap. exists b. split; [apply Hall; by left|].
  unfold classify. rewrite bool_decide_eq_false_2, Ef by done.
  fold name. assert (usable_cluster runtime cluster name = true) as ->; [|done].
  unfold usable_cluster. apply existsb_exists. by exists e.
Qed.

Lemma policy_persistent_chosen self refs session_resolver todo w :
  let '(selected, w') := policy_persistent_loop self refs todo session_resolver w in
  same_runtime w w'
  /\ forall r, selected = Some r ->
     chosen_from self (w_endpoint_runtime w) (candidates self (w_endpoint_runtime w) refs) r.
Proof.
  unfold same_runtime. revert w. induction todo as [|b todo IH]; intros w; [done|].
  pose proof (IH w) as IHw. cbn [policy_persistent_loop].
  destruct (bool_decide _ || _); [done|].
  destruct (find_backend_cluster_index self b) as [[i cluster]|]; [|done].
  destruct (backend_session_persistence self _) as [sp|]; [|done].
  destruct (session_resolver sp) as [target|]; [|done].
  pose proof (persistent_chosen self target (Some sp) refs refs w (fun r Hr => Hr)) as Hp.
  destruct (resolve_persistent_http_backend self refs target (Some sp) w) as [[r|] w'].
  - destruct Hp as [Hw Hr]. split; [done|]. intros r' [= <-]. by apply Hr.
  - destruct Hp as [Hw _]. unfold same_runtime in Hw. specialize (IH w').
    destruct (policy_persistent_loop self refs todo session_resolver w') as [sel w''].
    rewrite Hw in IH. done.
Qed.

Lemma route_session_chosen self refs route_session session_resolver w :
  let '(selected, w') := resolve_route_session self refs route_session session_resolver w in
  same_runtime w w'
  /\ forall r, selected = Some r ->
     chosen_from self (w_endpoint_runtime w) (candidates self (w_endpoint_runtime w) refs) r.
Proof.
  unfold resolve_route_session. destruct (route_session ≫= session_resolver) as [target|]; [|done].
  pose proof (persistent_chosen self target None refs refs w (fun r Hr => Hr)) as Hp.
  destruct (resolve_persistent_http_backend _ _ _ _ _) as [sel w1].
  split; [apply Hp|]. intros r Hr. by apply Hp.
Qed.

Lemma policy_session_chosen self refs route_session session_resolver w :
  let '(selected, w') := resolve_policy_session self refs route_session session_resolver w in
  same_runtime w w'
  /\ forall r, selected = Some r ->
     chosen_from self (w_endpoint_runtime w) (candidates self (w_endpoint_runtime w) refs) r.
Proof. destruct route_session; [done|]. apply policy_persistent_chosen. Qed.

(** ** The whole resolution *)

(** Weights are [u32]s, so that the sum of any list of references that fits in
    memory fits in a [u64]. *)
Definition refs_fit (refs : list BackendRef) : Prop :=
  Forall (fun r => 0 <= br_weight r) refs /\ total br_weight refs < U.u64_modulus.

Lemma candidates_fit self runtime refs :
  refs_fit refs ->
  Forall (fun c => 0 <= candidate_weight c) (candidates self runtime refs)
  /\ total candidate_weight (candidates self runtime refs) < U.u64_modulus.
Proof.
  intros [Hw Ht].
  assert (Forall (fun c => 0 <= candidate_weight c) (candidates self runtime refs)
    /\ total candidate_weight (candidates self runtime refs) <= total br_weight refs) as [? ?];
    [|split; [done|lia]].
  clear Ht. induction Hw as [|r refs Hr Hrs IH]; [by split; [constructor|]|].
  destruct IH as [IH1 IH2]. rewrite candidates_cons. cbn [total foldr]. fold (total br_weight refs).
  destruct (classify self runtime r) as [| | |c] eqn:E; try (split; [done|lia]).
  assert (candidate_weight c = br_weight r) as Hc.
  { unfold classify in E. repeat case_match; simplify_eq/=; done. }
  cbn [total foldr]. fold (total candidate_weight (candidates self runtime refs)).
  split; [constructor; [lia|done]|lia].
Qed.

Definition is_unhealthy_class (c : ref_class) : bool :=
  match c with RefUnhealthy => true | _ => false end.
Definition is_invalid_class (c : ref_class) : bool :=
  match c with RefInvalid => true | _ => false end.

(** The error of a list of references without a candidate: an unhealthy backend
    takes precedence over an invalid reference. *)
Definition refs_error (cs : list ref_class) : option BackendSelectionError :=
  if existsb is_unhealthy_class cs then Some NoHealthyBackends
  else if existsb is_invalid_class cs then Some InvalidBackendRefs
  else None.

Lemma observe_flags outcome backend_ref lb :
  bcv_saw_unhealthy_backend (observe_candidate outcome backend_ref lb)
    = bcv_saw_unhealthy_backend outcome
  /\ bcv_saw_invalid_refs (observe_candidate outcome backend_ref lb) = bcv_saw_invalid_refs outcome.
Proof. unfold observe_candidate. by repeat case_match. Qed.

Lemma visit_error_classes self cs outcome :
  visit_error (foldl (visit_class self) outcome cs)
  = if bcv_saw_unhealthy_backend outcome || existsb is_unhealthy_class cs
    then Some NoHealthyBackends
    else if bcv_saw_invalid_refs outcome || existsb is_invalid_class cs
    then Some InvalidBackendRefs else None.
Proof.
  revert outcome; induction cs as [|c cs IH]; intros outcome; simpl; [by rewrite !orb_false_r|].
  rewrite IH. destruct c as [| | |c]; simpl; rewrite ?orb_true_r; [done|done|done|].
  by destruct (observe_flags outcome (bsc_backend_ref c)
    (backend_load_balancing self (bsc_backend_name c))) as [-> ->].
Qed.

Lemma outcome_spec self runtime refs :
  refs_fit refs ->
  let outcome := foldl (visit_class self) BackendCandidateVisit_default
    (classify self runtime <$> refs) in
  bcv_candidate_count outcome = length (candidates self runtime refs)
  /\ bcv_total_weight outcome = total candidate_weight (candidates self runtime refs)
  /\ visit_error outcome = refs_error (classify self runtime <$> refs).
Proof.
  intros Hf outcome. destruct (candidates_fit self runtime refs Hf) as [Hw Ht].
  pose proof (total_nonneg _ _ Hw).
  destruct (outcome_totals self runtime refs BackendCandidateVisit_default 0 eq_refl) as [Hc Htot].
  split_and!; [done| |apply visit_error_classes].
  subst outcome. rewrite Htot. rewrite Z.add_0_l. apply U.wrap64_small. lia.
Qed.

Lemma candidate_total_pos self runtime refs :
  refs_fit refs -> candidates self runtime refs <> [] ->
  1 <= total candidate_weight (candidates self runtime refs).
Proof.
  intros Hf Hne. destruct (candidates_fit self runtime refs Hf) as [Hw _].
  destruct (candidates self runtime refs) as [|c cs] eqn:E; [done|].
  assert (c ∈ candidates self runtime refs) as Hc by (rewrite E; by left).
  apply candidates_of in Hc as (_ & Hnz & _ & _).
  apply Forall_cons_1 in Hw as [Hc Hcs]. pose proof (total_nonneg _ _ Hcs).
  cbn [total foldr]. fold (total candidate_weight cs). unfold candidate_weight in *. lia.
Qed.

(** The candidate that owns the target has a usable endpoint, and its ticket is
    taken from the endpoint cursor. *)
Lemma spread_candidates_chosen self refs route_session now target w :
  refs_fit refs ->
  let cs := candidates self (w_endpoint_runtime w) refs in
  0 <= target < total candidate_weight cs ->
  exists c e,
    pick candidate_weight cs target = Some c
    /\ e ∈ eligible_endpoints (w_endpoint_runtime w) (bsc_cluster c) (bsc_backend_name c)
            (instant_at (w_ticks w))
    /\ spread_candidates self refs route_session now target w
       = (mkHttpBackendResolution (Some (resolved self route_session c e)) None, bump_endpoint w).
Proof.
  intros Hf cs Ht. destruct (candidates_fit self (w_endpoint_runtime w) refs Hf) as [Hw Htot].
  destruct (pick_Some candidate_weight cs target Hw Ht) as [c Hc].
  pose proof (pick_elem _ _ _ _ Hc) as Hin.
  pose proof (candidates_of _ _ _ _ Hin) as (_ & _ & _ & Hu).
  destruct (select_cluster_endpoint_Some _ _ _ Hu) as (e & He & Hel).
  exists c, e. split_and!; [done|done|].
  rewrite spread_candidates_spec by done. fold cs. by rewrite Hc, He.
Qed.

Lemma resolve_candidates_sound self refs route_session request w :
  refs_fit refs ->
  let runtime := w_endpoint_runtime w in
  let '(res, w') := resolve_candidates self refs route_session request w in
  same_runtime w w' /\
  match hbr_selected res with
  | Some r => hbr_error res = None
      /\ chosen_from self runtime (candidates self runtime refs) r
  | None => candidates self runtime refs = []
      /\ hbr_error res = refs_error (classify self runtime <$> refs)
  end.
Proof.
  intros Hf runtime. unfold resolve_candidates, mbind, M_bind, instant_now, get_runtime; simpl.
  rewrite visit_outcome. fold runtime.
  destruct (outcome_spec self runtime refs Hf) as (Hc & Ht & He).
  set (outcome := foldl _ _ _) in *. rewrite Hc.
  case_bool_decide as Hz.
  { simpl. split; [done|]. split; [by apply nil_length_inv|done]. }
  assert (candidates self runtime refs <> []) as Hne by (intros E; rewrite E in Hz; done).
  pose proof (resolve_consistent_hash_spec self refs (instant_at (w_ticks w))
    (bcv_effective_load_balancing outcome) route_session request (tick w)) as Hh.
  unfold tick in Hh at 1. change (w_endpoint_runtime (tick w)) with runtime in Hh.
  destruct (resolve_consistent_hash_http_backend _ _ _ _ _ _ _) as [[r|] w1].
  { destruct Hh as (Hw & Hr & _). split; [done|]. simpl. split; [done|]. by apply Hr. }
  destruct Hh as (_ & _ & [->|?]); [done| |done]. simpl.
  pose proof (candidate_total_pos self runtime refs Hf Hne) as Hpos. rewrite Ht.
  destruct (spread_candidates_chosen self refs route_session (instant_at (w_ticks w))
    (spread_weighted_target (w_backend_cursor w) (total candidate_weight (candidates self runtime refs)))
    (next_backend_ticket (tick w)).2 Hf) as (c & e & Hp & Hel & Hs).
  { apply spread_target_range. apply (Z.lt_le_trans _ 1); [lia|exact Hpos]. }
  unfold next_backend_ticket in Hs; simpl in Hs. rewrite Hs. simpl.
  split; [done|]. split; [done|]. eapply resolved_chosen; [by eapply pick_elem|done].
Qed.

(** ** Fairness *)

Lemma effective_policy self runtime refs outcome p :
  bcv_effective_load_balancing
    (foldl (visit_class self) outcome (classify self runtime <$> refs)) = Some p ->
  bcv_effective_load_balancing outcome = Some p
  \/ exists c, c ∈ candidates self runtime refs
      /\ backend_load_balancing self (bsc_backend_name c) = Some p.
Proof.
  revert outcome; induction refs as [|r refs IH]; intros outcome; [by left|].
  rewrite fmap_cons, candidates_cons. cbn [foldl]. intros Hp.
  destruct (classify self runtime r) as [| | |c]; cbn [visit_class] in Hp;
    try (destruct (IH _ Hp) as [?|?]; [by left|by right]).
  destruct (IH _ Hp) as [Ho|(c' & Hc' & Hl)].
  - unfold observe_candidate in Ho.
    destruct (bcv_load_balancing_mismatch outcome); [by left|].
    destruct (backend_load_balancing self (bsc_backend_name c)) as [lb|] eqn:El; [|done].
    destruct (bcv_effective_load_balancing outcome) as [cur|] eqn:Ec.
    + case_bool_decide; simplify_eq/=. by left.
    + simplify_eq/=. right. exists c. split; [by left|done].
  - right. exists c'. split; [by right|done].
Qed.

(** No candidate is balanced by consistent hashing. *)
Definition spreads (self : Snapshot) (runtime : EndpointRuntimeStore) (refs : list BackendRef) :
    Prop :=
  forall c p, c ∈ candidates self runtime refs ->
  backend_load_balancing self (bsc_backend_name c) = Some p ->
  lb_policy_type p <> "ConsistentHash".

Lemma resolve_without_hash self runtime refs now route_session request w :
  spreads self runtime refs ->
  resolve_consistent_hash_http_backend self refs now
    (bcv_effective_load_balancing
       (foldl (visit_class self) BackendCandidateVisit_default (classify self runtime <$> refs)))
    route_session request w = (None, w).
Proof.
  intros Hs. unfold resolve_consistent_hash_http_backend.
  destruct (bcv_effective_load_balancing _) as [p|] eqn:E; [|done].
  apply effective_policy in E as [?|(c & Hc & Hl)]; [done|].
  by rewrite bool_decide_eq_false_2 by (by eapply Hs).
Qed.

Lemma policy_persistent_none self refs todo w :
  policy_persistent_loop self refs todo (fun _ => None) w = (None, w).
Proof.
  induction todo as [|b todo IH]; [done|]. cbn [policy_persistent_loop].
  destruct (bool_decide _ || _); [done|].
  destruct (find_backend_cluster_index self b) as [[i cluster]|]; [|done].
  by destruct (backend_session_persistence self _).
Qed.

Definition sessionless : SessionResolver := fun _ => None.

Lemma resolve_sessionless self refs route_session request w :
  resolve_http_backend_refs_with_session self refs route_session request sessionless w
  = resolve_candidates self refs route_session request w.
Proof.
  unfold resolve_http_backend_refs_with_session, resolve_route_session, resolve_policy_session,
    mbind, M_bind, sessionless.
  destruct route_session as [sp|]; [done|]. simpl.
  unfold resolve_backend_policy_persistent_http_backend. by rewrite policy_persistent_none.
Qed.

(** One resolution without sessions or hashing: the ticket decides. *)
Lemma resolve_spread_step self refs route_session request w :
  refs_fit refs ->
  let cs := candidates self (w_endpoint_runtime w) refs in
  cs <> [] -> spreads self (w_endpoint_runtime w) refs ->
  exists c e w',
    pick candidate_weight cs
      (spread_weighted_target (w_backend_cursor w) (total candidate_weight cs)) = Some c
    /\ resolve_http_backend_refs_with_session self refs route_session request sessionless w
       = (mkHttpBackendResolution (Some (resolved self route_session c e)) None, w')
    /\ w_endpoint_runtime w' = w_endpoint_runtime w
    /\ w_backend_cursor w' = U.wrapping_add64 (w_backend_cursor w) 1.
Proof.
  intros Hf cs Hne Hs. rewrite resolve_sessionless.
  unfold resolve_candidates, mbind, M_bind, instant_now, get_runtime; simpl.
  rewrite visit_outcome. set (runtime := w_endpoint_runtime w) in *.
  destruct (outcome_spec self runtime refs Hf) as (Hc & Ht & _).
  rewrite Hc, bool_decide_eq_false_2 by (by intros ?%nil_length_inv).
  rewrite resolve_without_hash by done. rewrite Ht. fold cs. simpl.
  pose proof (candidate_total_pos self runtime refs Hf Hne) as Hpos.
  destruct (spread_candidates_chosen self refs route_session (instant_at (w_ticks w))
    (spread_weighted_target (w_backend_cursor w) (total candidate_weight cs))
    (next_backend_ticket (tick w)).2 Hf) as (c & e & Hp & Hel & Hsp).
  { apply spread_target_range. apply (Z.lt_le_trans _ 1); [lia|exact Hpos]. }
  unfold next_backend_ticket in Hsp; simpl in Hsp. fold runtime in Hsp. rewrite Hsp.
  exists c, e. eexists. split_and!; done.
Qed.

(** [n] runs of the same operation, one after the other. *)
Fixpoint times {A} (n : nat) (m : M A) : M (list A) := fun w =>
  match n with
  | O => ([], w)
  | S n => let '(x, w) := m w in let '(xs, w) := times n m w in (x :: xs, w)
  end.

Definition chosen_name (r : HttpBackendResolution) : option string :=
  rhb_backend_name <$> hbr_selected r.

(** An operation that takes a backend ticket and picks its owner on a line of
    weights picks everyone as often as the weights say. *)
Section spread_fair.
Context {A C N : Type} (m : M A) (view : A -> option N) (name : C -> N) (weight : C -> Z).
Context (cs : list C) (runtime : EndpointRuntimeStore).
Context (Hm : forall w, w_endpoint_runtime w = runtime ->
  exists x c w', m w = (x, w')
  /\ pick weight cs (spread_weighted_target (w_backend_cursor w) (total weight cs)) = Some c
  /\ view x = Some (name c) /\ w_endpoint_runtime w' = runtime
  /\ w_backend_cursor w' = U.wrapping_add64 (w_backend_cursor w) 1).

Lemma spread_times n : forall w,
  w_endpoint_runtime w = runtime ->
  0 <= w_backend_cursor w -> w_backend_cursor w + Z.of_nat n <= U.u64_modulus ->
  view <$> (times n m w).1
  = (fun i => name <$> pick weight cs
       (spread_weighted_target (w_backend_cursor w + Z.of_nat i) (total weight cs))) <$> seq 0 n.
Proof.
  induction n as [|n IH]; intros w Hw Hw0 Hb; [done|]. cbn [times].
  destruct (Hm w Hw) as (x & c & w' & Hr & Hp & Hv & Hrt & Hcur).
  rewrite Hr. specialize (IH w' Hrt). destruct n as [|n].
  - simpl. by rewrite Z.add_0_r, Hp, Hv.
  - unfold U.wrapping_add64 in Hcur. rewrite U.wrap64_small in Hcur by lia.
    rewrite Hcur in IH. specialize (IH ltac:(lia) ltac:(lia)).
    destruct (times (S n) _ w') as [xs w'']. cbn [fst] in *.
    rewrite <- (cons_seq (S n) 0), !fmap_cons. f_equal.
    + by rewrite Z.add_0_r, Hp, Hv.
    + rewrite IH. rewrite <- (fmap_S_seq 0 (S n)), <- list_fmap_compose.
      apply list_fmap_ext. intros i k _. simpl. do 3 f_equal. lia.
Qed.

Lemma spread_fair w :
  w_endpoint_runtime w = runtime -> Forall (fun c => 0 <= weight c) cs ->
  let W := total weight cs in
  1 <= W < U.u64_modulus -> no_wrap (w_backend_cursor w) W ->
  view <$> (times (Z.to_nat W) m w).1 ≡ₚ Some <$> (name <$> repeated weight cs).
Proof.
  intros Hw Hpos W HW [Hw0 Hnw].
  assert (1 <= spread_weighted_stride W) as Hst.
  { destruct (decide (W = 1)) as [->|]; [done|].
    apply (spread_weighted_stride_good W); [lia|split; lia]. }
  rewrite spread_times; [|done|done|rewrite Z2Nat.id by lia; nia].
  pose proof (pick_targets weight (w_backend_cursor w) cs Hpos (proj1 HW)
    (conj (Z.le_trans 0 1 _ Z.le_0_1 (proj1 HW)) (proj2 HW)) (conj Hw0 Hnw)) as Hp.
  apply (fmap_Permutation (option_map name)) in Hp. revert Hp.
  unfold targets. rewrite <- !list_fmap_compose. done.
Qed.
End spread_fair.

(** ** Mirroring *)

Definition mirror_fraction (filter : RequestMirrorFilter) : Z * Z :=
  match rm_fraction filter with
  | Some fraction => (fr_numerator fraction, Z.max (fr_denominator fraction) 1)
  | None => (default 100 (rm_percent filter), 100)
  end.

Lemma mirror_times filter n d k : forall w,
  mirror_fraction filter = (n, d) -> 0 < n < d ->
  0 <= w_mirror_cursor w -> w_mirror_cursor w + Z.of_nat k <= U.u64_modulus ->
  (times k (should_mirror filter) w).1
  = (fun i => (w_mirror_cursor w + Z.of_nat i) mod d <? n) <$> seq 0 k.
Proof.
  intros w Hf Hn. revert w. induction k as [|k IH]; intros w Hw0 Hb; [done|]. cbn [times].
  assert (should_mirror filter w = (w_mirror_cursor w mod d <? n, (next_mirror_ticket w).2)) as ->.
  { unfold should_mirror. fold (mirror_fraction filter). rewrite Hf.
    rewrite bool_decide_eq_false_2 by lia. destruct (Z.leb_spec d n); [lia|done]. }
  rewrite <- (cons_seq k 0), fmap_cons, Z.add_0_r.
  destruct k as [|k]; [done|].
  assert (w_mirror_cursor (next_mirror_ticket w).2 = w_mirror_cursor w + 1) as Hc.
  { simpl. unfold U.wrapping_add64. apply U.wrap64_small. lia. }
  specialize (IH (next_mirror_ticket w).2). rewrite Hc in IH. specialize (IH ltac:(lia) ltac:(lia)).
  destruct (times (S k) (should_mirror filter) (next_mirror_ticket w).2) as [xs w''].
  cbn [fst] in *. f_equal. rewrite IH, <- (fmap_S_seq 0 (S k)), <- list_fmap_compose.
  apply list_fmap_ext. intros i x _. unfold compose.
  by replace (w_mirror_cursor w + Z.of_nat (S x)) with (w_mirror_cursor w + 1 + Z.of_nat x) by lia.
Qed.

(** A run of [d] consecutive residues meets each residue once. *)
Lemma residues_permutation a d :
  0 < d ->
  (fun i => (a + Z.of_nat i) mod d) <$> seq 0 (Z.to_nat d) ≡ₚ Z.of_nat <$> seq 0 (Z.to_nat d).
Proof.
  intros Hd. apply submseteq_length_Permutation; [|by rewrite !length_fmap].
  apply NoDup_submseteq.
  - apply NoDup_fmap_2_strong; [|apply NoDup_seq].
    intros i j Hi%elem_of_seq Hj%elem_of_seq He.
    assert ((Z.of_nat i - Z.of_nat j) mod d = 0) as Hm.
    { replace (Z.of_nat i - Z.of_nat j) with ((a + Z.of_nat i) - (a + Z.of_nat j)) by lia.
      rewrite Zminus_mod, He, Z.sub_diag. apply Z.mod_0_l. lia. }
    apply Z.mod_divide in Hm as [q Hq]; [|lia]. assert (q = 0) by nia. lia.
  - intros x (i & -> & Hi)%list_elem_of_fmap. pose proof (Z.mod_pos_bound (a + Z.of_nat i) d Hd).
    apply list_elem_of_fmap. exists (Z.to_nat ((a + Z.of_nat i) mod d)). rewrite elem_of_seq. lia.
Qed.

Lemma count_below n m :
  (n <= m)%nat ->
  length (List.filter (fun x => x <? Z.of_nat n) (Z.of_nat <$> seq 0 m)) = n.
Proof.
  intros Hnm. replace m with (n + (m - n))%nat by lia.
  rewrite seq_app, fmap_app, List.filter_app, length_app.
  assert (forall a k, (n <= a)%nat ->
    length (List.filter (fun x => x <? Z.of_nat n) (Z.of_nat <$> seq a k)) = O) as Hge.
  { intros a k. revert a. induction k as [|k IH]; intros a Ha; csimpl; [done|].
    destruct (Z.ltb_spec (Z.of_nat a) (Z.of_nat n)); [lia|]. apply IH. lia. }
  assert (forall k a, (a + k = n)%nat ->
    length (List.filter (fun x => x <? Z.of_nat n) (Z.of_nat <$> seq a k)) = k) as Hlt.
  { induction k as [|k IH]; intros a Ha; csimpl; [done|].
    destruct (Z.ltb_spec (Z.of_nat a) (Z.of_nat n)); [|lia]. simpl. rewrite IH by lia. done. }
  rewrite (Hlt n O), (Hge (0 + n)%nat (m - n)%nat) by lia. lia.
Qed.

(** ** Main theorems *)

Lemma resolve_refs_complete self refs route_session request session_resolver w :
  refs_fit refs ->
  let runtime := w_endpoint_runtime w in
  let '(res, w') :=
    resolve_http_backend_refs_with_session self refs route_session request session_resolver w in
  w_endpoint_runtime w' = runtime /\
  match hbr_selected res with
  | Some r => hbr_error res = None /\ chosen_from self runtime (candidates self runtime refs) r
  | None => candidates self runtime refs = []
      /\ hbr_error res = refs_error (classify self runtime <$> refs)
  end.
Proof.
  intros Hf runtime. unfold resolve_http_backend_refs_with_session, mbind, M_bind.
  pose proof (route_session_chosen self refs route_session session_resolver w) as Hp.
  destruct (resolve_route_session _ _ _ _ w) as [[r|] w1]; destruct Hp as [Hw1 Hr].
  { simpl. split; [done|]. split; [done|]. by apply Hr. }
  pose proof (policy_session_chosen self refs route_session session_resolver w1) as Hq.
  unfold same_runtime in Hw1. rewrite Hw1 in Hq.
  destruct (resolve_policy_session _ _ _ _ w1) as [[r|] w2]; destruct Hq as [Hw2 Hr'].
  { simpl. unfold same_runtime in Hw2. split; [by rewrite Hw2, Hw1|]. split; [done|]. by apply Hr'. }
  unfold same_runtime in Hw2. pose proof (resolve_candidates_sound self refs route_session request w2 Hf) as Hc.
  rewrite Hw2, Hw1 in Hc. cbv zeta in Hc. fold runtime in Hc.
  destruct (resolve_candidates _ _ _ _ _) as [res w3].
  destruct Hc as [Hw3 Hc]. unfold same_runtime in Hw3. split; [by rewrite Hw3, Hw2, Hw1|done].
Qed.

(** C3: resolving backend references is sound and total.  If some reference of
    the rule is a candidate (non-zero weight, routable, known cluster, at least
    one usable endpoint), a backend is selected without an error: it belongs to
    such a reference, with that reference's filters, and its endpoint is one of
    the cluster's endpoints that is healthy and not marked down by a probe.
    Otherwise nothing is selected and the error says why: unhealthy backends
    before invalid references, no error when every weight is zero.  Passive
    ejection alone never leaves a request without a backend. *)
Theorem resolve_backend_refs_complete self refs route_session request session_resolver w :
  refs_fit refs ->
  let runtime := w_endpoint_runtime w in
  let '(res, w') :=
    resolve_http_backend_refs_with_session self refs route_session request session_resolver w in
  w_endpoint_runtime w' = runtime /\
  match hbr_selected res with
  | Some r => hbr_error res = None /\ chosen_from self runtime (candidates self runtime refs) r
  | None => candidates self runtime refs = []
      /\ hbr_error res = refs_error (classify self runtime <$> refs)
  end.
Proof. apply resolve_refs_complete. Qed.


(** request mirroring follows its fraction exactly.  Out of any [d] requests
    that follow one another, a filter with the fraction [n/d] mirrors [n]. *)
Theorem should_mirror_rate filter n d w :
  mirror_fraction filter = (n, d) -> 0 < n < d ->
  0 <= w_mirror_cursor w -> w_mirror_cursor w + d <= U.u64_modulus ->
  Z.of_nat (length (List.filter id (times (Z.to_nat d) (should_mirror filter) w).1)) = n.
Proof.
  intros Hf Hn Hw0 Hb. rewrite (mirror_times filter n d) by (done || lia).
  set (p := fun x => x <? n).
  change (fun i => (w_mirror_cursor w + Z.of_nat i) mod d <? n)
    with (p ∘ (fun i => (w_mirror_cursor w + Z.of_nat i) mod d)).
  rewrite list_fmap_compose.
  assert (forall l : list Z, length (List.filter id (p <$> l)) = length (List.filter p l)) as ->.
  { induction l as [|x l IH]; csimpl; [done|]. destruct (p x); simpl; by rewrite IH. }
  rewrite residues_permutation by lia. subst p.
  pose proof (count_below (Z.to_nat n) (Z.to_nat d) ltac:(lia)) as Hc.
  rewrite Z2Nat.id in Hc by lia. rewrite Hc. lia.
Qed.

End candidate_facts.

(** ** Witnesses *)

Definition witness_clock : Clock := fun n => Z.of_nat n.
Definition witness_libm : Libm := fun x => SFopp x.
Definition witness_ref (name : string) (weight : Z) : BackendRef :=
  mkBackendRef "" "Service" "default" name 80 weight ∅ [].
Definition witness_refs : list BackendRef :=
  [witness_ref "a" 2; witness_ref "gone" 3; witness_ref "b" 1].
Definition witness_backend (name address : string) : BackendCluster :=
  mkBackendCluster name "default" "" [mkBackendEndpoint address 80 true] None None None None None.
Definition witness_snapshot : Snapshot :=
  mkSnapshot "" [] [] [] [] [witness_backend "a:80" "10.0.0.1"; witness_backend "b:80" "10.0.0.2"]
    ∅ [] [] SnapshotIndexes_default.
Definition witness_world : World := mkWorld 5 0 0 EndpointRuntimeStore_default 0.

Definition witness_resolve : M HttpBackendResolution :=
  @resolve_http_backend_refs_with_session witness_hasher witness_clock witness_libm
    witness_snapshot witness_refs None RequestMeta_default sessionless.

Lemma witness_refs_fit : refs_fit witness_refs.
Proof. split; [repeat constructor; vm_compute; congruence|vm_compute; reflexivity]. Defined.

Lemma resolve_backend_refs_complete_witness :
  exists r, hbr_selected (witness_resolve witness_world).1 = Some r
  /\ @chosen_from witness_hasher witness_snapshot EndpointRuntimeStore_default
       (@candidates witness_hasher witness_snapshot EndpointRuntimeStore_default witness_refs) r.
Proof.
  pose proof (@resolve_backend_refs_complete witness_hasher witness_clock witness_libm
    witness_snapshot witness_refs None RequestMeta_default sessionless witness_world
    witness_refs_fit) as Hc.
  unfold witness_resolve.
  destruct (@resolve_http_backend_refs_with_session _ _ _ _ _ _ _ _ _) as [res w'] eqn:E.
  destruct Hc as [_ Hc]. cbn [fst].
  destruct (hbr_selected res) as [r|] eqn:Er; [exists r; split; [reflexivity|apply Hc]|].
  exfalso. apply (f_equal (fun p => bool_decide (hbr_selected p.1 = None))) in E.
  simpl in E. rewrite Er in E. vm_compute in E. discriminate E.
Defined.


Lemma should_mirror_rate_witness :
  length (List.filter id (times 100 (should_mirror
    (mkRequestMirrorFilter (witness_ref "a" 1) (Some 25) None)) witness_world).1) = 25%nat.
Proof.
  apply Nat2Z.inj.
  refine (should_mirror_rate (mkRequestMirrorFilter (witness_ref "a" 1) (Some 25) None) 25 100
    witness_world _ _ _ _); vm_compute; split || idtac; congruence || reflexivity.
Defined.

End Resolution.
