(* ===== verification/Demo.v ===== *)
(** * A concrete gateway

    A small configuration on which the theorems about snapshots are applied: two
    listeners, three HTTP routes (an exact host, a wildcard host, a catch-all), a
    gRPC route and two stream routes over three services.  The regex engine, the
    hasher, the clock and the logarithm are concrete functions here. *)

From Stdlib Require Import ZArith Lia Ascii.
From stdpp Require Import base gmap strings numbers list.
From S2P Require Import Prelude Strs IrTypes Matching Scoring HostIndex EndpointRuntime Spread RouteIndex RuntimeIds Snapshot Resolution.

Local Open Scope string_scope.
Local Open Scope list_scope.
Local Open Scope Z_scope.

Module Demo.
Import Matching Scoring HostIndex EndpointRuntime Spread RouteIndex RuntimeIds Snapshots Resolution.

(** An engine for literal patterns. *)
Definition demo_regex : RegexEngine :=
  {| regex_valid := fun p => negb (Str.contains_char "("%char p);
     regex_is_match := fun p t => bool_decide (p = t) |}.

Definition demo_parent : ParentRef := mkParentRef "" "" "" "gw" "" 0.

Definition demo_match (path path_type method : string) : HttpMatch :=
  mkHttpMatch path path_type method [] [] None.
Definition demo_rule (matches : list HttpMatch) (refs : list BackendRef) : HttpRule :=
  mkHttpRule "" matches [] refs None None None.
Definition demo_http_route (name : string) (hostnames : list string) (rules : list HttpRule) :
    HttpRoute :=
  mkHttpRoute name "default" hostnames [demo_parent] rules ∅ ∅.

Definition demo_http_routes : list HttpRoute :=
  [demo_http_route "fallback" []
     [demo_rule [demo_match "/" "PathPrefix" ""] [witness_ref "a" 1]];
   demo_http_route "wild" ["*.example.com"]
     [demo_rule [demo_match "/api" "PathPrefix" ""] [witness_ref "a" 1; witness_ref "b" 1]];
   demo_http_route "shop" ["shop.example.com"]
     [demo_rule [demo_match "/" "PathPrefix" ""] [witness_ref "a" 1; witness_ref "b" 1];
      demo_rule [demo_match "/api" "PathPrefix" "GET"] [witness_ref "b" 3; witness_ref "c" 1];
      demo_rule [demo_match "/api/v1" "Exact" ""] []]].

Definition demo_grpc_routes : list GrpcRoute :=
  [mkGrpcRoute "rpc" "default" ["rpc.example.com"] [demo_parent]
     [mkGrpcRule "" [mkGrpcMatch "pkg.Svc" "" "Exact" [] None None] [] [witness_ref "c" 1] None;
      mkGrpcRule "" [mkGrpcMatch "pkg.Svc" "Get" "Exact" [] None None] [] [witness_ref "b" 1] None]
     ∅ ∅].

Definition demo_stream_routes : list StreamRoute :=
  [mkStreamRoute "db" "default" "ROUTE_KIND_TCP" [demo_parent]
     [mkStreamRule "" [mkStreamMatch 5432 "" Passthrough] [witness_ref "a" 1; witness_ref "b" 2]]
     ∅ ∅;
   mkStreamRoute "tls" "default" "ROUTE_KIND_TLS" [demo_parent]
     [mkStreamRule "" [mkStreamMatch 8443 "*.db.example.com" Passthrough] [witness_ref "c" 1]]
     ∅ ∅].

Definition demo_listeners : list Listener :=
  [mkListener "web" "0.0.0.0" [] 80 "HTTP" []
     ["default/fallback"; "default/wild"; "default/shop"; "default/rpc"] None None ∅;
   mkListener "db" "0.0.0.0" [] 5432 "TCP" [] ["default/db"] None None ∅;
   mkListener "tls" "0.0.0.0" [] 8443 "TLS" [] ["default/tls"] None None ∅].

Definition demo_backends : list BackendCluster :=
  [witness_backend "a:80" "10.0.0.1"; witness_backend "b:80" "10.0.0.2";
   witness_backend "c:80" "10.0.0.3"].

Definition demo_config : Snapshot :=
  mkSnapshot "demo" demo_listeners demo_http_routes demo_grpc_routes demo_stream_routes
    demo_backends ∅ [] [] SnapshotIndexes_default.

Definition demo_snapshot : Snapshot := @rebuild_runtime_indexes demo_regex demo_config.

Definition demo_request (host path method : string) : RequestMeta :=
  mkRequestMeta (Some host) 80 path method None ∅ ∅.

Definition demo_grpc_request : RequestMeta :=
  mkRequestMeta (Some "rpc.example.com") 80 "/pkg.Svc/Get" "POST" None
    {["content-type" := ["application/grpc"]]} ∅.

Lemma demo_unique_services : unique_service_keys demo_backends.
Proof.
  intros i j c d k Hi Hj Hc Hd.
  destruct i as [|[|[|i]]], j as [|[|[|j]]]; try reflexivity; try discriminate Hi;
    try discriminate Hj; injection Hi as <-; injection Hj as <-;
    vm_compute in Hc, Hd; congruence.
Defined.

End Demo.
