(* ===== verification/Compiled.v ===== *)
(** * Compiled backends

    [Snapshot::select_compiled_http_fast_backend], the backend choice of the HTTP
    and stream fast paths: it selects a usable backend whenever there is one, it
    spreads by weight, and its compiled references name the backends that the
    references of the configuration resolve to. *)

From Stdlib Require Import ZArith Lia Ascii.
From stdpp Require Import base gmap strings numbers list.
From S2P Require Import Prelude Strs IrTypes Matching Scoring HostIndex EndpointRuntime Spread RouteIndex Decimal RuntimeIds Snapshot Resolution Demo.

Local Open Scope string_scope.
Local Open Scope list_scope.
Local Open Scope Z_scope.

Module Compiled.
Import Matching Scoring HostIndex EndpointRuntime Spread RouteIndex Decimal RuntimeIds Snapshots Resolution.

(** ** Compiled references name the backends of the references *)

Lemma collect_indices_last (keys : list string) : forall n (m : StringMap nat) (key : string),
  foldl (fun m '(i, key) => <[key := i]> m) m (imap (fun i k => ((n + i)%nat, k)) keys) !! key
  = match last (omap (fun '(i, k) => if bool_decide (k = key) then Some i else None)
                  (imap (fun i k => ((n + i)%nat, k)) keys)) with
    | Some i => Some i
    | None => m !! key
    end.
Proof.
  induction keys as [|k keys IH]; intros n m key; [done|]. cbn [imap foldl].
  assert (imap ((fun i k => ((n + i)%nat, k)) ∘ S) keys = imap (fun i k => ((S n + i)%nat, k)) keys)
    as -> by (apply imap_ext; intros; simpl; f_equal; lia).
  rewrite IH. csimpl. rewrite Nat.add_0_r. case_bool_decide as E.
  - subst. rewrite last_cons. destruct (last _); [done|]. by rewrite lookup_insert_eq.
  - destruct (last _); [done|]. by rewrite lookup_insert_ne.
Qed.

Lemma collect_indices_spec keys key :
  match collect_indices keys !! key with
  | Some i => keys !! i = Some key
  | None => key ∉ keys
  end.
Proof.
  unfold collect_indices. rewrite (collect_indices_last keys 0 ∅).
  set (l := omap _ _).
  assert (Hin : forall i, i ∈ l <-> keys !! i = Some key).
  { intros i. subst l. rewrite list_elem_of_omap. split.
    - intros ([j k] & [x Hx]%list_elem_of_lookup & Hk). rewrite list_lookup_imap in Hx.
      destruct (keys !! x) eqn:E; simplify_eq/=. by case_bool_decide; simplify_eq.
    - intros Hi. exists (i, key). split; [|by rewrite bool_decide_eq_true_2].
      apply list_elem_of_lookup. exists i. by rewrite list_lookup_imap, Hi. }
  destruct (last l) as [i|] eqn:El.
  - by apply Hin, last_elem.
  - rewrite lookup_empty. apply last_None in El. intros [i Hi]%list_elem_of_lookup.
    apply Hin in Hi. rewrite El in Hi. by apply not_elem_of_nil in Hi.
Qed.

(** Names as Kubernetes has them: a namespace has no slash, a service port has
    one backend. *)
Definition named_backends (backends : list BackendCluster) : Prop :=
  Forall (fun c => Str.contains_char "/"%char (bc_namespace c) = false) backends
  /\ unique_service_keys backends.

Definition named_ref (backend_ref : BackendRef) : Prop :=
  Str.contains_char "/"%char (br_namespace backend_ref) = false /\ U.is_u32 (br_port backend_ref).

(** A reference and a backend have the same full name when the backend serves
    the referenced service. *)
Lemma same_name_iff cluster backend_ref :
  Str.contains_char "/"%char (bc_namespace cluster) = false -> named_ref backend_ref ->
  backend_cluster_name cluster = backend_ref_name backend_ref
  <-> service_key cluster
      = Some (br_namespace backend_ref, br_name backend_ref, br_port backend_ref).
Proof.
  intros Hc [Hr Hp]. rewrite service_key_iff.
  change (backend_ref_name backend_ref) with (br_namespace backend_ref
    +:+ String "/"%char (service_text (br_name backend_ref) (br_port backend_ref)))%string.
  change (backend_cluster_name cluster) with
    (bc_namespace cluster +:+ String "/"%char (bc_name cluster))%string.
  split.
  - intros He. apply slash_inj in He as [-> ->]; done.
  - by intros (-> & -> & _).
Qed.

Lemma compile_Some self backend_ref compiled :
  compile_http_fast_backend_ref self backend_ref = Some compiled ->
  br_weight backend_ref <> 0 /\ backend_ref_is_routable backend_ref = true
  /\ cfb_weight compiled = br_weight backend_ref
  /\ ix_backend_index (sn_indexes self) !! backend_ref_name backend_ref
     = Some (cfb_backend_index compiled)
  /\ exists cluster, sn_backends self !! cfb_backend_index compiled = Some cluster
     /\ cfb_backend_name compiled = backend_cluster_name cluster
     /\ cfe_endpoint <$> cfb_endpoints compiled = bc_endpoints cluster.
Proof.
  unfold compile_http_fast_backend_ref. case_bool_decide as Hw; [done|]. simpl.
  destruct (backend_ref_is_routable backend_ref); [|done]. simpl.
  destruct (_ !! backend_ref_name backend_ref) as [i|] eqn:Ei; [|done]. simpl.
  destruct (sn_backends self !! i) as [cluster|] eqn:Ec; [|done]. simpl. intros [= <-].
  split_and!; try done. exists cluster. split_and!; try done. simpl.
  rewrite <- list_fmap_compose. apply list_fmap_id.
Qed.

Section rebuilt.
Context `{RegexEngine}.

(** On a rebuilt snapshot the compiled reference of a fast path has the backend
    that the reference resolves to. *)
Lemma compile_locates s0 backend_ref :
  let s := rebuild_runtime_indexes s0 in
  named_backends (sn_backends s) -> named_ref backend_ref -> br_weight backend_ref <> 0 ->
  match find_backend_cluster_index s backend_ref with
  | Some (i, cluster) =>
    exists compiled, compile_http_fast_backend_ref s backend_ref = Some compiled
    /\ cfb_backend_index compiled = i /\ cfb_weight compiled = br_weight backend_ref
    /\ cfb_backend_name compiled = backend_name_for_index s i cluster
    /\ sn_backends s !! i = Some cluster
    /\ cfe_endpoint <$> cfb_endpoints compiled = bc_endpoints cluster
  | None => compile_http_fast_backend_ref s backend_ref = None
  end.
Proof.
  intros s [Hns Hu] Hr Hw. unfold find_backend_cluster_index, compile_http_fast_backend_ref.
  rewrite bool_decide_eq_false_2 by done. simpl.
  destruct (backend_ref_is_routable backend_ref); [|done]. simpl.
  unfold backend_cluster_for_service_index; simpl.
  rewrite (index_for_scan (sn_backends s0)) by done.
  pose proof (collect_indices_spec (backend_cluster_name <$> sn_backends s0)
    (backend_ref_name backend_ref)) as Hx.
  assert (Hkey : forall j c, sn_backends s0 !! j = Some c ->
    (backend_cluster_name <$> sn_backends s0) !! j = Some (backend_ref_name backend_ref)
    <-> service_key c = Some (br_namespace backend_ref, br_name backend_ref, br_port backend_ref)).
  { intros j c Hj. rewrite list_lookup_fmap, Hj. simpl. rewrite <- same_name_iff;
      [by split; [intros [=]|intros ->]| |done].
    eapply (Forall_lookup_1 _ _ _ _ Hns), Hj. }
  destruct (List.find _ _) as [[i cluster]|] eqn:Ef.
  - apply find_first in Ef as (k & Hk & Hm & _). rewrite list_lookup_imap in Hk.
    destruct (sn_backends s0 !! k) as [c|] eqn:Ek; simplify_eq/=.
    apply backend_cluster_matches_ref_iff in Hm. pose proof (proj2 (Hkey i cluster Ek) Hm) as Hn.
    destruct (collect_indices _ !! _) as [j|] eqn:Ej.
    + pose proof Hx as Hj. rewrite list_lookup_fmap in Hj.
      destruct (sn_backends s0 !! j) as [d|] eqn:Ed; [|done].
      assert (j = i) as ->.
      { eapply Hu; [exact Ed|exact Ek| |exact Hm]. by apply (Hkey j d Ed). }
      simpl. rewrite Ek. simpl. eexists. split; [done|]. simpl. split_and!; try done.
      * unfold backend_name_for_index; simpl. by rewrite list_lookup_fmap, Ek.
      * rewrite <- list_fmap_compose. apply list_fmap_id.
    + destruct Hx. by eapply list_elem_of_lookup_2.
  - destruct (collect_indices _ !! _) as [j|] eqn:Ej; [|done]. simpl.
    pose proof Hx as Hj. rewrite list_lookup_fmap in Hj.
    destruct (sn_backends s0 !! j) as [d|] eqn:Ed; [|done]. exfalso.
    apply (Hkey j d Ed), backend_cluster_matches_ref_iff in Hx.
    pose proof (List.find_none _ _ Ef (j, d)) as Hno. simpl in Hno. rewrite Hx in Hno.
    discriminate Hno. apply list_elem_of_In, list_elem_of_lookup. exists j.
    by rewrite list_lookup_imap, Ed.
Qed.

End rebuilt.

(** A compiled reference describes the cluster at its index. *)
Definition describes (self : Snapshot) (compiled : CompiledHttpFastBackendRef) : Prop :=
  0 < cfb_weight compiled /\
  exists cluster, sn_backends self !! cfb_backend_index compiled = Some cluster
  /\ cfb_backend_name compiled = backend_cluster_name cluster
  /\ cfe_endpoint <$> cfb_endpoints compiled = bc_endpoints cluster.

Definition compiled_fit (self : Snapshot) (refs : list CompiledHttpFastBackendRef) : Prop :=
  Forall (describes self) refs /\ total cfb_weight refs < U.u64_modulus.

Section with_env.
Context `{KeyHasher, Clock, Libm}.

Definition compiled_usable (runtime : EndpointRuntimeStore)
    (compiled : CompiledHttpFastBackendRef) : bool :=
  existsb (endpoint_usable runtime (cfb_backend_name compiled))
    (cfe_endpoint <$> cfb_endpoints compiled).

Lemma compiled_availability_spec self runtime now compiled :
  describes self compiled ->
  exists cluster availability,
    compiled_availability self runtime now compiled = Some (cluster, availability)
    /\ availability
       = endpoint_selection_availability runtime cluster (cfb_backend_name compiled) now
    /\ cfe_endpoint <$> cfb_endpoints compiled = bc_endpoints cluster
    /\ bool_decide (esa_count availability = O) = negb (compiled_usable runtime compiled).
Proof.
  intros (_ & cluster & Hc & _ & He). unfold compiled_availability. rewrite Hc. simpl.
  eexists _, _. split_and!; [done|done|done|].
  unfold compiled_usable. rewrite He.
  apply (usable_cluster_count runtime cluster (cfb_backend_name compiled) now).
Qed.

Lemma foldl_wrapping ws x : foldl U.wrapping_add64 (U.wrap64 x) ws = U.wrap64 (x + total id ws).
Proof.
  revert x; induction ws as [|y ws IH]; intros x; cbn [foldl]; [by rewrite Z.add_0_r|].
  rewrite wrapping_add64_wrap, IH. f_equal. cbn [total foldr]. unfold id at 2. fold (total id ws). lia.
Qed.

Lemma compiled_total self runtime now refs :
  compiled_fit self refs ->
  foldl U.wrapping_add64 0 (omap (compiled_weight self runtime now) refs)
  = total cfb_weight (List.filter (compiled_usable runtime) refs)
  /\ 0 <= total cfb_weight (List.filter (compiled_usable runtime) refs) < U.u64_modulus.
Proof.
  intros [Hd Ht].
  assert (total id (omap (compiled_weight self runtime now) refs)
    = total cfb_weight (List.filter (compiled_usable runtime) refs)
    /\ 0 <= total cfb_weight (List.filter (compiled_usable runtime) refs) <= total cfb_weight refs)
    as [Hs Hb].
  { clear Ht. induction Hd as [|c refs Hc Hd IH]; [done|]. destruct IH as [IH1 IH2].
    destruct (compiled_availability_spec self runtime now c Hc) as (cl & a & Ha & _ & _ & Hz).
    csimpl. unfold compiled_weight at 1. rewrite Ha. csimpl.
    assert ((0 <? esa_count a)%nat = compiled_usable runtime c) as ->.
    { destruct (compiled_usable runtime c); simpl in Hz;
        [apply bool_decide_eq_false in Hz; apply Nat.ltb_lt; lia
        |apply bool_decide_eq_true in Hz; by rewrite Hz]. }
    destruct Hc as [Hw _]. cbn [total foldr]. fold (total cfb_weight refs).
    destruct (compiled_usable runtime c); [|split; [done|lia]].
    cbn [total foldr]. fold (total cfb_weight (List.filter (compiled_usable runtime) refs)).
    fold (total (@id Z) (omap (compiled_weight self runtime now) refs)). rewrite IH1.
    split; [done|lia]. }
  split; [|lia]. change 0 with (U.wrap64 0) at 1. rewrite foldl_wrapping, Hs.
  apply U.wrap64_small. lia.
Qed.

(** The scan for the [target]-th eligible endpoint finds it. *)
Lemma compiled_endpoint_loop_spec runtime compiled availability now target eps : forall pre seen,
  cfe_endpoint <$> cfb_endpoints compiled = pre ++ eps -> (seen <= target)%nat ->
  let matches := endpoint_matches_selection_availability runtime (cfb_backend_name compiled) now
                   availability in
  (fun s => (cfs_endpoint s, cfs_backend_name s)) <$>
    compiled_endpoint_loop runtime compiled availability now target seen (length pre) eps
  = (fun e => (e, cfb_backend_name compiled)) <$> List.filter matches eps !! (target - seen)%nat.
Proof.
  induction eps as [|e eps IH]; intros pre seen Hpre Hle matches; [done|].
  assert (Hpre' : cfe_endpoint <$> cfb_endpoints compiled = (pre ++ [e]) ++ eps)
    by (by rewrite <- app_assoc).
  assert (Hlen : S (length pre) = length (pre ++ [e])) by (rewrite length_app; simpl; lia).
  cbn [compiled_endpoint_loop List.filter]. fold matches.
  destruct (matches e) eqn:Em; simpl; [|rewrite Hlen; by apply IH].
  case_bool_decide as Ht.
  - subst. rewrite Nat.sub_diag. simpl.
    assert ((cfe_endpoint <$> cfb_endpoints compiled) !! length pre = Some e) as He.
    { rewrite Hpre. by apply list_lookup_middle. }
    rewrite list_lookup_fmap in He. destruct (cfb_endpoints compiled !! length pre); [|done].
    simplify_eq/=. done.
  - rewrite Hlen, IH by (done || lia). fold matches.
    replace (target - seen)%nat with (S (target - S seen)) by lia. done.
Qed.

(** One endpoint ticket, no clock. *)
Definition take_endpoint (w : World) : World :=
  mkWorld (w_backend_cursor w) (U.wrapping_add64 (w_endpoint_cursor w) 1) (w_mirror_cursor w)
    (w_endpoint_runtime w) (w_ticks w).

Lemma select_compiled_endpoint_spec compiled cluster now w :
  let runtime := w_endpoint_runtime w in
  let name := cfb_backend_name compiled in
  cfe_endpoint <$> cfb_endpoints compiled = bc_endpoints cluster ->
  compiled_usable runtime compiled = true ->
  exists s, select_compiled_http_fast_endpoint compiled cluster
      (endpoint_selection_availability runtime cluster name now) now w = (Some s, take_endpoint w)
    /\ cfs_backend_name s = name
    /\ cfs_endpoint s ∈ eligible_endpoints runtime cluster name now.
Proof.
  intros runtime name He Hu. unfold select_compiled_http_fast_endpoint.
  pose proof (usable_cluster_count runtime cluster name now) as Hz.
  pose proof (eligible_count runtime cluster name now) as Hc.
  assert (usable_cluster runtime cluster name = true) as Huc
    by (unfold usable_cluster; rewrite <- He; exact Hu).
  rewrite Huc in Hz. simpl in Hz. unfold eligible_endpoint_count in *. rewrite Hz.
  apply bool_decide_eq_false in Hz. unfold mbind, M_bind, next_endpoint_ticket, get_runtime; simpl.
  fold runtime. set (a := endpoint_selection_availability runtime cluster name now) in *.
  set (target := Z.to_nat (w_endpoint_cursor w mod Z.of_nat (esa_count a))).
  pose proof (compiled_endpoint_loop_spec runtime compiled a now target (bc_endpoints cluster) [] 0
    He (Nat.le_0_l _)) as Hl.
  destruct (lookup_lt_is_Some_2 (eligible_endpoints runtime cluster name now) target) as [e Hel].
  { rewrite <- Hc. subst target. pose proof (Z.mod_pos_bound (w_endpoint_cursor w)
      (Z.of_nat (esa_count a))). lia. }
  cbv zeta in Hl. rewrite Nat.sub_0_r in Hl.
  change (List.filter _ _) with (eligible_endpoints runtime cluster name now) in Hl.
  rewrite Hel in Hl. simpl in Hl.
  destruct (compiled_endpoint_loop _ _ _ _ _ _ _ _) as [s|]; simplify_eq/=.
  exists s. split_and!; [done|done|]. by eapply list_elem_of_lookup_2.
Qed.

Lemma compiled_backend_loop_spec self now target refs : forall seen w,
  let runtime := w_endpoint_runtime w in
  Forall (describes self) refs -> 0 <= seen -> seen + total cfb_weight refs < U.u64_modulus ->
  match pick cfb_weight (List.filter (compiled_usable runtime) refs) (target - seen) with
  | Some compiled =>
    exists cluster s,
      compiled_backend_loop self now target seen refs w = (Some s, take_endpoint w)
      /\ sn_backends self !! cfb_backend_index compiled = Some cluster
      /\ cfs_backend_name s = cfb_backend_name compiled
      /\ cfs_endpoint s ∈ eligible_endpoints runtime cluster (cfb_backend_name compiled) now
  | None => compiled_backend_loop self now target seen refs w = (None, w)
  end.
Proof.
  induction refs as [|c refs IH]; intros seen w runtime Hd Hs Ht; [done|].
  apply Forall_cons_1 in Hd as [Hc Hd]. cbn [compiled_backend_loop List.filter].
  destruct (compiled_availability_spec self runtime now c Hc) as (cl & a & Ha & -> & He & Hz).
  cbn [total foldr] in Ht. fold (total cfb_weight refs) in Ht. fold runtime. rewrite Ha, Hz.
  assert (0 <= total cfb_weight refs).
  { apply total_nonneg. eapply Forall_impl; [exact Hd|]. intros x [? _]. lia. }
  pose proof (proj1 Hc) as Hw.
  destruct (compiled_usable runtime c) eqn:Eu; cbn [negb pick]; [|apply IH; (done || lia)].
  unfold U.wrapping_add64. rewrite U.wrap64_small by lia.
  destruct (Z.ltb_spec (target - seen) (cfb_weight c)), (Z.ltb_spec target (seen + cfb_weight c));
    try lia.
  - destruct (select_compiled_endpoint_spec c cl now w He Eu) as (s & Hsel & Hn & Hel).
    destruct Hc as (_ & cl' & Hcl & _). unfold compiled_availability in Ha. rewrite Hcl in Ha.
    simplify_eq/=. exists cl, s. done.
  - replace (target - seen - cfb_weight c) with (target - (seen + cfb_weight c)) by lia.
    apply IH; (done || lia).
Qed.

Lemma compiled_positive self runtime refs :
  compiled_fit self refs ->
  Forall (fun c => 0 < cfb_weight c) (List.filter (compiled_usable runtime) refs).
Proof.
  intros [Hd _]. apply list.Forall_forall. intros c [Hc _]%list_elem_of_In%filter_In.
  apply list_elem_of_In in Hc. eapply list.Forall_forall in Hd; [|exact Hc]. apply Hd.
Qed.

Lemma positive_total (refs : list CompiledHttpFastBackendRef) :
  refs <> [] -> Forall (fun c => 0 < cfb_weight c) refs -> 1 <= total cfb_weight refs.
Proof.
  destruct refs as [|c refs]; [done|]. intros _ [Hc Hrefs]%Forall_cons_1. cbn [total foldr].
  fold (total cfb_weight refs). enough (0 <= total cfb_weight refs) by lia.
  apply total_nonneg. eapply Forall_impl; [exact Hrefs|]. simpl. lia.
Qed.

(** The choice of a compiled backend: nothing when no reference is usable, else
    the reference that owns the ticket's point of the weight line. *)
Lemma select_compiled_spec self refs w :
  let runtime := w_endpoint_runtime w in
  let usable := List.filter (compiled_usable runtime) refs in
  compiled_fit self refs ->
  match usable with
  | [] => select_compiled_http_fast_backend self refs w = (None, tick w)
  | _ =>
    exists compiled cluster s w',
      select_compiled_http_fast_backend self refs w = (Some s, w')
      /\ pick cfb_weight usable
          (spread_weighted_target (w_backend_cursor w) (total cfb_weight usable)) = Some compiled
      /\ sn_backends self !! cfb_backend_index compiled = Some cluster
      /\ cfs_backend_name s = cfb_backend_name compiled
      /\ cfs_endpoint s ∈ eligible_endpoints runtime cluster (cfb_backend_name compiled)
                            (instant_at (w_ticks w))
      /\ w_endpoint_runtime w' = runtime
      /\ w_backend_cursor w' = U.wrapping_add64 (w_backend_cursor w) 1
  end.
Proof.
  intros runtime usable Hf. unfold select_compiled_http_fast_backend, mbind, M_bind, instant_now,
    get_runtime; simpl. fold runtime.
  destruct (compiled_total self runtime (instant_at (w_ticks w)) refs Hf) as [Ht Hb].
  rewrite Ht. fold usable in Ht, Hb |- *. destruct usable as [|c0 us] eqn:Eus; [done|].
  rewrite <- Eus in *. pose proof (compiled_positive self runtime refs Hf) as Hpos.
  fold usable in Hpos. assert (usable <> []) as Hne by (by rewrite Eus).
  pose proof (positive_total usable Hne Hpos) as H1'. destruct Hf as [Hd Hlt].
  rewrite bool_decide_eq_false_2 by lia. unfold next_backend_ticket; simpl.
  set (target := spread_weighted_target _ _).
  assert (Htg : 0 <= target < total cfb_weight usable) by (apply spread_target_range; lia).
  destruct (pick_Some cfb_weight usable target) as [c Hc]; [|done|].
  { eapply Forall_impl; [exact Hpos|]. simpl. lia. }
  pose proof (compiled_backend_loop_spec self (instant_at (w_ticks w)) target refs 0
    (mkWorld (U.wrapping_add64 (w_backend_cursor w) 1) (w_endpoint_cursor w) (w_mirror_cursor w)
      runtime (S (w_ticks w))) Hd ltac:(lia) ltac:(lia)) as Hl.
  cbn [w_endpoint_runtime] in Hl. fold usable in Hl. rewrite Z.sub_0_r, Hc in Hl.
  destruct Hl as (cl & s & Hl & Hcl & Hn & Hel). exists c, cl, s. eexists.
  split_and!; [exact Hl|done..].
Qed.

(** The fast paths spread their traffic exactly too.  The [W] selections that
    follow one another among compiled references with the usable total weight [W]
    choose every usable reference exactly as often as its weight says. *)
Theorem compiled_weighted_fair self refs w :
  compiled_fit self refs ->
  let usable := List.filter (compiled_usable (w_endpoint_runtime w)) refs in
  let W := total cfb_weight usable in
  usable <> [] -> no_wrap (w_backend_cursor w) W ->
  option_map cfs_backend_name
    <$> (times (Z.to_nat W) (select_compiled_http_fast_backend self refs) w).1
  ≡ₚ Some <$> (cfb_backend_name <$> repeated cfb_weight usable).
Proof.
  intros Hf usable W Hne Hnw.
  assert (Hpos : Forall (fun c => 0 < cfb_weight c) usable) by by eapply compiled_positive.
  apply (spread_fair _ (option_map cfs_backend_name) cfb_backend_name cfb_weight usable
    (w_endpoint_runtime w)); [|done|..|done].
  - intros w' Hw'. pose proof (select_compiled_spec self refs w' Hf) as Hs. cbv zeta in Hs.
    rewrite Hw' in Hs. fold usable in Hs. destruct usable as [|u us] eqn:Eu; [done|].
    destruct Hs as (c & cl & s & w'' & Hsel & Hp & _ & Hn & _ & Hrt & Hcur).
    exists (Some s), c, w''. split_and!; [done|done|by simpl; rewrite Hn|done|done].
  - eapply Forall_impl; [exact Hpos|]. simpl. lia.
  - split; [by apply positive_total|]. by apply (compiled_total self _ 0 refs Hf).
Qed.

(** ** The fast paths choose as backend resolution does *)

Lemma pick_fmap {A B} (f : A -> B) (weight : B -> Z) l : forall target,
  pick weight (f <$> l) target = f <$> pick (weight ∘ f) l target.
Proof.
  induction l as [|x l IH]; intros target; csimpl; [done|]. by destruct (_ <? _).
Qed.

Lemma total_fmap {A B} (f : A -> B) (weight : B -> Z) l :
  total weight (f <$> l) = total (weight ∘ f) l.
Proof. induction l as [|x l IH]; [done|]. unfold total in *. csimpl. by rewrite IH. Qed.

Definition fast_name (c : CompiledHttpFastBackendRef) : string * Z :=
  (cfb_backend_name c, cfb_weight c).
Definition slow_name (c : BackendSelectionCandidate) : string * Z :=
  (bsc_backend_name c, candidate_weight c).

Section rebuilt_choice.
Context `{RegexEngine}.

Lemma compiled_candidates s0 runtime refs :
  let s := rebuild_runtime_indexes s0 in
  named_backends (sn_backends s) -> Forall named_ref refs ->
  fast_name <$> List.filter (compiled_usable runtime)
    (omap (compile_http_fast_backend_ref s) refs)
  = slow_name <$> candidates s runtime refs.
Proof.
  intros s Hb Hr. induction Hr as [|r refs Hr Hrs IH]; [done|]. rewrite candidates_cons. csimpl.
  unfold classify. case_bool_decide as Hw.
  { assert (compile_http_fast_backend_ref s r = None) as ->; [|exact IH].
    unfold compile_http_fast_backend_ref. by rewrite bool_decide_eq_true_2. }
  pose proof (compile_locates s0 r Hb Hr Hw) as Hc. cbv zeta in Hc. fold s in Hc.
  destruct (find_backend_cluster_index s r) as [[i cluster]|]; [|by rewrite Hc].
  destruct Hc as (c & -> & Hi & Hwt & Hn & _ & He). simpl.
  assert (compiled_usable runtime c
    = usable_cluster runtime cluster (backend_name_for_index s i cluster)) as ->.
  { unfold compiled_usable. by rewrite He, Hn. }
  destruct (usable_cluster _ _ _); [|done]. rewrite !fmap_cons, IH. f_equal.
  unfold fast_name, slow_name, candidate_weight. simpl. by rewrite Hn, Hwt.
Qed.

Lemma compiled_refs_fit s0 refs :
  let s := rebuild_runtime_indexes s0 in
  refs_fit refs -> compiled_fit s (omap (compile_http_fast_backend_ref s) refs).
Proof.
  intros s [Hw Ht].
  assert (Forall (describes s) (omap (compile_http_fast_backend_ref s) refs)
    /\ 0 <= total cfb_weight (omap (compile_http_fast_backend_ref s) refs) <= total br_weight refs)
    as [? ?]; [|split; [done|lia]].
  clear Ht. induction Hw as [|r refs Hr Hrs IH]; [by split; [constructor|]|].
  destruct IH as [IH1 IH2]. csimpl. cbn [total foldr]. fold (total br_weight refs).
  destruct (compile_http_fast_backend_ref s r) as [c|] eqn:Ec; [|split; [done|lia]].
  apply compile_Some in Ec as (Hnz & _ & Hwt & _ & cl & Hcl & Hn & He).
  cbn [total foldr]. fold (total cfb_weight (omap (compile_http_fast_backend_ref s) refs)).
  split; [|lia]. constructor; [|done]. split; [lia|]. eauto.
Qed.

(** C32: a fast path chooses the backend that backend resolution chooses.  For
    references without session affinity or consistent hashing, the compiled
    references of a rebuilt snapshot and the references themselves give the same
    backend for the same cursors and endpoint health, and a fast path finds no
    backend exactly when resolution finds none. *)
Theorem compiled_choice_agrees s0 refs request w :
  let s := rebuild_runtime_indexes s0 in
  named_backends (sn_backends s) -> Forall named_ref refs -> refs_fit refs ->
  spreads s (w_endpoint_runtime w) refs ->
  cfs_backend_name
    <$> (select_compiled_http_fast_backend s (omap (compile_http_fast_backend_ref s) refs) w).1
  = chosen_name (resolve_http_backend_refs_with_session s refs None request sessionless w).1.
Proof.
  intros s Hb Hr Hf Hs. set (cs := omap _ _).
  pose proof (compiled_candidates s0 (w_endpoint_runtime w) refs Hb Hr) as Hc. cbv zeta in Hc.
  fold s cs in Hc. pose proof (select_compiled_spec s cs w (compiled_refs_fit s0 refs Hf)) as Hsel.
  cbv zeta in Hsel. set (us := List.filter _ cs) in *.
  destruct (decide (candidates s (w_endpoint_runtime w) refs = [])) as [E|E].
  - rewrite E in Hc. apply fmap_nil_inv in Hc. rewrite Hc in Hsel. rewrite Hsel. simpl.
    rewrite resolve_sessionless.
    pose proof (resolve_candidates_sound s refs None request w Hf) as Hx. cbv zeta in Hx.
    destruct (resolve_candidates s refs None request w) as [res w']. destruct Hx as [_ Hx].
    unfold chosen_name. simpl. destruct (hbr_selected res) as [r|]; [|done].
    destruct Hx as [_ (c & Hin & _)]. rewrite E in Hin. by apply not_elem_of_nil in Hin.
  - destruct (resolve_spread_step s refs None request w Hf E Hs) as (c & e & w' & Hp & -> & _).
    simpl. destruct us as [|u us'] eqn:Eu; [by symmetry in Hc; apply fmap_nil_inv in Hc|].
    rewrite <- Eu in *. destruct Hsel as (d & cl & sel & w'' & -> & Hpd & _ & Hn & _). simpl.
    rewrite Hn.
    apply (f_equal (fmap slow_name)) in Hp. apply (f_equal (fmap fast_name)) in Hpd.
    change (pick candidate_weight) with (pick (snd ∘ slow_name)) in Hp.
    change (pick cfb_weight) with (pick (snd ∘ fast_name)) in Hpd.
    change (total candidate_weight) with (total (snd ∘ slow_name)) in Hp.
    change (total cfb_weight) with (total (snd ∘ fast_name)) in Hpd.
    rewrite <- pick_fmap, <- total_fmap, <- Hc in Hp. rewrite <- pick_fmap, <- total_fmap in Hpd.
    rewrite Hp in Hpd. unfold slow_name, fast_name in Hpd. simplify_eq/=.
    unfold chosen_name. simpl. by f_equal.
Qed.

End rebuilt_choice.

End with_env.

(** ** Witnesses *)

Lemma compiled_weighted_fair_witness :
  option_map cfs_backend_name <$> (times 3
    (@select_compiled_http_fast_backend witness_hasher witness_clock Demo.demo_snapshot
       (omap (compile_http_fast_backend_ref Demo.demo_snapshot) witness_refs)) witness_world).1
  ≡ₚ [Some "default/a:80"; Some "default/a:80"; Some "default/b:80"].
Proof.
  pose proof (@compiled_weighted_fair witness_hasher witness_clock Demo.demo_snapshot
    (omap (compile_http_fast_backend_ref Demo.demo_snapshot) witness_refs) witness_world
    (@compiled_refs_fit Demo.demo_regex Demo.demo_config witness_refs witness_refs_fit)) as Hp.
  vm_compute in Hp. vm_compute. apply Hp; [congruence|split; congruence].
Defined.

Lemma compiled_choice_agrees_witness :
  cfs_backend_name <$> (@select_compiled_http_fast_backend witness_hasher witness_clock
    Demo.demo_snapshot (omap (compile_http_fast_backend_ref Demo.demo_snapshot) witness_refs)
    witness_world).1 = Some "default/a:80"
  /\ cfs_backend_name <$> (@select_compiled_http_fast_backend witness_hasher witness_clock
    Demo.demo_snapshot (omap (compile_http_fast_backend_ref Demo.demo_snapshot) witness_refs)
    witness_world).1
  = chosen_name (@resolve_http_backend_refs_with_session witness_hasher witness_clock witness_libm
      Demo.demo_snapshot witness_refs None RequestMeta_default sessionless witness_world).1.
Proof.
  split; [vm_compute; reflexivity|].
  refine (@compiled_choice_agrees witness_hasher witness_clock witness_libm Demo.demo_regex
    Demo.demo_config witness_refs RequestMeta_default witness_world _ _ witness_refs_fit _).
  - split; [repeat constructor|exact Demo.demo_unique_services].
  - repeat constructor; vm_compute; congruence.
  - intros c p _ Hp. vm_compute in Hp. discriminate Hp.
Defined.

End Compiled.
