(* ===== verification/Selection.v ===== *)
(** * Route selection

    [ntgw-ir/src/http_selection/candidates.rs] and [selection.rs]: the listeners
    that can take a request, the routes attached to them, and the HTTP or gRPC
    rule with the highest precedence.  A visitor's captured state is threaded
    through; it holds the [World] where the visitor resolves backends. *)

From Stdlib Require Import ZArith Lia Ascii.
From stdpp Require Import base gmap strings numbers list.
From S2P Require Import Prelude Strs IrTypes Matching Scoring HostIndex EndpointRuntime Spread RouteIndex RuntimeIds Snapshot Resolution.

Local Open Scope string_scope.
Local Open Scope list_scope.

Module Selection.
Import Matching Scoring HostIndex EndpointRuntime Spread RouteIndex RuntimeIds Snapshots Resolution.

Inductive ListenerKind := ListenerHttp | ListenerGrpc.

Record MatchedListener := mkMatchedListener {
  ml_listener_index : nat;
  ml_listener : Listener;
  ml_host_score : HostnameScore;
}.

Record CandidateListeners := mkCandidateListeners {
  cl_listeners : list MatchedListener;
  cl_enforce_attachments : bool;
}.

(** ** Candidate listeners *)

Definition matches_listener_kind (listener : Listener) (kind : ListenerKind) : bool :=
  match kind with
  | ListenerHttp => is_http_listener (l_protocol listener)
  | ListenerGrpc => is_grpc_listener (l_protocol listener)
  end.

Definition visit_candidate_listeners {St} (snapshot : Snapshot) (request_port : Z)
    (kind : ListenerKind) (visit : nat -> Listener -> St -> St) (s : St) : St :=
  if negb (sn_ready snapshot) then
    foldl (fun s '(index, listener) =>
      if negb (matches_listener_kind listener kind) then s
      else if negb (bool_decide (request_port = 0%Z))
              && negb (bool_decide (l_port listener = request_port)) then s
      else visit index listener s) s (imap pair (sn_listeners snapshot))
  else
    let ix := ix_listeners (sn_indexes snapshot) in
    let indices :=
      match kind with
      | ListenerHttp =>
        if bool_decide (request_port = 0%Z) then li_http_listener_indices ix
        else default [] (li_http_listener_port_index ix !! request_port)
      | ListenerGrpc =>
        if bool_decide (request_port = 0%Z) then li_grpc_listener_indices ix
        else default [] (li_grpc_listener_port_index ix !! request_port)
      end in
    foldl (fun s '(index, listener) => visit index listener s) s
      (omap (fun index => (fun listener => (index, listener)) <$> sn_listeners snapshot !! index)
         indices).

Definition equal_scores {A} `{RustOrd A} (x y : A) : bool :=
  match cmp x y with Eq => true | _ => false end.

(** The visitor of [matched_listeners]: whether a listener was seen, the best
    score so far and the listeners that reach it. *)
Definition match_listener (request_host : option string) (index : nat) (listener : Listener)
    (s : bool * option HostnameScore * list MatchedListener) :
    bool * option HostnameScore * list MatchedListener :=
  let '(_, best_score, listeners) := s in
  match listener_hostname_score listener request_host with
  | None => (true, best_score, listeners)
  | Some host_score =>
    let matched := mkMatchedListener index listener host_score in
    match best_score with
    | Some score =>
      if cmp_lt host_score score then (true, best_score, listeners)
      else if equal_scores host_score score then (true, best_score, listeners ++ [matched])
      else (true, Some host_score, [matched])
    | None => (true, Some host_score, [matched])
    end
  end.

Definition matched_listeners (snapshot : Snapshot) (request_host : option string)
    (request_port : Z) (kind : ListenerKind) : CandidateListeners :=
  let '(saw_candidate_listener, _, listeners) :=
    visit_candidate_listeners snapshot request_port kind (match_listener request_host)
      (false, None, []) in
  mkCandidateListeners listeners saw_candidate_listener.

Definition match_https_listener (request_host : option string) (index : nat)
    (listener : Listener) (s : option HostnameScore * gset string) :
    option HostnameScore * gset string :=
  let '(best_score, listeners) := s in
  if negb (is_https_listener (l_protocol listener)) then s
  else
    match listener_hostname_score listener request_host with
    | None => s
    | Some host_score =>
      match best_score with
      | Some score =>
        if cmp_lt host_score score then s
        else if equal_scores host_score score
        then (best_score, {[l_name listener]} ∪ listeners)
        else (Some host_score, {[l_name listener]})
      | None => (Some host_score, {[l_name listener]})
      end
    end.

Definition best_https_listener_names (snapshot : Snapshot) (request_host : option string)
    (request_port : Z) : gset string :=
  (visit_candidate_listeners snapshot request_port ListenerHttp
     (match_https_listener request_host) (None, ∅)).2.

Definition https_request_is_misdirected (snapshot : Snapshot) (request : RequestMeta)
    (server_name : option string) : bool :=
  match server_name with
  | None => false
  | Some server_name =>
    let server_name := normalize_host_ref server_name in
    if Str.is_empty server_name then false
    else if bool_decide (rq_port request = 0%Z) then false
    else
      let sni_listeners :=
        best_https_listener_names snapshot (Some server_name) (rq_port request) in
      if bool_decide (sni_listeners = ∅) then false
      else
        let host_listeners :=
          best_https_listener_names snapshot (rq_host request) (rq_port request) in
        if bool_decide (host_listeners = ∅) then false
        else bool_decide (sni_listeners ## host_listeners)
  end.

(** ** Candidate routes *)

Definition visit_hostname_route_candidate_indices {St} (route_count : nat)
    (index : HostnameRouteIndex) (request_host : option string) (runtime_indexes_ready : bool)
    (visit : nat -> St -> St * bool) (s : St) : St * bool :=
  if negb runtime_indexes_ready then visit_list visit (seq 0 route_count) s
  else visit_candidate_indices index request_host visit s.

Definition visit_hostname_route_candidates {T St} (routes : list T) (index : HostnameRouteIndex)
    (request_host : option string) (runtime_indexes_ready : bool)
    (visit : T -> St -> St * bool) (s : St) : St * bool :=
  visit_hostname_route_candidate_indices (length routes) index request_host
    runtime_indexes_ready
    (fun route_index s =>
       match routes !! route_index with
       | None => (s, true)
       | Some route => visit route s
       end) s.

Definition any_hostname_route_candidate {T} (routes : list T) (index : HostnameRouteIndex)
    (request_host : option string) (runtime_indexes_ready : bool) (predicate : T -> bool) : bool :=
  negb (visit_hostname_route_candidates routes index request_host runtime_indexes_ready
          (fun route s => (s, negb (predicate route))) tt).2.

Definition visit_http_route_candidates {St} (snapshot : Snapshot) (request_host : option string)
    (visit : HttpRoute -> St -> St * bool) (s : St) : St * bool :=
  visit_hostname_route_candidates (sn_http_routes snapshot)
    (ix_http_route_hostname_index (sn_indexes snapshot)) request_host (sn_ready snapshot) visit s.

Definition visit_grpc_route_candidates {St} (snapshot : Snapshot) (request_host : option string)
    (visit : GrpcRoute -> St -> St * bool) (s : St) : St * bool :=
  visit_hostname_route_candidates (sn_grpc_routes snapshot)
    (ix_grpc_route_hostname_index (sn_indexes snapshot)) request_host (sn_ready snapshot) visit s.

Definition route_listener_match (snapshot : Snapshot) (listeners : CandidateListeners)
    (route_namespace route_name : string) : option MatchedListener :=
  if negb (cl_enforce_attachments listeners) then None
  else if sn_ready snapshot then
    iter_max_by ml_host_score
      (List.filter (fun listener =>
         contains_listener (ix_route_attachment_listener_index (sn_indexes snapshot))
           route_namespace route_name (ml_listener_index listener)) (cl_listeners listeners))
  else
    iter_max_by ml_host_score
      (List.filter (fun listener =>
         existsb (fun attached => route_attachment_matches attached route_namespace route_name)
           (l_attached_routes (ml_listener listener))) (cl_listeners listeners)).

Definition has_service_frontend_route_candidate {T} (snapshot : Snapshot) (request : RequestMeta)
    (listener_kind : ListenerKind) (routes : list T) (route_index : HostnameRouteIndex)
    (route_meta : T -> string * string * list ParentRef) : bool :=
  let listeners :=
    matched_listeners snapshot (rq_host request) (rq_port request) listener_kind in
  if negb (cl_enforce_attachments listeners) then false
  else
    existsb (fun listener_match =>
      bool_decide (is_Some (service_frontend_for_listener snapshot (ml_listener listener_match)))
      && any_hostname_route_candidate routes route_index (rq_host request) (sn_ready snapshot)
           (fun route =>
              let '(route_namespace, route_name, parent_refs) := route_meta route in
              match route_listener_match snapshot listeners route_namespace route_name with
              | Some matched_listener =>
                bool_decide (ml_listener_index matched_listener
                             = ml_listener_index listener_match)
              | None => false
              end
              && route_accepts_service_frontend snapshot parent_refs route_namespace
                   (ml_listener listener_match))) (cl_listeners listeners).

Definition has_service_frontend_http_route_candidate (snapshot : Snapshot)
    (request : RequestMeta) : bool :=
  has_service_frontend_route_candidate snapshot request ListenerHttp (sn_http_routes snapshot)
    (ix_http_route_hostname_index (sn_indexes snapshot))
    (fun route => (hr_namespace route, hr_name route, hr_parent_refs route)).

Definition has_service_frontend_grpc_route_candidate (snapshot : Snapshot)
    (request : RequestMeta) : bool :=
  has_service_frontend_route_candidate snapshot request ListenerGrpc (sn_grpc_routes snapshot)
    (ix_grpc_route_hostname_index (sn_indexes snapshot))
    (fun route => (gr_namespace route, gr_name route, gr_parent_refs route)).

Definition matches_service_frontend_listener (snapshot : Snapshot) (request : RequestMeta)
    (listener_kind : ListenerKind) : bool :=
  existsb (fun listener_match =>
    bool_decide (is_Some (service_frontend_for_listener snapshot (ml_listener listener_match))))
    (cl_listeners
       (matched_listeners snapshot (rq_host request) (rq_port request) listener_kind)).

(** ** Selection *)

Record HttpCandidate := mkHttpCandidate {
  hc_route : HttpRoute;
  hc_rule_index : nat;
  hc_rule : HttpRule;
  hc_listener_match : option MatchedListener;
  hc_matched_http_path : MatchedHttpPath;
  hc_resolution : HttpBackendResolution;
  hc_score : HttpCandidateScore;
}.

Record GrpcCandidate := mkGrpcCandidate {
  gc_route : GrpcRoute;
  gc_rule_index : nat;
  gc_rule : GrpcRule;
  gc_listener_match : option MatchedListener;
  gc_selected_backend : ResolvedHttpBackend;
  gc_score : GrpcCandidateScore;
}.

Definition match_score (listener_match : option MatchedListener) : HostnameScore :=
  default HostnameScore_default (ml_host_score <$> listener_match).

(** The guards of the route visitor: the listener the route is attached to and
    the score of its hostnames. *)
Definition route_admitted (snapshot : Snapshot) (listeners : CandidateListeners)
    (request_host : option string) (namespace name : string) (parent_refs : list ParentRef)
    (hostnames : list string) : option (option MatchedListener * HostnameScore) :=
  let listener_match := route_listener_match snapshot listeners namespace name in
  if cl_enforce_attachments listeners && negb (bool_decide (is_Some listener_match)) then None
  else if match listener_match with
          | Some listener_match =>
            negb (route_accepts_service_frontend snapshot parent_refs namespace
                    (ml_listener listener_match))
          | None => false
          end then None
  else (fun score => (listener_match, score)) <$> best_hostname_score hostnames request_host.

Definition no_backend (resolution : HttpBackendResolution) : bool :=
  negb (bool_decide (is_Some (hbr_selected resolution)))
  && negb (bool_decide (is_Some (hbr_error resolution))).

Section with_env.
Context `{RegexEngine, KeyHasher, Clock, Libm}.

Definition http_rule_step (snapshot : Snapshot) (request : RequestMeta)
    (session_resolver : SessionResolver) (route : HttpRoute)
    (listener_match : option MatchedListener) (route_host_score : HostnameScore)
    (s : option HttpCandidate * World) (item : nat * HttpRule) : option HttpCandidate * World :=
  let '(best, w) := s in
  let '(rule_index, rule) := item in
  match best_http_rule_match rule request with
  | None => (best, w)
  | Some (matched_http_path, rule_score) =>
    let '(resolution, w) :=
      resolve_http_backend_refs_with_session snapshot (hru_backend_refs rule)
        (hru_session_persistence rule) request session_resolver w in
    if no_backend resolution && negb (has_non_backend_http_filter (hru_filters rule))
    then (best, w)
    else
      let score := mkHttpCandidateScore (match_score listener_match) route_host_score rule_score in
      if match best with Some current => cmp_le score (hc_score current) | None => false end
      then (best, w)
      else
        (Some {| hc_route := route;
                 hc_rule_index := rule_index;
                 hc_rule := rule;
                 hc_listener_match := listener_match;
                 hc_matched_http_path := matched_http_path;
                 hc_resolution := resolution;
                 hc_score := score |}, w)
  end.

Definition http_route_visitor (snapshot : Snapshot) (request : RequestMeta)
    (session_resolver : SessionResolver) (listeners : CandidateListeners) (route : HttpRoute)
    (s : option HttpCandidate * World) : (option HttpCandidate * World) * bool :=
  match route_admitted snapshot listeners (rq_host request) (hr_namespace route) (hr_name route)
          (hr_parent_refs route) (hr_hostnames route) with
  | None => (s, true)
  | Some (listener_match, route_host_score) =>
    (foldl (http_rule_step snapshot request session_resolver route listener_match
              route_host_score) s (imap pair (hr_rules route)), true)
  end.

Definition http_candidate_route (snapshot : Snapshot) (candidate : HttpCandidate) :
    SelectedHttpRoute :=
  let selected := hbr_selected (hc_resolution candidate) in
  let backend_name := rhb_backend_name <$> selected in
  {| shr_route_name := hr_name (hc_route candidate);
     shr_route_namespace := hr_namespace (hc_route candidate);
     shr_rule_index := Some (hc_rule_index candidate);
     shr_route_annotations := hr_annotations (hc_route candidate);
     shr_listener_name :=
       default "" ((fun item => l_name (ml_listener item)) <$> hc_listener_match candidate);
     shr_listener_protocol :=
       default "" ((fun item => l_protocol (ml_listener item)) <$> hc_listener_match candidate);
     shr_filters :=
       hru_filters (hc_rule candidate) ++ default [] (rhb_filters <$> selected);
     shr_matched_http_path := hc_matched_http_path candidate;
     shr_backend := rhb_endpoint <$> selected;
     shr_backend_name := backend_name;
     shr_backend_error := hbr_error (hc_resolution candidate);
     shr_timeouts := hru_timeouts (hc_rule candidate);
     shr_retry := hru_retry (hc_rule candidate);
     shr_session_persistence :=
       match hru_session_persistence (hc_rule candidate) with
       | Some session => Some session
       | None => selected ≫= rhb_session_persistence
       end;
     shr_backend_tls :=
       hc_listener_match candidate ≫= fun item => l_backend_tls (ml_listener item);
     shr_route_policy := None;
     shr_security_policy :=
       name ← backend_name;
       index ← ix_backend_index (sn_indexes snapshot) !! name;
       backend ← sn_backends snapshot !! index;
       bc_security_policy backend |}.

Definition select_http_route (snapshot : Snapshot) (request : RequestMeta)
    (session_resolver : SessionResolver) : M (option SelectedHttpRoute) := fun w =>
  let listeners :=
    matched_listeners snapshot (rq_host request) (rq_port request) ListenerHttp in
  if cl_enforce_attachments listeners && bool_decide (length (cl_listeners listeners) = 0)
  then (None, w)
  else
    let '(best, w) :=
      (visit_http_route_candidates snapshot (rq_host request)
         (http_route_visitor snapshot request session_resolver listeners) (None, w)).1 in
    (http_candidate_route snapshot <$> best, w).

Definition grpc_rule_step (snapshot : Snapshot) (request : RequestMeta)
    (session_resolver : SessionResolver) (grpc : option GrpcPath) (route : GrpcRoute)
    (listener_match : option MatchedListener) (route_host_score : HostnameScore)
    (s : option GrpcCandidate * World) (item : nat * GrpcRule) : option GrpcCandidate * World :=
  let '(best, w) := s in
  let '(rule_index, rule) := item in
  match best_grpc_rule_match rule request grpc with
  | None => (best, w)
  | Some rule_score =>
    let '(resolution, w) :=
      resolve_http_backend_refs_with_session snapshot (gru_backend_refs rule)
        (gru_session_persistence rule) request session_resolver w in
    match hbr_selected resolution with
    | None => (best, w)
    | Some selected_backend =>
      let score := mkGrpcCandidateScore (match_score listener_match) route_host_score rule_score in
      if match best with Some current => cmp_le score (gc_score current) | None => false end
      then (best, w)
      else
        (Some {| gc_route := route;
                 gc_rule_index := rule_index;
                 gc_rule := rule;
                 gc_listener_match := listener_match;
                 gc_selected_backend := selected_backend;
                 gc_score := score |}, w)
    end
  end.

Definition grpc_route_visitor (snapshot : Snapshot) (request : RequestMeta)
    (session_resolver : SessionResolver) (grpc : option GrpcPath)
    (listeners : CandidateListeners) (route : GrpcRoute) (s : option GrpcCandidate * World) :
    (option GrpcCandidate * World) * bool :=
  match route_admitted snapshot listeners (rq_host request) (gr_namespace route) (gr_name route)
          (gr_parent_refs route) (gr_hostnames route) with
  | None => (s, true)
  | Some (listener_match, route_host_score) =>
    (foldl (grpc_rule_step snapshot request session_resolver grpc route listener_match
              route_host_score) s (imap pair (gr_rules route)), true)
  end.

Definition grpc_candidate_backend (candidate : GrpcCandidate) : SelectedBackend :=
  let selected := gc_selected_backend candidate in
  {| sb_route_kind := KindGrpc;
     sb_route_name := gr_name (gc_route candidate);
     sb_route_namespace := gr_namespace (gc_route candidate);
     sb_rule_index := Some (gc_rule_index candidate);
     sb_route_annotations := gr_annotations (gc_route candidate);
     sb_listener_name :=
       default "" ((fun item => l_name (ml_listener item)) <$> gc_listener_match candidate);
     sb_listener_protocol :=
       default "" ((fun item => l_protocol (ml_listener item)) <$> gc_listener_match candidate);
     sb_backend := rhb_endpoint selected;
     sb_backend_name := rhb_backend_name selected;
     sb_filters := gru_filters (gc_rule candidate) ++ rhb_filters selected;
     sb_matched_http_path := None;
     sb_timeouts := None;
     sb_retry := None;
     sb_session_persistence :=
       match gru_session_persistence (gc_rule candidate) with
       | Some session => Some session
       | None => rhb_session_persistence selected
       end;
     sb_backend_tls :=
       gc_listener_match candidate ≫= fun item => l_backend_tls (ml_listener item);
     sb_route_policy := None |}.

Definition select_grpc_backend (snapshot : Snapshot) (request : RequestMeta)
    (session_resolver : SessionResolver) : M (option SelectedBackend) := fun w =>
  if negb (is_grpc_request request) then (None, w)
  else
    let grpc := parse_grpc_path (rq_path request) in
    let listeners :=
      matched_listeners snapshot (rq_host request) (rq_port request) ListenerGrpc in
    if cl_enforce_attachments listeners && bool_decide (length (cl_listeners listeners) = 0)
    then (None, w)
    else
      let '(best, w) :=
        (visit_grpc_route_candidates snapshot (rq_host request)
           (grpc_route_visitor snapshot request session_resolver grpc listeners) (None, w)).1 in
      (grpc_candidate_backend <$> best, w).

(** [SelectedHttpRoute::into_backend] *)
Definition into_backend (self : SelectedHttpRoute) : option SelectedBackend :=
  backend ← shr_backend self;
  backend_name ← shr_backend_name self;
  Some {| sb_route_kind := KindHttp;
          sb_route_name := shr_route_name self;
          sb_route_namespace := shr_route_namespace self;
          sb_rule_index := shr_rule_index self;
          sb_route_annotations := shr_route_annotations self;
          sb_listener_name := shr_listener_name self;
          sb_listener_protocol := shr_listener_protocol self;
          sb_backend := backend;
          sb_backend_name := backend_name;
          sb_filters := shr_filters self;
          sb_matched_http_path := Some (shr_matched_http_path self);
          sb_timeouts := shr_timeouts self;
          sb_retry := shr_retry self;
          sb_session_persistence := shr_session_persistence self;
          sb_backend_tls := shr_backend_tls self;
          sb_route_policy := None |}.

End with_env.

End Selection.
