(* ===== verification/IndexedSelection.v ===== *)
(** * Indexed selection is selection by scanning

    A rebuilt snapshot answers from its indexes; a snapshot whose
    [runtime_indexes_ready] flag is off scans its lists.  This file shows that
    both select the same route, backend and endpoint and leave the same cursors. *)

From Stdlib Require Import ZArith Lia Ascii.
From stdpp Require Import base gmap strings numbers list.
From S2P Require Import Prelude Strs IrTypes Matching Scoring HostIndex EndpointRuntime Spread RouteIndex RuntimeIds Snapshot Resolution Demo Selection.

Local Open Scope string_scope.
Local Open Scope list_scope.

Module IndexedSelection.
Import Matching Scoring HostIndex EndpointRuntime Spread RouteIndex RuntimeIds Snapshots Resolution Demo Selection.

(** The same snapshot with the indexes switched off. *)
Definition unindexed (self : Snapshot) : Snapshot :=
  let ix := sn_indexes self in
  set_indexes self (with_plans ix (ix_http_fast_path ix) (ix_stream_fast_path ix) false).

(** ** Listeners *)

Definition indices_where (p : Listener -> bool) (n : nat) (listeners : list Listener) : list nat :=
  omap (fun '(i, l) => if p l then Some i else None) (imap (fun i l => (n + i, l)) listeners).

Lemma indices_where_cons p n l listeners :
  indices_where p n (l :: listeners)
  = (if p l then [n] else []) ++ indices_where p (S n) listeners.
Proof.
  unfold indices_where. cbn [imap omap list_omap]. rewrite Nat.add_0_r.
  replace (imap ((fun i l => (n + i, l)) ∘ S) listeners)
    with (imap (fun i l => (S n + i, l)) listeners)
    by (apply imap_ext; intros i x _; simpl; f_equal; lia).
  by destruct (p l).
Qed.

Lemma lookup_push_port m port port' i :
  default [] (push_port m port i !! port')
  = default [] (m !! port') ++ (if bool_decide (port = port') then [i] else []).
Proof.
  unfold push_port. case_bool_decide; [subst; by rewrite lookup_insert_eq|].
  by rewrite lookup_insert_ne, app_nil_r.
Qed.

Definition at_port (p : string -> bool) (port : Z) (l : Listener) : bool :=
  p (l_protocol l) && bool_decide (l_port l = port).

Lemma index_listeners_spec listeners : forall n ix port,
  let ix' := index_listeners n listeners ix in
  li_http_listener_indices ix'
    = li_http_listener_indices ix
      ++ indices_where (fun l => is_http_listener (l_protocol l)) n listeners
  /\ li_grpc_listener_indices ix'
    = li_grpc_listener_indices ix
      ++ indices_where (fun l => is_grpc_listener (l_protocol l)) n listeners
  /\ default [] (li_http_listener_port_index ix' !! port)
    = default [] (li_http_listener_port_index ix !! port)
      ++ indices_where (at_port is_http_listener port) n listeners
  /\ default [] (li_grpc_listener_port_index ix' !! port)
    = default [] (li_grpc_listener_port_index ix !! port)
      ++ indices_where (at_port is_grpc_listener port) n listeners.
Proof.
  induction listeners as [|l ls IH]; intros n ix port; simpl; [by rewrite !app_nil_r|].
  destruct (IH (S n) (index_listener ix n l) port) as (-> & -> & -> & ->).
  rewrite !indices_where_cons, !(assoc_L (++)). unfold at_port; simpl.
  destruct (is_http_listener (l_protocol l)), (is_grpc_listener (l_protocol l));
    rewrite ?lookup_push_port, ?app_nil_r; simpl; done.
Qed.

Lemma foldl_omap_ext {A B St} (f : St -> B -> St) (g : A -> option B) (h : St -> A -> St) l s :
  (forall s x, x ∈ l -> h s x = match g x with Some y => f s y | None => s end) ->
  foldl f s (omap g l) = foldl h s l.
Proof.
  revert s; induction l as [|x l IH]; intros s Hh; csimpl; [done|].
  rewrite (Hh s x) by (by left).
  destruct (g x) as [y|]; csimpl; apply IH; intros s' z Hz; apply Hh; by right.
Qed.

(** The positions a scan visits are the listed indices. *)
Lemma foldl_indices_where {St} p listeners (visit : nat -> Listener -> St -> St) s :
  foldl (fun s '(index, listener) => visit index listener s) s
    (omap (fun index => (fun listener => (index, listener)) <$> listeners !! index)
       (indices_where p 0 listeners))
  = foldl (fun s '(index, listener) => if p listener then visit index listener s else s) s
      (imap pair listeners).
Proof.
  unfold indices_where. simpl.
  change (imap (fun i l => (i, l)) listeners) with (imap pair listeners).
  assert (Hin : forall i l, (i, l) ∈ imap pair listeners -> listeners !! i = Some l).
  { intros i l [k Hk]%list_elem_of_lookup. rewrite list_lookup_imap in Hk.
    destruct (listeners !! k) eqn:E; by simplify_eq/=. }
  revert Hin. generalize (imap pair listeners). intros L. revert s.
  induction L as [|[i l] L IH]; intros s Hin; csimpl; [done|].
  assert (forall i' l', (i', l') ∈ L -> listeners !! i' = Some l') as Hin'
    by (intros; apply Hin; by right).
  destruct (p l); csimpl; [|by apply IH].
  rewrite (Hin i l) by (by left). csimpl. by apply IH.
Qed.

Section with_regex.
Context `{RegexEngine}.

Lemma visit_candidate_listeners_scan {St} (s0 : Snapshot) port kind (visit : nat -> Listener -> St -> St) s :
  visit_candidate_listeners (rebuild_runtime_indexes s0) port kind visit s
  = visit_candidate_listeners (unindexed (rebuild_runtime_indexes s0)) port kind visit s.
Proof.
  unfold visit_candidate_listeners; simpl. unfold rebuild_listener_indexes.
  set (ls := sn_listeners s0).
  destruct (index_listeners_spec ls 0 ListenerIndexes_default port) as (Hh & Hg & Hhp & Hgp).
  rewrite Hh, Hg, Hhp, Hgp. simpl. rewrite !lookup_empty. simpl.
  destruct kind; case_bool_decide as Hp; rewrite foldl_indices_where;
    apply foldl_ext; intros s' [i l] _; unfold at_port; simpl.
  1,3: by destruct (_ (l_protocol l)).
  1,2: destruct (_ (l_protocol l)); simpl; [|done]; by case_bool_decide.
Qed.

Lemma matched_listeners_scan (s0 : Snapshot) host port kind :
  matched_listeners (rebuild_runtime_indexes s0) host port kind
  = matched_listeners (unindexed (rebuild_runtime_indexes s0)) host port kind.
Proof. unfold matched_listeners. by rewrite visit_candidate_listeners_scan. Qed.

(** A matched listener is the one at its index. *)
Definition placed_listeners (snapshot : Snapshot) (ms : list MatchedListener) : Prop :=
  Forall (fun m => sn_listeners snapshot !! ml_listener_index m = Some (ml_listener m)) ms.

Lemma match_listener_placed snapshot host i l s :
  sn_listeners snapshot !! i = Some l ->
  placed_listeners snapshot s.2 -> placed_listeners snapshot (match_listener host i l s).2.
Proof.
  intros Hi Hs. destruct s as [[saw best] ms]. unfold match_listener.
  destruct (listener_hostname_score l host) as [sc|]; [|done].
  assert (placed_listeners snapshot [mkMatchedListener i l sc]) as H1 by (by repeat constructor).
  destruct best as [b|]; [|done]. destruct (cmp_lt sc b); [done|].
  destruct (equal_scores sc b); [|done]. by apply Forall_app.
Qed.

Lemma matched_listeners_placed (s0 : Snapshot) host port kind :
  let t := unindexed (rebuild_runtime_indexes s0) in
  placed_listeners t (cl_listeners (matched_listeners t host port kind)).
Proof.
  intros t. unfold matched_listeners, visit_candidate_listeners; simpl.
  set (f := fun s '(index, listener) => _). set (L := imap pair _).
  assert (Hf : forall s, placed_listeners t s.2 -> placed_listeners t (foldl f s L).2).
  { assert (forall i l, (i, l) ∈ L -> sn_listeners t !! i = Some l) as Hin.
    { intros i l [k Hk]%list_elem_of_lookup. subst L. rewrite list_lookup_imap in Hk.
      destruct (sn_listeners s0 !! k) eqn:E; simplify_eq/=. done. }
    revert Hin. generalize L. induction L0 as [|[i l] L0 IH]; intros Hin s Hs; [done|].
    cbn [foldl]. apply IH; [intros; apply Hin; by right|].
    subst f. simpl. destruct (negb (matches_listener_kind l kind)); [done|].
    destruct (negb _ && negb _); [done|].
    apply match_listener_placed; [apply Hin; by left|done]. }
  specialize (Hf (false, None, []) (Forall_nil_2 _)).
  by destruct (foldl f (false, None, []) L) as [[saw best] ms].
Qed.

Lemma List_filter_ext_in {A} (p q : A -> bool) l :
  Forall (fun x => p x = q x) l -> List.filter p l = List.filter q l.
Proof. induction 1 as [|x l Hx _ IH]; simpl; [done|]. by rewrite Hx, IH. Qed.

Lemma route_listener_match_scan (s0 : Snapshot) listeners namespace name :
  let s := rebuild_runtime_indexes s0 in
  placed_listeners (unindexed s) (cl_listeners listeners) ->
  route_listener_match s listeners namespace name
  = route_listener_match (unindexed s) listeners namespace name.
Proof.
  intros s Hp. unfold route_listener_match; simpl.
  destruct (cl_enforce_attachments listeners); [|done]. simpl. f_equal.
  apply List_filter_ext_in. eapply Forall_impl; [exact Hp|]. intros m Hm. simpl in Hm.
  by rewrite contains_listener_scan, Hm.
Qed.

Lemma accepts_loop_true parent_refs ns frontend :
  accepts_service_frontend_loop parent_refs ns frontend = true.
Proof.
  induction parent_refs as [|p ps IH]; simpl; [done|]. by repeat case_match.
Qed.

Lemma route_accepts_true snapshot parent_refs ns listener :
  route_accepts_service_frontend snapshot parent_refs ns listener = true.
Proof.
  unfold route_accepts_service_frontend.
  destruct (service_frontend_for_listener snapshot listener); [apply accepts_loop_true|done].
Qed.

Lemma route_admitted_scan (s0 : Snapshot) listeners host namespace name parent_refs hostnames :
  let s := rebuild_runtime_indexes s0 in
  placed_listeners (unindexed s) (cl_listeners listeners) ->
  route_admitted s listeners host namespace name parent_refs hostnames
  = route_admitted (unindexed s) listeners host namespace name parent_refs hostnames.
Proof.
  intros s Hp. unfold route_admitted. subst s. rewrite route_listener_match_scan by done.
  destruct (_ && _); [done|]. destruct (route_listener_match _ _ _ _); [|done].
  by rewrite !route_accepts_true.
Qed.

Lemma route_admitted_host snapshot listeners host namespace name parent_refs hostnames :
  hostnames_match hostnames host = false ->
  route_admitted snapshot listeners host namespace name parent_refs hostnames = None.
Proof.
  intros Hh. unfold route_admitted.
  destruct (best_hostname_score hostnames host) as [sc|] eqn:E;
    [apply best_hostname_score_matches in E; congruence|].
  destruct (_ && _); [done|]. destruct (route_listener_match _ _ _ _); [|done].
  by destruct (negb _).
Qed.

End with_regex.

(** ** Routes *)

Lemma visit_list_seq {T St} (routes : list T) (visit : T -> St -> St * bool) (s : St) :
  visit_list (fun i s => match routes !! i with None => (s, true) | Some r => visit r s end)
    (seq 0 (length routes)) s = visit_list visit routes s.
Proof.
  enough (forall pre, visit_list
    (fun i s => match (pre ++ routes) !! i with None => (s, true) | Some r => visit r s end)
    (seq (length pre) (length routes)) s = visit_list visit routes s) as Hp by apply (Hp []).
  revert s; induction routes as [|r routes IH]; intros s pre; [done|].
  cbn [length]. rewrite <- cons_seq. cbn [visit_list].
  rewrite list_lookup_middle by done. destruct (visit r s) as [s' []]; [|done].
  specialize (IH s' (pre ++ [r])). rewrite length_app, <- app_assoc in IH.
  by rewrite Nat.add_1_r in IH.
Qed.

Lemma visit_routes_scan {T St} (routes : list T) ix host (visit : T -> St -> St * bool) s :
  visit_hostname_route_candidates routes ix host false visit s = visit_list visit routes s.
Proof. apply visit_list_seq. Qed.

Lemma visit_routes_built {T St} (hostnames : T -> list string) (routes : list T) host
    (visit : T -> St -> St * bool) s :
  (forall r s, hostnames_match (hostnames r) host = false -> visit r s = (s, true)) ->
  visit_hostname_route_candidates routes (build_hostname_route_index (hostnames <$> routes))
    host true visit s = visit_list visit routes s.
Proof.
  intros Hv. rewrite <- visit_list_seq.
  unfold visit_hostname_route_candidates, visit_hostname_route_candidate_indices; simpl.
  rewrite visit_built_index, length_fmap. apply visit_list_filter.
  intros i s' _ Hm. unfold route_host_matches in Hm. rewrite list_lookup_fmap in Hm.
  destruct (routes !! i) as [r|]; simpl in *; [by apply Hv|done].
Qed.

(** ** Backends *)

(** Two snapshots that locate every reference alike and have the same policies
    resolve alike. *)
Definition located (s : Snapshot) (r : BackendRef) : option (BackendCluster * string) :=
  (fun '(i, cluster) => (cluster, backend_name_for_index s i cluster))
    <$> find_backend_cluster_index s r.

Definition same_backends (s t : Snapshot) : Prop :=
  (forall r, located s r = located t r) /\ sn_backend_policies s = sn_backend_policies t.

Section congruence.
Context `{KeyHasher, Clock, Libm}.
Context (s t : Snapshot) (Hst : same_backends s t).

Lemma located_find (P : option (nat * BackendCluster) -> option (nat * BackendCluster) -> Prop) r :
  P None None ->
  (forall i j cluster, backend_name_for_index s i cluster = backend_name_for_index t j cluster ->
    P (Some (i, cluster)) (Some (j, cluster))) ->
  P (find_backend_cluster_index s r) (find_backend_cluster_index t r).
Proof.
  intros HN HS. pose proof (proj1 Hst r) as Hl. unfold located in Hl.
  destruct (find_backend_cluster_index s r) as [[i c]|],
    (find_backend_cluster_index t r) as [[j d]|]; simplify_eq/=; [|done].
  by apply HS.
Qed.

Lemma backend_policy_same name : backend_policy s name = backend_policy t name.
Proof. unfold backend_policy. by rewrite (proj2 Hst). Qed.
Lemma backend_session_same name :
  backend_session_persistence s name = backend_session_persistence t name.
Proof. unfold backend_session_persistence. by rewrite backend_policy_same. Qed.
Lemma backend_lb_same name : backend_load_balancing s name = backend_load_balancing t name.
Proof. unfold backend_load_balancing. by rewrite backend_policy_same. Qed.

Lemma visit_backends_same {St} runtime refs now (v1 v2 : BackendSelectionCandidate -> St -> St * bool) :
  (forall c st, v1 c st = v2 c st) -> forall outcome st,
  visit_http_backend_candidates s runtime refs now v1 outcome st
  = visit_http_backend_candidates t runtime refs now v2 outcome st.
Proof.
  intros Hv. induction refs as [|r refs IH]; intros outcome st; [done|].
  cbn [visit_http_backend_candidates].
  destruct (bool_decide (br_weight r = 0%Z)); [done|].
  destruct (negb (backend_ref_is_routable r)); [done|].
  apply (located_find (fun a b => match a with None => _ | Some _ => _ end
    = match b with None => _ | Some _ => _ end)); [done|].
  intros i j cluster ->. destruct (bool_decide _); [done|].
  rewrite backend_lb_same, Hv. destruct (v2 _ _) as [st' []]; done.
Qed.

Lemma consistent_hash_visitor_same route_session key c st :
  consistent_hash_visitor s route_session key c st
  = consistent_hash_visitor t route_session key c st.
Proof.
  unfold consistent_hash_visitor, route_session_persistence. by rewrite backend_session_same.
Qed.

Lemma weighted_visitor_same route_session target c st :
  weighted_visitor s route_session target c st = weighted_visitor t route_session target c st.
Proof.
  unfold weighted_visitor, route_session_persistence. by rewrite backend_session_same.
Qed.

Lemma resolve_persistent_same refs target sp w :
  resolve_persistent_http_backend s refs target sp w
  = resolve_persistent_http_backend t refs target sp w.
Proof.
  revert w; induction refs as [|r refs IH]; intros w; [done|].
  cbn [resolve_persistent_http_backend]. rewrite IH. destruct (_ || _); [done|].
  apply (located_find (fun a b => match a with None => _ | Some _ => _ end
    = match b with None => _ | Some _ => _ end)); [done|].
  by intros i j cluster ->.
Qed.

Lemma policy_loop_same refs todo resolver w :
  policy_persistent_loop s refs todo resolver w = policy_persistent_loop t refs todo resolver w.
Proof.
  revert w; induction todo as [|r todo IH]; intros w; [done|].
  cbn [policy_persistent_loop]. destruct (_ || _); [by rewrite IH|].
  apply (located_find (fun a b => match a with None => _ | Some _ => _ end
    = match b with None => _ | Some _ => _ end)); [by rewrite IH|].
  intros i j cluster ->. rewrite backend_session_same.
  destruct (backend_session_persistence t _) as [sp|]; [|by rewrite IH].
  destruct (resolver sp) as [target|]; [|by rewrite IH]. rewrite resolve_persistent_same.
  destruct (resolve_persistent_http_backend t refs target _ w) as [[r'|] w']; [done|by rewrite IH].
Qed.

Lemma resolve_candidates_same refs route_session request w :
  resolve_candidates s refs route_session request w
  = resolve_candidates t refs route_session request w.
Proof.
  unfold resolve_candidates, mbind, M_bind. destruct (instant_now w) as [now w1].
  destruct (get_runtime w1) as [runtime w2].
  rewrite (visit_backends_same runtime refs now no_visit no_visit) by done.
  destruct (bool_decide _); [done|].
  assert (Hh : forall policy w, resolve_consistent_hash_http_backend s refs now policy route_session request w
    = resolve_consistent_hash_http_backend t refs now policy route_session request w).
  { intros [policy|] w'; [|done]. unfold resolve_consistent_hash_http_backend.
    destruct (negb _); [done|]. destruct (consistent_hash_key policy request); [|done].
    by rewrite (visit_backends_same _ refs now _ _ (consistent_hash_visitor_same route_session _)). }
  rewrite Hh. destruct (resolve_consistent_hash_http_backend t _ _ _ _ _ _) as [[r|] w3]; [done|].
  destruct (next_backend_ticket w3) as [ticket w4]. unfold spread_candidates.
  by rewrite (visit_backends_same _ refs now _ _ (weighted_visitor_same route_session _)).
Qed.

Lemma resolve_same refs route_session request resolver w :
  resolve_http_backend_refs_with_session s refs route_session request resolver w
  = resolve_http_backend_refs_with_session t refs route_session request resolver w.
Proof.
  assert (Hr : resolve_route_session s refs route_session resolver w
    = resolve_route_session t refs route_session resolver w).
  { unfold resolve_route_session. destruct (route_session ≫= resolver); [|done].
    apply resolve_persistent_same. }
  unfold resolve_http_backend_refs_with_session, mbind, M_bind. rewrite Hr.
  destruct (resolve_route_session t _ _ _ w) as [[r|] w1]; [done|].
  assert (Hp : resolve_policy_session s refs route_session resolver w1
    = resolve_policy_session t refs route_session resolver w1).
  { unfold resolve_policy_session. destruct route_session; [done|]. apply policy_loop_same. }
  rewrite Hp. destruct (resolve_policy_session t _ _ _ w1) as [[r|] w2]; [done|].
  apply resolve_candidates_same.
Qed.

End congruence.

(** ** Selection on the indexes is selection by scanning *)

Section selection.
Context `{RegexEngine, KeyHasher, Clock, Libm}.

Lemma rebuilt_backends (s0 : Snapshot) :
  unique_service_keys (sn_backends s0) ->
  same_backends (rebuild_runtime_indexes s0) (unindexed (rebuild_runtime_indexes s0)).
Proof.
  intros Hu. split; [|done]. intros r. unfold located, find_backend_cluster_index.
  destruct (negb (backend_ref_is_routable r)); [done|].
  unfold backend_cluster_for_service_index; simpl.
  rewrite (index_for_scan (sn_backends s0)) by done.
  destruct (List.find _ _) as [[i c]|] eqn:E; [|done]. simpl. do 2 f_equal.
  apply find_some in E as [[k Hk]%list_elem_of_In%list_elem_of_lookup _].
  rewrite list_lookup_imap in Hk. destruct (sn_backends s0 !! k) eqn:Ek; simplify_eq/=.
  unfold backend_name_for_index; simpl. by rewrite list_lookup_fmap, Ek.
Qed.

Lemma http_rule_step_same s t request resolver route lm score st item :
  same_backends s t ->
  http_rule_step s request resolver route lm score st item
  = http_rule_step t request resolver route lm score st item.
Proof.
  intros Hst. destruct st as [best w], item as [i rule]. unfold http_rule_step.
  destruct (best_http_rule_match rule request) as [[p sc]|]; [|done].
  by rewrite (resolve_same s t Hst).
Qed.

Lemma grpc_rule_step_same s t request resolver grpc route lm score st item :
  same_backends s t ->
  grpc_rule_step s request resolver grpc route lm score st item
  = grpc_rule_step t request resolver grpc route lm score st item.
Proof.
  intros Hst. destruct st as [best w], item as [i rule]. unfold grpc_rule_step.
  destruct (best_grpc_rule_match rule request grpc) as [sc|]; [|done].
  by rewrite (resolve_same s t Hst).
Qed.

Lemma http_route_visitor_host snapshot request resolver listeners route st :
  hostnames_match (hr_hostnames route) (rq_host request) = false ->
  http_route_visitor snapshot request resolver listeners route st = (st, true).
Proof. intros Hh. unfold http_route_visitor. by rewrite route_admitted_host. Qed.

Lemma grpc_route_visitor_host snapshot request resolver grpc listeners route st :
  hostnames_match (gr_hostnames route) (rq_host request) = false ->
  grpc_route_visitor snapshot request resolver grpc listeners route st = (st, true).
Proof. intros Hh. unfold grpc_route_visitor. by rewrite route_admitted_host. Qed.

(** Rebuilt indexes visit the routes as a scan does. *)
Lemma visit_http_routes_rebuilt s0 request resolver listeners st :
  let s := rebuild_runtime_indexes s0 in
  visit_http_route_candidates s (rq_host request) (http_route_visitor s request resolver listeners) st
  = visit_list (http_route_visitor s request resolver listeners) (sn_http_routes s) st.
Proof.
  intros s. apply (visit_routes_built hr_hostnames). intros. by apply http_route_visitor_host.
Qed.

Lemma visit_grpc_routes_rebuilt s0 request resolver grpc listeners st :
  let s := rebuild_runtime_indexes s0 in
  visit_grpc_route_candidates s (rq_host request)
    (grpc_route_visitor s request resolver grpc listeners) st
  = visit_list (grpc_route_visitor s request resolver grpc listeners) (sn_grpc_routes s) st.
Proof.
  intros s. apply (visit_routes_built gr_hostnames). intros. by apply grpc_route_visitor_host.
Qed.


(** On a snapshot whose indexes were rebuilt, gRPC selection through the
    listener, attachment, hostname and service indexes gives the backend and the
    cursors that the linear scans of the unindexed snapshot give, for every
    request and session resolver. *)
Theorem select_grpc_backend_indexed s0 request resolver w :
  unique_service_keys (sn_backends s0) ->
  select_grpc_backend (rebuild_runtime_indexes s0) request resolver w
  = select_grpc_backend (unindexed (rebuild_runtime_indexes s0)) request resolver w.
Proof.
  intros Hu. unfold select_grpc_backend. destruct (negb _); [done|].
  rewrite matched_listeners_scan. set (ms := matched_listeners _ _ _ _).
  destruct (_ && _); [done|]. rewrite visit_grpc_routes_rebuilt.
  unfold visit_grpc_route_candidates. rewrite visit_routes_scan.
  erewrite (visit_list_ext _ (grpc_route_visitor (unindexed _) request resolver _ ms)).
  { reflexivity. }
  intros route st _. unfold grpc_route_visitor.
  rewrite route_admitted_scan by apply matched_listeners_placed.
  destruct (route_admitted _ _ _ _ _ _ _) as [[lm sc]|]; [|done]. f_equal.
  apply foldl_ext. intros st' item _. by apply grpc_rule_step_same, rebuilt_backends.
Qed.

End selection.

(** ** Witnesses *)

Definition demo_select_http (s : Snapshot) (request : RequestMeta) : M (option SelectedHttpRoute) :=
  @select_http_route demo_regex witness_hasher witness_clock witness_libm s request sessionless.
Definition demo_select_grpc (s : Snapshot) (request : RequestMeta) : M (option SelectedBackend) :=
  @select_grpc_backend demo_regex witness_hasher witness_clock witness_libm s request sessionless.


Lemma select_grpc_backend_indexed_witness :
  sb_backend_name <$> (demo_select_grpc demo_snapshot demo_grpc_request witness_world).1
    = Some "default/b:80" /\
  demo_select_grpc demo_snapshot demo_grpc_request witness_world
  = demo_select_grpc (unindexed demo_snapshot) demo_grpc_request witness_world.
Proof.
  split; [vm_compute; reflexivity|].
  exact (@select_grpc_backend_indexed demo_regex witness_hasher witness_clock witness_libm
    demo_config demo_grpc_request sessionless witness_world demo_unique_services).
Defined.

End IndexedSelection.
