(* ===== verification/Precedence.v ===== *)
(** * Precedence of routes

    Which rule [select_http_route] and [select_grpc_backend] choose.  The rules
    of the admitted routes that match the request and have something to serve it
    with form a list of offers, a function of the snapshot, the request and the
    endpoint health only; the selected rule is the first offer whose score is
    maximal, whatever the cursors, the clock and the session resolver do. *)

From Stdlib Require Import ZArith Lia Ascii.
From stdpp Require Import base gmap strings numbers list.
From S2P Require Import Prelude Strs IrTypes Matching Scoring HostIndex EndpointRuntime Spread RouteIndex RuntimeIds Snapshot Resolution Demo Selection IndexedSelection.

Local Open Scope string_scope.
Local Open Scope list_scope.

Module Precedence.
Import Matching Scoring HostIndex EndpointRuntime Spread RouteIndex RuntimeIds Snapshots Resolution Demo Selection IndexedSelection.

(** ** The first maximum *)

Section first_best.
Context {A B : Type} `{RustOrdLaws B} (key : A -> B).

Definition keep_first (best : option A) (x : A) : option A :=
  match best with
  | Some b => if cmp_le (key x) (key b) then best else Some x
  | None => Some x
  end.

(** [m] is the first element of [l] with the greatest key. *)
Definition first_best (l : list A) (m : A) : Prop :=
  exists before after, l = before ++ m :: after
  /\ Forall (fun x => cmp_lt (key x) (key m) = true) before
  /\ Forall (fun x => cmp_le (key x) (key m) = true) after.

Lemma keep_first_some l b :
  exists m, foldl keep_first (Some b) l = Some m
  /\ (m = b /\ Forall (fun x => cmp_le (key x) (key b) = true) l
      \/ cmp_lt (key b) (key m) = true /\ first_best l m).
Proof.
  revert b; induction l as [|x l IH]; intros b; cbn [foldl].
  { exists b. split; [done|]. by left. }
  unfold keep_first at 2. destruct (cmp_le (key x) (key b)) eqn:E.
  - destruct (IH b) as (m & Hm & Hc). exists m. split; [done|].
    destruct Hc as [[-> Hf]|[Hlt (l1 & l2 & -> & H1 & H2)]]; [left|right].
    + by split; [|constructor].
    + split; [done|]. exists (x :: l1), l2. split_and!; [done| |done].
      constructor; [|done]. by eapply cmp_le_lt_trans.
  - assert (Hbx : cmp_lt (key b) (key x) = true)
      by (rewrite cmp_le_negb_lt in E; by apply negb_false_iff in E).
    destruct (IH x) as (m & Hm & Hc). exists m. split; [done|]. right.
    destruct Hc as [[-> Hf]|[Hlt (l1 & l2 & -> & H1 & H2)]].
    + split; [done|]. by exists [], l.
    + split; [eapply cmp_le_lt_trans; [by apply cmp_lt_le|done]|].
      exists (x :: l1), l2. split_and!; [done| |done]. by constructor.
Qed.

Lemma keep_first_spec l :
  match foldl keep_first None l with
  | Some m => first_best l m
  | None => l = []
  end.
Proof.
  destruct l as [|x l]; [done|]. simpl. destruct (keep_first_some l x) as (m & -> & [[-> Hf]|[Hlt Hb]]).
  - by exists [], l.
  - destruct Hb as (l1 & l2 & -> & H1 & H2). exists (x :: l1), l2.
    split_and!; [done|by constructor|done].
Qed.

Lemma first_best_lookup l m :
  first_best l m ->
  exists i, l !! i = Some m
  /\ (forall j x, j < i -> l !! j = Some x -> cmp_lt (key x) (key m) = true)
  /\ (forall j x, i < j -> l !! j = Some x -> cmp_le (key x) (key m) = true).
Proof.
  intros (l1 & l2 & -> & H1 & H2). exists (length l1). split_and!.
  - by apply list_lookup_middle.
  - intros j x Hj Hx. rewrite lookup_app_l in Hx by done. by eapply Forall_lookup_1 in H1.
  - intros j x Hj Hx. rewrite lookup_app_r in Hx by lia.
    destruct (j - length l1) as [|k] eqn:E; [lia|]. simpl in Hx. by eapply Forall_lookup_1 in H2.
Qed.

Lemma first_best_unique l m m' : first_best l m -> first_best l m' -> m = m'.
Proof.
  intros (i & Hi & Hb & Ha)%first_best_lookup (j & Hj & Hb' & Ha')%first_best_lookup.
  destruct (Nat.lt_trichotomy i j) as [Hij|[->|Hij]]; [|congruence|].
  - pose proof (Hb' i m Hij Hi) as H1. pose proof (Ha j m' Hij Hj) as H2.
    rewrite cmp_le_negb_lt, H1 in H2. done.
  - pose proof (Hb j m' Hij Hj) as H1. pose proof (Ha' i m Hij Hi) as H2.
    rewrite cmp_le_negb_lt, H1 in H2. done.
Qed.

End first_best.

(** A fold whose step keeps the first best offer of each item, in a state it
    otherwise maintains, computes the first best of the offers. *)
Lemma foldl_offers {S A X B} `{RustOrd B} (key : X -> B) (view : S -> option X) (ok : S -> Prop)
    (step : S -> A -> S) (offer : A -> list X) l s :
  (forall s a, ok s -> a ∈ l ->
     ok (step s a) /\ view (step s a) = foldl (keep_first key) (view s) (offer a)) ->
  ok s ->
  ok (foldl step s l)
  /\ view (foldl step s l) = foldl (keep_first key) (view s) (concat (offer <$> l)).
Proof.
  revert s; induction l as [|a l IH]; intros s Hstep Hs; csimpl; [done|].
  destruct (Hstep s a Hs) as [Hok Hv]; [by left|].
  destruct (IH (step s a)) as [Hok' Hv']; [|done|].
  { intros s' a' Hs' Ha'. apply Hstep; [done|by right]. }
  split; [done|]. by rewrite Hv', Hv, foldl_app.
Qed.

(** ** Offers *)

(** A rule that could take the request, with what its selection reports. *)
Record HttpOffer := mkHttpOffer {
  ho_route : HttpRoute;
  ho_rule_index : nat;
  ho_listener : option MatchedListener;
  ho_path : MatchedHttpPath;
  ho_score : HttpCandidateScore;
}.
Record GrpcOffer := mkGrpcOffer {
  go_route : GrpcRoute;
  go_rule_index : nat;
  go_listener : option MatchedListener;
  go_score : GrpcCandidateScore;
}.

Definition matched_name (lm : option MatchedListener) : string :=
  default "" ((fun item => l_name (ml_listener item)) <$> lm).

Section with_env.
Context `{RegexEngine, KeyHasher, Clock, Libm}.

(** A rule can serve when its references have a candidate or an error to report,
    or when a filter answers without a backend. *)
Definition http_rule_serves (snapshot : Snapshot) (runtime : EndpointRuntimeStore)
    (rule : HttpRule) : bool :=
  negb (bool_decide (length (candidates snapshot runtime (hru_backend_refs rule)) = 0))
  || bool_decide (is_Some (refs_error (classify snapshot runtime <$> hru_backend_refs rule)))
  || has_non_backend_http_filter (hru_filters rule).

Definition grpc_rule_serves (snapshot : Snapshot) (runtime : EndpointRuntimeStore)
    (rule : GrpcRule) : bool :=
  negb (bool_decide (length (candidates snapshot runtime (gru_backend_refs rule)) = 0)).

Definition http_offer (snapshot : Snapshot) (runtime : EndpointRuntimeStore)
    (request : RequestMeta) (route : HttpRoute) (lm : option MatchedListener)
    (host_score : HostnameScore) (item : nat * HttpRule) :
    list HttpOffer :=
  match best_http_rule_match item.2 request with
  | Some (matched_http_path, rule_score) =>
    if http_rule_serves snapshot runtime item.2
    then [mkHttpOffer route item.1 lm matched_http_path
            (mkHttpCandidateScore (match_score lm) host_score rule_score)]
    else []
  | None => []
  end.

Definition http_route_offers (snapshot : Snapshot) (runtime : EndpointRuntimeStore)
    (request : RequestMeta) (listeners : CandidateListeners) (route : HttpRoute) :
    list HttpOffer :=
  match route_admitted snapshot listeners (rq_host request) (hr_namespace route) (hr_name route)
          (hr_parent_refs route) (hr_hostnames route) with
  | Some (lm, host_score) =>
    concat (http_offer snapshot runtime request route lm host_score
              <$> imap pair (hr_rules route))
  | None => []
  end.

Definition http_offers (snapshot : Snapshot) (runtime : EndpointRuntimeStore)
    (request : RequestMeta) : list HttpOffer :=
  concat (http_route_offers snapshot runtime request
    (matched_listeners snapshot (rq_host request) (rq_port request) ListenerHttp)
    <$> sn_http_routes snapshot).

Definition grpc_offer (snapshot : Snapshot) (runtime : EndpointRuntimeStore)
    (request : RequestMeta) (route : GrpcRoute) (lm : option MatchedListener)
    (host_score : HostnameScore) (item : nat * GrpcRule) :
    list GrpcOffer :=
  match best_grpc_rule_match item.2 request (parse_grpc_path (rq_path request)) with
  | Some rule_score =>
    if grpc_rule_serves snapshot runtime item.2
    then [mkGrpcOffer route item.1 lm
            (mkGrpcCandidateScore (match_score lm) host_score rule_score)]
    else []
  | None => []
  end.

Definition grpc_route_offers (snapshot : Snapshot) (runtime : EndpointRuntimeStore)
    (request : RequestMeta) (listeners : CandidateListeners) (route : GrpcRoute) :
    list GrpcOffer :=
  match route_admitted snapshot listeners (rq_host request) (gr_namespace route) (gr_name route)
          (gr_parent_refs route) (gr_hostnames route) with
  | Some (lm, host_score) =>
    concat (grpc_offer snapshot runtime request route lm host_score
              <$> imap pair (gr_rules route))
  | None => []
  end.

Definition grpc_offers (snapshot : Snapshot) (runtime : EndpointRuntimeStore)
    (request : RequestMeta) : list GrpcOffer :=
  concat (grpc_route_offers snapshot runtime request
    (matched_listeners snapshot (rq_host request) (rq_port request) ListenerGrpc)
    <$> sn_grpc_routes snapshot).

(** ** The fold computes the first best offer *)

Definition http_view (s : option HttpCandidate * World) :
    option HttpOffer :=
  (fun c => mkHttpOffer (hc_route c) (hc_rule_index c) (hc_listener_match c)
              (hc_matched_http_path c) (hc_score c)) <$> s.1.
Definition grpc_view (s : option GrpcCandidate * World) :
    option GrpcOffer :=
  (fun c => mkGrpcOffer (gc_route c) (gc_rule_index c) (gc_listener_match c) (gc_score c)) <$> s.1.

Definition runs_on {A} (runtime : EndpointRuntimeStore) (s : A * World) : Prop :=
  w_endpoint_runtime s.2 = runtime.

Lemma http_rule_step_offer snapshot runtime request resolver route lm host_score st item :
  refs_fit (hru_backend_refs item.2) -> runs_on runtime st ->
  let st' := http_rule_step snapshot request resolver route lm host_score st item in
  runs_on runtime st' /\
  http_view st' = foldl (keep_first ho_score) (http_view st)
    (http_offer snapshot runtime request route lm host_score item).
Proof.
  intros Hf Hr. destruct st as [best w], item as [i rule]. unfold http_rule_step, http_offer.
  cbn [fst snd] in *. destruct (best_http_rule_match rule request) as [[p sc]|]; [|done].
  pose proof (resolve_refs_complete snapshot (hru_backend_refs rule)
    (hru_session_persistence rule) request resolver w Hf) as Hc.
  cbv zeta in Hc. unfold runs_on in Hr. cbn [snd] in Hr. rewrite Hr in Hc.
  destruct (resolve_http_backend_refs_with_session _ _ _ _ _ w) as [res w'].
  destruct Hc as [Hw Hc].
  assert (http_rule_serves snapshot runtime rule
    = negb (no_backend res && negb (has_non_backend_http_filter (hru_filters rule)))) as ->.
  { unfold http_rule_serves, no_backend. destruct (hbr_selected res) as [r|].
    - destruct Hc as [_ (c & Hc & _)]. destruct (candidates _ _ _); [by apply not_elem_of_nil in Hc|done].
    - destruct Hc as [-> ->]. simpl. by destruct (refs_error _), (has_non_backend_http_filter _). }
  destruct (no_backend res && _); simpl; [done|].
  destruct best as [c|]; simpl; [|done]. by destruct (cmp_le _ _).
Qed.

Lemma grpc_rule_step_offer snapshot runtime request resolver route lm host_score st item :
  refs_fit (gru_backend_refs item.2) -> runs_on runtime st ->
  let st' := grpc_rule_step snapshot request resolver (parse_grpc_path (rq_path request)) route
               lm host_score st item in
  runs_on runtime st' /\
  grpc_view st' = foldl (keep_first go_score) (grpc_view st)
    (grpc_offer snapshot runtime request route lm host_score item).
Proof.
  intros Hf Hr. destruct st as [best w], item as [i rule]. unfold grpc_rule_step, grpc_offer.
  cbn [fst snd] in *. destruct (best_grpc_rule_match rule request _) as [sc|]; [|done].
  pose proof (resolve_refs_complete snapshot (gru_backend_refs rule)
    (gru_session_persistence rule) request resolver w Hf) as Hc.
  cbv zeta in Hc. unfold runs_on in Hr. cbn [snd] in Hr. rewrite Hr in Hc.
  destruct (resolve_http_backend_refs_with_session _ _ _ _ _ w) as [res w'].
  destruct Hc as [Hw Hc]. unfold grpc_rule_serves. destruct (hbr_selected res) as [r|].
  - destruct Hc as [_ (c & Hc & _)].
    destruct (candidates _ _ _); [by apply not_elem_of_nil in Hc|]. simpl.
    destruct best as [current|]; simpl; [|done]. by destruct (cmp_le _ _).
  - by destruct Hc as [-> _].
Qed.

Lemma elem_of_imap_pair {A} (l : list A) p : p ∈ imap pair l -> p.2 ∈ l.
Proof.
  intros [k Hk]%list_elem_of_lookup. rewrite list_lookup_imap in Hk.
  destruct (l !! k) eqn:E; simplify_eq/=. by eapply list_elem_of_lookup_2.
Qed.

Definition http_rules_fit (routes : list HttpRoute) : Prop :=
  Forall (fun route => Forall (fun rule => refs_fit (hru_backend_refs rule)) (hr_rules route)) routes.
Definition grpc_rules_fit (routes : list GrpcRoute) : Prop :=
  Forall (fun route => Forall (fun rule => refs_fit (gru_backend_refs rule)) (gr_rules route)) routes.

Lemma http_routes_offers snapshot runtime request resolver listeners w :
  http_rules_fit (sn_http_routes snapshot) -> w_endpoint_runtime w = runtime ->
  http_view (visit_list (http_route_visitor snapshot request resolver listeners)
    (sn_http_routes snapshot) (None, w)).1
  = foldl (keep_first ho_score) None
      (concat (http_route_offers snapshot runtime request listeners <$> sn_http_routes snapshot)).
Proof.
  intros Hf Hw.
  rewrite (visit_list_ext _ (fun route st =>
    ((http_route_visitor snapshot request resolver listeners route st).1, true))).
  2: { intros route st _. unfold http_route_visitor. by destruct (route_admitted _ _ _ _ _ _ _) as [[]|]. }
  rewrite visit_list_foldl. cbn [fst].
  apply (foldl_offers ho_score http_view (runs_on runtime)); [|done].
  intros st route Hst Hin. unfold http_route_visitor, http_route_offers.
  destruct (route_admitted _ _ _ _ _ _ _) as [[lm sc]|]; [|done]. cbn [fst].
  apply (foldl_offers ho_score http_view (runs_on runtime)); [|done].
  intros st' item Hst' Hitem. apply http_rule_step_offer; [|done].
  eapply list.Forall_forall in Hf; [|done]. eapply list.Forall_forall in Hf; [exact Hf|].
  by apply elem_of_imap_pair.
Qed.

Lemma grpc_routes_offers snapshot runtime request resolver listeners w :
  grpc_rules_fit (sn_grpc_routes snapshot) -> w_endpoint_runtime w = runtime ->
  grpc_view (visit_list (grpc_route_visitor snapshot request resolver
      (parse_grpc_path (rq_path request)) listeners) (sn_grpc_routes snapshot) (None, w)).1
  = foldl (keep_first go_score) None
      (concat (grpc_route_offers snapshot runtime request listeners <$> sn_grpc_routes snapshot)).
Proof.
  intros Hf Hw.
  rewrite (visit_list_ext _ (fun route st =>
    ((grpc_route_visitor snapshot request resolver (parse_grpc_path (rq_path request)) listeners
        route st).1, true))).
  2: { intros route st _. unfold grpc_route_visitor. by destruct (route_admitted _ _ _ _ _ _ _) as [[]|]. }
  rewrite visit_list_foldl. cbn [fst].
  apply (foldl_offers go_score grpc_view (runs_on runtime)); [|done].
  intros st route Hst Hin. unfold grpc_route_visitor, grpc_route_offers.
  destruct (route_admitted _ _ _ _ _ _ _) as [[lm sc]|]; [|done]. cbn [fst].
  apply (foldl_offers go_score grpc_view (runs_on runtime)); [|done].
  intros st' item Hst' Hitem. apply grpc_rule_step_offer; [|done].
  eapply list.Forall_forall in Hf; [|done]. eapply list.Forall_forall in Hf; [exact Hf|].
  by apply elem_of_imap_pair.
Qed.

(** Without a matching listener nothing is admitted. *)
Lemma no_listener_admits snapshot host namespace name parent_refs hostnames :
  route_admitted snapshot (mkCandidateListeners [] true) host namespace name parent_refs hostnames
  = None.
Proof. unfold route_admitted, route_listener_match. simpl. by destruct (sn_ready snapshot). Qed.

Lemma no_listeners listeners :
  cl_enforce_attachments listeners && bool_decide (length (cl_listeners listeners) = 0) = true ->
  listeners = mkCandidateListeners [] true.
Proof. destruct listeners as [[|l ls] []]; simpl; intros Hb; done || (bool_hyps; done). Qed.

Lemma concat_nil {A B} (f : A -> list B) l : (forall x, f x = []) -> concat (f <$> l) = [].
Proof. intros Hf. induction l as [|x l IH]; csimpl; [done|]. by rewrite Hf. Qed.

Lemma select_http_route_offer s0 request resolver w :
  let s := rebuild_runtime_indexes s0 in
  http_rules_fit (sn_http_routes s) ->
  match (select_http_route s request resolver w).1 with
  | Some r =>
    exists o, first_best ho_score (http_offers s (w_endpoint_runtime w) request) o
      /\ shr_route_namespace r = hr_namespace (ho_route o)
      /\ shr_route_name r = hr_name (ho_route o)
      /\ shr_rule_index r = Some (ho_rule_index o)
      /\ shr_listener_name r = matched_name (ho_listener o)
      /\ shr_matched_http_path r = ho_path o
  | None => http_offers s (w_endpoint_runtime w) request = []
  end.
Proof.
  intros s Hf. unfold select_http_route, http_offers. set (ls := matched_listeners _ _ _ _).
  destruct (_ && _) eqn:E.
  { apply no_listeners in E. rewrite E. simpl. apply concat_nil. intros route.
    unfold http_route_offers. by rewrite no_listener_admits. }
  unfold s. rewrite visit_http_routes_rebuilt. fold s.
  pose proof (http_routes_offers s _ request resolver ls w Hf eq_refl) as Hv.
  destruct (visit_list _ _ _) as [[best w'] b]. cbn [fst] in *.
  pose proof (keep_first_spec ho_score
    (concat (http_route_offers s (w_endpoint_runtime w) request ls <$> sn_http_routes s))) as Hb.
  rewrite <- Hv in Hb. destruct best as [c|]; simpl in *; [|done]. eauto 10.
Qed.

(** C2: route precedence.  On a rebuilt snapshot HTTP selection returns the first
    rule, in configuration order, with its listener and the path it matched by,
    that has the greatest score (listener hostname,
    route hostname, then path kind, path length, method, headers and query
    parameters) among the rules of the admitted routes that match the request
    and can serve it, and none exactly when there is no such rule.  The cursors,
    the clock and sticky sessions do not influence the choice of the rule. *)
Theorem select_http_route_precedence s0 request resolver w :
  let s := rebuild_runtime_indexes s0 in
  http_rules_fit (sn_http_routes s) ->
  match (select_http_route s request resolver w).1 with
  | Some r =>
    exists o, first_best ho_score (http_offers s (w_endpoint_runtime w) request) o
      /\ shr_route_namespace r = hr_namespace (ho_route o)
      /\ shr_route_name r = hr_name (ho_route o)
      /\ shr_rule_index r = Some (ho_rule_index o)
      /\ shr_listener_name r = matched_name (ho_listener o)
      /\ shr_matched_http_path r = ho_path o
  | None => http_offers s (w_endpoint_runtime w) request = []
  end.
Proof. apply select_http_route_offer. Qed.

(** C31: route precedence for gRPC.  On a rebuilt snapshot a gRPC request gets
    the first rule, in configuration order, of greatest score among the rules of
    the admitted gRPC routes that match it and have an available backend, and no
    selection exactly when there is no such rule, whatever the cursors, the
    clock and the session resolver do. *)
Theorem select_grpc_backend_precedence s0 request resolver w :
  let s := rebuild_runtime_indexes s0 in
  grpc_rules_fit (sn_grpc_routes s) -> is_grpc_request request = true ->
  match (select_grpc_backend s request resolver w).1 with
  | Some r =>
    exists o, first_best go_score (grpc_offers s (w_endpoint_runtime w) request) o
      /\ sb_route_namespace r = gr_namespace (go_route o)
      /\ sb_route_name r = gr_name (go_route o)
      /\ sb_rule_index r = Some (go_rule_index o)
      /\ sb_listener_name r = matched_name (go_listener o)
  | None => grpc_offers s (w_endpoint_runtime w) request = []
  end.
Proof.
  intros s Hf Hg. unfold select_grpc_backend, grpc_offers. rewrite Hg. cbn [negb].
  set (ls := matched_listeners _ _ _ _). destruct (_ && _) eqn:E.
  { apply no_listeners in E. rewrite E. simpl. apply concat_nil. intros route.
    unfold grpc_route_offers. by rewrite no_listener_admits. }
  unfold s. rewrite visit_grpc_routes_rebuilt. fold s.
  pose proof (grpc_routes_offers s _ request resolver ls w Hf eq_refl) as Hv.
  destruct (visit_list _ _ _) as [[best w'] b]. cbn [fst] in *.
  pose proof (keep_first_spec go_score
    (concat (grpc_route_offers s (w_endpoint_runtime w) request ls <$> sn_grpc_routes s))) as Hb.
  rewrite <- Hv in Hb. destruct best as [c|]; simpl in *; [|done]. eauto 10.
Qed.

End with_env.

(** ** Witnesses *)

Lemma select_http_route_precedence_witness :
  exists o, first_best ho_score (@http_offers demo_regex witness_hasher demo_snapshot
      EndpointRuntimeStore_default (demo_request "shop.example.com" "/api/x" "GET")) o
    /\ hr_name (ho_route o) = "shop" /\ ho_rule_index o = 1.
Proof.
  assert (Hf : http_rules_fit (sn_http_routes demo_snapshot)).
  { repeat constructor; vm_compute; congruence || reflexivity. }
  pose proof (@select_http_route_precedence demo_regex witness_hasher witness_clock witness_libm
    demo_config (demo_request "shop.example.com" "/api/x" "GET") sessionless witness_world Hf) as Hp.
  cbv zeta in Hp. destruct (select_http_route _ _ _ _) as [[r|] w'] eqn:E;
    apply (f_equal fst) in E; cbn [fst] in *; revert E; vm_compute (fst (select_http_route _ _ _ _));
    intros [=<-].
  destruct Hp as (o & Hb & _ & Hn & Hi & _). exists o. split; [exact Hb|]. split; [symmetry; exact Hn|]. simpl in Hi. congruence.
Defined.

Lemma select_grpc_backend_precedence_witness :
  exists o, first_best go_score (@grpc_offers demo_regex witness_hasher demo_snapshot
      EndpointRuntimeStore_default demo_grpc_request) o
    /\ gr_name (go_route o) = "rpc" /\ go_rule_index o = 1.
Proof.
  assert (Hf : grpc_rules_fit (sn_grpc_routes demo_snapshot)).
  { repeat constructor; vm_compute; congruence || reflexivity. }
  pose proof (@select_grpc_backend_precedence demo_regex witness_hasher witness_clock witness_libm
    demo_config demo_grpc_request sessionless witness_world Hf eq_refl) as Hp.
  cbv zeta in Hp. destruct (select_grpc_backend _ _ _ _) as [[r|] w'] eqn:E;
    apply (f_equal fst) in E; cbn [fst] in *; revert E;
    vm_compute (fst (select_grpc_backend _ _ _ _)); intros [=<-].
  destruct Hp as (o & Hb & _ & Hn & Hi & _). exists o. split; [exact Hb|]. split; [symmetry; exact Hn|]. simpl in Hi. congruence.
Defined.

End Precedence.
