(* ===== verification/StreamSelection.v ===== *)
(** * Stream selection and the entry points of the snapshot

    [ntgw-ir/src/stream_fast_path.rs] and the selection methods of
    [ntgw-ir/src/snapshot.rs]: TCP, UDP and TLS listeners, request mirrors, the
    default backends of mesh frontends, and [select_backend], which tries gRPC,
    HTTP and the defaults in turn. *)

From Stdlib Require Import ZArith Lia Ascii.
From stdpp Require Import base gmap strings numbers list.
From S2P Require Import Prelude Strs IrTypes Matching Scoring HostIndex EndpointRuntime Spread RouteIndex RuntimeIds Snapshot Resolution Demo Selection.

Local Open Scope string_scope.
Local Open Scope list_scope.

Module StreamSelection.
Import Matching Scoring HostIndex EndpointRuntime Spread RouteIndex RuntimeIds Snapshots Resolution Selection.

Definition route_kind_for_listener (protocol : string) : option RouteKind :=
  if bool_decide (protocol ∈ ["LISTENER_PROTOCOL_TCP"; "TCP"]) then Some KindTcp
  else if bool_decide (protocol ∈ ["LISTENER_PROTOCOL_UDP"; "UDP"]) then Some KindUdp
  else if bool_decide (protocol ∈ ["LISTENER_PROTOCOL_TLS"; "LISTENER_PROTOCOL_TLS_PASSTHROUGH";
                                   "TLS"; "TLS_PASSTHROUGH"]) then Some KindTls
  else None.

Definition route_kind_from_name (kind : string) : option RouteKind :=
  if bool_decide (kind ∈ ["ROUTE_KIND_TCP"; "TCP"]) then Some KindTcp
  else if bool_decide (kind ∈ ["ROUTE_KIND_UDP"; "UDP"]) then Some KindUdp
  else if bool_decide (kind ∈ ["ROUTE_KIND_TLS"; "TLS"]) then Some KindTls
  else if bool_decide (kind ∈ ["ROUTE_KIND_HTTP"; "HTTP"]) then Some KindHttp
  else if bool_decide (kind ∈ ["ROUTE_KIND_GRPC"; "GRPC"]) then Some KindGrpc
  else None.

Definition stream_route_kind (route : StreamRoute) : option RouteKind :=
  let kind := sr_kind route in
  if bool_decide (kind ∈ ["ROUTE_KIND_TCP"; "TCPRoute"; "TCP"]) then Some KindTcp
  else if bool_decide (kind ∈ ["ROUTE_KIND_UDP"; "UDPRoute"; "UDP"]) then Some KindUdp
  else if bool_decide (kind ∈ ["ROUTE_KIND_TLS"; "TLSRoute"; "TLS"]) then Some KindTls
  else None.

(** ** Scores of stream listeners *)

Definition stream_hostname_match_score (pattern server_name : string) :
    option StreamMatchScore :=
  let pattern := normalize_host_ref pattern in
  match Str.strip_prefix "*." pattern with
  | Some suffix =>
    if hostname_matches pattern server_name
    then Some (mkStreamMatchScore 1 (String.length suffix)) else None
  | None =>
    if bool_decide (pattern = server_name)
    then Some (mkStreamMatchScore 2 (String.length pattern)) else None
  end.

Definition stream_listener_server_name_score (listener : Listener) (server_name : option string) :
    option StreamMatchScore :=
  match l_hostnames listener with
  | [] => Some StreamMatchScore_default
  | hostnames =>
    server_name ← normalize_host_ref <$> server_name;
    iter_max (omap (fun hostname => stream_hostname_match_score hostname server_name) hostnames)
  end.

(** ** Candidate routes *)

Definition visit_stream_route_candidates {St} (self : Snapshot) (listener : Listener)
    (expected_kind : RouteKind) (visit : StreamRoute -> St -> St * bool) (s : St) : St * bool :=
  let of_kind route := bool_decide (route_kind_from_name (sr_kind route) = Some expected_kind) in
  if sn_ready self then
    match ix_stream_listener_route_index (sn_indexes self) !! l_name listener with
    | None => (s, true)
    | Some indices =>
      visit_list (fun index s =>
        match sn_stream_routes self !! index with
        | None => (s, true)
        | Some route => if of_kind route then visit route s else (s, true)
        end) indices s
    end
  else
    visit_list (fun route s =>
      if of_kind route && listener_attaches_route listener route then visit route s
      else (s, true)) (sn_stream_routes self) s.

(** The listeners among the named ones whose hostnames match best. *)
Definition stream_candidates (self : Snapshot) (listener_names : list string)
    (server_name : option string) : list (Listener * StreamMatchScore) :=
  omap (fun name =>
    listener ← listener_by_name self name;
    score ← stream_listener_server_name_score listener server_name;
    Some (listener, score)) listener_names.

Definition visit_best_stream_listeners {St} (self : Snapshot) (listener_names : list string)
    (server_name : option string) (visit : Listener -> St -> St * bool) (s : St) : St * bool :=
  let best_score :=
    foldl (fun best_score '(_, score) =>
      match best_score with
      | Some current => if cmp_lt current score then Some score else best_score
      | None => Some score
      end) None (stream_candidates self listener_names server_name) in
  match best_score with
  | None => (s, true)
  | Some best_score =>
    visit_list (fun '(listener, score) s =>
      if equal_scores score best_score then visit listener s else (s, true))
      (stream_candidates self listener_names server_name) s
  end.

(** ** Selected backends without a route *)

Definition plain_backend (route_kind : RouteKind) (route_name route_namespace : string)
    (rule_index : option nat) (annotations : StringMap string) (listener_name protocol : string)
    (backend : BackendEndpoint * string) (backend_tls : option BackendTlsConfig) :
    SelectedBackend :=
  {| sb_route_kind := route_kind;
     sb_route_name := route_name;
     sb_route_namespace := route_namespace;
     sb_rule_index := rule_index;
     sb_route_annotations := annotations;
     sb_listener_name := listener_name;
     sb_listener_protocol := protocol;
     sb_backend := backend.1;
     sb_backend_name := backend.2;
     sb_filters := [];
     sb_matched_http_path := None;
     sb_timeouts := None;
     sb_retry := None;
     sb_session_persistence := None;
     sb_backend_tls := backend_tls;
     sb_route_policy := None |}.

Definition stream_backend (kind : RouteKind) (route : StreamRoute) (rule_index : nat)
    (listener : Listener) (backend : BackendEndpoint * string) : SelectedBackend :=
  plain_backend kind (sr_name route) (sr_namespace route) (Some rule_index) (sr_annotations route)
    (l_name listener) (l_protocol listener) backend None.

Section with_env.
Context `{KeyHasher, Clock, Libm}.

(** ** The stream fast path *)

Record StreamFastCandidate := mkStreamFastCandidate {
  sfc_route_index : nat;
  sfc_rule_index : nat;
  sfc_selected : BackendEndpoint * string;
  sfc_score : StreamMatchScore;
}.

(** [None] outside is the early return of [?], the inner value is [best]. *)
Fixpoint stream_fast_rules (snapshot : Snapshot) (listener : Listener)
    (server_name : option string) (tls_mode : option TlsRouteMode) (route_index : nat)
    (route : StreamRoute) (rules : list CompiledStreamFastRule)
    (best : option StreamFastCandidate) : M (option (option StreamFastCandidate)) := fun w =>
  match rules with
  | [] => (Some best, w)
  | compiled_rule :: rules =>
    let continue best w :=
      stream_fast_rules snapshot listener server_name tls_mode route_index route rules best w in
    match sr_rules route !! csr_rule_index compiled_rule with
    | None => (None, w)
    | Some rule =>
      match best_stream_rule_match_with_tls_mode (sru_matches rule) (l_port listener) server_name
              tls_mode with
      | None => continue best w
      | Some score =>
        if match best with Some c => cmp_le score (sfc_score c) | None => false end
        then continue best w
        else
          let '(selected, w) :=
            select_compiled_http_fast_backend snapshot (csr_backend_refs compiled_rule) w in
          match selected with
          | None => continue best w
          | Some selected =>
            continue (Some (mkStreamFastCandidate route_index (csr_rule_index compiled_rule)
              (cfs_endpoint selected, cfs_backend_name selected) score)) w
          end
      end
    end
  end.

Fixpoint stream_fast_routes (self : StreamFastPathPlan) (snapshot : Snapshot)
    (listener : Listener) (expected_kind : RouteKind) (server_name : option string)
    (tls_mode : option TlsRouteMode) (route_indices : list nat)
    (best : option StreamFastCandidate) : M (option (option StreamFastCandidate)) := fun w =>
  match route_indices with
  | [] => (Some best, w)
  | route_index :: route_indices =>
    let continue :=
      stream_fast_routes self snapshot listener expected_kind server_name tls_mode route_indices in
    match sn_stream_routes snapshot !! route_index with
    | None => (None, w)
    | Some route =>
      if negb (bool_decide (stream_route_kind route = Some expected_kind)) then continue best w
      else
        match sfp_routes self !! route_index with
        | Some (Some compiled_route) =>
          let '(best, w) :=
            stream_fast_rules snapshot listener server_name tls_mode route_index route
              (cso_rules compiled_route) best w in
          match best with
          | None => (None, w)
          | Some best => continue best w
          end
        | _ => continue best w
        end
    end
  end.

Definition StreamFastPathPlan_select (self : StreamFastPathPlan) (snapshot : Snapshot)
    (listener : Listener) (expected_kind : RouteKind) (server_name : option string)
    (tls_mode : option TlsRouteMode) : M (option SelectedBackend) := fun w =>
  match ix_stream_listener_route_index (sn_indexes snapshot) !! l_name listener with
  | None => (None, w)
  | Some route_indices =>
    let '(best, w) :=
      stream_fast_routes self snapshot listener expected_kind server_name tls_mode route_indices
        None w in
    (candidate ← mjoin best;
     route ← sn_stream_routes snapshot !! sfc_route_index candidate;
     Some (stream_backend expected_kind route (sfc_rule_index candidate) listener
       (sfc_selected candidate)), w)
  end.

(** ** Backends of a service *)

Definition select_service_backend (self : Snapshot) (namespace name : string) (port : Z) :
    M (option (BackendEndpoint * string)) := fun w =>
  match backend_cluster_for_service self namespace name port with
  | None => (None, w)
  | Some cluster =>
    let backend_name := backend_cluster_name cluster in
    let '(endpoint, w) := select_cluster_endpoint cluster backend_name w in
    ((fun endpoint => (endpoint, backend_name)) <$> endpoint, w)
  end.

Definition default_service_backend (self : Snapshot) (namespace name : string) (port : Z) :
    M (option (BackendEndpoint * string)) := select_service_backend self namespace name port.

Definition default_stream_backend (self : Snapshot) (listener : Listener) :
    M (option SelectedBackend) := fun w =>
  match service_frontend_for_listener self listener with
  | None => (None, w)
  | Some frontend =>
    match route_kind_for_listener (l_protocol listener) with
    | None => (None, w)
    | Some route_kind =>
      let '(backend, w) :=
        default_service_backend self (sf_namespace frontend) (sf_name frontend) (sf_port frontend)
          w in
      ((fun backend =>
          plain_backend route_kind "" (sf_namespace frontend) None ∅ (l_name listener)
            (l_protocol listener) backend None) <$> backend, w)
    end
  end.

(** ** Selection for a listener *)

(** [.or_else(..)] where the alternative changes the state. *)
Definition or_else {A} (x : option A) (m : M (option A)) : M (option A) :=
  match x with Some _ => mret x | None => m end.

Definition default_if (allowed : bool) (m : M (option SelectedBackend)) :
    M (option SelectedBackend) :=
  if allowed then m else mret None.

Definition stream_rule_step (self : Snapshot) (listener : Listener) (expected_kind : RouteKind)
    (server_name : option string) (tls_mode : option TlsRouteMode) (route : StreamRoute)
    (s : option (SelectedBackend * StreamMatchScore) * World) (item : nat * StreamRule) :
    option (SelectedBackend * StreamMatchScore) * World :=
  let '(best, w) := s in
  let '(rule_index, rule) := item in
  match best_stream_rule_match_with_tls_mode (sru_matches rule) (l_port listener) server_name
          tls_mode with
  | None => (best, w)
  | Some score =>
    if match best with Some (_, current) => cmp_le score current | None => false end
    then (best, w)
    else
      let '(selected, w) := resolve_backend_refs self (sru_backend_refs rule) w in
      match selected with
      | None => (best, w)
      | Some selected =>
        (Some (stream_backend expected_kind route rule_index listener selected, score), w)
      end
  end.

Definition select_stream_backend_for_listener (self : Snapshot) (listener : Listener)
    (expected_kind : RouteKind) (server_name : option string) (tls_mode : option TlsRouteMode)
    (allow_default_backend : bool) : M (option SelectedBackend) := fun w =>
  if negb (bool_decide (route_kind_for_listener (l_protocol listener) = Some expected_kind))
  then (None, w)
  else if sn_ready self then
    let '(selected, w) :=
      StreamFastPathPlan_select (ix_stream_fast_path (sn_indexes self)) self listener
        expected_kind server_name tls_mode w in
    or_else selected (default_if allow_default_backend (default_stream_backend self listener)) w
  else
    let '(best, w) :=
      (visit_stream_route_candidates self listener expected_kind
         (fun route s =>
            (foldl (stream_rule_step self listener expected_kind server_name tls_mode route) s
               (imap pair (sr_rules route)), true)) (None, w)).1 in
    or_else (fst <$> best)
      (default_if allow_default_backend (default_stream_backend self listener)) w.

Definition select_stream_backend (self : Snapshot) (listener_name : string)
    (server_name : option string) : M (option SelectedBackend) := fun w =>
  match
    listener ← listener_by_name self listener_name;
    _ ← stream_listener_server_name_score listener server_name;
    expected_kind ← route_kind_for_listener (l_protocol listener);
    Some (listener, expected_kind)
  with
  | None => (None, w)
  | Some (listener, expected_kind) =>
    select_stream_backend_for_listener self listener expected_kind server_name None true w
  end.

Definition select_tls_stream_backend (self : Snapshot) (listener_name : string)
    (server_name : option string) (mode : TlsRouteMode) : M (option SelectedBackend) := fun w =>
  match
    listener ← listener_by_name self listener_name;
    _ ← stream_listener_server_name_score listener server_name;
    expected_kind ← route_kind_for_listener (l_protocol listener);
    Some (listener, expected_kind)
  with
  | None => (None, w)
  | Some (listener, expected_kind) =>
    if negb (bool_decide (expected_kind = KindTls)) then (None, w)
    else select_stream_backend_for_listener self listener expected_kind server_name (Some mode)
           false w
  end.

Definition stream_listener_visitor (self : Snapshot) (server_name : option string)
    (listener : Listener) (s : option SelectedBackend * World) :
    (option SelectedBackend * World) * bool :=
  let '(selected, w) := s in
  match route_kind_for_listener (l_protocol listener) with
  | None => (s, true)
  | Some expected_kind =>
    let '(candidate, w) :=
      select_stream_backend_for_listener self listener expected_kind server_name None true w in
    match candidate with
    | Some candidate => ((Some candidate, w), false)
    | None => ((selected, w), true)
    end
  end.

Definition select_stream_backend_from_listener_set (self : Snapshot)
    (listener_names : list string) (server_name : option string) : M (option SelectedBackend) :=
  fun w =>
  (visit_best_stream_listeners self listener_names server_name
     (stream_listener_visitor self server_name) (None, w)).1.

(** ** Request mirrors *)

Definition mirror_backend (context : RequestMirrorContext) (backend : BackendEndpoint * string) :
    SelectedBackend :=
  {| sb_route_kind := rmc_route_kind context;
     sb_route_name := rmc_route_name context;
     sb_route_namespace := rmc_route_namespace context;
     sb_rule_index := rmc_rule_index context;
     sb_route_annotations := ∅;
     sb_listener_name := "";
     sb_listener_protocol := "";
     sb_backend := backend.1;
     sb_backend_name := backend.2;
     sb_filters := filters_without_request_mirror (rmc_filters context);
     sb_matched_http_path := rmc_matched_http_path context;
     sb_timeouts := rmc_timeouts context;
     sb_retry := None;
     sb_session_persistence := None;
     sb_backend_tls := rmc_backend_tls context;
     sb_route_policy := None |}.

Definition mirror_filter_step {St} (self : Snapshot) (context : RequestMirrorContext)
    (visit : SelectedBackend -> St -> St * bool) (filter : Filter) (s : St * World) :
    (St * World) * bool :=
  let '(s, w) := s in
  match f_request_mirror filter with
  | None => ((s, w), true)
  | Some filter =>
    let '(mirrored, w) := should_mirror filter w in
    if negb mirrored then ((s, w), true)
    else
      let '(backend, w) := select_backend_ref self (rm_backend_ref filter) w in
      match backend with
      | None => ((s, w), true)
      | Some backend =>
        let '(s, go_on) := visit (mirror_backend context backend) s in
        ((s, w), go_on)
      end
  end.

Definition visit_request_mirrors {St} (self : Snapshot) (context : RequestMirrorContext)
    (visit : SelectedBackend -> St -> St * bool) (s : St) (w : World) : (St * World) * bool :=
  visit_list (mirror_filter_step self context visit) (rmc_filters context) (s, w).

Definition select_request_mirror (self : Snapshot) (context : RequestMirrorContext) :
    M (option SelectedBackend) := fun w =>
  (visit_request_mirrors self context (fun mirror _ => (Some mirror, false)) None w).1.

Definition select_request_mirrors (self : Snapshot) (context : RequestMirrorContext) :
    M (list SelectedBackend) := fun w =>
  (visit_request_mirrors self context (fun mirror mirrors => (mirrors ++ [mirror], true)) [] w).1.

(** ** Default backends *)

Fixpoint first_healthy_loop (runtime : EndpointRuntimeStore) (now : Instant)
    (backends : list BackendCluster) : option SelectedBackend :=
  match backends with
  | [] => None
  | cluster :: backends =>
    let backend_name := backend_cluster_name cluster in
    match List.find (fun item => endpoint_is_available_at runtime backend_name item now)
            (bc_endpoints cluster) with
    | Some endpoint =>
      Some (plain_backend KindHttp "" "" None ∅ "" "" (endpoint, backend_name) None)
    | None => first_healthy_loop runtime now backends
    end
  end.

Definition select_first_healthy_backend (self : Snapshot) : M (option SelectedBackend) :=
  now ← instant_now;
  runtime ← get_runtime;
  mret (first_healthy_loop runtime now (sn_backends self)).

Definition service_frontend_has_attached_routes (self : Snapshot)
    (frontend : ServiceFrontendRef) : bool :=
  if sn_ready self then
    match li_service_frontend_attachment_index (ix_listeners (sn_indexes self))
            !! sf_namespace frontend with
    | Some names => bool_decide (sf_name frontend ∈ names)
    | None => false
    end
  else
    existsb (fun listener =>
      negb (bool_decide (length (l_attached_routes listener) = 0))
      && match service_frontend_for_listener self listener with
         | Some candidate =>
           bool_decide (sf_namespace candidate = sf_namespace frontend)
           && bool_decide (sf_name candidate = sf_name frontend)
         | None => false
         end) (sn_listeners self).

Definition default_route_kind (protocol : string) : RouteKind :=
  if bool_decide (protocol ∈ ["LISTENER_PROTOCOL_GRPC"; "GRPC"]) then KindGrpc else KindHttp.

(** The default backend of a mesh listener. *)
Definition frontend_default_backend (self : Snapshot) (listener : Listener)
    (frontend : ServiceFrontendRef) : M (option SelectedBackend) := fun w =>
  let '(backend, w) :=
    default_service_backend self (sf_namespace frontend) (sf_name frontend) (sf_port frontend) w in
  ((fun backend =>
      plain_backend (default_route_kind (l_protocol listener)) "" (sf_namespace frontend) None ∅
        (l_name listener) (l_protocol listener) backend (l_backend_tls listener)) <$> backend, w).

Definition frontend_unrouted (self : Snapshot) (listener : Listener)
    (frontend : ServiceFrontendRef) : bool :=
  bool_decide (length (l_attached_routes listener) = 0)
  && negb (service_frontend_has_attached_routes self frontend).

Fixpoint default_from_indices_loop (self : Snapshot) (indices : list nat) :
    M (option SelectedBackend) := fun w =>
  match indices with
  | [] => (None, w)
  | index :: indices =>
    match
      listener ← sn_listeners self !! index;
      frontend ← service_frontend_for_listener self listener;
      Some (listener, frontend)
    with
    | None => (None, w)
    | Some (listener, frontend) =>
      if frontend_unrouted self listener frontend then default_from_indices_loop self indices w
      else frontend_default_backend self listener frontend w
    end
  end.

Definition select_listener_default_backend_from_indices (self : Snapshot)
    (request : RequestMeta) : M (option SelectedBackend) := fun w =>
  match li_service_frontend_listener_port_index (ix_listeners (sn_indexes self))
          !! rq_port request with
  | None => (None, w)
  | Some indices => default_from_indices_loop self indices w
  end.

Fixpoint find_map {A B} (f : A -> option B) (l : list A) : option B :=
  match l with
  | [] => None
  | x :: l => match f x with Some y => Some y | None => find_map f l end
  end.

Definition select_listener_default_backend_slow_path (self : Snapshot)
    (request : RequestMeta) : M (option SelectedBackend) := fun w =>
  match
    find_map (fun listener =>
      if bool_decide (l_port listener = rq_port request)
      then (fun frontend => (listener, frontend)) <$> service_frontend_for_listener self listener
      else None) (sn_listeners self)
  with
  | None => (None, w)
  | Some (listener, frontend) =>
    if frontend_unrouted self listener frontend then (None, w)
    else frontend_default_backend self listener frontend w
  end.

Definition select_listener_default_backend (self : Snapshot) (request : RequestMeta) :
    M (option SelectedBackend) := fun w =>
  if sn_ready self then
    let '(selected, w) := select_listener_default_backend_from_indices self request w in
    or_else selected (select_listener_default_backend_slow_path self request) w
  else select_listener_default_backend_slow_path self request w.

Definition has_l7_routes (self : Snapshot) : bool :=
  negb (bool_decide (length (sn_http_routes self) = 0))
  || negb (bool_decide (length (sn_grpc_routes self) = 0)).

(** ** Mesh frontends *)

Definition request_service_frontend_ref (self : Snapshot) (request : RequestMeta) :
    option ServiceFrontendRef :=
  let port := rq_port request in
  if bool_decide (port = 0%Z) then None
  else
    host ← normalize_host_ref <$> rq_host request;
    match List.filter (fun part => negb (Str.is_empty part)) (Str.split "."%char host) with
    | [] => None
    | name :: rest =>
      namespace ←
        match rest with
        | [] =>
          match source_namespace self request with
          | Some namespace => Some namespace
          | None => backend_namespace_for_service self name port
          end
        | [namespace] => Some namespace
        | namespace :: part :: _ => if bool_decide (part = "svc") then Some namespace else None
        end;
      Some (mkServiceFrontendRef namespace name port)
    end.

Definition request_targets_mesh_service_frontend (self : Snapshot) (request : RequestMeta) : bool :=
  match request_service_frontend_ref self request with
  | None => false
  | Some frontend =>
    bool_decide (is_Some (backend_cluster_for_service self (sf_namespace frontend)
      (sf_name frontend) (sf_port frontend)))
  end.

Section with_regex.
Context `{RegexEngine}.

Definition select_http_backend_with_session_resolver (self : Snapshot) (request : RequestMeta)
    (session_resolver : SessionResolver) : M (option SelectedBackend) := fun w =>
  let '(selected, w) := select_http_route self request session_resolver w in
  (selected ≫= into_backend, w).

Definition select_backend_with_session_resolver (self : Snapshot) (request : RequestMeta)
    (session_resolver : SessionResolver) : M (option SelectedBackend) := fun w =>
  let grpc := is_grpc_request request in
  let kind := if grpc then ListenerGrpc else ListenerHttp in
  let targets_mesh_service_frontend :=
    request_targets_mesh_service_frontend self request
    || matches_service_frontend_listener self request kind in
  let '(selected, w) :=
    if grpc then select_grpc_backend self request session_resolver w else (None, w) in
  or_else selected (fun w =>
    let allow_mesh_service_fallback :=
      negb (if grpc then has_service_frontend_grpc_route_candidate self request
            else has_service_frontend_http_route_candidate self request) in
    let '(selected, w) :=
      select_http_backend_with_session_resolver self request session_resolver w in
    or_else selected (fun w =>
      let '(selected, w) :=
        default_if allow_mesh_service_fallback (select_listener_default_backend self request) w in
      or_else selected
        (default_if (negb targets_mesh_service_frontend && negb (has_l7_routes self))
           (select_first_healthy_backend self)) w) w) w.

Definition select_backend (self : Snapshot) (request : RequestMeta) :
    M (option SelectedBackend) :=
  select_backend_with_session_resolver self request (fun _ => None).

End with_regex.

End with_env.

End StreamSelection.
