(* ===== verification/StreamFacts.v ===== *)
(** * Precedence of stream routes

    What the stream fast path selects for a TCP, UDP or TLS listener: the first
    rule with the greatest SNI score among the rules of the routes attached to
    the listener that match its port and the server name and have an available
    backend; the mesh default only when there is no such rule. *)

From Stdlib Require Import ZArith Lia Ascii.
From stdpp Require Import base gmap strings numbers list.
From S2P Require Import Prelude Strs IrTypes Matching Scoring HostIndex EndpointRuntime Spread RouteIndex Decimal RuntimeIds Snapshot Resolution Demo Compiled Selection IndexedSelection Precedence StreamSelection.

Local Open Scope string_scope.
Local Open Scope list_scope.

Module StreamFacts.
Import Matching Scoring HostIndex EndpointRuntime Spread RouteIndex Decimal RuntimeIds Snapshots Resolution Compiled Selection IndexedSelection Precedence StreamSelection.

(** ** The routes attached to a listener *)

Definition keyed (n : nat) (routes : list StreamRoute) (key : string) : list nat :=
  omap (fun '(i, route) => if bool_decide (RouteIndex.stream_route_key route = key) then Some i else None)
    (imap (fun i route => (n + i, route)) routes).

Lemma keyed_cons n route routes key :
  keyed n (route :: routes) key
  = (if bool_decide (RouteIndex.stream_route_key route = key) then [n] else [])
    ++ keyed (S n) routes key.
Proof.
  unfold keyed. cbn [imap]. csimpl. rewrite Nat.add_0_r.
  replace (imap ((fun i route => (n + i, route)) ∘ S) routes)
    with (imap (fun i route => (S n + i, route)) routes)
    by (apply imap_ext; intros; simpl; f_equal; lia).
  by case_bool_decide.
Qed.

Lemma routes_by_name_keyed routes : forall n m key,
  default [] (stream_routes_by_name n routes m !! key) = default [] (m !! key) ++ keyed n routes key.
Proof.
  induction routes as [|route routes IH]; intros n m key; cbn [stream_routes_by_name].
  { by rewrite app_nil_r. }
  rewrite IH, keyed_cons. case_bool_decide as E.
  - subst. rewrite lookup_insert_eq. simpl. by rewrite <- app_assoc.
  - by rewrite lookup_insert_ne.
Qed.

(** The positions of the attached routes, in the order of the attachments. *)
Definition attached_stream_routes (routes : list StreamRoute) (listener : Listener) : list nat :=
  l_attached_routes listener ≫= keyed 0 routes.

Lemma stream_attached_keyed routes listener :
  stream_attached (stream_routes_by_name 0 routes ∅) listener
  = attached_stream_routes routes listener.
Proof.
  unfold stream_attached, attached_stream_routes.
  induction (l_attached_routes listener) as [|key keys IH]; csimpl; [done|].
  rewrite IH. f_equal. rewrite routes_by_name_keyed, lookup_empty. done.
Qed.

Lemma elem_of_attached routes listener i :
  i ∈ attached_stream_routes routes listener <->
  exists route, routes !! i = Some route /\ listener_attaches_route listener route = true.
Proof.
  unfold attached_stream_routes, listener_attaches_route. rewrite list_elem_of_bind. split.
  - intros (key & Hi & Hk). unfold keyed in Hi.
    apply list_elem_of_omap in Hi as ([j route] & [k Hj]%list_elem_of_lookup & Hi).
    rewrite list_lookup_imap in Hj. destruct (routes !! k) eqn:E; simplify_eq/=.
    case_bool_decide as Hr; simplify_eq. exists route. split; [done|]. apply existsb_exists.
    exists (RouteIndex.stream_route_key route). split; [by apply list_elem_of_In|].
    by apply bool_decide_eq_true.
  - intros (route & Hr & Ha). apply existsb_exists in Ha as (key & Hk & ->%bool_decide_eq_true).
    exists (RouteIndex.stream_route_key route). split; [|by apply list_elem_of_In].
    unfold keyed. apply list_elem_of_omap. exists (i, route).
    split; [|by rewrite bool_decide_eq_true_2].
    apply list_elem_of_lookup. exists i. by rewrite list_lookup_imap, Hr.
Qed.

(** With unique listener names the index of a listener has its routes. *)
Lemma stream_index_lookup listeners routes listener :
  NoDup (l_name <$> listeners) -> listener ∈ listeners ->
  default [] (build_stream_listener_route_index listeners routes !! l_name listener)
  = attached_stream_routes routes listener.
Proof.
  intros Hnd Hin. unfold build_stream_listener_route_index.
  set (f := fun index l => _).
  assert (Hother : forall ls m name, name ∉ l_name <$> ls -> foldl f m ls !! name = m !! name).
  { induction ls as [|l ls IH]; intros m name Hn; cbn [foldl]; [done|].
    rewrite fmap_cons, not_elem_of_cons in Hn. destruct Hn as [Hne Hn]. rewrite IH by done.
    subst f. simpl. destruct (stream_attached _ l); [done|]. by rewrite lookup_insert_ne. }
  enough (forall m, m !! l_name listener = None ->
    default [] (foldl f m listeners !! l_name listener) = attached_stream_routes routes listener)
    as Hg by (apply Hg, lookup_empty).
  induction listeners as [|l ls IH]; intros m Hm; [by apply not_elem_of_nil in Hin|].
  rewrite fmap_cons in Hnd. apply list.NoDup_cons in Hnd as [Hl Hnd]. cbn [foldl].
  apply elem_of_cons in Hin as [->|Hin].
  - rewrite Hother by done. subst f. simpl. rewrite stream_attached_keyed.
    destruct (attached_stream_routes routes l) eqn:E; [by rewrite Hm|]. by rewrite lookup_insert_eq.
  - apply IH; [done|done|]. subst f. simpl.
    destruct (stream_attached _ l); [done|]. rewrite lookup_insert_ne; [done|].
    intros He. apply Hl. rewrite He. by apply list_elem_of_fmap_2.
Qed.

(** ** Offers *)

Record StreamOffer := mkStreamOffer {
  so_route_index : nat;
  so_rule_index : nat;
  so_score : StreamMatchScore;
}.

Section with_env.
Context `{RegexEngine, KeyHasher, Clock, Libm}.

Definition stream_rule_offer (s : Snapshot) (runtime : EndpointRuntimeStore) (listener : Listener)
    (server_name : option string) (tls_mode : option TlsRouteMode) (route_index : nat)
    (item : nat * StreamRule) : list StreamOffer :=
  match best_stream_rule_match_with_tls_mode (sru_matches item.2) (l_port listener) server_name
          tls_mode with
  | Some score =>
    match candidates s runtime (sru_backend_refs item.2) with
    | [] => []
    | _ => [mkStreamOffer route_index item.1 score]
    end
  | None => []
  end.

Definition stream_route_offers (s : Snapshot) (runtime : EndpointRuntimeStore)
    (listener : Listener) (kind : RouteKind) (server_name : option string)
    (tls_mode : option TlsRouteMode) (route_index : nat) : list StreamOffer :=
  match sn_stream_routes s !! route_index with
  | Some route =>
    if bool_decide (stream_route_kind route = Some kind)
    then concat (stream_rule_offer s runtime listener server_name tls_mode route_index
                   <$> imap pair (sr_rules route))
    else []
  | None => []
  end.

Definition stream_offers (s : Snapshot) (runtime : EndpointRuntimeStore) (listener : Listener)
    (kind : RouteKind) (server_name : option string) (tls_mode : option TlsRouteMode) :
    list StreamOffer :=
  concat (stream_route_offers s runtime listener kind server_name tls_mode
            <$> attached_stream_routes (sn_stream_routes s) listener).

Definition stream_view (best : option StreamFastCandidate) : option StreamOffer :=
  (fun c => mkStreamOffer (sfc_route_index c) (sfc_rule_index c) (sfc_score c)) <$> best.

Definition stream_rule_ok (rule : StreamRule) : Prop :=
  refs_fit (sru_backend_refs rule) /\ Forall named_ref (sru_backend_refs rule).

Section rebuilt.
Context (s0 : Snapshot).
Notation s := (rebuild_runtime_indexes s0).
Context (Hnamed : named_backends (sn_backends s0)).

(** The compiled references are usable when the references have a candidate. *)
Lemma compiled_usable_candidates runtime refs :
  Forall named_ref refs ->
  match List.filter (compiled_usable runtime) (omap (compile_http_fast_backend_ref s) refs) with
  | [] => candidates s runtime refs = []
  | _ => candidates s runtime refs <> []
  end.
Proof.
  intros Hr. pose proof (compiled_candidates s0 runtime refs Hnamed Hr) as Hc. cbv zeta in Hc.
  destruct (List.filter _ _).
  - symmetry in Hc. by apply fmap_nil_inv in Hc.
  - intros E. by rewrite E in Hc.
Qed.

Lemma stream_fast_rules_offers runtime listener server_name tls_mode ri route rules :
  forall pre best w,
  sr_rules route = pre ++ rules -> Forall stream_rule_ok rules -> w_endpoint_runtime w = runtime ->
  exists best' w',
    stream_fast_rules s listener server_name tls_mode ri route
      (omap id (imap (fun i => compiled_stream_rule s (length pre + i)) rules)) best w
    = (Some best', w')
    /\ w_endpoint_runtime w' = runtime
    /\ stream_view best' = foldl (keep_first so_score) (stream_view best)
         (concat (stream_rule_offer s runtime listener server_name tls_mode ri
            <$> imap (fun i rule => (length pre + i, rule)) rules)).
Proof.
  induction rules as [|rule rules IH]; intros pre best w Hpre Hok Hw; [by exists best, w|].
  apply Forall_cons_1 in Hok as [[Hfit Hname] Hok]. cbn [imap].
  assert (Hlen : length (pre ++ [rule]) = S (length pre)) by (rewrite length_app; simpl; lia).
  assert (forall A (f : nat -> StreamRule -> A),
    imap ((fun i => f (length pre + i)) ∘ S) rules = imap (fun i => f (length (pre ++ [rule]) + i)) rules)
    as Himap by (intros; apply imap_ext; intros; simpl; f_equal; lia).
  rewrite (Himap _ (compiled_stream_rule s)), (Himap _ (fun i r => (i, r))), Nat.add_0_r.
  specialize (fun best w => IH (pre ++ [rule]) best w ltac:(by rewrite Hpre, <- app_assoc) Hok).
  rewrite fmap_cons. cbn [concat]. unfold stream_rule_offer at 1. cbn [fst snd].
  pose proof (compiled_usable_candidates runtime (sru_backend_refs rule) Hname) as Hcand.
  pose proof (compiled_refs_fit s0 (sru_backend_refs rule) Hfit) as Hcf.
  csimpl. unfold compiled_stream_rule at 1.
  destruct (omap (compile_http_fast_backend_ref s) (sru_backend_refs rule)) as [|c cs] eqn:Ec.
  { cbn [List.filter] in Hcand. rewrite Hcand. simpl id. cbv iota.
    destruct (best_stream_rule_match_with_tls_mode _ _ _ _); by apply IH. }
  simpl id. cbv iota. cbn [stream_fast_rules csr_rule_index csr_backend_refs].
  rewrite Hpre, list_lookup_middle by done.
  destruct (best_stream_rule_match_with_tls_mode _ _ _ _) as [score|]; [|by apply IH].
  rewrite foldl_app.
  destruct (match best with Some c => cmp_le score (sfc_score c) | None => false end) eqn:Ele.
  { destruct (IH best w Hw) as (best' & w' & Hr & Hrt & Hv). exists best', w'.
    split_and!; [done|done|]. rewrite Hv. f_equal. destruct best as [d|]; [|done].
    destruct (candidates _ _ _); simpl; [done|]. by rewrite Ele. }
  pose proof (select_compiled_spec s (c :: cs) w Hcf) as Hsel. cbv zeta in Hsel. rewrite Hw in Hsel.
  destruct (List.filter (compiled_usable runtime) (c :: cs)) as [|u us].
  - rewrite Hsel, Hcand. by apply IH.
  - destruct Hsel as (d & cl & sel & w' & -> & _ & _ & _ & _ & Hrt & _).
    destruct (IH (Some (mkStreamFastCandidate ri (length pre)
      (cfs_endpoint sel, cfs_backend_name sel) score)) w' Hrt) as (best' & w'' & Hr & Hrt' & Hv).
    exists best', w''. split_and!; [done|done|]. rewrite Hv. f_equal.
    destruct (candidates _ _ _); [done|]. destruct best as [d'|]; simpl in *; [|done]. by rewrite Ele.
Qed.

Context (Hrules : Forall (fun route => Forall stream_rule_ok (sr_rules route)) (sn_stream_routes s0)).

Lemma stream_fast_routes_offers runtime listener kind server_name tls_mode indices : forall best w,
  Forall (fun i => is_Some (sn_stream_routes s0 !! i)) indices -> w_endpoint_runtime w = runtime ->
  exists best' w',
    stream_fast_routes (ix_stream_fast_path (sn_indexes s)) s listener kind server_name tls_mode
      indices best w = (Some best', w')
    /\ w_endpoint_runtime w' = runtime
    /\ stream_view best' = foldl (keep_first so_score) (stream_view best)
         (concat (stream_route_offers s runtime listener kind server_name tls_mode <$> indices)).
Proof.
  induction indices as [|i indices IH]; intros best w Hin Hw; [by exists best, w|].
  apply Forall_cons_1 in Hin as [[route Hr] Hin]. cbn [stream_fast_routes]. rewrite fmap_cons.
  cbn [concat]. rewrite foldl_app. unfold stream_route_offers at 1.
  change (sn_stream_routes s) with (sn_stream_routes s0). rewrite Hr.
  case_bool_decide as Hk; cbn [negb]; [|by apply IH].
  change (sfp_routes (ix_stream_fast_path (sn_indexes s)))
    with (compiled_stream_route s <$> sn_stream_routes s0).
  rewrite list_lookup_fmap, Hr. simpl. unfold compiled_stream_route.
  pose proof (Forall_lookup_1 _ _ _ _ Hrules Hr) as Hok. simpl in Hok.
  destruct (stream_fast_rules_offers runtime listener server_name tls_mode i route (sr_rules route)
    [] best w eq_refl Hok Hw) as (best' & w' & Hf & Hrt & Hv).
  simpl length in Hf, Hv. change (imap _ (sr_rules route)) with (imap pair (sr_rules route)) in Hv.
  change (omap id _) with (compiled_stream_rules s route) in Hf.
  destruct (compiled_stream_rules s route) as [|c cs] eqn:Ec.
  - cbn [stream_fast_rules] in Hf. simplify_eq. rewrite <- Hv. by apply IH.
  - cbn [cso_rules]. rewrite Hf. rewrite <- Hv. by apply IH.
Qed.

(** What the plan selects. *)
Lemma stream_plan_select_offer listener kind server_name tls_mode w :
  NoDup (l_name <$> sn_listeners s0) -> listener ∈ sn_listeners s0 ->
  let offers := stream_offers s (w_endpoint_runtime w) listener kind server_name tls_mode in
  exists r w', StreamFastPathPlan_select (ix_stream_fast_path (sn_indexes s)) s listener kind
      server_name tls_mode w = (r, w')
    /\ w_endpoint_runtime w' = w_endpoint_runtime w
    /\ match r with
       | Some r => exists o route, first_best so_score offers o
           /\ sn_stream_routes s !! so_route_index o = Some route
           /\ sb_route_namespace r = sr_namespace route /\ sb_route_name r = sr_name route
           /\ sb_rule_index r = Some (so_rule_index o) /\ sb_listener_name r = l_name listener
       | None => offers = []
       end.
Proof.
  intros Hnd Hin offers. pose proof (stream_index_lookup _ (sn_stream_routes s0) _ Hnd Hin) as Hix.
  unfold StreamFastPathPlan_select.
  change (ix_stream_listener_route_index (sn_indexes s))
    with (build_stream_listener_route_index (sn_listeners s0) (sn_stream_routes s0)).
  assert (Hall : Forall (fun i => is_Some (sn_stream_routes s0 !! i))
    (attached_stream_routes (sn_stream_routes s0) listener)).
  { apply list.Forall_forall. intros i (route & Hr & _)%elem_of_attached. eauto. }
  destruct (_ !! l_name listener) as [indices|].
  2: { exists None, w. split_and!; [done|done|]. subst offers. unfold stream_offers.
    change (sn_stream_routes s) with (sn_stream_routes s0). by rewrite <- Hix. }
  simpl in Hix. subst indices.
  destruct (stream_fast_routes_offers (w_endpoint_runtime w) listener kind server_name tls_mode
    _ None w Hall eq_refl) as (best & w' & -> & Hrt & Hv).
  change (concat _) with offers in Hv. pose proof (keep_first_spec so_score offers) as Hk.
  simpl in Hv. rewrite <- Hv in Hk. destruct best as [c|]; cbn [mjoin option_join] in *; simpl in *.
  2: { by exists None, w'. }
  assert (is_Some (sn_stream_routes s0 !! sfc_route_index c)) as [route Hr].
  { destruct Hk as (l1 & l2 & Hk & _).
    assert (mkStreamOffer (sfc_route_index c) (sfc_rule_index c) (sfc_score c) ∈ offers) as Ho
      by (rewrite Hk; set_solver).
    apply list_elem_of_In, in_concat in Ho as (x & Hx & Ho).
    apply list_elem_of_In, list_elem_of_fmap in Hx as (i & -> & Hi).
    unfold stream_route_offers in Ho. change (sn_stream_routes s) with (sn_stream_routes s0) in Ho.
    destruct (sn_stream_routes s0 !! i) as [route|] eqn:Er; [|done].
    case_bool_decide; [|done]. apply in_concat in Ho as (y & Hy & Ho).
    apply list_elem_of_In, list_elem_of_fmap in Hy as (item & -> & _).
    unfold stream_rule_offer in Ho. repeat case_match; try done.
    destruct Ho as [[= <- _ _]|[]]. eauto. }
  rewrite Hr. eexists _, w'. split_and!; [done|done|]. eexists _, route. split_and!; [exact Hk|done..].
Qed.


End rebuilt.

End with_env.

(** ** Witness *)

Definition demo_db : Listener := mkListener "db" "0.0.0.0" [] 5432 "TCP" [] ["default/db"] None None ∅.


End StreamFacts.
