(* ===== verification/HttpFastPath.v ===== *)
(** * The HTTP fast path

    [HttpFastPathPlan::select] of [ntgw-ir/src/http_fast_path.rs]: selection on
    the compiled plan, for configurations whose rules need no headers, query
    parameters, filters, timeouts, retries or sessions.  The file FastPathAgreement
    relates it to [select_http_route]. *)

From Stdlib Require Import ZArith Lia Ascii.
From stdpp Require Import base gmap strings numbers list.
From S2P Require Import Prelude Strs IrTypes Matching Scoring HostIndex EndpointRuntime Spread RouteIndex RuntimeIds Snapshot Resolution Demo Selection IndexedSelection Precedence.

Local Open Scope string_scope.
Local Open Scope list_scope.

Module HttpFastPath.
Import Matching Scoring HostIndex EndpointRuntime Spread RouteIndex RuntimeIds Snapshots Resolution Selection IndexedSelection Precedence.

Record HttpFastPathRequest := mkHttpFastPathRequest {
  fpr_host : option string;
  fpr_port : Z;
  fpr_path : string;
  fpr_method : string;
  fpr_is_grpc : bool;
}.

Record CompiledSelectedHttpBackend := mkCompiledSelectedHttpBackend {
  csb_route_kind : RouteKind;
  csb_route_name : string;
  csb_route_namespace : string;
  csb_rule_index : option nat;
  csb_route_annotations : StringMap string;
  csb_listener_name : string;
  csb_listener_protocol : string;
  csb_backend : BackendEndpoint;
  csb_backend_name : string;
  csb_matched_http_path : MatchedHttpPath;
  csb_runtime_ids : SelectedBackendRuntimeIds;
}.

Record FastHostnameScore := mkFastHostnameScore { fhs_rank : Z; fhs_length : nat }.
Definition FastHostnameScore_default : FastHostnameScore := mkFastHostnameScore 0 0.
Definition FastHostnameScore_key (s : FastHostnameScore) : Z * nat := (fhs_rank s, fhs_length s).
#[global] Instance FastHostnameScore_ord : RustOrd FastHostnameScore :=
  fun x y => cmp (FastHostnameScore_key x) (FastHostnameScore_key y).

Definition FastHttpRuleScore_default : FastHttpRuleScore := mkFastHttpRuleScore 0 0 false.
Definition FastHttpRuleScore_key (s : FastHttpRuleScore) : Z * (nat * bool) :=
  (frs_path_rank s, (frs_path_length s, frs_method_specified s)).
#[global] Instance FastHttpRuleScore_ord : RustOrd FastHttpRuleScore :=
  fun x y => cmp (FastHttpRuleScore_key x) (FastHttpRuleScore_key y).

Record FastCandidateScore := mkFastCandidateScore {
  fcs_listener_host : FastHostnameScore;
  fcs_route_host : FastHostnameScore;
  fcs_rule : FastHttpRuleScore;
}.
Definition FastCandidateScore_key (s : FastCandidateScore) :
    FastHostnameScore * (FastHostnameScore * FastHttpRuleScore) :=
  (fcs_listener_host s, (fcs_route_host s, fcs_rule s)).
#[global] Instance FastCandidateScore_ord : RustOrd FastCandidateScore :=
  fun x y => cmp (FastCandidateScore_key x) (FastCandidateScore_key y).

Record FastMatchedListener := mkFastMatchedListener {
  fml_listener_index : nat;
  fml_host_score : FastHostnameScore;
}.

(** The first match apart from the others. *)
Record FastCandidateListeners := mkFastCandidateListeners {
  fcl_first : option FastMatchedListener;
  fcl_additional : list FastMatchedListener;
  fcl_enforce_attachments : bool;
}.

Definition clear_matches (self : FastCandidateListeners) : FastCandidateListeners :=
  mkFastCandidateListeners None [] (fcl_enforce_attachments self).

Definition push_match (self : FastCandidateListeners) (matched : FastMatchedListener) :
    FastCandidateListeners :=
  match fcl_first self with
  | Some _ =>
    mkFastCandidateListeners (fcl_first self) (fcl_additional self ++ [matched])
      (fcl_enforce_attachments self)
  | None =>
    mkFastCandidateListeners (Some matched) (fcl_additional self) (fcl_enforce_attachments self)
  end.

Definition iter_matches (self : FastCandidateListeners) : list FastMatchedListener :=
  option_list (fcl_first self) ++ fcl_additional self.

(** ** Matching *)

Definition fast_matches_path_prefix (prefix path : string) : bool :=
  if bool_decide (prefix = "/") || bool_decide (path = prefix) then true
  else if Str.ends_with "/" prefix then Str.starts_with prefix path
  else
    Str.starts_with prefix path
    && match Str.byte_at (String.length prefix) path with
       | Some item => bool_decide (item = "/"%char)
       | None => false
       end.

Definition request_path_without_query (path : string) : string :=
  match Str.split_once "?"%char path with Some (path, _) => path | None => path end.

Definition fast_hostname_score (pattern request_host : string) : option FastHostnameScore :=
  let request_host := normalize_host_ref request_host in
  match Str.strip_prefix "*." pattern with
  | Some suffix =>
    let suffix := normalize_host_ref suffix in
    if hostname_matches pattern request_host
    then Some (mkFastHostnameScore 1 (String.length suffix)) else None
  | None =>
    let normalized := normalize_host_ref pattern in
    if bool_decide (normalized = request_host)
    then Some (mkFastHostnameScore 2 (String.length normalized)) else None
  end.

Definition fast_best_hostname_score (hostnames : list string) (request_host : option string) :
    option FastHostnameScore :=
  match hostnames with
  | [] => Some FastHostnameScore_default
  | _ =>
    request_host ← request_host;
    iter_max (omap (fun hostname => fast_hostname_score hostname request_host) hostnames)
  end.

(** ** Listeners *)

Definition visit_fast_candidate_listeners {St} (snapshot : Snapshot) (request_port : Z)
    (visit : nat -> Listener -> St -> St) (s : St) : St :=
  if negb (sn_ready snapshot) || bool_decide (request_port = 0%Z) then
    foldl (fun s '(listener_index, listener) =>
      if is_http_listener (l_protocol listener)
         && (bool_decide (request_port = 0%Z) || bool_decide (l_port listener = request_port))
      then visit listener_index listener s else s) s (imap pair (sn_listeners snapshot))
  else
    match li_http_listener_port_index (ix_listeners (sn_indexes snapshot)) !! request_port with
    | None => s
    | Some indices =>
      foldl (fun s listener_index =>
        match sn_listeners snapshot !! listener_index with
        | Some listener => visit listener_index listener s
        | None => s
        end) s indices
    end.

Definition fast_match_listener (request_host : option string) (listener_index : nat)
    (listener : Listener) (s : bool * option FastHostnameScore * FastCandidateListeners) :
    bool * option FastHostnameScore * FastCandidateListeners :=
  let '(_, best_score, listeners) := s in
  match fast_best_hostname_score (l_hostnames listener) request_host with
  | None => (true, best_score, listeners)
  | Some host_score =>
    let matched := mkFastMatchedListener listener_index host_score in
    match best_score with
    | Some score =>
      if cmp_lt host_score score then (true, best_score, listeners)
      else if equal_scores host_score score then (true, best_score, push_match listeners matched)
      else (true, Some host_score, push_match (clear_matches listeners) matched)
    | None => (true, Some host_score, push_match (clear_matches listeners) matched)
    end
  end.

Definition fast_matched_listeners (snapshot : Snapshot) (request_host : option string)
    (request_port : Z) : FastCandidateListeners :=
  let '(saw_candidate_listener, _, listeners) :=
    visit_fast_candidate_listeners snapshot request_port (fast_match_listener request_host)
      (false, None, mkFastCandidateListeners None [] false) in
  mkFastCandidateListeners (fcl_first listeners) (fcl_additional listeners)
    saw_candidate_listener.

Definition attached_route_matches (attached route_namespace route_name : string) : bool :=
  match Str.split_once "/"%char attached with
  | Some (namespace, name) =>
    bool_decide (namespace = route_namespace) && bool_decide (name = route_name)
  | None => false
  end.

Definition fast_route_listener_match (snapshot : Snapshot) (listeners : FastCandidateListeners)
    (route_namespace route_name : string) : option FastMatchedListener :=
  if negb (fcl_enforce_attachments listeners) then None
  else if sn_ready snapshot then
    attached_listener_indices ←
      listeners_for_route (ix_route_attachment_listener_index (sn_indexes snapshot))
        route_namespace route_name;
    iter_max_by fml_host_score
      (List.filter (fun listener_match =>
         is_inl (binary_search attached_listener_indices (fml_listener_index listener_match)))
         (iter_matches listeners))
  else
    iter_max_by fml_host_score
      (List.filter (fun listener_match =>
         match sn_listeners snapshot !! fml_listener_index listener_match with
         | Some listener =>
           existsb (fun attached => attached_route_matches attached route_namespace route_name)
             (l_attached_routes listener)
         | None => false
         end) (iter_matches listeners)).

(** ** Selection *)

Record FastCandidate := mkFastCandidate {
  fc_route_name : string;
  fc_route_namespace : string;
  fc_rule_index : nat;
  fc_route_annotations : StringMap string;
  fc_listener_name : string;
  fc_listener_protocol : string;
  fc_matched_http_path : MatchedHttpPath;
  fc_selected : CompiledHttpFastBackendSelection;
  fc_runtime_ids : SelectedBackendRuntimeIds;
  fc_score : FastCandidateScore;
}.

Section with_env.
Context `{RegexEngine, KeyHasher, Clock, Libm}.

Definition fast_matches_http_path (matcher : CompiledHttpFastMatch) (request_path : string) :
    bool :=
  if Str.is_empty (cfm_path matcher) then true
  else if bool_decide (cfm_path_type matcher = "Exact") then
    bool_decide (request_path = cfm_path matcher)
  else if bool_decide (cfm_path_type matcher = "RegularExpression") then
    match cfm_compiled_path_regex matcher with
    | Some regex => regex_is_match (re_pattern regex) request_path
    | None => false
    end
  else fast_matches_path_prefix (cfm_path matcher) request_path.

Definition fast_matches_http_rule (matcher : CompiledHttpFastMatch)
    (request_path request_method : string) : bool :=
  fast_matches_http_path matcher request_path
  && (Str.is_empty (cfm_method matcher)
      || Str.eq_ignore_ascii_case (cfm_method matcher) request_method).

Definition fast_best_http_rule_match (rule : CompiledHttpFastRule)
    (request_path request_method : string) : option (MatchedHttpPath * FastHttpRuleScore) :=
  match cfr_matches rule with
  | [] => Some (cfr_default_matched_http_path rule, FastHttpRuleScore_default)
  | matches =>
    iter_max_by snd
      ((fun matcher => (cfm_matched_http_path matcher, cfm_score matcher))
         <$> List.filter (fun matcher => fast_matches_http_rule matcher request_path request_method)
               matches)
  end.

(** [true] is [Some(())], the visit goes on; [false] is [None], it is given up. *)
Definition fast_visit_routes {St} (self : HttpFastPathPlan) (snapshot : Snapshot)
    (request_host : option string) (visit : CompiledHttpFastRoute -> St -> St * bool) (s : St) :
    St * bool :=
  if negb (sn_ready snapshot) then visit_list visit (hfp_routes self) s
  else
    visit_candidate_indices (ix_http_route_hostname_index (sn_indexes snapshot)) request_host
      (fun route_index s =>
         match mjoin (hfp_route_plan_indices self !! route_index) with
         | None => (s, true)
         | Some route_plan_index =>
           match hfp_routes self !! route_plan_index with
           | None => (s, true)
           | Some compiled_route => visit compiled_route s
           end
         end) s.

Definition fast_score (listener_match : option FastMatchedListener)
    (route_host_score : FastHostnameScore) (rule_score : FastHttpRuleScore) : FastCandidateScore :=
  mkFastCandidateScore
    (default FastHostnameScore_default (fml_host_score <$> listener_match))
    route_host_score rule_score.

Definition fast_candidate (compiled_route : CompiledHttpFastRoute)
    (compiled_rule : CompiledHttpFastRule) (listener_info : option CompiledHttpFastListener)
    (matched_http_path : MatchedHttpPath) (selected : CompiledHttpFastBackendSelection)
    (score : FastCandidateScore) : FastCandidate :=
  {| fc_route_name := cfo_route_name compiled_route;
     fc_route_namespace := cfo_route_namespace compiled_route;
     fc_rule_index := cfr_rule_index compiled_rule;
     fc_route_annotations := cfo_route_annotations compiled_route;
     fc_listener_name := default "" (cfl_name <$> listener_info);
     fc_listener_protocol := default "" (cfl_protocol <$> listener_info);
     fc_matched_http_path := matched_http_path;
     fc_selected := selected;
     fc_runtime_ids :=
       {| sri_listener := listener_info ≫= cfl_runtime_id;
          sri_route := sri_route (cfr_runtime_ids compiled_rule);
          sri_rule := sri_rule (cfr_runtime_ids compiled_rule);
          sri_backend := cfs_backend_runtime_id selected;
          sri_endpoint := cfs_endpoint_runtime_id selected |};
     fc_score := score |}.

Definition listener_info_of (self : HttpFastPathPlan) (listener_match : option FastMatchedListener) :
    option (option CompiledHttpFastListener) :=
  match listener_match with
  | Some listener_match =>
    Some <$> hfp_listeners self !! fml_listener_index listener_match
  | None => Some None
  end.

Fixpoint fast_rules (self : HttpFastPathPlan) (snapshot : Snapshot)
    (request_path request_method : string) (compiled_route : CompiledHttpFastRoute)
    (listener_match : option FastMatchedListener) (route_host_score : FastHostnameScore)
    (rules : list CompiledHttpFastRule) (s : option FastCandidate * World) :
    (option FastCandidate * World) * bool :=
  match rules with
  | [] => (s, true)
  | compiled_rule :: rules =>
    let continue :=
      fast_rules self snapshot request_path request_method compiled_route listener_match
        route_host_score rules in
    match fast_best_http_rule_match compiled_rule request_path request_method with
    | None => continue s
    | Some (matched_http_path, rule_score) =>
      let score := fast_score listener_match route_host_score rule_score in
      if match s.1 with Some current => cmp_le score (fc_score current) | None => false end
      then continue s
      else
        match listener_info_of self listener_match with
        | None => (s, false)
        | Some listener_info =>
          if match listener_info with Some l => cfl_has_backend_tls l | None => false end
          then (s, false)
          else
            let '(selected, w) :=
              select_compiled_http_fast_backend snapshot (cfr_backend_refs compiled_rule) s.2 in
            match selected with
            | None => ((s.1, w), false)
            | Some selected =>
              continue (Some (fast_candidate compiled_route compiled_rule listener_info
                matched_http_path selected score), w)
            end
        end
    end
  end.

Definition fast_route_visitor (self : HttpFastPathPlan) (snapshot : Snapshot)
    (request_host : option string) (request_path request_method : string)
    (listeners : FastCandidateListeners) (compiled_route : CompiledHttpFastRoute)
    (s : option FastCandidate * World) : (option FastCandidate * World) * bool :=
  match sn_http_routes snapshot !! cfo_route_index compiled_route with
  | None => (s, false)
  | Some route =>
    let listener_match :=
      fast_route_listener_match snapshot listeners (hr_namespace route) (hr_name route) in
    if fcl_enforce_attachments listeners && negb (bool_decide (is_Some listener_match))
    then (s, true)
    else
      let go_on :=
        match fast_best_hostname_score (hr_hostnames route) request_host with
        | None => (s, true)
        | Some route_host_score =>
          fast_rules self snapshot request_path request_method compiled_route listener_match
            route_host_score (cfo_eligible_rules compiled_route) s
        end in
      match listener_match with
      | None => go_on
      | Some listener_match =>
        match sn_listeners snapshot !! fml_listener_index listener_match with
        | None => (s, false)
        | Some listener =>
          if negb (route_accepts_service_frontend snapshot (hr_parent_refs route)
                     (hr_namespace route) listener)
          then (s, true) else go_on
        end
      end
  end.

Definition fast_selected (candidate : FastCandidate) : CompiledSelectedHttpBackend :=
  {| csb_route_kind := KindHttp;
     csb_route_name := fc_route_name candidate;
     csb_route_namespace := fc_route_namespace candidate;
     csb_rule_index := Some (fc_rule_index candidate);
     csb_route_annotations := fc_route_annotations candidate;
     csb_listener_name := fc_listener_name candidate;
     csb_listener_protocol := fc_listener_protocol candidate;
     csb_backend := cfs_endpoint (fc_selected candidate);
     csb_backend_name := cfs_backend_name (fc_selected candidate);
     csb_matched_http_path := fc_matched_http_path candidate;
     csb_runtime_ids := fc_runtime_ids candidate |}.

Definition HttpFastPathPlan_select (self : HttpFastPathPlan) (snapshot : Snapshot)
    (request : HttpFastPathRequest) : M (option CompiledSelectedHttpBackend) := fun w =>
  let hints := ix_request_materialization (sn_indexes snapshot) in
  if negb (hfp_selection_safe self) || fpr_is_grpc request || requires_full_headers hints
     || rmh_source_ip hints
  then (None, w)
  else
    let request_path := request_path_without_query (fpr_path request) in
    let request_host := normalize_host_ref <$> fpr_host request in
    let listeners := fast_matched_listeners snapshot request_host (fpr_port request) in
    let '((best, w), completed) :=
      fast_visit_routes self snapshot request_host
        (fast_route_visitor self snapshot request_host request_path (fpr_method request) listeners)
        (None, w) in
    if completed then (fast_selected <$> best, w) else (None, w).

Definition select_http_fast_path (self : Snapshot) (request : HttpFastPathRequest) :
    M (option CompiledSelectedHttpBackend) :=
  HttpFastPathPlan_select (ix_http_fast_path (sn_indexes self)) self request.

End with_env.

End HttpFastPath.
