(* ===== verification/FastPathAgreement.v ===== *)
(** * The HTTP fast path agrees with route selection

    A simulation between [HttpFastPathPlan::select] and [select_http_route]: the
    scores, the matched listeners, the admitted routes and the matched rules of
    the two are the same, so that a selection of the fast path is the first best
    offer of [Precedence]. *)

From Stdlib Require Import ZArith Lia Ascii.
From stdpp Require Import base gmap strings numbers list.
From S2P Require Import Prelude Strs IrTypes Matching Scoring HostIndex EndpointRuntime Spread RouteIndex RuntimeIds Snapshot Resolution Demo Selection IndexedSelection Precedence HttpFastPath.

Local Open Scope string_scope.
Local Open Scope list_scope.

Module FastPathAgreement.
Import Matching Scoring HostIndex EndpointRuntime Spread RouteIndex RuntimeIds Snapshots Resolution Selection IndexedSelection Precedence HttpFastPath.

(** ** Scores *)

Definition slow_host (s : FastHostnameScore) : HostnameScore :=
  mkHostnameScore (fhs_rank s) (fhs_length s).
Definition slow_rule (s : FastHttpRuleScore) : HttpRuleScore :=
  mkHttpRuleScore (frs_path_rank s) (frs_path_length s) (frs_method_specified s) 0 0.
Definition slow_score (s : FastCandidateScore) : HttpCandidateScore :=
  mkHttpCandidateScore (slow_host (fcs_listener_host s)) (slow_host (fcs_route_host s))
    (slow_rule (fcs_rule s)).

Lemma slow_host_cmp x y : cmp (slow_host x) (slow_host y) = cmp x y.
Proof. done. Qed.

Lemma slow_rule_cmp x y : cmp (slow_rule x) (slow_rule y) = cmp x y.
Proof.
  unfold cmp, HttpRuleScore_ord, FastHttpRuleScore_ord, HttpRuleScore_key, FastHttpRuleScore_key.
  destruct x as [r1 l1 m1], y as [r2 l2 m2]; simpl. rewrite !cmp_pair.
  by destruct (cmp r1 r2), (cmp l1 l2), (cmp m1 m2).
Qed.

Lemma slow_score_cmp x y : cmp (slow_score x) (slow_score y) = cmp x y.
Proof.
  unfold cmp, HttpCandidateScore_ord, FastCandidateScore_ord, HttpCandidateScore_key,
    FastCandidateScore_key.
  destruct x as [a1 b1 c1], y as [a2 b2 c2]; simpl. rewrite !cmp_pair.
  by rewrite !slow_host_cmp, slow_rule_cmp.
Qed.

Lemma slow_score_le x y : cmp_le (slow_score x) (slow_score y) = cmp_le x y.
Proof. unfold cmp_le. by rewrite slow_score_cmp. Qed.

(** The greatest score of a mapped list is the mapped greatest score. *)
Lemma iter_max_slow {A B K L} `{RustOrd K, RustOrd L} (f : A -> B) (kb : B -> L) (ka : A -> K) l :
  (forall x y, cmp (kb (f x)) (kb (f y)) = cmp (ka x) (ka y)) ->
  iter_max_by kb (f <$> l) = f <$> iter_max_by ka l.
Proof.
  intros Hk. rewrite iter_max_by_fmap. f_equal. by apply iter_max_by_ext.
Qed.

Lemma fast_hostname_score_slow pattern host :
  hostname_match_score pattern host = slow_host <$> fast_hostname_score pattern host.
Proof.
  unfold hostname_match_score, fast_hostname_score.
  destruct (Str.strip_prefix "*." pattern); [by destruct (hostname_matches _ _)|].
  by case_bool_decide.
Qed.

Lemma fast_hostname_scores_slow host (l : list string) :
  omap (fun hostname => hostname_match_score hostname host) l
  = slow_host <$> omap (fun hostname => fast_hostname_score hostname host) l.
Proof.
  induction l as [|x l IH]; csimpl; [done|].
  rewrite fast_hostname_score_slow, IH. by destruct (fast_hostname_score x host).
Qed.

Lemma fast_best_hostname_score_slow hostnames host :
  best_hostname_score hostnames host = slow_host <$> fast_best_hostname_score hostnames host.
Proof.
  unfold best_hostname_score, fast_best_hostname_score. destruct hostnames as [|h hs]; [done|].
  destruct host as [host|]; [|done]. unfold mbind, option_bind, iter_max.
  rewrite fast_hostname_scores_slow. by apply iter_max_slow.
Qed.

(** ** Listeners *)

Definition fast_listener (m : MatchedListener) : nat * HostnameScore :=
  (ml_listener_index m, ml_host_score m).
Definition slow_listener (m : FastMatchedListener) : nat * HostnameScore :=
  (fml_listener_index m, slow_host (fml_host_score m)).

Lemma iter_push listeners m :
  (fcl_first listeners = None -> fcl_additional listeners = []) ->
  iter_matches (push_match listeners m) = iter_matches listeners ++ [m]
  /\ (fcl_first (push_match listeners m) = None -> fcl_additional (push_match listeners m) = []).
Proof.
  unfold push_match, iter_matches. destruct listeners as [[f|] add e]; simpl; [done|].
  intros ->; done.
Qed.

Definition listeners_sim (s : bool * option HostnameScore * list MatchedListener)
    (f : bool * option FastHostnameScore * FastCandidateListeners) : Prop :=
  s.1.1 = f.1.1 /\ s.1.2 = slow_host <$> f.1.2
  /\ fast_listener <$> s.2 = slow_listener <$> iter_matches f.2
  /\ (fcl_first f.2 = None -> fcl_additional f.2 = []).

Lemma match_listener_sim host i l s f :
  listeners_sim s f -> listeners_sim (match_listener host i l s) (fast_match_listener host i l f).
Proof.
  destruct s as [[saw best] ms], f as [[saw' best'] fl]. intros (Hs & Hb & Hm & Hi). simpl in *. subst.
  unfold match_listener, fast_match_listener.
  assert (listener_hostname_score l host = slow_host <$> fast_best_hostname_score (l_hostnames l) host)
    as ->.
  { unfold listener_hostname_score. rewrite fast_best_hostname_score_slow.
    by destruct (l_hostnames l). }
  destruct (fast_best_hostname_score _ _) as [sc|]; simpl; [|done].
  destruct best' as [b|]; simpl.
  - change (cmp_lt (slow_host sc) (slow_host b)) with (cmp_lt sc b).
    change (equal_scores (slow_host sc) (slow_host b)) with (equal_scores sc b).
    destruct (cmp_lt sc b); [done|]. destruct (equal_scores sc b).
    + destruct (iter_push fl (mkFastMatchedListener i sc) Hi) as [Hq Hqi].
      split_and!; [done|done| |done]. cbn [snd]. by rewrite Hq, !fmap_app, Hm.
    + done.
  - done.
Qed.

Lemma foldl_lookup {A St} (l : list A) (visit : nat -> A -> St -> St) (indices : list nat) : forall s,
  foldl (fun s i => match l !! i with Some x => visit i x s | None => s end) s indices
  = foldl (fun s '(i, x) => visit i x s) s (omap (fun i => (fun x => (i, x)) <$> l !! i) indices).
Proof.
  induction indices as [|i indices IH]; intros s; csimpl; [done|].
  rewrite IH. by destruct (l !! i).
Qed.

(** Visitors that keep a relation keep it through the enumeration. *)
Lemma visit_listeners_sim {St Tt} (R : St -> Tt -> Prop) s port
    (f : nat -> Listener -> St -> St) (g : nat -> Listener -> Tt -> Tt) st tt :
  R st tt -> (forall i l st tt, R st tt -> R (f i l st) (g i l tt)) ->
  R (visit_candidate_listeners s port ListenerHttp f st)
    (visit_candidate_listeners s port ListenerHttp g tt).
Proof.
  intros HR Hfg. unfold visit_candidate_listeners. destruct (negb (sn_ready s));
    (apply foldl_sim; [done|]; intros st' tt' [i l] _ Hst); [|by apply Hfg].
  destruct (negb _); [done|]. destruct (_ && _); [done|]. by apply Hfg.
Qed.

Section with_regex.
Context `{RegexEngine}.

(** The two enumerations of the candidate listeners visit the same ones. *)
Lemma visit_fast_listeners {St} s0 port (visit : nat -> Listener -> St -> St) st :
  let s := rebuild_runtime_indexes s0 in
  visit_fast_candidate_listeners s port visit st
  = visit_candidate_listeners s port ListenerHttp visit st.
Proof.
  intros s. unfold visit_fast_candidate_listeners. simpl. case_bool_decide as Hp.
  - subst s. rewrite visit_candidate_listeners_scan. unfold visit_candidate_listeners; simpl.
    apply foldl_ext. intros st' [i l] _. subst port. rewrite !bool_decide_eq_true_2 by done.
    simpl. rewrite andb_true_r. by destruct (is_http_listener (l_protocol l)).
  - unfold visit_candidate_listeners; simpl. rewrite bool_decide_eq_false_2 by done.
    destruct (_ !! port) as [indices|]; [|done]. apply foldl_lookup.
Qed.

Lemma fast_matched_listeners_sim s0 host port :
  let s := rebuild_runtime_indexes s0 in
  let slow := matched_listeners s host port ListenerHttp in
  let fast := fast_matched_listeners s host port in
  cl_enforce_attachments slow = fcl_enforce_attachments fast
  /\ fast_listener <$> cl_listeners slow = slow_listener <$> iter_matches fast.
Proof.
  intros s slow fast. subst slow fast. unfold matched_listeners, fast_matched_listeners.
  subst s. rewrite visit_fast_listeners.
  pose proof (visit_listeners_sim listeners_sim (rebuild_runtime_indexes s0) port
    (match_listener host) (fast_match_listener host) (false, None, [])
    (false, None, mkFastCandidateListeners None [] false)
    ltac:(done) (match_listener_sim host)) as Hs.
  destruct (visit_candidate_listeners _ _ _ (match_listener host) _) as [[saw best] ms],
    (visit_candidate_listeners _ _ _ _ _) as [[saw' best'] fl].
  destruct Hs as (Hsaw & _ & Hm & _). simpl in *. done.
Qed.

Lemma filter_fmap_pred {A B} (f : A -> B) (p : A -> bool) (q : B -> bool) l :
  (forall x, p x = q (f x)) -> f <$> List.filter p l = List.filter q (f <$> l).
Proof.
  intros Hp. induction l as [|x l IH]; csimpl; [done|]. rewrite Hp.
  destruct (q (f x)); csimpl; by rewrite IH.
Qed.

(** The listener a route is matched through. *)
Lemma fast_route_listener_sim s0 slow fast namespace name :
  let s := rebuild_runtime_indexes s0 in
  cl_enforce_attachments slow = fcl_enforce_attachments fast ->
  fast_listener <$> cl_listeners slow = slow_listener <$> iter_matches fast ->
  fast_listener <$> route_listener_match s slow namespace name
  = slow_listener <$> fast_route_listener_match s fast namespace name.
Proof.
  intros s He Hm. unfold route_listener_match, fast_route_listener_match. rewrite He.
  destruct (fcl_enforce_attachments fast); [|done]. cbn [negb]. simpl.
  unfold contains_listener.
  destruct (listeners_for_route _ namespace name) as [l|]; simpl.
  2: { clear. induction (cl_listeners slow); simpl; [done|exact IHl]. }
  rewrite <- (iter_max_slow fast_listener snd ml_host_score) by done.
  rewrite <- (iter_max_slow slow_listener snd fml_host_score) by done. f_equal.
  rewrite (filter_fmap_pred fast_listener _ (fun p => is_inl (binary_search l p.1))) by done.
  rewrite (filter_fmap_pred slow_listener _ (fun p => is_inl (binary_search l p.1))) by done.
  by rewrite Hm.
Qed.

(** ** Rules *)

Definition compiled_match (m : HttpMatch) : Prop :=
  hm_compiled_path_regex m
  = compile_regex (hm_path m) (bool_decide (hm_path_type m = "RegularExpression")).

(** The fast path's view of a request. *)
Definition same_request (request : RequestMeta) (fast : HttpFastPathRequest) : Prop :=
  rq_host request = normalize_host_ref <$> fpr_host fast /\ rq_port request = fpr_port fast
  /\ rq_path request = request_path_without_query (fpr_path fast)
  /\ rq_method request = fpr_method fast.

Lemma fast_path_prefix prefix path :
  fast_matches_path_prefix prefix path = matches_path_prefix prefix path.
Proof.
  unfold fast_matches_path_prefix, matches_path_prefix.
  destruct (bool_decide (prefix = "/")); [done|]. destruct (bool_decide (path = prefix)); [done|].
  simpl. destruct (Str.ends_with "/" prefix); [done|]. f_equal.
  destruct (Str.byte_at _ path) as [a|]; [|done]. apply bool_decide_ext. split; [by intros ->|by intros [=]].
Qed.

Lemma fast_matches_sim m request fast :
  compiled_match m -> http_match_is_fast_path_eligible m = true -> same_request request fast ->
  fast_matches_http_rule (compile_http_fast_match m)
    (request_path_without_query (fpr_path fast)) (fpr_method fast) = matches_http_rule m request.
Proof.
  intros Hc He (_ & _ & Hp & Hm). unfold http_match_is_fast_path_eligible in He.
  apply andb_true_iff in He as [Hh Hq]. apply bool_decide_eq_true in Hh, Hq.
  apply nil_length_inv in Hh, Hq. unfold matches_http_rule, fast_matches_http_rule.
  rewrite Hh, Hq, <- Hp, <- Hm. simpl. rewrite !andb_true_r. f_equal.
  unfold fast_matches_http_path, matches_http_path; simpl.
  destruct (Str.is_empty (hm_path m)); [done|]. destruct (bool_decide (hm_path_type m = "Exact")); [done|].
  rewrite Hc, fast_path_prefix. case_bool_decide as Ht; [|done]. simpl.
  unfold compile_regex, regex_matches. by destruct (regex_valid (hm_path m)).
Qed.

Lemma fast_score_sim m :
  http_match_is_fast_path_eligible m = true ->
  http_match_score m
  = (cfm_matched_http_path (compile_http_fast_match m),
     slow_rule (cfm_score (compile_http_fast_match m))).
Proof.
  intros He. unfold http_match_is_fast_path_eligible in He.
  apply andb_true_iff in He as [Hh Hq]. apply bool_decide_eq_true in Hh, Hq.
  unfold http_match_score. by rewrite Hh, Hq.
Qed.

Lemma best_rule_match_sim rule compiled request fast :
  Forall compiled_match (hru_matches rule) ->
  forallb http_match_is_fast_path_eligible (hru_matches rule) = true ->
  same_request request fast ->
  cfr_matches compiled = compile_http_fast_matches rule ->
  cfr_default_matched_http_path compiled = default_http_path_match ->
  best_http_rule_match rule request
  = (fun '(p, s) => (p, slow_rule s))
      <$> fast_best_http_rule_match compiled (request_path_without_query (fpr_path fast))
            (fpr_method fast).
Proof.
  intros Hc He Hr Hm Hd. unfold best_http_rule_match, fast_best_http_rule_match.
  rewrite Hm, Hd. unfold compile_http_fast_matches.
  destruct (hru_matches rule) as [|m ms] eqn:E; [done|]. rewrite <- E in *.
  replace (match compile_http_fast_match <$> hru_matches rule with [] => _ | _ => _ end)
    with (iter_max_by snd ((fun matcher => (cfm_matched_http_path matcher, cfm_score matcher))
      <$> List.filter (fun matcher => fast_matches_http_rule matcher
           (request_path_without_query (fpr_path fast)) (fpr_method fast))
         (compile_http_fast_match <$> hru_matches rule))) by (by rewrite E).
  rewrite <- (iter_max_slow (fun '(p, s) => (p, slow_rule s)) snd snd)
    by (intros [] []; apply slow_rule_cmp).
  f_equal. clear E Hm Hd. induction (hru_matches rule) as [|x xs IH]; [done|].
  apply Forall_cons_1 in Hc as [Hx Hxs]. cbn [forallb] in He. apply andb_true_iff in He as [Ex Exs].
  specialize (IH Hxs Exs). rewrite fmap_cons. cbn [List.filter].
  rewrite (fast_matches_sim x request fast) by done.
  destruct (matches_http_rule x request); [|done]. rewrite !fmap_cons, IH. f_equal.
  by apply fast_score_sim.
Qed.

(** ** Rules that can serve *)

Section with_hasher.
Context `{KeyHasher}.

Lemma serves_weighted snapshot runtime rule :
  Forall (fun r => (0 <= br_weight r)%Z) (hru_backend_refs rule) -> hru_filters rule = [] ->
  http_rule_serves snapshot runtime rule = http_rule_has_selectable_backend rule.
Proof.
  intros Hw Hf. unfold http_rule_serves, http_rule_has_selectable_backend. rewrite Hf.
  rewrite orb_false_r. induction Hw as [|r refs Hr Hrs IH]; [done|].
  rewrite candidates_cons, fmap_cons. cbn [existsb]. rewrite <- IH. clear IH.
  destruct (classify snapshot runtime r) eqn:E; unfold classify in E; case_bool_decide as Hz;
    repeat case_match; simplify_eq; destruct (Z.ltb_spec 0 (br_weight r)); try lia;
    unfold refs_error; simpl; try done.
  all: apply orb_true_iff; right; by repeat case_match.
Qed.

Definition safe_rule (rule : HttpRule) : Prop :=
  hru_filters rule = [] /\ forallb http_match_is_fast_path_eligible (hru_matches rule) = true.

Lemma compile_rule_spec plan_snapshot route i rule x :
  compile_http_fast_rule plan_snapshot route i rule = (x, true) ->
  safe_rule rule /\
  match x with
  | Some compiled =>
    cfr_rule_index compiled = i /\ cfr_matches compiled = compile_http_fast_matches rule
    /\ cfr_default_matched_http_path compiled = default_http_path_match
    /\ http_rule_has_selectable_backend rule = true
  | None => http_rule_has_selectable_backend rule = false
  end.
Proof.
  unfold compile_http_fast_rule.
  destruct (http_rule_is_fast_path_selection_safe rule plan_snapshot) eqn:Es; [|done]. simpl.
  intros Hc. split.
  { unfold http_rule_is_fast_path_selection_safe in Es. bool_hyps.
    split; [by apply nil_length_inv|done]. }
  unfold compile_http_fast_backend_refs in Hc.
  destruct (mapM _ (weighted_refs rule)) as [refs|] eqn:Em; simpl in Hc.
  - destruct refs as [|r refs]; [simplify_eq; by apply negb_true_iff|]. simplify_eq. simpl.
    split_and!; [done..|]. unfold http_rule_has_selectable_backend. apply existsb_exists.
    apply mapM_Some_1 in Em. unfold weighted_refs in Em.
    destruct (List.filter _ _) as [|b bs] eqn:Ef; [by inversion Em|].
    exists b. apply (filter_In (fun backend_ref => (0 <? br_weight backend_ref)%Z)).
    rewrite Ef. by left.
  - simplify_eq. by apply negb_true_iff.
Qed.

End with_hasher.

(** ** The plan *)

Definition compiled_rules (b : Snapshot) (route : HttpRoute) :
    list (option CompiledHttpFastRule * bool) :=
  imap (compile_http_fast_rule b route) (hr_rules route).

Definition compiled_route (b : Snapshot) (i : nat) (route : HttpRoute) : CompiledHttpFastRoute :=
  {| cfo_route_index := i;
     cfo_route_name := hr_name route;
     cfo_route_namespace := hr_namespace route;
     cfo_route_annotations := hr_annotations route;
     cfo_eligible_rules := omap fst (compiled_rules b route) |}.

(** Where the plan has the route at position [i]. *)
Definition planned (b : Snapshot) (plan : list CompiledHttpFastRoute) (indices : list (option nat))
    (i : nat) (route : HttpRoute) : Prop :=
  match omap fst (compiled_rules b route) with
  | [] => indices !! i = Some None
  | _ => exists k, indices !! i = Some (Some k) /\ plan !! k = Some (compiled_route b i route)
  end.

Lemma planned_mono b plan plan' indices indices' i route :
  plan `prefix_of` plan' -> indices `prefix_of` indices' ->
  planned b plan indices i route -> planned b plan' indices' i route.
Proof.
  intros [p ->] [q ->]. unfold planned. destruct (omap fst _).
  - intros Hi. by apply lookup_app_l_Some.
  - intros (k & Hk & Hp). exists k. split; by apply lookup_app_l_Some.
Qed.

Lemma compile_routes_spec b routes : forall n plan indices safe plan' indices' safe',
  length indices = n ->
  compile_http_fast_routes b n routes plan indices safe = (plan', indices', safe') ->
  plan `prefix_of` plan' /\ indices `prefix_of` indices'
  /\ (safe' = true -> safe = true
      /\ Forall (fun route => forallb snd (compiled_rules b route) = true) routes)
  /\ (forall j route, routes !! j = Some route -> planned b plan' indices' (n + j) route).
Proof.
  induction routes as [|r routes IH]; intros n plan indices safe plan' indices' safe' Hn Hc.
  { simpl in Hc. simplify_eq. split_and!; [done..|]. by intros j route Hj. }
  cbn [compile_http_fast_routes] in Hc. fold (compiled_rules b r) in Hc.
  assert (exists plan1 indices1,
    plan `prefix_of` plan1 /\ indices `prefix_of` indices1 /\ length indices1 = S n
    /\ planned b plan1 indices1 n r
    /\ compile_http_fast_routes b (S n) routes plan1 indices1
         (safe && forallb snd (compiled_rules b r)) = (plan', indices', safe'))
    as (plan1 & indices1 & Hp & Hi & Hl & Hpl & Hc').
  { unfold planned. destruct (omap fst (compiled_rules b r)) as [|e es] eqn:E.
    - eexists _, _. split_and!; [done| | | |exact Hc].
      + by apply prefix_app_r.
      + rewrite length_app; simpl; lia.
      + by apply list_lookup_middle.
    - eexists _, _. split_and!; [| | | |exact Hc].
      + by apply prefix_app_r.
      + by apply prefix_app_r.
      + rewrite length_app; simpl; lia.
      + exists (length plan). split; [by apply list_lookup_middle|].
        rewrite list_lookup_middle by done. unfold compiled_route. by rewrite E. }
  destruct (IH _ _ _ _ _ _ _ Hl Hc') as (Hp' & Hi' & Hs & Hr). split_and!.
  - by etrans.
  - by etrans.
  - intros Hsafe. destruct (Hs Hsafe) as [[H1 H2]%andb_true_iff Hf]. by repeat constructor.
  - intros [|j] route Hj; simplify_eq/=.
    + rewrite Nat.add_0_r. by eapply planned_mono.
    + rewrite <- Nat.add_succ_comm. by apply Hr.
Qed.

(** ** The simulation *)

(** What the two selections report of a candidate. *)
Definition offer_view (o : HttpOffer) :
    (string * string * nat * string * MatchedHttpPath) * HttpCandidateScore :=
  (hr_namespace (ho_route o), hr_name (ho_route o), ho_rule_index o,
   matched_name (ho_listener o), ho_path o, ho_score o).
Definition fast_view (c : FastCandidate) :
    (string * string * nat * string * MatchedHttpPath) * HttpCandidateScore :=
  (fc_route_namespace c, fc_route_name c, fc_rule_index c, fc_listener_name c,
   fc_matched_http_path c, slow_score (fc_score c)).

Lemma keep_first_fmap {A B K} `{RustOrd K} (f : A -> B) (ka : A -> K) (kb : B -> K) l : forall o,
  (forall x, kb (f x) = ka x) ->
  foldl (keep_first kb) (f <$> o) (f <$> l) = f <$> foldl (keep_first ka) o l.
Proof.
  induction l as [|x l IH]; intros o Hk; csimpl; [done|]. rewrite <- IH by done. f_equal.
  destruct o as [y|]; simpl; [|done]. rewrite !Hk. by destruct (cmp_le _ _).
Qed.

Section simulation.
Context `{KeyHasher, Clock, Libm}.
Context (s b : Snapshot) (plan : HttpFastPathPlan) (runtime : EndpointRuntimeStore).
Context (request : RequestMeta) (fast : HttpFastPathRequest) (Hreq : same_request request fast).
Context (Hplan : cfl_name <$> hfp_listeners plan = l_name <$> sn_listeners s).

Definition rule_ok (rule : HttpRule) : Prop :=
  Forall compiled_match (hru_matches rule)
  /\ Forall (fun r => (0 <= br_weight r)%Z) (hru_backend_refs rule).

(** The listener of a route on both sides. *)
Definition listener_sim (lm : option MatchedListener) (flm : option FastMatchedListener) : Prop :=
  fast_listener <$> lm = slow_listener <$> flm
  /\ forall m, lm = Some m -> sn_listeners s !! ml_listener_index m = Some (ml_listener m).

Lemma listener_info_sim lm flm info :
  listener_sim lm flm -> listener_info_of plan flm = Some info ->
  default "" (cfl_name <$> info) = matched_name lm.
Proof.
  intros [Hl Hp] Hi. unfold listener_info_of, matched_name in *.
  destruct lm as [m|], flm as [f|]; simplify_eq/=; [|done].
  specialize (Hp m eq_refl). injection Hl as Hix _. rewrite <- Hix in Hi.
  apply (f_equal (fun l => l !! ml_listener_index m)) in Hplan.
  rewrite !list_lookup_fmap, Hp in Hplan. simpl in Hplan.
  destruct (hfp_listeners plan !! ml_listener_index m) as [l|]; simplify_eq/=. done.
Qed.

Lemma fast_score_slow lm flm host_score rule_score :
  listener_sim lm flm ->
  slow_score (fast_score flm host_score rule_score)
  = mkHttpCandidateScore (match_score lm) (slow_host host_score) (slow_rule rule_score).
Proof.
  intros [Hl _]. unfold slow_score, fast_score, match_score. simpl. f_equal.
  destruct lm as [m|], flm as [f|]; simplify_eq/=; [|done]. by injection Hl as _ ->.
Qed.

Lemma fast_rules_sim route ri lm flm host_score rules : forall n st st',
  listener_sim lm flm -> Forall rule_ok rules ->
  let compiled := imap (fun i => compile_http_fast_rule b route (n + i)) rules in
  forallb snd compiled = true ->
  fast_rules plan s (request_path_without_query (fpr_path fast)) (fpr_method fast)
    (compiled_route b ri route) flm host_score (omap fst compiled) st = (st', true) ->
  fast_view <$> st'.1
  = foldl (keep_first snd) (fast_view <$> st.1)
      (offer_view <$> concat (http_offer s runtime request route lm (slow_host host_score)
         <$> imap (fun i rule => (n + i, rule)) rules)).
Proof.
  induction rules as [|rule rules IH]; intros n st st' Hl Hok compiled Hsafe Hf.
  { simpl in Hf. by simplify_eq. }
  apply Forall_cons_1 in Hok as [[Hm Hw] Hok]. subst compiled. cbn [imap] in Hsafe, Hf |- *.
  assert (forall A (f : nat -> HttpRule -> A),
    imap ((fun i => f (n + i)) ∘ S) rules = imap (fun i => f (S n + i)) rules) as Himap
    by (intros; apply imap_ext; intros; simpl; f_equal; lia).
  rewrite (Himap _ (compile_http_fast_rule b route)) in Hsafe, Hf.
  rewrite (Himap _ (fun i rule => (i, rule))). rewrite Nat.add_0_r in *.
  cbn [forallb] in Hsafe. apply andb_true_iff in Hsafe as [Hc Hsafe].
  specialize (fun st st' => IH (S n) st st' Hl Hok Hsafe).
  destruct (compile_http_fast_rule b route n rule) as [x sf] eqn:Ec. simpl in Hc. subst sf.
  destruct (compile_rule_spec _ _ _ _ _ Ec) as [[Hfilt Helig] Hx].
  rewrite fmap_cons. cbn [concat]. rewrite fmap_app, foldl_app.
  unfold http_offer at 1. cbn [fst snd]. rewrite (serves_weighted s runtime rule Hw Hfilt).
  destruct x as [c|]; csimpl in Hf.
  2: { rewrite Hx. destruct (best_http_rule_match rule request) as [[p sc]|]; by apply IH. }
  destruct Hx as (Hi & Hms & Hd & ->).
  rewrite (best_rule_match_sim rule c request fast Hm Helig Hreq Hms Hd).
  cbn [fast_rules] in Hf. destruct (fast_best_http_rule_match c _ _) as [[p sc]|]; [|by apply IH].
  csimpl. rewrite <- (fast_score_slow lm flm host_score sc Hl).
  assert ((match fast_view <$> st.1 with
    | Some v => cmp_le (slow_score (fast_score flm host_score sc)) v.2 | None => false end)
    = match st.1 with Some current => cmp_le (fast_score flm host_score sc) (fc_score current)
      | None => false end) as Hle.
  { destruct (st.1); [|done]. apply slow_score_le. }
  destruct (match st.1 with Some _ => _ | None => _ end) eqn:Ele.
  { rewrite IH with (st := st) by done. f_equal. destruct (st.1); [|done]. simpl in *. by rewrite Hle. }
  destruct (listener_info_of plan flm) as [info|] eqn:Einfo; [|done].
  destruct (match info with Some _ => _ | None => _ end); [done|].
  destruct (select_compiled_http_fast_backend s (cfr_backend_refs c) st.2) as [[sel|] w]; [|done].
  rewrite (IH _ _ Hf). f_equal.
  assert (Some (fast_view (fast_candidate (compiled_route b ri route) c info p sel
      (fast_score flm host_score sc)))
    = Some (offer_view (mkHttpOffer route n lm p (slow_score (fast_score flm host_score sc))))) as Hv.
  { unfold fast_view, offer_view. simpl. rewrite Hi. by rewrite (listener_info_sim lm flm info Hl Einfo). }
  simpl. rewrite Hv. destruct (st.1); [|done]. simpl in *. by rewrite Hle.
Qed.

Context (ls : CandidateListeners) (fls : FastCandidateListeners).
Context (Hls : placed_listeners s (cl_listeners ls)).
Context (Henf : cl_enforce_attachments ls = fcl_enforce_attachments fls).
Context (Hmatch : forall namespace name,
  fast_listener <$> route_listener_match s ls namespace name
  = slow_listener <$> fast_route_listener_match s fls namespace name).

Lemma route_listener_sim namespace name :
  listener_sim (route_listener_match s ls namespace name)
    (fast_route_listener_match s fls namespace name).
Proof.
  split; [apply Hmatch|]. intros m Hm. unfold route_listener_match in Hm.
  destruct (negb _); [done|].
  assert (m ∈ cl_listeners ls) as Hin.
  { destruct (sn_ready s); apply iter_max_by_Some in Hm as [Hm _];
      apply list_elem_of_In, filter_In in Hm as [Hm _]; by apply list_elem_of_In. }
  by eapply list.Forall_forall in Hls.
Qed.

Lemma route_admitted_fast namespace name parent_refs hostnames :
  route_admitted s ls (rq_host request) namespace name parent_refs hostnames
  = if fcl_enforce_attachments fls
       && negb (bool_decide (is_Some (fast_route_listener_match s fls namespace name))) then None
    else (fun score => (route_listener_match s ls namespace name, slow_host score))
           <$> fast_best_hostname_score hostnames (rq_host request).
Proof.
  unfold route_admitted. rewrite Henf.
  assert (bool_decide (is_Some (route_listener_match s ls namespace name))
    = bool_decide (is_Some (fast_route_listener_match s fls namespace name))) as ->.
  { pose proof (Hmatch namespace name) as Hm.
    by destruct (route_listener_match _ _ _ _), (fast_route_listener_match _ _ _ _). }
  destruct (_ && _); [done|]. rewrite fast_best_hostname_score_slow.
  destruct (route_listener_match s ls namespace name); rewrite ?route_accepts_true; simpl;
    by destruct (fast_best_hostname_score _ _).
Qed.

Notation visitor := (fast_route_visitor plan s (rq_host request)
  (request_path_without_query (fpr_path fast)) (fpr_method fast) fls).

(** The visitor of a planned route, the guards resolved. *)
Lemma fast_route_visitor_eq i route st :
  sn_http_routes s !! i = Some route ->
  visitor (compiled_route b i route) st
  = if fcl_enforce_attachments fls && negb (bool_decide (is_Some
         (fast_route_listener_match s fls (hr_namespace route) (hr_name route)))) then (st, true)
    else match fast_best_hostname_score (hr_hostnames route) (rq_host request) with
         | None => (st, true)
         | Some score =>
           fast_rules plan s (request_path_without_query (fpr_path fast)) (fpr_method fast)
             (compiled_route b i route)
             (fast_route_listener_match s fls (hr_namespace route) (hr_name route)) score
             (omap fst (compiled_rules b route)) st
         end.
Proof.
  intros Hr. unfold fast_route_visitor. cbn [cfo_route_index compiled_route]. rewrite Hr.
  destruct (route_listener_sim (hr_namespace route) (hr_name route)) as [Hm Hp].
  destruct (_ && _); [done|].
  destruct (fast_route_listener_match s fls _ _) as [f|]; [|done].
  destruct (route_listener_match s ls _ _) as [m|]; [|done]. simplify_eq/=.
  injection Hm as <- _. rewrite (Hp m eq_refl). by rewrite route_accepts_true.
Qed.

Lemma fast_route_sim i route st st' :
  sn_http_routes s !! i = Some route -> Forall rule_ok (hr_rules route) ->
  forallb snd (compiled_rules b route) = true ->
  (omap fst (compiled_rules b route) = [] /\ st' = st
   \/ visitor (compiled_route b i route) st = (st', true)) ->
  fast_view <$> st'.1
  = foldl (keep_first snd) (fast_view <$> st.1)
      (offer_view <$> http_route_offers s runtime request ls route).
Proof.
  intros Hr Hok Hsafe Hv. rewrite (fast_route_visitor_eq i route st Hr) in Hv.
  unfold http_route_offers. rewrite route_admitted_fast.
  destruct (_ && _); [by destruct Hv as [[_ ->]|[= ->]]|].
  destruct (fast_best_hostname_score _ _) as [score|]; simpl;
    [|by destruct Hv as [[_ ->]|[= ->]]].
  apply (fast_rules_sim route i _ (fast_route_listener_match s fls (hr_namespace route) (hr_name route))
    score (hr_rules route) 0 st st'); [apply route_listener_sim|done|done|].
  destruct Hv as [[He ->]|Hv]; [|exact Hv].
  change (imap _ (hr_rules route)) with (compiled_rules b route). by rewrite He.
Qed.

Lemma fast_route_visitor_host i route st :
  sn_http_routes s !! i = Some route ->
  hostnames_match (hr_hostnames route) (rq_host request) = false ->
  visitor (compiled_route b i route) st = (st, true).
Proof.
  intros Hr Hh. rewrite (fast_route_visitor_eq i route st Hr). destruct (_ && _); [done|].
  destruct (fast_best_hostname_score _ _) as [score|] eqn:E; [|done].
  assert (best_hostname_score (hr_hostnames route) (rq_host request) = Some (slow_host score))
    as Hb by (by rewrite fast_best_hostname_score_slow, E).
  apply best_hostname_score_matches in Hb. congruence.
Qed.

End simulation.

(** A visit that is not given up adds the offers of everything it visits. *)
Lemma visit_list_offers {St A X K} `{RustOrd K} (key : X -> K) (view : St -> option X)
    (v : A -> St -> St * bool) (offer : A -> list X) l : forall st st',
  (forall x st st', x ∈ l -> v x st = (st', true) ->
     view st' = foldl (keep_first key) (view st) (offer x)) ->
  visit_list v l st = (st', true) ->
  view st' = foldl (keep_first key) (view st) (concat (offer <$> l)).
Proof.
  induction l as [|x l IH]; intros st st' Hv Hl; csimpl in *; [by simplify_eq|].
  destruct (v x st) as [st1 []] eqn:E; [|done]. rewrite foldl_app.
  rewrite <- (Hv x st st1) by (done || by left). apply IH; [|done].
  intros y ? ? Hy. apply Hv. by right.
Qed.

Lemma concat_seq_lookup {A B} (f : A -> list B) (l : list A) :
  concat ((fun i => match l !! i with Some x => f x | None => [] end) <$> seq 0 (length l))
  = concat (f <$> l).
Proof.
  enough (forall pre, concat ((fun i => match (pre ++ l) !! i with Some x => f x | None => [] end)
    <$> seq (length pre) (length l)) = concat (f <$> l)) as Hp by apply (Hp []).
  induction l as [|x l IH]; intros pre; [done|]. cbn [length]. rewrite <- cons_seq, !fmap_cons.
  cbn [concat]. rewrite list_lookup_middle by done. f_equal.
  specialize (IH (pre ++ [x])). rewrite length_app, <- app_assoc, Nat.add_1_r in IH. exact IH.
Qed.

Lemma fmap_concat {A B} (f : A -> B) (l : list (list A)) :
  f <$> concat l = concat ((fun x : list A => f <$> x) <$> l).
Proof. induction l as [|x l IH]; csimpl; [done|]. by rewrite fmap_app, IH. Qed.

Section agreement.
Context `{KeyHasher, Clock, Libm}.

Lemma rebuilt_rules_ok s0 :
  http_rules_fit (sn_http_routes s0) ->
  Forall (fun route => Forall rule_ok (hr_rules route))
    (sn_http_routes (rebuild_runtime_indexes s0)).
Proof.
  intros Hf. simpl. apply Forall_fmap. eapply Forall_impl; [exact Hf|]. intros route Hr. simpl.
  apply Forall_fmap. eapply Forall_impl; [exact Hr|]. intros rule [Hw _]. split; [|done]. simpl.
  apply Forall_fmap, Forall_true. done.
Qed.

(** The plan of a rebuilt snapshot was built before its indexes were complete. *)
Lemma rebuilt_plan s0 :
  let s := rebuild_runtime_indexes s0 in
  exists b, let plan := ix_http_fast_path (sn_indexes s) in
    cfl_name <$> hfp_listeners plan = l_name <$> sn_listeners s
    /\ (hfp_selection_safe plan = true ->
        Forall (fun route => forallb snd (compiled_rules b route) = true) (sn_http_routes s))
    /\ (forall i route, sn_http_routes s !! i = Some route ->
        planned b (hfp_routes plan) (hfp_route_plan_indices plan) i route).
Proof.
  intros s. set (c := compile_matchers s0). set (b := set_indexes c (base_indexes c)). exists b.
  change (ix_http_fast_path (sn_indexes s)) with (HttpFastPathPlan_build b).
  change (sn_http_routes s) with (sn_http_routes b).
  change (sn_listeners s) with (sn_listeners b). unfold HttpFastPathPlan_build.
  destruct (compile_http_fast_routes b 0 (sn_http_routes b) [] [] true) as [[plan ixs] safe] eqn:E.
  destruct (compile_routes_spec _ _ _ _ _ _ _ _ _ eq_refl E) as (_ & _ & Hs & Hp). cbv zeta. split_and!.
  - cbn [hfp_listeners]. rewrite <- list_fmap_compose. by apply list_fmap_ext.
  - cbn [hfp_selection_safe]. intros Hsafe. by apply Hs.
  - exact Hp.
Qed.

(** What a completed visit of the fast path has found. *)
Lemma fast_visit_offers s0 request fast w best w' :
  let s := rebuild_runtime_indexes s0 in
  let plan := ix_http_fast_path (sn_indexes s) in
  same_request request fast -> http_rules_fit (sn_http_routes s0) ->
  hfp_selection_safe plan = true ->
  fast_visit_routes plan s (rq_host request)
    (fast_route_visitor plan s (rq_host request) (request_path_without_query (fpr_path fast))
       (fpr_method fast) (fast_matched_listeners s (rq_host request) (fpr_port fast)))
    (None, w) = ((best, w'), true) ->
  forall runtime, fast_view <$> best
  = foldl (keep_first snd) None (offer_view <$> http_offers s runtime request).
Proof.
  intros s plan Hreq Hfit Hsafe Hv runtime.
  destruct (rebuilt_plan s0) as (b & Hpl & Hs & Hp). fold s plan in Hpl, Hs, Hp. specialize (Hs Hsafe).
  pose proof (rebuilt_rules_ok s0 Hfit) as Hok. fold s in Hok.
  set (ls := matched_listeners s (rq_host request) (rq_port request) ListenerHttp).
  destruct (fast_matched_listeners_sim s0 (rq_host request) (fpr_port fast)) as [Henf Hm].
  fold s in Henf, Hm. rewrite <- (proj1 (proj2 Hreq)) in Henf, Hm. fold ls in Henf, Hm.
  rewrite <- (proj1 (proj2 Hreq)) in Hv.
  set (fls := fast_matched_listeners s (rq_host request) (rq_port request)) in *.
  assert (Hls : placed_listeners s (cl_listeners ls)).
  { subst ls s. rewrite matched_listeners_scan. apply matched_listeners_placed. }
  assert (Hmatch : forall ns n, fast_listener <$> route_listener_match s ls ns n
    = slow_listener <$> fast_route_listener_match s fls ns n).
  { intros ns n. by apply fast_route_listener_sim. }
  unfold fast_visit_routes in Hv. cbn [negb sn_ready] in Hv.
  change (negb (sn_ready s)) with false in Hv. cbv iota in Hv.
  change (ix_http_route_hostname_index (sn_indexes s)) with
    (build_hostname_route_index (hr_hostnames <$> sn_http_routes s)) in Hv.
  rewrite visit_built_index, length_fmap, visit_list_filter in Hv.
  2: { intros i st Hin Hh. unfold route_host_matches in Hh. rewrite list_lookup_fmap in Hh.
    destruct (sn_http_routes s !! i) as [route|] eqn:Er.
    2: { apply elem_of_seq in Hin. apply lookup_ge_None in Er. lia. }
    simpl in Hh.
    pose proof (Hp i route Er) as Hpi. unfold planned in Hpi.
    destruct (omap fst _); [by rewrite Hpi|]. destruct Hpi as (k & -> & Hk). simpl. rewrite Hk.
    by apply (fast_route_visitor_host s b plan request fast ls fls Hls Hmatch). }
  unfold http_offers. fold ls. rewrite fmap_concat, <- list_fmap_compose.
  rewrite <- (concat_seq_lookup ((fun x : list HttpOffer => offer_view <$> x) ∘ http_route_offers s runtime request ls)).
  apply (visit_list_offers snd (fun st => fast_view <$> st.1) _
    (fun i => match sn_http_routes s !! i with
              | Some x => ((fun x : list HttpOffer => offer_view <$> x) ∘ http_route_offers s runtime request ls) x
              | None => [] end) _ _ _) in Hv; [exact Hv|].
  intros i st st' Hin Hi. destruct (sn_http_routes s !! i) as [route|] eqn:Er.
  2: { apply elem_of_seq in Hin. apply lookup_ge_None in Er. lia. }
  eapply (fast_route_sim s b plan runtime request fast Hreq Hpl ls fls Hls Henf Hmatch i route);
    [done|by eapply (Forall_lookup_1 _ _ _ _ Hok)|by eapply (Forall_lookup_1 _ _ _ _ Hs)|].
  pose proof (Hp i route Er) as Hpi. unfold planned in Hpi.
  destruct (omap fst (compiled_rules b route)) eqn:Eo.
  - left. rewrite Hpi in Hi. simpl in Hi. by simplify_eq.
  - right. destruct Hpi as (k & Hk & Hpk). rewrite Hk in Hi. simpl in Hi. by rewrite Hpk in Hi.
Qed.

(** C1: the HTTP fast path agrees with route selection.  Whenever the fast path of
    a rebuilt snapshot answers a request, [select_http_route] selects a route for
    the same request, and both name the same route, rule, listener and matched
    path, whatever the cursors, the clock, the endpoint health and the session
    resolver are when the slow path runs. *)
Theorem fast_path_agrees s0 request fast resolver w w1 w' sel :
  let s := rebuild_runtime_indexes s0 in
  same_request request fast -> http_rules_fit (sn_http_routes s0) ->
  select_http_fast_path s fast w = (Some sel, w1) ->
  exists r, (select_http_route s request resolver w').1 = Some r
  /\ shr_route_namespace r = csb_route_namespace sel /\ shr_route_name r = csb_route_name sel
  /\ shr_rule_index r = csb_rule_index sel /\ shr_listener_name r = csb_listener_name sel
  /\ shr_matched_http_path r = csb_matched_http_path sel.
Proof.
  intros s Hreq Hfit Hsel.
  assert (Hfit' : http_rules_fit (sn_http_routes s)).
  { simpl. apply Forall_fmap. eapply Forall_impl; [exact Hfit|]. intros route Hr. simpl.
    by apply Forall_fmap. }
  unfold select_http_fast_path, HttpFastPathPlan_select in Hsel.
  destruct (_ || _ || _ || _) eqn:Eg in Hsel; [done|].
  assert (hfp_selection_safe (ix_http_fast_path (sn_indexes s)) = true) as Hsafe.
  { destruct (hfp_selection_safe _); [done|]. by rewrite !orb_true_l in Eg. }
  rewrite <- (proj1 Hreq) in Hsel. destruct (fast_visit_routes _ _ _ _ _) as [[best w2] []] eqn:Ev;
    [|done]. destruct best as [c|]; simplify_eq/=.
  pose proof (fast_visit_offers s0 request fast w (Some c) w1 Hreq Hfit Hsafe Ev
    (w_endpoint_runtime w')) as Hv. fold s in Hv.
  pose proof (select_http_route_offer s0 request resolver w' Hfit') as Hslow. cbv zeta in Hslow.
  fold s in Hslow. set (offers := http_offers s (w_endpoint_runtime w') request) in *.
  rewrite (keep_first_fmap offer_view ho_score snd offers None (fun _ => eq_refl) : _ = _) in Hv.
  pose proof (keep_first_spec ho_score offers) as Hk.
  destruct (foldl (keep_first ho_score) None offers) as [o|]; [|done].
  injection Hv as Hns Hn Hi Hl Hp _.
  destruct ((select_http_route s request resolver w').1) as [r|].
  - destruct Hslow as (o' & Ho' & H1' & H2' & H3' & H4' & H5').
    rewrite (first_best_unique ho_score offers o' o Ho' Hk) in *. exists r. simpl. split_and!; congruence.
  - destruct Hk as (l1 & l2 & Hk & _). rewrite Hslow in Hk. by destruct l1.
Qed.

End agreement.

End with_regex.

(** ** Witness *)

Definition demo_fast_request : HttpFastPathRequest :=
  mkHttpFastPathRequest (Some "shop.example.com:80") 80 "/api/x?q=1" "GET" false.

Lemma fast_path_agrees_witness :
  exists r, (demo_select_http Demo.demo_snapshot
    (Demo.demo_request "shop.example.com" "/api/x" "GET") witness_world).1 = Some r
  /\ shr_route_name r = "shop" /\ shr_rule_index r = Some 1 /\ shr_listener_name r = "web".
Proof.
  destruct (@select_http_fast_path Demo.demo_regex witness_hasher witness_clock Demo.demo_snapshot
    demo_fast_request witness_world) as [[sel|] w1] eqn:E.
  - destruct (@fast_path_agrees Demo.demo_regex witness_hasher witness_clock witness_libm
      Demo.demo_config (Demo.demo_request "shop.example.com" "/api/x" "GET") demo_fast_request
      sessionless witness_world w1 witness_world sel) as (r & Hr & _ & Hn & Hi & Hl & _).
    + repeat split; vm_compute; reflexivity.
    + repeat constructor; vm_compute; congruence || reflexivity.
    + exact E.
    + exists r. split; [exact Hr|]. rewrite Hn, Hi, Hl.
      vm_compute in E. injection E as <- _. vm_compute. repeat split.
  - vm_compute in E. discriminate E.
Defined.

End FastPathAgreement.
