(* ===== verification/Observations.v ===== *)
(** * Observations

    Behaviours of the selection code that the model made visible: candidates that
    lose still take a ticket of the shared backend cursor, the guard of mesh
    routes accepts every route, exact hostnames are scored by case, and services
    with two backends are looked up differently with and without the index. *)

From Stdlib Require Import ZArith Lia Ascii.
From stdpp Require Import base gmap strings numbers list.
From S2P Require Import Prelude Strs IrTypes Matching Scoring HostIndex EndpointRuntime Spread RouteIndex RuntimeIds Snapshot Resolution Demo Selection IndexedSelection Precedence HttpFastPath FastPathAgreement.

Local Open Scope string_scope.
Local Open Scope list_scope.

Module Observations.
Import Matching Scoring HostIndex EndpointRuntime Spread RouteIndex RuntimeIds Snapshots Resolution Demo Selection IndexedSelection Precedence HttpFastPath FastPathAgreement.

Definition demo_fast_select : M (option CompiledSelectedHttpBackend) :=
  @select_http_fast_path demo_regex witness_hasher witness_clock demo_snapshot demo_fast_request.

(** rules that lose take tickets.  In the demo configuration the selected rule
    splits its traffic 3:1, yet none of a hundred consecutive requests reaches the
    backend of weight one, on the slow path and on the fast path: every request
    also draws a ticket for each of the three other rules it matches, so that the
    selected rule sees every fourth ticket only. *)
Theorem losing_rules_take_tickets :
  let request := demo_request "shop.example.com" "/api/x" "GET" in
  let slow := (times 100 (demo_select_http demo_snapshot request) witness_world).1 in
  let fast := (times 100 demo_fast_select witness_world).1 in
  (route ← demo_http_routes !! 2%nat; rule ← hr_rules route !! 1%nat; Some (hru_backend_refs rule))
    = Some [witness_ref "b" 3; witness_ref "c" 1]
  /\ Forall (fun r : option SelectedHttpRoute => r ≫= shr_rule_index = Some 1
              /\ r ≫= shr_backend_name = Some "default/b:80") slow
  /\ Forall (fun r : option CompiledSelectedHttpBackend =>
              csb_backend_name <$> r = Some "default/b:80") fast.
Proof.
  vm_compute. split_and!; [reflexivity| |]; repeat constructor.
Qed.

(** The mesh guard accepts every route.  A route whose parents name another
    service passes [route_accepts_service_frontend] for the frontend of any
    listener, as do routes without parents. *)
Theorem mesh_guard_accepts_all snapshot parent_refs namespace listener :
  route_accepts_service_frontend snapshot parent_refs namespace listener = true.
Proof. apply route_accepts_true. Qed.

(** Exact hostnames are scored by case.  The matcher and the hostname index
    accept a host that differs from an exact hostname in case, the score does not:
    the route is a candidate and is then never selected, while a wildcard hostname
    accepts the same host in any case. *)
Theorem exact_hostname_case_gap :
  let hosts := ["shop.example.com"] in
  let host := "SHOP.example.com" in
  hostname_matches "shop.example.com" host = true
  /\ candidate_indices (build_hostname_route_index [hosts]) (Some host) = [0]
  /\ best_hostname_score hosts (Some host) = None
  /\ is_Some (best_hostname_score ["*.example.com"] (Some "SHOP.EXAMPLE.com")).
Proof. vm_compute. split_and!; [reflexivity..|by eexists]. Qed.

(** Two backends of one service.  With a duplicate service key the index
    answers with the last backend and the scan of an unindexed snapshot with the
    first, so that the uniqueness assumed by the equivalence of the two is
    needed. *)
Theorem duplicate_service_key_differs :
  let backends := [witness_backend "a:80" "10.0.0.1"; witness_backend "a:80" "10.0.0.2"] in
  let s := @rebuild_runtime_indexes demo_regex (mkSnapshot "" [] [] [] [] backends ∅ [] []
             SnapshotIndexes_default) in
  fst <$> backend_cluster_for_service_index s "default" "a" 80 = Some 1
  /\ fst <$> backend_cluster_for_service_index (unindexed s) "default" "a" 80 = Some 0.
Proof. vm_compute. split; reflexivity. Qed.

End Observations.
