(* ===== verification/Semaphores.v ===== *)
(** * Keyed semaphores

    The map from names to semaphores that the circuit breaker
    ([ntgw-observability/src/circuit_breaker.rs]) and the admission control
    ([overload/budget.rs]) share: a semaphore is created when a name is first
    used, handed out as [Arc]s, and removed from the map by the permit that
    leaves it idle.  [tokio::sync::Semaphore] is the class [Semaphore] with the
    laws that its documentation states.  An [Arc] is an address in a heap that
    counts its owners, since the code asks for [Arc::strong_count].

    The file shows that the map implements one counter per name, as long as the
    limit of a name does not change. *)

From Stdlib Require Import ZArith Lia.
From stdpp Require Import base gmap strings numbers list.
From S2P Require Import Prelude Strs IrTypes.

Local Open Scope Z_scope.

(** [usize::MAX >> 3] *)
Definition MAX_PERMITS : Z := 2 ^ 61 - 1.

Class Semaphore := {
  Sem : Type;
  sem_new : Z -> Sem;
  sem_try_acquire : Sem -> option Sem;
  sem_release : Sem -> Sem;
  available_permits : Sem -> Z;
}.

Class SemaphoreLaws `{Semaphore} := {
  sem_new_available n : 0 <= n <= MAX_PERMITS -> available_permits (sem_new n) = n;
  sem_try_acquire_available s :
    match sem_try_acquire s with
    | Some s' => 0 < available_permits s /\ available_permits s' = available_permits s - 1
    | None => available_permits s = 0
    end;
  sem_release_available s :
    available_permits s < MAX_PERMITS -> available_permits (sem_release s) = available_permits s + 1;
}.

(** ** Named counters

    The gauges and counters by name of the statistics, [BTreeMap<String, u64>]. *)
Module Named.

(** [+= 1] on a [u64] wraps in a release build. *)
Definition increment_named (items : StringMap Z) (key : string) : StringMap Z :=
  <[key := U.wrapping_add64 (default 0 (items !! key)) 1]> items.

Definition decrement_named (items : StringMap Z) (key : string) : StringMap Z :=
  match items !! key with
  | None => items
  | Some value =>
    let value := U.saturating_sub value 1 in
    if bool_decide (value = 0) then delete key items else <[key := value]> items
  end.

(** A gauge shows the names with a positive count. *)
Definition shows (items : StringMap Z) (f : string -> Z) : Prop :=
  forall k, 0 <= f k /\ items !! k = if bool_decide (f k = 0) then None else Some (f k).

Lemma shows_increment items f f' key :
  shows items f -> f key + 1 < U.u64_modulus ->
  (forall k, f' k = (if decide (key = k) then 1 else 0) + f k) ->
  shows (increment_named items key) f'.
Proof.
  intros Hs Hb Hf k. unfold increment_named. destruct (Hs k) as [H0 Hk]. rewrite Hf.
  destruct (decide (key = k)) as [<-|Hn].
  - split; [lia|]. rewrite lookup_insert_eq, Hk, (bool_decide_eq_false_2 (1 + f key = 0)) by lia. f_equal.
    rewrite (Z.add_comm 1). unfold U.wrapping_add64.
    case_bool_decide as E; cbn; [rewrite E in *|]; apply U.wrap64_small; unfold U.u64_modulus in *; lia.
  - split; [lia|]. by rewrite lookup_insert_ne, Hk by done.
Qed.

Lemma shows_decrement items f f' key :
  shows items f -> (forall k, f k = (if decide (key = k) then 1 else 0) + f' k) ->
  0 <= f' key -> shows (decrement_named items key) f'.
Proof.
  intros Hs Hf Hk0. unfold decrement_named. destruct (Hs key) as [_ Hk]. rewrite Hf in Hk.
  rewrite decide_True in Hk by done. rewrite bool_decide_eq_false_2 in Hk by lia. rewrite Hk.
  unfold U.saturating_sub. rewrite Z.max_r by lia. replace (1 + f' key - 1) with (f' key) by lia.
  intros k. destruct (Hs k) as [H0 Hsk]. rewrite Hf in H0, Hsk.
  destruct (decide (key = k)) as [<-|Hn]; rewrite ?Z.add_0_l in *; (split; [lia|]).
  - destruct (bool_decide (f' key = 0)); [by rewrite lookup_delete_eq|by rewrite lookup_insert_eq].
  - destruct (bool_decide (f' key = 0)); [rewrite lookup_delete_ne by done|rewrite lookup_insert_ne by done]; done.
Qed.
End Named.

Module Semaphores.

Section map.
Context `{Semaphore}.

(** ** The shared map *)

Record SemaphoreMap := mkSemaphoreMap {
  sm_arcs : gmap nat (Sem * Z);
  sm_entries : StringMap nat;
  sm_next : nat;
}.

Definition SemaphoreMap_new : SemaphoreMap := mkSemaphoreMap ∅ ∅ 0.

Definition set_arc (m : SemaphoreMap) (p : nat) (x : Sem * Z) : SemaphoreMap :=
  mkSemaphoreMap (<[p := x]> (sm_arcs m)) (sm_entries m) (sm_next m).

Definition arc_clone (p : nat) (m : SemaphoreMap) : SemaphoreMap :=
  match sm_arcs m !! p with
  | Some (s, strong) => set_arc m p (s, strong + 1)
  | None => m
  end.

Definition arc_drop (p : nat) (m : SemaphoreMap) : SemaphoreMap :=
  match sm_arcs m !! p with
  | Some (s, strong) =>
    if bool_decide (strong = 1)
    then mkSemaphoreMap (delete p (sm_arcs m)) (sm_entries m) (sm_next m)
    else set_arc m p (s, strong - 1)
  | None => m
  end.

Definition keyed_semaphore (m : SemaphoreMap) (key : string) (limit : Z) : nat * SemaphoreMap :=
  match sm_entries m !! key with
  | Some p => (p, arc_clone p m)
  | None =>
    let p := sm_next m in
    (p, arc_clone p
          (mkSemaphoreMap (<[p := (sem_new limit, 1)]> (sm_arcs m))
             (<[key := p]> (sm_entries m)) (S p)))
  end.

(** [try_acquire_owned] consumes its [Arc]: the permit keeps it, a failure drops
    it. *)
Definition try_acquire_owned (p : nat) (m : SemaphoreMap) : bool * SemaphoreMap :=
  match sm_arcs m !! p with
  | Some (s, strong) =>
    match sem_try_acquire s with
    | Some s => (true, set_arc m p (s, strong))
    | None => (false, arc_drop p m)
    end
  | None => (false, m)
  end.

(** [keyed_semaphore(..)] followed by [semaphore.clone().try_acquire_owned()]; the
    local [semaphore] is dropped at the end of the function. *)
Definition keyed_try_acquire (m : SemaphoreMap) (key : string) (limit : Z) :
    option nat * SemaphoreMap :=
  let '(p, m) := keyed_semaphore m key limit in
  let '(acquired, m) := try_acquire_owned p (arc_clone p m) in
  (if acquired then Some p else None, arc_drop p m).

(** The drop of an [OwnedSemaphorePermit]. *)
Definition permit_drop (p : nat) (m : SemaphoreMap) : SemaphoreMap :=
  match sm_arcs m !! p with
  | Some (s, strong) => arc_drop p (set_arc m p (sem_release s, strong))
  | None => m
  end.

(** The cleanup of a permit that is dropped: an idle semaphore leaves the map. *)
Definition cleanup (m : SemaphoreMap) (key : string) (limit : Z) : SemaphoreMap :=
  match sm_entries m !! key with
  | Some p =>
    match sm_arcs m !! p with
    | Some (s, strong) =>
      if bool_decide (strong = 1) && bool_decide (available_permits s = limit)
      then arc_drop p (mkSemaphoreMap (sm_arcs m) (delete key (sm_entries m)) (sm_next m))
      else m
    | None => m
    end
  | None => m
  end.

Definition keyed_release (m : SemaphoreMap) (key : string) (p : nat) (limit : Z) : SemaphoreMap :=
  cleanup (permit_drop p m) key limit.
End map.
Arguments SemaphoreMap {_}.
Arguments mkSemaphoreMap {_}.

(** ** One counter per name *)

(** How many of the held permits are of the name [key]. *)
Definition holders (key : string) (held : list (string * nat)) : Z :=
  Z.of_nat (length (filter (fun h => h.1 = key) held)).

Lemma holders_cons key h held :
  holders key (h :: held) = (if decide (h.1 = key) then 1 else 0) + holders key held.
Proof.
  unfold holders. rewrite filter_cons. case_decide; cbn [length]; lia.
Qed.

Lemma holders_nonneg key held : 0 <= holders key held.
Proof. unfold holders. lia. Qed.

Lemma holders_elem key p held : (key, p) ∈ held -> 0 < holders key held.
Proof.
  induction held as [|h held IH]; [by intros ?%elem_of_nil|]. rewrite holders_cons.
  pose proof (holders_nonneg key held). intros [<-|Hin]%elem_of_cons.
  - rewrite decide_True by done. lia.
  - specialize (IH Hin). case_decide; lia.
Qed.

#[global] Instance holders_Permutation key : Proper ((≡ₚ) ==> (=)) (holders key).
Proof. intros l k Hl. unfold holders. by rewrite Hl. Qed.

Section counters.
Context `{SemaphoreLaws} (limit : string -> Z).

(** Every entry counts its holders; every holder's semaphore is an entry; there
    are no others. *)
Record keyed_inv (held : list (string * nat)) (m : SemaphoreMap) : Prop := {
  ki_entry : forall k p, sm_entries m !! k = Some p ->
    (p < sm_next m)%nat /\ 0 < holders k held /\
    exists s, sm_arcs m !! p = Some (s, 1 + holders k held) /\
              available_permits s + holders k held = limit k;
  ki_held : forall k p, (k, p) ∈ held -> sm_entries m !! k = Some p;
  ki_inj : forall k k' p, sm_entries m !! k = Some p -> sm_entries m !! k' = Some p -> k = k';
  ki_arcs : forall p, is_Some (sm_arcs m !! p) -> exists k, sm_entries m !! k = Some p;
}.

#[global] Instance keyed_inv_Permutation : Proper ((≡ₚ) ==> (=) ==> iff) keyed_inv.
Proof.
  assert (forall l k m, l ≡ₚ k -> keyed_inv l m -> keyed_inv k m) as Hp.
  { intros l k m Hl [H1 H2 H3 H4]. split; [|intros; apply H2; by rewrite Hl|done|done].
    intros key p Hk. rewrite <- (holders_Permutation key _ _ Hl). auto. }
  intros l k Hl m m' <-. split; apply Hp; [done|by symmetry].
Qed.

Lemma keyed_inv_new : keyed_inv [] SemaphoreMap_new.
Proof. split; cbn; intros *; rewrite ?lookup_empty; try done; by intros ?%elem_of_nil || intros []. Qed.

(** Without holders the map is empty. *)
Lemma keyed_inv_idle m : keyed_inv [] m -> sm_entries m = ∅ /\ sm_arcs m = ∅.
Proof.
  intros [H1 _ _ H4]. assert (sm_entries m = ∅) as He.
  { apply map_empty. intros k. destruct (sm_entries m !! k) as [p|] eqn:E; [|done].
    destruct (H1 k p E) as (_ & Hh & _). done. }
  split; [done|]. apply map_empty. intros p. destruct (sm_arcs m !! p) eqn:E; [|done].
  destruct (H4 p) as [k Hk]; [by rewrite E|]. by rewrite He, lookup_empty in Hk.
Qed.

(** The arc of an entry after the local clones of an operation are gone. *)
Lemma acquire_existing m k p s strong :
  sm_entries m !! k = Some p -> sm_arcs m !! p = Some (s, strong) -> 0 < strong ->
  keyed_try_acquire m k (limit k)
  = match sem_try_acquire s with
    | Some s' => (Some p, set_arc m p (s', strong + 1))
    | None => (None, m)
    end.
Proof.
  intros Hk Hp Hs. unfold keyed_try_acquire, keyed_semaphore. rewrite Hk.
  unfold arc_clone. rewrite Hp. cbn [set_arc sm_arcs]. rewrite lookup_insert_eq.
  unfold try_acquire_owned. cbn [set_arc sm_arcs]. rewrite lookup_insert_eq.
  destruct (sem_try_acquire s) as [s'|]; unfold arc_drop; cbn [set_arc sm_arcs]; rewrite !lookup_insert_eq.
  - rewrite bool_decide_eq_false_2 by lia. unfold set_arc. cbn. rewrite !insert_insert_eq.
    repeat f_equal. lia.
  - rewrite bool_decide_eq_false_2 by lia. cbn [set_arc sm_arcs]. rewrite lookup_insert_eq.
    rewrite bool_decide_eq_false_2 by lia. unfold set_arc. cbn. rewrite !insert_insert_eq.
    rewrite insert_id; [by destruct m|]. rewrite Hp. repeat f_equal. lia.
Qed.

Lemma acquire_new m k :
  sm_entries m !! k = None -> 0 < limit k <= MAX_PERMITS ->
  exists s, available_permits s = limit k - 1 /\
  keyed_try_acquire m k (limit k)
  = (Some (sm_next m),
     mkSemaphoreMap (<[sm_next m := (s, 2)]> (sm_arcs m)) (<[k := sm_next m]> (sm_entries m))
       (S (sm_next m))).
Proof.
  intros Hk Hl. pose proof (sem_try_acquire_available (sem_new (limit k))) as Ha.
  pose proof (sem_new_available (limit k)) as Hn. rewrite Hn in Ha by lia.
  destruct (sem_try_acquire (sem_new (limit k))) as [s|] eqn:E; [|lia]. exists s. split; [lia|].
  unfold keyed_try_acquire, keyed_semaphore. rewrite Hk. unfold arc_clone. cbn.
  rewrite lookup_insert_eq. cbn. rewrite lookup_insert_eq. unfold try_acquire_owned. cbn.
  rewrite lookup_insert_eq, E. unfold arc_drop. cbn. rewrite lookup_insert_eq.
  rewrite bool_decide_eq_false_2 by done. unfold set_arc. cbn. by rewrite !insert_insert_eq.
Qed.

Lemma holders_absent held m k : keyed_inv held m -> sm_entries m !! k = None -> holders k held = 0.
Proof.
  intros Hi Ek. unfold holders. destruct (filter (fun h => h.1 = k) held) as [|[k' p] l] eqn:E; [done|].
  assert ((k', p) ∈ filter (fun h : string * nat => h.1 = k) held) as [Hk' Hin]%list_elem_of_filter.
  { rewrite E. apply list_elem_of_here. }
  cbn in Hk'. subst k'. apply (ki_held _ _ Hi) in Hin. congruence.
Qed.

(** The semaphore of [k] changes, and with it the number of holders of [k]. *)
Lemma keyed_inv_set held held' m k p s :
  keyed_inv held m -> sm_entries m !! k = Some p ->
  (forall k', k' <> k -> holders k' held' = holders k' held) -> 0 < holders k held' ->
  (forall k' p', (k', p') ∈ held' -> (k', p') = (k, p) \/ (k', p') ∈ held) ->
  available_permits s + holders k held' = limit k ->
  keyed_inv held' (set_arc m p (s, 1 + holders k held')).
Proof.
  intros [H1 H2 H3 H4] Ek Hne Hpos Hin Ha. split; cbn [set_arc sm_entries sm_arcs sm_next].
  - intros k' p' Ek'. destruct (H1 k' p' Ek') as (Hp & Hh & s0 & Hs0 & Ha0). split; [done|].
    destruct (decide (k' = k)) as [->|Hd].
    + assert (p' = p) as -> by congruence. split; [done|]. exists s. by rewrite lookup_insert_eq.
    + rewrite Hne by done. split; [done|]. exists s0. rewrite lookup_insert_ne; [done|].
      intros ->. by apply Hd, (H3 _ _ p').
  - intros k' p' [[= -> ->]|?]%Hin; auto.
  - done.
  - intros p'. destruct (decide (p = p')) as [<-|Hn]; [by exists k|]. rewrite lookup_insert_ne by done.
    apply H4.
Qed.

Lemma keyed_inv_add held m k s :
  keyed_inv held m -> sm_entries m !! k = None -> available_permits s = limit k - 1 ->
  keyed_inv ((k, sm_next m) :: held)
    (mkSemaphoreMap (<[sm_next m := (s, 2)]> (sm_arcs m)) (<[k := sm_next m]> (sm_entries m))
       (S (sm_next m))).
Proof.
  intros Hi Ek Hs. pose proof (holders_absent _ _ _ Hi Ek) as Hh. destruct Hi as [H1 H2 H3 H4].
  split; cbn [sm_entries sm_arcs sm_next].
  - intros k' p' Ek'. rewrite holders_cons. cbn [fst]. case_decide as Hd.
    + subst k'. rewrite lookup_insert_eq in Ek'. injection Ek' as <-. split; [lia|]. split; [lia|].
      exists s. rewrite lookup_insert_eq, Hh. split; [done|lia].
    + rewrite lookup_insert_ne in Ek' by done. destruct (H1 k' p' Ek') as (Hp & Hh' & s0 & Hs0 & Ha).
      split; [lia|]. split; [lia|]. exists s0. by rewrite lookup_insert_ne by lia.
  - intros k' p' [[= -> ->]|Hin]%elem_of_cons; [by rewrite lookup_insert_eq|].
    pose proof (H2 k' p' Hin). by rewrite lookup_insert_ne by congruence.
  - intros k1 k2 p'. destruct (decide (k = k1)) as [<-|N1], (decide (k = k2)) as [<-|N2]; [done| | |].
    + rewrite lookup_insert_eq, lookup_insert_ne by done. intros [= <-] E. destruct (H1 _ _ E). lia.
    + rewrite lookup_insert_eq, lookup_insert_ne by done. intros E [= <-]. destruct (H1 _ _ E). lia.
    + rewrite !lookup_insert_ne by done. apply H3.
  - intros p'. destruct (decide (sm_next m = p')) as [<-|Hn].
    { exists k. by rewrite lookup_insert_eq. }
    rewrite lookup_insert_ne by done. intros [k' Hk']%H4. exists k'.
    by rewrite lookup_insert_ne by congruence.
Qed.

(** A permit is given exactly when the name has fewer holders than its limit. *)
Lemma keyed_acquire_spec held m k :
  keyed_inv held m -> 0 < limit k <= MAX_PERMITS ->
  if holders k held <? limit k
  then exists p m', keyed_try_acquire m k (limit k) = (Some p, m') /\ keyed_inv ((k, p) :: held) m'
  else keyed_try_acquire m k (limit k) = (None, m).
Proof.
  intros Hi Hl. destruct (sm_entries m !! k) as [p|] eqn:Ek.
  - destruct (ki_entry _ _ Hi k p Ek) as (Hp & Hh & s & Hs & Ha).
    rewrite (acquire_existing m k p s _ Ek Hs) by lia.
    pose proof (sem_try_acquire_available s) as Ht.
    destruct (sem_try_acquire s) as [s'|]; [|by rewrite (proj2 (Z.ltb_ge _ _)) by lia].
    destruct Ht as [Ht Hs']. rewrite (proj2 (Z.ltb_lt _ _)) by lia. exists p. eexists. split; [done|].
    assert (holders k ((k, p) :: held) = 1 + holders k held) as Ec.
    { rewrite holders_cons. by rewrite decide_True. }
    rewrite <- (Z.add_assoc 1), (Z.add_comm _ 1), <- Ec.
    eapply keyed_inv_set; [done|done| |lia| |lia].
    + intros k' Hk'. rewrite holders_cons. by rewrite decide_False by (cbn; congruence).
    + intros k' p'. by intros [->|?]%elem_of_cons; [left|right].
  - rewrite (holders_absent _ _ _ Hi Ek), (proj2 (Z.ltb_lt _ _)) by lia.
    destruct (acquire_new m k Ek Hl) as (s & Hs & ->). do 2 eexists. split; [done|].
    by apply keyed_inv_add.
Qed.

(** The last holder takes the semaphore out of the map. *)
Lemma keyed_inv_remove held m k p s :
  keyed_inv ((k, p) :: held) m -> holders k held = 0 ->
  keyed_inv held
    (mkSemaphoreMap (delete p (<[p := (s, 1)]> (sm_arcs m))) (delete k (sm_entries m)) (sm_next m)).
Proof.
  intros [H1 H2 H3 H4] Hh. rewrite delete_insert_eq.
  assert (sm_entries m !! k = Some p) as Ek by (apply H2, list_elem_of_here).
  split; cbn [sm_entries sm_arcs sm_next].
  - intros k' p' Ek'. destruct (decide (k = k')) as [<-|Hd]; [by rewrite lookup_delete_eq in Ek'|].
    rewrite lookup_delete_ne in Ek' by done. destruct (H1 k' p' Ek') as (Hp & Hh' & s0 & Hs0 & Ha).
    rewrite holders_cons, decide_False in Hh', Hs0, Ha by done. rewrite !Z.add_0_l in *.
    split; [done|]. split; [done|]. exists s0. rewrite lookup_delete_ne; [done|].
    intros <-. by apply Hd, (H3 _ _ p).
  - intros k' p' Hin. rewrite lookup_delete_ne; [apply H2; by right|]. intros <-.
    apply holders_elem in Hin. lia.
  - intros k1 k2 p' E1 E2. apply lookup_delete_Some in E1 as [_ E1], E2 as [_ E2]. eauto.
  - intros p' [x Hx]. apply lookup_delete_Some in Hx as [Hn Hx]. destruct (H4 p' ltac:(by eexists)) as [k' Hk'].
    exists k'. rewrite lookup_delete_ne; [done|]. intros <-. congruence.
Qed.

Lemma keyed_release_spec held m k p :
  keyed_inv ((k, p) :: held) m -> 0 < limit k <= MAX_PERMITS ->
  keyed_inv held (keyed_release m k p (limit k)).
Proof.
  intros Hi Hl. assert (sm_entries m !! k = Some p) as Ek by (apply (ki_held _ _ Hi), list_elem_of_here).
  destruct (ki_entry _ _ Hi k p Ek) as (Hp & Hh & s & Hs & Ha).
  assert (holders k ((k, p) :: held) = 1 + holders k held) as Ec.
  { rewrite holders_cons. by rewrite decide_True. }
  rewrite Ec in Hs, Ha. pose proof (holders_nonneg k held) as Hnn.
  pose proof (sem_release_available s ltac:(lia)) as Hr.
  unfold keyed_release, permit_drop. rewrite Hs. unfold arc_drop, set_arc at 1. cbn [sm_arcs].
  rewrite lookup_insert_eq, bool_decide_eq_false_2 by lia.
  unfold cleanup, set_arc. cbn [sm_arcs sm_entries sm_next]. rewrite Ek, !insert_insert_eq, lookup_insert_eq.
  replace (1 + (1 + holders k held) - 1) with (1 + holders k held) by lia.
  destruct (decide (holders k held = 0)) as [E0|E0].
  - rewrite E0, !bool_decide_eq_true_2 by lia. cbn [andb sm_arcs]. unfold arc_drop. cbn [sm_arcs].
    rewrite lookup_insert_eq. rewrite bool_decide_eq_true_2 by lia. by apply (keyed_inv_remove held m k p (sem_release s)).
  - rewrite bool_decide_eq_false_2 by lia. cbn [andb].
    change (keyed_inv held (set_arc m p (sem_release s, 1 + holders k held))).
    eapply keyed_inv_set; [done|done| |lia| |lia].
    + intros k' Hk'. rewrite holders_cons. by rewrite decide_False by (cbn; congruence).
    + intros k' p' Hin. right. by right.
Qed.

Lemma available_nonneg s : 0 <= available_permits s.
Proof. pose proof (sem_try_acquire_available s). case_match; lia. Qed.

Lemma keyed_inv_bound held m k : keyed_inv held m -> 0 <= limit k -> holders k held <= limit k.
Proof.
  intros Hi Hl. destruct (sm_entries m !! k) as [p|] eqn:E.
  - destruct (ki_entry _ _ Hi k p E) as (_ & _ & s & _ & Ha). pose proof (available_nonneg s). lia.
  - rewrite (holders_absent _ _ _ Hi E). done.
Qed.
End counters.

(** A semaphore that is a count. *)
Definition counting : Semaphore := {|
  Sem := nat;
  sem_new := Z.to_nat;
  sem_try_acquire := fun s => match s with O => None | S s => Some s end;
  sem_release := S;
  available_permits := Z.of_nat;
|}.

Lemma counting_laws : @SemaphoreLaws counting.
Proof. split; cbn; [lia| |lia]. intros [|s]; lia. Qed.
End Semaphores.
