(* ===== verification/CircuitBreaker.v ===== *)
(** * The circuit breaker

    [ntgw-observability/src/circuit_breaker.rs]: at most a configured number of
    requests in flight per backend.  The controller is a record; a permit that
    goes out of scope runs [drop].  A state of the system is the controller with
    the permits that are held, and it moves when a permit is asked for or
    dropped. *)

From Stdlib Require Import ZArith Lia.
From stdpp Require Import base gmap strings numbers relations list.
From S2P Require Import Prelude Strs IrTypes Semaphores.

Module CircuitBreaker.
Import Named Semaphores.
Local Open Scope Z_scope.

Record HttpCircuitBreakerOptions := mkHttpCircuitBreakerOptions {
  cbo_backend_max_inflight_requests : Z;
}.

Inductive HttpCircuitBreakerRejection := Backend.

Record HttpCircuitBreakerSnapshot := mkHttpCircuitBreakerSnapshot {
  hcs_backend_max_inflight_requests : Z;
  hcs_backend_inflight_current : StringMap Z;
  hcs_rejected_total : Z;
  hcs_rejected_backend_total : Z;
  hcs_rejected_backend_by_name : StringMap Z;
}.

Definition observe_backend_acquire (self : HttpCircuitBreakerSnapshot) (backend : string) :
    HttpCircuitBreakerSnapshot :=
  mkHttpCircuitBreakerSnapshot (hcs_backend_max_inflight_requests self)
    (increment_named (hcs_backend_inflight_current self) backend)
    (hcs_rejected_total self) (hcs_rejected_backend_total self)
    (hcs_rejected_backend_by_name self).

Definition observe_backend_release (self : HttpCircuitBreakerSnapshot) (backend : string) :
    HttpCircuitBreakerSnapshot :=
  mkHttpCircuitBreakerSnapshot (hcs_backend_max_inflight_requests self)
    (decrement_named (hcs_backend_inflight_current self) backend)
    (hcs_rejected_total self) (hcs_rejected_backend_total self)
    (hcs_rejected_backend_by_name self).

Definition observe_backend_reject (self : HttpCircuitBreakerSnapshot) (backend : string) :
    HttpCircuitBreakerSnapshot :=
  mkHttpCircuitBreakerSnapshot (hcs_backend_max_inflight_requests self)
    (hcs_backend_inflight_current self)
    (U.wrapping_add64 (hcs_rejected_total self) 1)
    (U.wrapping_add64 (hcs_rejected_backend_total self) 1)
    (increment_named (hcs_rejected_backend_by_name self) backend).

Section breaker.
Context `{Semaphore}.

Record HttpCircuitBreakerController := mkHttpCircuitBreakerController {
  cb_backend_limit : Z;
  cb_per_backend_limits : StringMap Z;
  cb_backends : SemaphoreMap;
  cb_stats : HttpCircuitBreakerSnapshot;
}.

Record KeyedCleanup := mkKeyedCleanup {
  kc_key : string;
  kc_limit : Z;
}.

Record HttpCircuitBreakerPermit := mkHttpCircuitBreakerPermit {
  cbp_permit : option nat;
  cbp_backend : string;
  cbp_cleanup : option KeyedCleanup;
}.

Definition HttpCircuitBreakerController_new (options : HttpCircuitBreakerOptions) :
    HttpCircuitBreakerController :=
  {| cb_backend_limit := cbo_backend_max_inflight_requests options;
     cb_per_backend_limits := ∅;
     cb_backends := SemaphoreMap_new;
     cb_stats :=
       mkHttpCircuitBreakerSnapshot (cbo_backend_max_inflight_requests options) ∅ 0 0 ∅ |}.

Definition backend_limit_for (self : HttpCircuitBreakerController) (backend : string) : Z :=
  default (cb_backend_limit self) (cb_per_backend_limits self !! backend).

Definition set_backend_limit (self : HttpCircuitBreakerController) (backend : string)
    (limit : Z) : HttpCircuitBreakerController :=
  mkHttpCircuitBreakerController (cb_backend_limit self)
    (<[backend := limit]> (cb_per_backend_limits self)) (cb_backends self) (cb_stats self).

Definition set_per_backend_limits (self : HttpCircuitBreakerController)
    (limits : StringMap Z) : HttpCircuitBreakerController :=
  mkHttpCircuitBreakerController (cb_backend_limit self) limits (cb_backends self) (cb_stats self).

Definition set_state (self : HttpCircuitBreakerController) (backends : SemaphoreMap)
    (stats : HttpCircuitBreakerSnapshot) : HttpCircuitBreakerController :=
  mkHttpCircuitBreakerController (cb_backend_limit self) (cb_per_backend_limits self) backends stats.

Definition try_acquire_backend (self : HttpCircuitBreakerController) (backend : string) :
    (HttpCircuitBreakerPermit + HttpCircuitBreakerRejection) * HttpCircuitBreakerController :=
  let backend := Str.trim backend in
  let limit := backend_limit_for self backend in
  if bool_decide (limit = 0) || Str.is_empty backend
  then (inl (mkHttpCircuitBreakerPermit None backend None), self)
  else
    let '(permit, backends) := keyed_try_acquire (cb_backends self) backend limit in
    match permit with
    | Some permit =>
      (inl (mkHttpCircuitBreakerPermit (Some permit) backend (Some (mkKeyedCleanup backend limit))),
       set_state self backends (observe_backend_acquire (cb_stats self) backend))
    | None =>
      (inr Backend, set_state self backends (observe_backend_reject (cb_stats self) backend))
    end.

Definition permit_is_some (permit : option nat) : bool :=
  match permit with Some _ => true | None => false end.

(** [permit.take()] in the condition drops the semaphore permit before the body
    runs. *)
Definition HttpCircuitBreakerPermit_drop (self : HttpCircuitBreakerController)
    (permit : HttpCircuitBreakerPermit) : HttpCircuitBreakerController :=
  let backends :=
    match cbp_permit permit with Some p => permit_drop p (cb_backends self) | None => cb_backends self end in
  let stats :=
    if permit_is_some (cbp_permit permit) && negb (Str.is_empty (cbp_backend permit))
    then observe_backend_release (cb_stats self) (cbp_backend permit) else cb_stats self in
  let backends :=
    match cbp_cleanup permit with
    | Some c => cleanup backends (kc_key c) (kc_limit c)
    | None => backends
    end in
  set_state self backends stats.

Definition HttpCircuitBreakerController_snapshot (self : HttpCircuitBreakerController) :
    HttpCircuitBreakerSnapshot := cb_stats self.

(** ** The system *)

Inductive breaker_step :
    HttpCircuitBreakerController * list HttpCircuitBreakerPermit ->
    HttpCircuitBreakerController * list HttpCircuitBreakerPermit -> Prop :=
| step_acquired c held backend permit c' :
    try_acquire_backend c backend = (inl permit, c') ->
    breaker_step (c, held) (c', permit :: held)
| step_rejected c held backend c' :
    try_acquire_backend c backend = (inr Backend, c') ->
    breaker_step (c, held) (c', held)
| step_dropped c held permit held' :
    held ≡ₚ permit :: held' ->
    breaker_step (c, held) (HttpCircuitBreakerPermit_drop c permit, held').

(** The requests in flight to a backend that hold a permit of its semaphore. *)
Definition permit_holds (permit : HttpCircuitBreakerPermit) : option (string * nat) :=
  (fun p => (cbp_backend permit, p)) <$> cbp_permit permit.

Definition in_flight (backend : string) (held : list HttpCircuitBreakerPermit) : Z :=
  holders backend (omap permit_holds held).

Definition limits_ok (c : HttpCircuitBreakerController) : Prop :=
  forall backend, 0 <= backend_limit_for c backend <= MAX_PERMITS.
End breaker.
Arguments HttpCircuitBreakerController {_}.

(** ** The invariant *)
Section facts.
Context `{SemaphoreLaws} (c0 : HttpCircuitBreakerController) (Hok : limits_ok c0).
Notation limit := (backend_limit_for c0).

Definition permit_ok (permit : HttpCircuitBreakerPermit) : Prop :=
  match cbp_permit permit with
  | Some _ =>
    0 < limit (cbp_backend permit) /\ cbp_backend permit <> EmptyString /\
    cbp_cleanup permit = Some (mkKeyedCleanup (cbp_backend permit) (limit (cbp_backend permit)))
  | None => cbp_cleanup permit = None
  end.

Record breaker_inv (c : HttpCircuitBreakerController) (held : list HttpCircuitBreakerPermit) :
    Prop := {
  bi_limits : forall backend, backend_limit_for c backend = limit backend;
  bi_map : keyed_inv limit (omap permit_holds held) (cb_backends c);
  bi_permits : Forall permit_ok held;
  bi_gauge : shows (hcs_backend_inflight_current (cb_stats c)) (fun b => in_flight b held);
}.

Lemma in_flight_cons b permit held :
  in_flight b (permit :: held)
  = match permit_holds permit with
    | Some h => if decide (h.1 = b) then 1 else 0
    | None => 0
    end + in_flight b held.
Proof.
  unfold in_flight. cbn [omap list_omap]. destruct (permit_holds permit) as [h|]; [|done].
  by rewrite holders_cons.
Qed.

#[local] Instance omap_holds_Permutation : Proper ((≡ₚ) ==> (≡ₚ)) (omap permit_holds).
Proof.
  induction 1 as [|x l k _ IH|x y l|l1 l2 l3 _ IH1 _ IH2]; cbn; [done| | |by etrans].
  - case_match; [by constructor|done].
  - repeat case_match; by constructor || done.
Qed.

Lemma breaker_inv_Permutation c l k : l ≡ₚ k -> breaker_inv c l -> breaker_inv c k.
Proof.
  intros Hl [H1 H2 H3 H4]. split; [done|by rewrite <- Hl|by rewrite <- Hl|].
  intros b. specialize (H4 b). unfold in_flight in *. cbv beta in *.
  by rewrite (holders_Permutation b (omap permit_holds k) (omap permit_holds l)) by (by rewrite Hl).
Qed.

(** What an acquisition does in a state of the invariant. *)
Lemma acquire_spec c held backend :
  breaker_inv c held ->
  let b := Str.trim backend in
  let '(r, c') := try_acquire_backend c backend in
  match r with
  | inl permit =>
    (limit b = 0 \/ b = EmptyString \/ in_flight b held < limit b) /\ breaker_inv c' (permit :: held)
  | inr Backend => 0 < limit b /\ in_flight b held = limit b /\ breaker_inv c' held
  end.
Proof.
  intros [H1 H2 H3 H4] b. unfold try_acquire_backend. fold b. rewrite H1.
  pose proof (Hok b) as Hl. destruct (bool_decide (limit b = 0) || Str.is_empty b) eqn:E0.
  { split.
    - apply orb_true_iff in E0 as [E0|E0]; [bool_hyps; auto|]. apply Str.is_empty_true in E0. auto.
    - split; [done|done|by constructor|]. intros k. rewrite in_flight_cons. apply H4. }
  apply orb_false_iff in E0 as [E0 E1]. bool_hyps.
  assert (b <> EmptyString) as Hb by (intros Hb0; apply Str.is_empty_true in Hb0; congruence).
  pose proof (keyed_acquire_spec limit _ _ b H2 ltac:(lia)) as Ha.
  fold (in_flight b held) in Ha. destruct (in_flight b held <? limit b) eqn:El.
  - apply Z.ltb_lt in El. destruct Ha as (p & m' & -> & Hm). split; [by right; right|].
    split; [intros; apply H1|done| |].
    + constructor; [|done]. unfold permit_ok. cbn. split; [lia|]. by split.
    + cbn. eapply shows_increment; [exact H4| |].
      * cbv beta. unfold MAX_PERMITS, U.u64_modulus in *. lia.
      * intros k. rewrite in_flight_cons. cbn. done.
  - apply Z.ltb_ge in El. rewrite Ha. split; [lia|].
    pose proof (keyed_inv_bound limit _ _ b H2 ltac:(lia)) as Hbd. fold (in_flight b held) in Hbd.
    split; [lia|]. by split; [intros; apply H1|..].
Qed.

Lemma drop_spec c held permit :
  breaker_inv c (permit :: held) -> breaker_inv (HttpCircuitBreakerPermit_drop c permit) held.
Proof.
  intros [H1 H2 H3 H4]. apply Forall_cons in H3 as [Hp H3].
  unfold HttpCircuitBreakerPermit_drop. unfold permit_ok in Hp.
  destruct permit as [[p|] b cl]; cbn in Hp |- *.
  - destruct Hp as (Hl & Hb & ->). cbn. split; [intros; apply H1| |done|].
    + apply (keyed_release_spec limit (omap permit_holds held) (cb_backends c) b p); [exact H2|].
      pose proof (Hok b). lia.
    + assert (Str.is_empty b = false) as ->.
      { destruct (Str.is_empty b) eqn:E; [|done]. by apply Str.is_empty_true in E. }
      cbn. eapply shows_decrement; [exact H4| |].
      * intros k. cbv beta. rewrite in_flight_cons. done.
      * apply holders_nonneg.
  - rewrite Hp. cbn. split; [intros; apply H1|done|done|]. intros k. specialize (H4 k). cbv beta in H4.
    by rewrite in_flight_cons in H4.
Qed.

Lemma breaker_inv_step s s' : breaker_step s s' -> breaker_inv s.1 s.2 -> breaker_inv s'.1 s'.2.
Proof.
  destruct 1 as [c held backend permit c' E|c held backend c' E|c held permit held' Hp]; cbn; intros Hi.
  - pose proof (acquire_spec c held backend Hi) as Ha. rewrite E in Ha. apply Ha.
  - pose proof (acquire_spec c held backend Hi) as Ha. rewrite E in Ha. apply Ha.
  - apply drop_spec. by eapply breaker_inv_Permutation.
Qed.
End facts.

(** ** Theorems *)


Section witness.
#[local] Existing Instance counting.
#[local] Existing Instance counting_laws.

Definition witness_breaker : HttpCircuitBreakerController :=
  set_per_backend_limits (HttpCircuitBreakerController_new (mkHttpCircuitBreakerOptions 1)) {["b"%string := 2]}.

Definition granted (r : HttpCircuitBreakerPermit + HttpCircuitBreakerRejection) :
    list HttpCircuitBreakerPermit :=
  match r with inl permit => [permit] | inr _ => [] end.


(** A request that comes and ends. *)
Definition serve (backend : string) (c : HttpCircuitBreakerController) :
    HttpCircuitBreakerController :=
  match try_acquire_backend c backend with
  | (inl permit, c) => HttpCircuitBreakerPermit_drop c permit
  | (inr _, c) => c
  end.

Definition is_ok {A B} (r : A + B) : bool := match r with inl _ => true | inr _ => false end.

(** A limit that is raised while requests are in flight can be lost for good.
    With a limit of two and one request in flight the limit is raised to three
    and a second request comes; both end.  Nothing is in flight and the limit is
    three, but after any number of further requests a third concurrent request is
    still rejected: the semaphore of the old limit is reused, and a permit handed
    out under the new limit never removes it, since it never has three permits
    available. *)
Theorem raised_limit_is_lost n :
  let c := HttpCircuitBreakerController_new (mkHttpCircuitBreakerOptions 2) in
  let '(r1, c) := try_acquire_backend c "b" in
  let c := set_backend_limit c "b" 3 in
  let '(r2, c) := try_acquire_backend c "b" in
  match r1, r2 with
  | inl p1, inl p2 =>
    let c := HttpCircuitBreakerPermit_drop (HttpCircuitBreakerPermit_drop c p1) p2 in
    let c := Nat.iter n (serve "b") c in
    backend_limit_for c "b" = 3 /\ hcs_backend_inflight_current (cb_stats c) = ∅ /\
    let '(r3, c) := try_acquire_backend c "b" in
    let '(r4, c) := try_acquire_backend c "b" in
    let '(r5, c) := try_acquire_backend c "b" in
    is_ok r3 && is_ok r4 = true /\ r5 = inr Backend
  | _, _ => False
  end.
Proof.
  cbv zeta.
  set (c1 := try_acquire_backend _ _). vm_compute in c1. subst c1. cbv beta iota zeta.
  set (c2 := try_acquire_backend _ _). vm_compute in c2. subst c2. cbv beta iota zeta.
  set (c3 := HttpCircuitBreakerPermit_drop _ _). vm_compute in c3.
  assert (Nat.iter n (serve "b") c3 = c3) as ->.
  { induction n as [|n IH]; [done|]. change (serve "b" (Nat.iter n (serve "b") c3) = c3).
    rewrite IH. subst c3. vm_compute. reflexivity. }
  subst c3. vm_compute. done.
Qed.
End witness.
End CircuitBreaker.
