(* ===== verification/Overload.v ===== *)
(** * Admission control

    [ntgw-observability/src/overload.rs] with [overload/budget.rs] and
    [overload/stats.rs]: limits on the HTTP requests, TCP connections and UDP
    datagrams in flight, for the whole gateway, per listener and per route.

    The controllers share the statistics; a permit refers back to the semaphores
    it came from.  [World] holds the three controllers and the statistics, an
    operation is a state transformer on it, and an [Arc] of a semaphore or of a
    map of semaphores is the place where it is stored. *)

From Stdlib Require Import ZArith Lia.
From stdpp Require Import base gmap strings numbers list.
From S2P Require Import Prelude Strs IrTypes Semaphores.

Module Overload.
Import Named Semaphores.
Local Open Scope Z_scope.

Record HttpAdmissionOptions := mkHttpAdmissionOptions {
  hao_global_inflight_limit : Z;
  hao_listener_inflight_limit : Z;
  hao_route_inflight_limit : Z;
}.

Record TcpAdmissionOptions := mkTcpAdmissionOptions {
  tao_global_connection_limit : Z;
  tao_listener_connection_limit : Z;
}.

Record UdpAdmissionOptions := mkUdpAdmissionOptions {
  uao_global_datagram_limit : Z;
  uao_listener_datagram_limit : Z;
}.

Inductive HttpAdmissionRejection := GlobalInflight | ListenerInflight | RouteInflight.
Inductive TcpAdmissionRejection := GlobalConnection | ListenerConnection.
Inductive UdpAdmissionRejection := GlobalDatagram | ListenerDatagram.

Inductive BudgetScope :=
| HttpGlobal
| HttpListener (listener : string)
| HttpRoute (route : string)
| TcpGlobal
| TcpListener (listener : string)
| UdpGlobal
| UdpListener (listener : string).
#[global] Instance BudgetScope_eq_dec : EqDecision BudgetScope.
Proof. solve_decision. Defined.

(** ** Statistics

    The counters of [OverloadStats], in two groups: what is in flight, and what
    was rejected.  [OverloadStats::snapshot] copies them. *)
Record OverloadCurrent := mkOverloadCurrent {
  http_global_inflight_current : Z;
  http_listener_inflight_current : StringMap Z;
  http_route_inflight_current : StringMap Z;
  tcp_global_connections_current : Z;
  tcp_listener_connections_current : StringMap Z;
  udp_global_datagrams_current : Z;
  udp_listener_datagrams_current : StringMap Z;
}.

Record OverloadRejected := mkOverloadRejected {
  http_rejected_total : Z;
  http_rejected_global_total : Z;
  http_rejected_listener_total : Z;
  http_rejected_route_total : Z;
  http_rejected_listener_by_name : StringMap Z;
  http_rejected_route_by_name : StringMap Z;
  tcp_rejected_total : Z;
  tcp_rejected_global_total : Z;
  tcp_rejected_listener_total : Z;
  tcp_rejected_listener_by_name : StringMap Z;
  udp_rejected_total : Z;
  udp_rejected_global_total : Z;
  udp_rejected_listener_total : Z;
  udp_rejected_listener_by_name : StringMap Z;
}.

Record OverloadStats := mkOverloadStats {
  os_current : OverloadCurrent;
  os_rejected : OverloadRejected;
}.

Definition OverloadStats_default : OverloadStats :=
  mkOverloadStats (mkOverloadCurrent 0 ∅ ∅ 0 ∅ 0 ∅) (mkOverloadRejected 0 0 0 0 ∅ ∅ 0 0 0 ∅ 0 0 0 ∅).

Definition fetch_add (counter : Z) : Z := U.wrapping_add64 counter 1.
Definition saturating_decrement (counter : Z) : Z := U.saturating_sub counter 1.

(** Change the gauge of a scope. *)
Definition change_current (self : OverloadCurrent) (scope : BudgetScope) (f : Z -> Z)
    (g : StringMap Z -> string -> StringMap Z) : OverloadCurrent :=
  {| http_global_inflight_current :=
       match scope with HttpGlobal => f (http_global_inflight_current self)
                   | _ => http_global_inflight_current self end;
     http_listener_inflight_current :=
       match scope with HttpListener listener => g (http_listener_inflight_current self) listener
                   | _ => http_listener_inflight_current self end;
     http_route_inflight_current :=
       match scope with HttpRoute route => g (http_route_inflight_current self) route
                   | _ => http_route_inflight_current self end;
     tcp_global_connections_current :=
       match scope with TcpGlobal => f (tcp_global_connections_current self)
                   | _ => tcp_global_connections_current self end;
     tcp_listener_connections_current :=
       match scope with TcpListener listener => g (tcp_listener_connections_current self) listener
                   | _ => tcp_listener_connections_current self end;
     udp_global_datagrams_current :=
       match scope with UdpGlobal => f (udp_global_datagrams_current self)
                   | _ => udp_global_datagrams_current self end;
     udp_listener_datagrams_current :=
       match scope with UdpListener listener => g (udp_listener_datagrams_current self) listener
                   | _ => udp_listener_datagrams_current self end |}.

Definition observe_acquire (self : OverloadStats) (scope : BudgetScope) : OverloadStats :=
  mkOverloadStats (change_current (os_current self) scope fetch_add increment_named)
    (os_rejected self).

Definition observe_release (self : OverloadStats) (scope : BudgetScope) : OverloadStats :=
  mkOverloadStats (change_current (os_current self) scope saturating_decrement decrement_named)
    (os_rejected self).

Definition observe_reject (self : OverloadStats) (scope : BudgetScope) : OverloadStats :=
  let r := os_rejected self in
  let http := match scope with HttpGlobal | HttpListener _ | HttpRoute _ => true | _ => false end in
  let tcp := match scope with TcpGlobal | TcpListener _ => true | _ => false end in
  let udp := match scope with UdpGlobal | UdpListener _ => true | _ => false end in
  let add (hit : bool) total := if hit then fetch_add total else total in
  let is_http_listener := match scope with HttpListener _ => true | _ => false end in
  let is_http_route := match scope with HttpRoute _ => true | _ => false end in
  let is_tcp_listener := match scope with TcpListener _ => true | _ => false end in
  let is_udp_listener := match scope with UdpListener _ => true | _ => false end in
  mkOverloadStats (os_current self)
    {| http_rejected_total := add http (http_rejected_total r);
       http_rejected_global_total :=
         add (bool_decide (scope = HttpGlobal)) (http_rejected_global_total r);
       http_rejected_listener_total := add is_http_listener (http_rejected_listener_total r);
       http_rejected_route_total := add is_http_route (http_rejected_route_total r);
       http_rejected_listener_by_name :=
         match scope with HttpListener l => increment_named (http_rejected_listener_by_name r) l
                     | _ => http_rejected_listener_by_name r end;
       http_rejected_route_by_name :=
         match scope with HttpRoute l => increment_named (http_rejected_route_by_name r) l
                     | _ => http_rejected_route_by_name r end;
       tcp_rejected_total := add tcp (tcp_rejected_total r);
       tcp_rejected_global_total :=
         add (bool_decide (scope = TcpGlobal)) (tcp_rejected_global_total r);
       tcp_rejected_listener_total := add is_tcp_listener (tcp_rejected_listener_total r);
       tcp_rejected_listener_by_name :=
         match scope with TcpListener l => increment_named (tcp_rejected_listener_by_name r) l
                     | _ => tcp_rejected_listener_by_name r end;
       udp_rejected_total := add udp (udp_rejected_total r);
       udp_rejected_global_total :=
         add (bool_decide (scope = UdpGlobal)) (udp_rejected_global_total r);
       udp_rejected_listener_total := add is_udp_listener (udp_rejected_listener_total r);
       udp_rejected_listener_by_name :=
         match scope with UdpListener l => increment_named (udp_rejected_listener_by_name r) l
                     | _ => udp_rejected_listener_by_name r end |}.

(** ** Controllers and permits *)

Inductive Protocol := Http | Tcp | Udp.
#[global] Instance Protocol_eq_dec : EqDecision Protocol.
Proof. solve_decision. Defined.

(** The maps of semaphores of the controllers. *)
Inductive Entries := HttpListeners | HttpRoutes | TcpListeners | UdpListeners.
#[global] Instance Entries_eq_dec : EqDecision Entries.
Proof. solve_decision. Defined.

(** Where the semaphore of an [OwnedSemaphorePermit] is. *)
Inductive OwnedPermit := OfGlobal (protocol : Protocol) | OfEntry (entries : Entries) (arc : nat).

Record KeyedCleanup := mkKeyedCleanup {
  kc_entries : Entries;
  kc_key : string;
  kc_limit : Z;
}.

(** The [Option] around the permit is there for [drop] to take it. *)
Record TrackedPermit := mkTrackedPermit {
  tp_permit : OwnedPermit;
  tp_scope : BudgetScope;
  tp_cleanup : option KeyedCleanup;
}.

Definition AdmissionPermit : Type := list TrackedPermit.
Definition active_budget_count (self : AdmissionPermit) : nat := length self.
Definition merge (self other : AdmissionPermit) : AdmissionPermit := self ++ other.

Section controllers.
Context `{Semaphore}.

Record HttpAdmissionController := mkHttpAdmissionController {
  hac_global : option Sem;
  hac_listener_limit : Z;
  hac_route_limit : Z;
  hac_listeners : SemaphoreMap;
  hac_routes : SemaphoreMap;
}.

Record TcpAdmissionController := mkTcpAdmissionController {
  tac_global : option Sem;
  tac_listener_limit : Z;
  tac_listeners : SemaphoreMap;
}.

Record UdpAdmissionController := mkUdpAdmissionController {
  uac_global : option Sem;
  uac_listener_limit : Z;
  uac_listeners : SemaphoreMap;
}.

Record World := mkWorld {
  w_http : HttpAdmissionController;
  w_tcp : TcpAdmissionController;
  w_udp : UdpAdmissionController;
  w_stats : OverloadStats;
}.

Definition semaphore_for_limit (limit : Z) : option Sem :=
  if 0 <? limit then Some (sem_new limit) else None.

Definition HttpAdmissionController_new (options : HttpAdmissionOptions) : HttpAdmissionController :=
  mkHttpAdmissionController (semaphore_for_limit (hao_global_inflight_limit options))
    (hao_listener_inflight_limit options) (hao_route_inflight_limit options)
    SemaphoreMap_new SemaphoreMap_new.
Definition TcpAdmissionController_new (options : TcpAdmissionOptions) : TcpAdmissionController :=
  mkTcpAdmissionController (semaphore_for_limit (tao_global_connection_limit options))
    (tao_listener_connection_limit options) SemaphoreMap_new.
Definition UdpAdmissionController_new (options : UdpAdmissionOptions) : UdpAdmissionController :=
  mkUdpAdmissionController (semaphore_for_limit (uao_global_datagram_limit options))
    (uao_listener_datagram_limit options) SemaphoreMap_new.

(** *** Places *)

Definition global_of (w : World) (protocol : Protocol) : option Sem :=
  match protocol with
  | Http => hac_global (w_http w)
  | Tcp => tac_global (w_tcp w)
  | Udp => uac_global (w_udp w)
  end.

Definition set_global (w : World) (protocol : Protocol) (s : Sem) : World :=
  let h := w_http w in let t := w_tcp w in let u := w_udp w in
  match protocol with
  | Http => mkWorld (mkHttpAdmissionController (Some s) (hac_listener_limit h) (hac_route_limit h)
                       (hac_listeners h) (hac_routes h)) t u (w_stats w)
  | Tcp => mkWorld h (mkTcpAdmissionController (Some s) (tac_listener_limit t) (tac_listeners t)) u
             (w_stats w)
  | Udp => mkWorld h t (mkUdpAdmissionController (Some s) (uac_listener_limit u) (uac_listeners u))
             (w_stats w)
  end.

Definition entries_of (w : World) (e : Entries) : SemaphoreMap :=
  match e with
  | HttpListeners => hac_listeners (w_http w)
  | HttpRoutes => hac_routes (w_http w)
  | TcpListeners => tac_listeners (w_tcp w)
  | UdpListeners => uac_listeners (w_udp w)
  end.

Definition set_entries (w : World) (e : Entries) (m : SemaphoreMap) : World :=
  let h := w_http w in let t := w_tcp w in let u := w_udp w in
  match e with
  | HttpListeners => mkWorld (mkHttpAdmissionController (hac_global h) (hac_listener_limit h)
                                (hac_route_limit h) m (hac_routes h)) t u (w_stats w)
  | HttpRoutes => mkWorld (mkHttpAdmissionController (hac_global h) (hac_listener_limit h)
                             (hac_route_limit h) (hac_listeners h) m) t u (w_stats w)
  | TcpListeners => mkWorld h (mkTcpAdmissionController (tac_global t) (tac_listener_limit t) m) u
                      (w_stats w)
  | UdpListeners => mkWorld h t (mkUdpAdmissionController (uac_global u) (uac_listener_limit u) m)
                      (w_stats w)
  end.

Definition set_stats (w : World) (stats : OverloadStats) : World :=
  mkWorld (w_http w) (w_tcp w) (w_udp w) stats.

(** ** Budgets *)

Definition AM (A : Type) : Type := World -> A * World.
#[global] Instance AM_ret : MRet AM := fun A x w => (x, w).
#[global] Instance AM_bind : MBind AM := fun A B f m w => let '(x, w) := m w in f x w.

Definition try_acquire_scope {E} (protocol : Protocol) (scope : BudgetScope) (rejection : E) :
    AM (option TrackedPermit + E) := fun w =>
  match global_of w protocol with
  | None => (inl None, w)
  | Some semaphore =>
    match sem_try_acquire semaphore with
    | Some semaphore =>
      let w := set_global w protocol semaphore in
      (inl (Some (mkTrackedPermit (OfGlobal protocol) scope None)),
       set_stats w (observe_acquire (w_stats w) scope))
    | None => (inr rejection, set_stats w (observe_reject (w_stats w) scope))
    end
  end.

Definition try_acquire_keyed_scope {E} (entries : Entries) (limit : Z) (key : string)
    (scope_builder : string -> BudgetScope) (rejection : E) :
    AM (option TrackedPermit + E) := fun w =>
  let key := Str.trim key in
  if bool_decide (limit = 0) || Str.is_empty key then (inl None, w)
  else
    let '(permit, m) := keyed_try_acquire (entries_of w entries) key limit in
    let w := set_entries w entries m in
    let scope := scope_builder key in
    match permit with
    | Some p =>
      (inl (Some (mkTrackedPermit (OfEntry entries p) scope
                    (Some (mkKeyedCleanup entries key limit)))),
       set_stats w (observe_acquire (w_stats w) scope))
    | None => (inr rejection, set_stats w (observe_reject (w_stats w) scope))
    end.

(** The drop of a permit. *)
Definition TrackedPermit_drop (permit : TrackedPermit) : AM unit := fun w =>
  let w := set_stats w (observe_release (w_stats w) (tp_scope permit)) in
  let w :=
    match tp_permit permit with
    | OfGlobal protocol =>
      match global_of w protocol with
      | Some s => set_global w protocol (sem_release s)
      | None => w
      end
    | OfEntry entries p => set_entries w entries (permit_drop p (entries_of w entries))
    end in
  (tt,
   match tp_cleanup permit with
   | Some c => set_entries w (kc_entries c) (cleanup (entries_of w (kc_entries c)) (kc_key c) (kc_limit c))
   | None => w
   end).

Fixpoint drop_permits (permits : AdmissionPermit) : AM unit :=
  match permits with
  | [] => mret tt
  | permit :: permits => _ ← TrackedPermit_drop permit; drop_permits permits
  end.

(** [if let Some(permit) = attempt? { permits.push(permit); }]: an error returns
    early and drops the local [permits]. *)
Definition push_permit {E} (permits : AdmissionPermit) (attempt : AM (option TrackedPermit + E)) :
    AM (AdmissionPermit + E) :=
  r ← attempt;
  match r with
  | inl (Some permit) => mret (inl (permits ++ [permit]))
  | inl None => mret (inl permits)
  | inr e => _ ← drop_permits permits; mret (inr e)
  end.

(** [?] on a result without local permits. *)
Definition and_then {A B E} (m : AM (A + E)) (f : A -> AM (B + E)) : AM (B + E) :=
  r ← m;
  match r with inl x => f x | inr e => mret (inr e) end.

(** ** Requests *)

Definition http_try_acquire_listener (listener : string) :
    AM (AdmissionPermit + HttpAdmissionRejection) := fun w =>
  and_then (push_permit [] (try_acquire_scope Http HttpGlobal GlobalInflight)) (fun permits =>
    push_permit permits
      (try_acquire_keyed_scope HttpListeners (hac_listener_limit (w_http w)) listener HttpListener
         ListenerInflight)) w.

Definition http_try_acquire_route (route : string) :
    AM (AdmissionPermit + HttpAdmissionRejection) := fun w =>
  push_permit []
    (try_acquire_keyed_scope HttpRoutes (hac_route_limit (w_http w)) route HttpRoute RouteInflight) w.

Definition http_route_scope_enabled (self : HttpAdmissionController) : bool :=
  0 <? hac_route_limit self.

Definition http_try_acquire (listener route : string) :
    AM (AdmissionPermit + HttpAdmissionRejection) :=
  and_then (http_try_acquire_listener listener) (fun permit =>
    r ← http_try_acquire_route route;
    match r with
    | inl other => mret (inl (merge permit other))
    | inr e => _ ← drop_permits permit; mret (inr e)
    end).

Definition tcp_try_acquire (listener : string) : AM (AdmissionPermit + TcpAdmissionRejection) :=
  fun w =>
  and_then (push_permit [] (try_acquire_scope Tcp TcpGlobal GlobalConnection)) (fun permits =>
    push_permit permits
      (try_acquire_keyed_scope TcpListeners (tac_listener_limit (w_tcp w)) listener TcpListener
         ListenerConnection)) w.

Definition udp_try_acquire (listener : string) : AM (AdmissionPermit + UdpAdmissionRejection) :=
  fun w =>
  and_then (push_permit [] (try_acquire_scope Udp UdpGlobal GlobalDatagram)) (fun permits =>
    push_permit permits
      (try_acquire_keyed_scope UdpListeners (uac_listener_limit (w_udp w)) listener UdpListener
         ListenerDatagram)) w.
End controllers.
Arguments World {_}.
End Overload.
