(* ===== verification/OverloadFacts.v ===== *)
(** * What admission control guarantees

    In every state that requests and dropped permits lead to, a request is
    admitted exactly when none of the scopes it needs is full, a rejected request
    leaves nothing behind, and the gauges show what is in flight. *)

From Stdlib Require Import ZArith Lia.
From stdpp Require Import base gmap strings numbers relations list.
From S2P Require Import Prelude Strs IrTypes Semaphores Overload.

Module OverloadFacts.
Import Named Semaphores Overload.
Local Open Scope Z_scope.

(** ** Gauges *)

Definition gauge (stats : OverloadStats) (scope : BudgetScope) : Z :=
  let c := os_current stats in
  match scope with
  | HttpGlobal => http_global_inflight_current c
  | HttpListener k => default 0 (http_listener_inflight_current c !! k)
  | HttpRoute k => default 0 (http_route_inflight_current c !! k)
  | TcpGlobal => tcp_global_connections_current c
  | TcpListener k => default 0 (tcp_listener_connections_current c !! k)
  | UdpGlobal => udp_global_datagrams_current c
  | UdpListener k => default 0 (udp_listener_datagrams_current c !! k)
  end.

Lemma increment_default items key k :
  default 0 (increment_named items key !! k)
  = if decide (key = k) then U.wrapping_add64 (default 0 (items !! k)) 1 else default 0 (items !! k).
Proof.
  unfold increment_named. destruct (decide (key = k)) as [<-|Hn].
  - by rewrite lookup_insert_eq.
  - by rewrite lookup_insert_ne.
Qed.

Lemma decrement_default items key k :
  0 < default 0 (items !! key) ->
  default 0 (decrement_named items key !! k)
  = if decide (key = k) then default 0 (items !! k) - 1 else default 0 (items !! k).
Proof.
  unfold decrement_named, U.saturating_sub. intros Hp.
  destruct (items !! key) as [v|] eqn:E; cbn in Hp; [|lia]. rewrite Z.max_r by lia.
  destruct (decide (key = k)) as [<-|Hn].
  - rewrite E. cbn. case_bool_decide as Ev; [rewrite lookup_delete_eq; cbn; lia|by rewrite lookup_insert_eq].
  - case_bool_decide; [by rewrite lookup_delete_ne|by rewrite lookup_insert_ne].
Qed.

Lemma wrap_inc x : 0 <= x -> x + 1 < U.u64_modulus -> U.wrapping_add64 x 1 = x + 1.
Proof. intros. unfold U.wrapping_add64. apply U.wrap64_small. lia. Qed.

Lemma gauge_acquire stats sc sc' :
  0 <= gauge stats sc -> gauge stats sc + 1 < U.u64_modulus ->
  gauge (observe_acquire stats sc) sc'
  = (if decide (sc = sc') then 1 else 0) + gauge stats sc'.
Proof.
  intros H0 H1. destruct (decide (sc = sc')) as [<-|Hn].
  - rewrite Z.add_comm. destruct sc; cbn in H0, H1 |- *;
      rewrite ?increment_default, ?decide_True by done; unfold fetch_add; by rewrite wrap_inc.
  - rewrite Z.add_0_l. destruct sc, sc'; try done; cbn;
      rewrite increment_default, decide_False by congruence; done.
Qed.

Lemma gauge_release stats sc sc' :
  0 < gauge stats sc ->
  gauge (observe_release stats sc) sc'
  = gauge stats sc' - (if decide (sc = sc') then 1 else 0).
Proof.
  intros H0. destruct (decide (sc = sc')) as [<-|Hn].
  - destruct sc; cbn in H0 |- *; unfold saturating_decrement, U.saturating_sub;
      rewrite ?decrement_default, ?decide_True by done; lia.
  - rewrite Z.sub_0_r. destruct sc, sc'; try done; cbn in H0 |- *;
      rewrite decrement_default, decide_False by (done || congruence); done.
Qed.

Lemma gauge_reject stats sc sc' : gauge (observe_reject stats sc) sc' = gauge stats sc'.
Proof. done. Qed.

(** ** Counting permits *)

Definition count (scope : BudgetScope) (held : list TrackedPermit) : Z :=
  Z.of_nat (length (filter (fun p => tp_scope p = scope) held)).

Lemma count_cons scope p held :
  count scope (p :: held) = (if decide (tp_scope p = scope) then 1 else 0) + count scope held.
Proof. unfold count. rewrite filter_cons. case_decide; cbn [length]; lia. Qed.

Lemma count_app scope l k : count scope (l ++ k) = count scope l + count scope k.
Proof. unfold count. rewrite filter_app, length_app. lia. Qed.

Lemma count_nonneg scope held : 0 <= count scope held.
Proof. unfold count. lia. Qed.

#[global] Instance count_Permutation scope : Proper ((≡ₚ) ==> (=)) (count scope).
Proof. intros l k Hl. unfold count. by rewrite Hl. Qed.

(** ** The invariant *)

Record AdmissionOptions := mkAdmissionOptions {
  ao_http : HttpAdmissionOptions;
  ao_tcp : TcpAdmissionOptions;
  ao_udp : UdpAdmissionOptions;
}.

Definition World_new `{Semaphore} (options : AdmissionOptions) : World :=
  mkWorld (HttpAdmissionController_new (ao_http options))
    (TcpAdmissionController_new (ao_tcp options)) (UdpAdmissionController_new (ao_udp options))
    OverloadStats_default.

Definition global_limit (o : AdmissionOptions) (protocol : Protocol) : Z :=
  match protocol with
  | Http => hao_global_inflight_limit (ao_http o)
  | Tcp => tao_global_connection_limit (ao_tcp o)
  | Udp => uao_global_datagram_limit (ao_udp o)
  end.

Definition entries_limit (o : AdmissionOptions) (e : Entries) : Z :=
  match e with
  | HttpListeners => hao_listener_inflight_limit (ao_http o)
  | HttpRoutes => hao_route_inflight_limit (ao_http o)
  | TcpListeners => tao_listener_connection_limit (ao_tcp o)
  | UdpListeners => uao_listener_datagram_limit (ao_udp o)
  end.

Definition scope_global (protocol : Protocol) : BudgetScope :=
  match protocol with Http => HttpGlobal | Tcp => TcpGlobal | Udp => UdpGlobal end.

Definition scope_entry (e : Entries) (key : string) : BudgetScope :=
  match e with
  | HttpListeners => HttpListener key
  | HttpRoutes => HttpRoute key
  | TcpListeners => TcpListener key
  | UdpListeners => UdpListener key
  end.

Definition scope_limit (o : AdmissionOptions) (scope : BudgetScope) : Z :=
  match scope with
  | HttpGlobal => global_limit o Http
  | TcpGlobal => global_limit o Tcp
  | UdpGlobal => global_limit o Udp
  | HttpListener _ => entries_limit o HttpListeners
  | HttpRoute _ => entries_limit o HttpRoutes
  | TcpListener _ => entries_limit o TcpListeners
  | UdpListener _ => entries_limit o UdpListeners
  end.

(** The limits are [usize]s that a semaphore can have. *)
Definition options_ok (o : AdmissionOptions) : Prop :=
  forall scope, 0 <= scope_limit o scope <= MAX_PERMITS.

Lemma scope_limit_entry o e k : scope_limit o (scope_entry e k) = entries_limit o e.
Proof. by destruct e. Qed.
Lemma scope_limit_global o p : scope_limit o (scope_global p) = global_limit o p.
Proof. by destruct p. Qed.
Lemma scope_entry_inj e e' k k' : scope_entry e k = scope_entry e' k' <-> e = e' /\ k = k'.
Proof. destruct e, e'; cbn; split; intros; destruct_and?; simplify_eq; done. Qed.
Lemma scope_global_inj p p' : scope_global p = scope_global p' -> p = p'.
Proof. by destruct p, p'. Qed.
Lemma scope_entry_global e k p : scope_entry e k <> scope_global p.
Proof. by destruct e, p. Qed.

Section facts.
Context `{SemaphoreLaws} (o : AdmissionOptions) (Hok : options_ok o).

Definition permit_ok (p : TrackedPermit) : Prop :=
  match tp_permit p with
  | OfGlobal protocol => tp_scope p = scope_global protocol /\ tp_cleanup p = None
  | OfEntry e _ =>
    exists k, tp_scope p = scope_entry e k /\ 0 < entries_limit o e /\
              tp_cleanup p = Some (mkKeyedCleanup e k (entries_limit o e))
  end.

(** The semaphore of the map [e] that a permit holds. *)
Definition hold (e : Entries) (p : TrackedPermit) : option (string * nat) :=
  match tp_permit p, tp_cleanup p with
  | OfEntry e' a, Some c => if decide (e' = e) then Some (kc_key c, a) else None
  | _, _ => None
  end.

Definition limit_in (w : World) (e : Entries) : Z :=
  match e with
  | HttpListeners => hac_listener_limit (w_http w)
  | HttpRoutes => hac_route_limit (w_http w)
  | TcpListeners => tac_listener_limit (w_tcp w)
  | UdpListeners => uac_listener_limit (w_udp w)
  end.

Record Inv (w : World) (held : list TrackedPermit) : Prop := {
  inv_limits : forall e, limit_in w e = entries_limit o e;
  inv_global : forall p,
    match global_of w p with
    | Some s => 0 < global_limit o p /\
                available_permits s + count (scope_global p) held = global_limit o p
    | None => global_limit o p = 0 /\ count (scope_global p) held = 0
    end;
  inv_entries : forall e, keyed_inv (fun _ => entries_limit o e) (omap (hold e) held) (entries_of w e);
  inv_permits : Forall permit_ok held;
  inv_gauge : forall sc, gauge (w_stats w) sc = count sc held;
}.

(** *** Places *)

Lemma entries_set_entries w e m e' :
  entries_of (set_entries w e m) e' = if decide (e = e') then m else entries_of w e'.
Proof. by destruct e, e'. Qed.
Lemma entries_set_global w p s e : entries_of (set_global w p s) e = entries_of w e.
Proof. by destruct p, e. Qed.
Lemma entries_set_stats w stats e : entries_of (set_stats w stats) e = entries_of w e.
Proof. by destruct e. Qed.
Lemma global_set_global w p s p' :
  global_of (set_global w p s) p' = if decide (p = p') then Some s else global_of w p'.
Proof. by destruct p, p'. Qed.
Lemma global_set_entries w e m p : global_of (set_entries w e m) p = global_of w p.
Proof. by destruct e, p. Qed.
Lemma global_set_stats w stats p : global_of (set_stats w stats) p = global_of w p.
Proof. by destruct p. Qed.
Lemma limit_set_entries w e m e' : limit_in (set_entries w e m) e' = limit_in w e'.
Proof. by destruct e, e'. Qed.
Lemma limit_set_global w p s e : limit_in (set_global w p s) e = limit_in w e.
Proof. by destruct p, e. Qed.
Lemma limit_set_stats w stats e : limit_in (set_stats w stats) e = limit_in w e.
Proof. by destruct e. Qed.
Lemma stats_set_entries w e m : w_stats (set_entries w e m) = w_stats w.
Proof. by destruct e. Qed.
Lemma stats_set_global w p s : w_stats (set_global w p s) = w_stats w.
Proof. by destruct p. Qed.

(** *** Holders and counts *)

Lemma hold_scope e p : permit_ok p ->
  match hold e p with
  | Some (k, _) => tp_scope p = scope_entry e k
  | None => forall k, tp_scope p <> scope_entry e k
  end.
Proof.
  unfold permit_ok, hold. destruct (tp_permit p) as [q|e' a].
  - intros [-> _] k Hk. by apply (scope_entry_global e k q).
  - intros (k & -> & _ & ->). cbn. case_decide as Hd; [by subst|]. intros k' [-> _]%scope_entry_inj.
    done.
Qed.

Lemma holders_count e k held : Forall permit_ok held ->
  holders k (omap (hold e) held) = count (scope_entry e k) held.
Proof.
  induction 1 as [|p held Hp _ IH]; [done|]. rewrite count_cons. cbn [omap list_omap].
  pose proof (hold_scope e p Hp) as Hs. destruct (hold e p) as [[k' a]|].
  - rewrite holders_cons, IH, Hs. cbn [fst]. f_equal. destruct (decide (k' = k)) as [->|Hn].
    + by rewrite decide_True.
    + rewrite decide_False; [done|]. by intros [_ ?]%scope_entry_inj.
  - rewrite decide_False by done. by rewrite IH.
Qed.

#[local] Instance omap_hold_Permutation e : Proper ((≡ₚ) ==> (≡ₚ)) (omap (hold e)).
Proof.
  induction 1 as [|x l k _ IH|x y l|l1 l2 l3 _ IH1 _ IH2]; cbn; [done| | |by etrans].
  - case_match; [by constructor|done].
  - repeat case_match; by constructor || done.
Qed.

Lemma Inv_Permutation w l k : l ≡ₚ k -> Inv w l -> Inv w k.
Proof.
  intros Hl [H1 H2 H3 H4 H5]. split; [done| | |by rewrite <- Hl|].
  - intros p. rewrite <- (count_Permutation _ _ _ Hl). apply H2.
  - intros e. eapply keyed_inv_Permutation; [|done|apply H3]. by rewrite Hl.
  - intros sc. rewrite <- (count_Permutation _ _ _ Hl). apply H5.
Qed.

Lemma scope_cases sc : (exists p, sc = scope_global p) \/ exists e k, sc = scope_entry e k.
Proof.
  destruct sc; [by left; exists Http|by right; exists HttpListeners; eexists|
    by right; exists HttpRoutes; eexists|by left; exists Tcp|
    by right; exists TcpListeners; eexists|by left; exists Udp|
    by right; exists UdpListeners; eexists].
Qed.

Lemma count_bound w held sc : Inv w held -> count sc held <= scope_limit o sc.
Proof.
  intros Hi. destruct (scope_cases sc) as [[p ->]|(e & k & ->)].
  - rewrite scope_limit_global. pose proof (inv_global _ _ Hi p) as Hp.
    destruct (global_of w p) as [s|]; [pose proof (available_nonneg s)|]; lia.
  - rewrite scope_limit_entry, <- holders_count by apply Hi.
    apply (keyed_inv_bound (fun _ => entries_limit o e) _ (entries_of w e) k); [apply Hi|].
    rewrite <- (scope_limit_entry o e k). apply Hok.
Qed.

(** *** The steps of an operation *)

Definition full (held : list TrackedPermit) (sc : BudgetScope) : bool :=
  scope_limit o sc <=? count sc held.

(** [m] asks for the scope of [slot], if there is one. *)
Definition attempts {E} (slot : option BudgetScope) (e : E) (m : AM (option TrackedPermit + E)) : Prop :=
  forall w held, Inv w held ->
    match slot with
    | None => m w = (inl None, w)
    | Some sc =>
      let '(r, w') := m w in
      if full held sc then r = inr e /\ Inv w' held
      else exists p, r = inl (Some p) /\ tp_scope p = sc /\ Inv w' (p :: held)
    end.

Definition global_slot (p : Protocol) : option BudgetScope :=
  if 0 <? global_limit o p then Some (scope_global p) else None.
Definition entry_slot (e : Entries) (key : string) : option BudgetScope :=
  if bool_decide (entries_limit o e = 0) || Str.is_empty (Str.trim key) then None
  else Some (scope_entry e (Str.trim key)).

Lemma Inv_reject w held sc : Inv w held -> Inv (set_stats w (observe_reject (w_stats w) sc)) held.
Proof.
  intros [H1 H2 H3 H4 H5]. split.
  - intros e. rewrite limit_set_stats. apply H1.
  - intros p. rewrite global_set_stats. apply H2.
  - intros e. rewrite entries_set_stats. apply H3.
  - done.
  - intros sc'. cbn. rewrite gauge_reject. apply H5.
Qed.

Lemma gauge_room w held sc : Inv w held -> full held sc = false ->
  0 <= gauge (w_stats w) sc /\ gauge (w_stats w) sc + 1 < U.u64_modulus.
Proof.
  intros Hi Hf. rewrite (inv_gauge _ _ Hi). pose proof (count_nonneg sc held). pose proof (Hok sc).
  apply Z.leb_gt in Hf. unfold MAX_PERMITS, U.u64_modulus in *. lia.
Qed.

Lemma attempts_global {E} p (e : E) :
  attempts (global_slot p) e (try_acquire_scope p (scope_global p) e).
Proof.
  intros w held Hi. unfold global_slot, try_acquire_scope.
  pose proof (inv_global _ _ Hi p) as Hp. destruct (global_of w p) as [s|] eqn:Eg.
  2:{ destruct Hp as [-> _]. done. }
  destruct Hp as [Hl Ha]. rewrite (proj2 (Z.ltb_lt _ _)) by done.
  pose proof (sem_try_acquire_available s) as Ht.
  destruct (sem_try_acquire s) as [s'|].
  - assert (full held (scope_global p) = false) as Hf.
    { unfold full. rewrite scope_limit_global. apply Z.leb_gt. lia. }
    rewrite Hf. eexists. split; [done|]. split; [done|].
    destruct (gauge_room _ _ _ Hi Hf) as [Hg0 Hg1]. destruct Hi as [H1 H2 H3 H4 H5]. split.
    + intros e'. rewrite limit_set_stats, limit_set_global. apply H1.
    + intros p'. rewrite global_set_stats, global_set_global, count_cons. cbn [tp_scope].
      specialize (H2 p'). destruct (decide (p = p')) as [<-|Hn].
      * rewrite decide_True by done. lia.
      * rewrite decide_False by (by intros ?%scope_global_inj). done.
    + intros e'. rewrite entries_set_stats, entries_set_global. apply H3.
    + constructor; [|done]. by split.
    + intros sc. cbn [set_stats w_stats]. rewrite stats_set_global, gauge_acquire by done.
      by rewrite count_cons, H5.
  - assert (full held (scope_global p) = true) as Hf.
    { unfold full. rewrite scope_limit_global. apply Z.leb_le. lia. }
    rewrite Hf. split; [done|]. by apply Inv_reject.
Qed.

Lemma attempts_entry {E} en key (e : E) :
  attempts (entry_slot en key) e
    (try_acquire_keyed_scope en (entries_limit o en) key (scope_entry en) e).
Proof.
  intros w held Hi. unfold entry_slot, try_acquire_keyed_scope.
  set (k := Str.trim key). destruct (bool_decide (entries_limit o en = 0) || Str.is_empty k) eqn:E0; [done|]. apply orb_false_iff in E0 as [E0 E1]. bool_hyps.
  assert (0 < entries_limit o en <= MAX_PERMITS) as Hl.
  { pose proof (Hok (scope_entry en k)). rewrite scope_limit_entry in *. lia. }
  pose proof (keyed_acquire_spec (fun _ => entries_limit o en) _ _ k (inv_entries _ _ Hi en) Hl) as Ha.
  cbv beta in Ha. rewrite holders_count in Ha by apply Hi.
  destruct (full held (scope_entry en k)) eqn:Hf.
  - assert (count (scope_entry en k) held <? entries_limit o en = false) as Hc.
    { unfold full in Hf. rewrite scope_limit_entry in Hf. apply Z.ltb_ge. by apply Z.leb_le in Hf. }
    rewrite Hc in Ha. rewrite Ha. split; [done|].
    assert (set_entries w en (entries_of w en) = w) as -> by (destruct w as [[] [] [] ?], en; done).
    by apply Inv_reject.
  - assert (count (scope_entry en k) held <? entries_limit o en = true) as Hc.
    { unfold full in Hf. rewrite scope_limit_entry in Hf. apply Z.ltb_lt. by apply Z.leb_gt in Hf. }
    rewrite Hc in Ha. destruct Ha as (p & m' & -> & Hm).
    eexists. split; [done|]. split; [done|].
    destruct (gauge_room _ _ _ Hi Hf) as [Hg0 Hg1]. destruct Hi as [H1 H2 H3 H4 H5]. split.
    + intros e'. rewrite limit_set_stats, limit_set_entries. apply H1.
    + intros p'. rewrite global_set_stats, global_set_entries, count_cons. cbn [tp_scope].
      rewrite decide_False by apply scope_entry_global. apply H2.
    + intros e'. rewrite entries_set_stats, entries_set_entries. cbn [omap list_omap].
      unfold hold at 1. cbn [tp_permit tp_cleanup kc_key].
      destruct (decide (en = e')) as [<-|Hn]; [exact Hm|apply H3].
    + constructor; [|done]. exists k. split; [done|]. split; [lia|done].
    + intros sc. cbn [set_stats w_stats]. rewrite stats_set_entries, gauge_acquire by done.
      by rewrite count_cons, H5.
Qed.

(** *** Dropping permits *)

Lemma Inv_drop w held p : Inv w (p :: held) -> Inv (TrackedPermit_drop p w).2 held.
Proof.
  intros Hi. assert (0 < gauge (w_stats w) (tp_scope p)) as Hg.
  { rewrite (inv_gauge _ _ Hi), count_cons, decide_True by done.
    pose proof (count_nonneg (tp_scope p) held). lia. }
  assert (forall sc, gauge (observe_release (w_stats w) (tp_scope p)) sc = count sc held) as Hga.
  { intros sc. rewrite gauge_release, (inv_gauge _ _ Hi), count_cons by done. lia. }
  destruct Hi as [H1 H2 H3 H4 H5]. apply Forall_cons in H4 as [Hp H4].
  unfold TrackedPermit_drop. unfold permit_ok in Hp. destruct p as [[q|e a] sc c]; cbn [tp_permit tp_scope tp_cleanup snd] in *.
  - destruct Hp as [-> ->]. rewrite global_set_stats. pose proof (H2 q) as Hq. rewrite count_cons in Hq.
    cbn [tp_scope] in Hq. rewrite decide_True in Hq by done. pose proof (count_nonneg (scope_global q) held).
    destruct (global_of w q) as [s|] eqn:Eq; [|lia].
    pose proof (Hok (scope_global q)) as Hl. rewrite scope_limit_global in Hl.
    pose proof (sem_release_available s ltac:(lia)) as Hr. split.
    + intros e'. rewrite limit_set_global, limit_set_stats. apply H1.
    + intros p'. rewrite global_set_global, global_set_stats. specialize (H2 p').
      rewrite count_cons in H2. cbn [tp_scope] in H2. destruct (decide (q = p')) as [<-|Hn]; [lia|].
      by rewrite decide_False in H2 by (by intros ?%scope_global_inj).
    + intros e'. rewrite entries_set_global, entries_set_stats. apply H3.
    + done.
    + intros sc'. by rewrite stats_set_global.
  - destruct Hp as (k & -> & Hl & ->). cbn [kc_entries kc_key kc_limit].
    rewrite entries_set_entries, decide_True, entries_set_stats by done. split.
    + intros e'. rewrite !limit_set_entries, limit_set_stats. apply H1.
    + intros p'. rewrite !global_set_entries, global_set_stats. specialize (H2 p').
      rewrite count_cons in H2. cbn [tp_scope] in H2. by rewrite decide_False in H2 by apply scope_entry_global.
    + intros e'. rewrite !entries_set_entries, entries_set_stats. specialize (H3 e').
      cbn [omap list_omap] in H3. unfold hold at 1 in H3. cbn [tp_permit tp_cleanup kc_key] in H3.
      destruct (decide (e = e')) as [<-|Hn]; [|done].
      apply (keyed_release_spec (fun _ => entries_limit o e) _ (entries_of w e) k a H3).
      pose proof (Hok (scope_entry e k)). rewrite scope_limit_entry in *. lia.
    + done.
    + intros sc'. by rewrite !stats_set_entries.
Qed.

Lemma Inv_drops permits : forall w held, Inv w (permits ++ held) -> Inv (drop_permits permits w).2 held.
Proof.
  induction permits as [|p permits IH]; intros w held Hi; [done|]. cbn [drop_permits].
  unfold mbind, AM_bind. pose proof (Inv_drop w (permits ++ held) p Hi) as Hd.
  destruct (TrackedPermit_drop p w) as [u w']. by apply IH.
Qed.

(** *** Requests *)

(** The outcome of a request that needs the scopes of [slots] in this order. *)
Definition outcome {E} (reject : BudgetScope -> E) (held : list TrackedPermit)
    (slots : list (option BudgetScope)) (r : AdmissionPermit + E) (w : World) : Prop :=
  match List.find (full held) (omap id slots) with
  | Some sc => r = inr (reject sc) /\ Inv w held
  | None => exists permits,
      r = inl permits /\ tp_scope <$> permits = omap id slots /\ Inv w (permits ++ held)
  end.

Lemma count_absent sc permits : sc ∉ tp_scope <$> permits -> count sc permits = 0.
Proof.
  induction permits as [|p permits IH]; [done|]. cbn. intros Hn. rewrite count_cons.
  rewrite decide_False, IH by set_solver. done.
Qed.

Lemma full_app permits held sc :
  sc ∉ tp_scope <$> permits -> full (permits ++ held) sc = full held sc.
Proof. intros Hn. unfold full. by rewrite count_app, count_absent. Qed.

Lemma find_app {A} (f : A -> bool) l k :
  List.find f (l ++ k) = match List.find f l with Some x => Some x | None => List.find f k end.
Proof. induction l as [|x l IH]; [done|]. cbn. by destruct (f x). Qed.

Lemma push_spec {E} (reject : BudgetScope -> E) slots slot m e permits w held :
  attempts slot e m -> (forall sc, slot = Some sc -> reject sc = e /\ sc ∉ omap id slots) ->
  List.find (full held) (omap id slots) = None ->
  tp_scope <$> permits = omap id slots -> Inv w (permits ++ held) ->
  let '(r, w') := push_permit permits m w in outcome reject held (slots ++ [slot]) r w'.
Proof.
  intros Hm Hslot Hf Hs Hi. unfold push_permit, mbind, AM_bind, outcome.
  rewrite omap_app, find_app, Hf. specialize (Hm w _ Hi). destruct slot as [sc|]; cbn.
  - destruct (Hslot sc eq_refl) as [<- Hn]. destruct (m w) as [r w'].
    rewrite full_app in Hm by (by rewrite Hs). destruct (full held sc).
    + destruct Hm as [-> Hi']. pose proof (Inv_drops permits w' held Hi') as Hd.
      by destruct (drop_permits permits w').
    + destruct Hm as (p & -> & Hp & Hi'). exists (permits ++ [p]). split; [done|].
      rewrite fmap_app, Hs. cbn. rewrite Hp. split; [done|].
      eapply Inv_Permutation; [|exact Hi']. rewrite <- app_assoc. cbn. apply Permutation_middle.
  - rewrite Hm. exists permits. rewrite app_nil_r. done.
Qed.

Lemma and_then_spec {E} (reject : BudgetScope -> E) slots slots' (m : AM (AdmissionPermit + E)) f w held :
  (let '(r, w') := m w in outcome reject held slots r w') ->
  (forall permits w', List.find (full held) (omap id slots) = None ->
     tp_scope <$> permits = omap id slots -> Inv w' (permits ++ held) ->
     let '(r, w'') := f permits w' in outcome reject held (slots ++ slots') r w'') ->
  let '(r, w') := and_then m f w in outcome reject held (slots ++ slots') r w'.
Proof.
  intros Hm Hf. unfold and_then, mbind, AM_bind. destruct (m w) as [r w']. unfold outcome in Hm.
  destruct (List.find (full held) (omap id slots)) as [sc|] eqn:Ef.
  - destruct Hm as [-> Hi]. unfold mret, AM_ret, outcome. by rewrite omap_app, find_app, Ef.
  - destruct Hm as (permits & -> & Hs & Hi). by apply Hf.
Qed.

Lemma first_push {E} (reject : BudgetScope -> E) slot m e w held :
  attempts slot e m -> (forall sc, slot = Some sc -> reject sc = e) -> Inv w held ->
  let '(r, w') := push_permit [] m w in outcome reject held [slot] r w'.
Proof.
  intros Hm Hr Hi. apply (push_spec reject [] slot m e); try done.
  intros sc Hsc. split; [auto|apply not_elem_of_nil].
Qed.

(** The global semaphore of a protocol and then a map of semaphores. *)
Lemma two_scopes {E} (reject : BudgetScope -> E) p en key e1 e2 w held :
  reject (scope_global p) = e1 -> (forall k, reject (scope_entry en k) = e2) -> Inv w held ->
  let '(r, w') :=
    and_then (push_permit [] (try_acquire_scope p (scope_global p) e1)) (fun permits =>
      push_permit permits (try_acquire_keyed_scope en (entries_limit o en) key (scope_entry en) e2)) w in
  outcome reject held [global_slot p; entry_slot en key] r w'.
Proof.
  intros Hr1 Hr2 Hi. apply (and_then_spec reject [global_slot p] [entry_slot en key]).
  - apply (first_push reject _ _ e1); [apply attempts_global| |done].
    unfold global_slot. intros sc. case_match; [|done]. by intros [= <-].
  - intros permits w' Hf Hs Hi'. eapply (push_spec reject [global_slot p]); [apply attempts_entry| |done..].
    unfold entry_slot. intros sc. case_match; [done|]. intros [= <-]. split; [done|].
    unfold global_slot. case_match; cbn; [|apply not_elem_of_nil].
    intros Hin%list_elem_of_singleton. by apply scope_entry_global in Hin.
Qed.

Definition http_reject (sc : BudgetScope) : HttpAdmissionRejection :=
  match sc with HttpListener _ => ListenerInflight | HttpRoute _ => RouteInflight | _ => GlobalInflight end.
Definition tcp_reject (sc : BudgetScope) : TcpAdmissionRejection :=
  match sc with TcpListener _ => ListenerConnection | _ => GlobalConnection end.
Definition udp_reject (sc : BudgetScope) : UdpAdmissionRejection :=
  match sc with UdpListener _ => ListenerDatagram | _ => GlobalDatagram end.

Lemma http_listener_spec listener w held : Inv w held ->
  let '(r, w') := http_try_acquire_listener listener w in
  outcome http_reject held [global_slot Http; entry_slot HttpListeners listener] r w'.
Proof.
  intros Hi. unfold http_try_acquire_listener. change (hac_listener_limit (w_http w)) with (limit_in w HttpListeners).
  rewrite (inv_limits _ _ Hi). by apply (two_scopes http_reject Http HttpListeners).
Qed.

Lemma tcp_spec listener w held : Inv w held ->
  let '(r, w') := tcp_try_acquire listener w in
  outcome tcp_reject held [global_slot Tcp; entry_slot TcpListeners listener] r w'.
Proof.
  intros Hi. unfold tcp_try_acquire. change (tac_listener_limit (w_tcp w)) with (limit_in w TcpListeners).
  rewrite (inv_limits _ _ Hi). by apply (two_scopes tcp_reject Tcp TcpListeners).
Qed.

Lemma udp_spec listener w held : Inv w held ->
  let '(r, w') := udp_try_acquire listener w in
  outcome udp_reject held [global_slot Udp; entry_slot UdpListeners listener] r w'.
Proof.
  intros Hi. unfold udp_try_acquire. change (uac_listener_limit (w_udp w)) with (limit_in w UdpListeners).
  rewrite (inv_limits _ _ Hi). by apply (two_scopes udp_reject Udp UdpListeners).
Qed.

Lemma http_route_spec route w held : Inv w held ->
  let '(r, w') := http_try_acquire_route route w in
  outcome http_reject held [entry_slot HttpRoutes route] r w'.
Proof.
  intros Hi. unfold http_try_acquire_route. change (hac_route_limit (w_http w)) with (limit_in w HttpRoutes).
  rewrite (inv_limits _ _ Hi). eapply first_push; [apply (attempts_entry HttpRoutes)| |done].
  unfold entry_slot. intros sc. case_match; [done|]. by intros [= <-].
Qed.

Lemma http_spec listener route w held : Inv w held ->
  let '(r, w') := http_try_acquire listener route w in
  outcome http_reject held
    [global_slot Http; entry_slot HttpListeners listener; entry_slot HttpRoutes route] r w'.
Proof.
  intros Hi. apply (and_then_spec http_reject [global_slot Http; entry_slot HttpListeners listener]
    [entry_slot HttpRoutes route]); [by apply http_listener_spec|].
  intros permits w' Hf Hs Hi'. unfold mbind, AM_bind.
  pose proof (http_route_spec route w' _ Hi') as Hr. destruct (http_try_acquire_route route w') as [r w''].
  unfold outcome in Hr |- *. rewrite omap_app, find_app, Hf.
  change (entry_slot HttpRoutes route)
    with (if bool_decide (entries_limit o HttpRoutes = 0) || Str.is_empty (Str.trim route) then None
          else Some (HttpRoute (Str.trim route))) in Hr |- *.
  destruct (bool_decide (entries_limit o HttpRoutes = 0) || Str.is_empty (Str.trim route)); cbn in Hr |- *.
  - destruct Hr as (other & -> & Ho & Hi''). destruct other; [|done]. exists permits.
    unfold merge. rewrite !app_nil_r. by split.
  - assert (HttpRoute (Str.trim route) ∉ tp_scope <$> permits) as Hn.
    { rewrite Hs. unfold global_slot, entry_slot. repeat case_match; cbn; set_solver. }
    rewrite full_app in Hr by done. destruct (full held (HttpRoute (Str.trim route))).
    + destruct Hr as [-> Hi'']. pose proof (Inv_drops permits w'' held Hi'') as Hd.
      by destruct (drop_permits permits w'').
    + destruct Hr as (other & -> & Ho & Hi''). exists (permits ++ other). split; [done|].
      rewrite fmap_app, Hs, Ho. split; [done|]. eapply Inv_Permutation; [|exact Hi'']. solve_Permutation.
Qed.
End facts.

(** ** The system *)

Inductive Request :=
| HttpListenerRequest (listener : string)
| HttpRouteRequest (route : string)
| HttpRequest (listener route : string)
| TcpRequest (listener : string)
| UdpRequest (listener : string).

Inductive Rejection :=
| HttpRejected (e : HttpAdmissionRejection)
| TcpRejected (e : TcpAdmissionRejection)
| UdpRejected (e : UdpAdmissionRejection).

Definition map_err {A E F} (f : E -> F) (r : A + E) : A + F :=
  match r with inl x => inl x | inr e => inr (f e) end.

Definition perform `{Semaphore} (request : Request) : AM (AdmissionPermit + Rejection) :=
  match request with
  | HttpListenerRequest l => r ← http_try_acquire_listener l; mret (map_err HttpRejected r)
  | HttpRouteRequest r => r ← http_try_acquire_route r; mret (map_err HttpRejected r)
  | HttpRequest l r => r ← http_try_acquire l r; mret (map_err HttpRejected r)
  | TcpRequest l => r ← tcp_try_acquire l; mret (map_err TcpRejected r)
  | UdpRequest l => r ← udp_try_acquire l; mret (map_err UdpRejected r)
  end.

(** Requests come and end in any order; a rejected one holds nothing. *)
Inductive admission_step `{Semaphore} :
    World * list AdmissionPermit -> World * list AdmissionPermit -> Prop :=
| step_admitted w held request permit w' :
    perform request w = (inl permit, w') -> admission_step (w, held) (w', permit :: held)
| step_rejected w held request e w' :
    perform request w = (inr e, w') -> admission_step (w, held) (w', held)
| step_dropped w held permit held' :
    held ≡ₚ permit :: held' -> admission_step (w, held) ((drop_permits permit w).2, held').

Definition request_slots (o : AdmissionOptions) (request : Request) : list (option BudgetScope) :=
  match request with
  | HttpListenerRequest l => [global_slot o Http; entry_slot o HttpListeners l]
  | HttpRouteRequest r => [entry_slot o HttpRoutes r]
  | HttpRequest l r => [global_slot o Http; entry_slot o HttpListeners l; entry_slot o HttpRoutes r]
  | TcpRequest l => [global_slot o Tcp; entry_slot o TcpListeners l]
  | UdpRequest l => [global_slot o Udp; entry_slot o UdpListeners l]
  end.

(** The limited scopes that a request needs, in the order they are asked. *)
Definition needs (o : AdmissionOptions) (request : Request) : list BudgetScope :=
  omap id (request_slots o request).

Definition reject_with (request : Request) (sc : BudgetScope) : Rejection :=
  match request with
  | TcpRequest _ => TcpRejected (tcp_reject sc)
  | UdpRequest _ => UdpRejected (udp_reject sc)
  | _ => HttpRejected (http_reject sc)
  end.

Section system.
Context `{SemaphoreLaws} (o : AdmissionOptions) (Hok : options_ok o).

Lemma outcome_map {E F} (reject : BudgetScope -> E) (f : E -> F) (m : AM (AdmissionPermit + E)) w held slots :
  (let '(r, w') := m w in outcome o reject held slots r w') ->
  let '(r, w') := (r ← m; mret (map_err f r)) w in
  outcome o (fun sc => f (reject sc)) held slots r w'.
Proof.
  unfold mbind, AM_bind, outcome. destruct (m w) as [r w']. case_match; cbn.
  - by intros [-> ?].
  - intros (permits & -> & Hp). by exists permits.
Qed.

Lemma admission_perform_spec request w held : Inv o w held ->
  let '(r, w') := perform request w in
  outcome o (reject_with request) held (request_slots o request) r w'.
Proof.
  intros Hi. destruct request; cbn [perform request_slots].
  - apply (outcome_map http_reject HttpRejected). by apply http_listener_spec.
  - apply (outcome_map http_reject HttpRejected). by apply http_route_spec.
  - apply (outcome_map http_reject HttpRejected). by apply http_spec.
  - apply (outcome_map tcp_reject TcpRejected). by apply tcp_spec.
  - apply (outcome_map udp_reject UdpRejected). by apply udp_spec.
Qed.

Lemma Inv_new : Inv o (World_new o) [].
Proof.
  split.
  - by intros [].
  - intros p. pose proof (Hok (scope_global p)) as Hl. rewrite scope_limit_global in Hl.
    assert (global_of (World_new o) p = semaphore_for_limit (global_limit o p)) as -> by (by destruct p).
    unfold semaphore_for_limit. destruct (0 <? global_limit o p) eqn:E.
    + apply Z.ltb_lt in E. split; [done|]. rewrite sem_new_available by lia.
      change (count (scope_global p) []) with 0. lia.
    + apply Z.ltb_ge in E. split; [lia|done].
  - intros e. assert (entries_of (World_new o) e = SemaphoreMap_new) as -> by (by destruct e).
    apply keyed_inv_new.
  - done.
  - by intros [].
Qed.

Lemma concat_Permutation (l k : list AdmissionPermit) : l ≡ₚ k -> concat l ≡ₚ concat k.
Proof.
  induction 1; cbn; [done|by f_equiv| |by etrans].
  by rewrite !app_assoc, (Permutation_app_comm x y).
Qed.

Lemma Inv_step s s' : admission_step s s' -> Inv o s.1 (concat s.2) -> Inv o s'.1 (concat s'.2).
Proof.
  destruct 1 as [w held request permit w' E|w held request e w' E|w held permit held' Hp]; cbn; intros Hi.
  - pose proof (admission_perform_spec request w _ Hi) as Hs. rewrite E in Hs. unfold outcome in Hs.
    case_match; destruct Hs as [Hr Hs]; [done|]. destruct Hs as [[= <-] [_ Hs]]. done.
  - pose proof (admission_perform_spec request w _ Hi) as Hs. rewrite E in Hs. unfold outcome in Hs.
    case_match; [by destruct Hs|]. by destruct Hs as (? & ? & _).
  - apply (Inv_drops o Hok). eapply Inv_Permutation; [|exact Hi]. by apply (concat_Permutation held (permit :: held')).
Qed.
End system.

(** C6: admission control enforces its limits.  In every state that HTTP, TCP and
    UDP requests and dropped permits lead to, in any order, a request is admitted
    exactly when none of the limited scopes it needs (gateway, listener, route) is
    full, and then holds one permit of each; otherwise it is rejected in the name
    of the first full scope and every gauge is as before.  No scope ever exceeds
    its limit, the gauges show what is held, and when nothing is held no
    semaphore is left behind. *)
Theorem admission_enforces `{SemaphoreLaws} o w held :
  options_ok o -> rtc admission_step (World_new o, []) (w, held) ->
  (forall request,
    let '(r, w') := perform request w in
    match List.find (full o (concat held)) (needs o request) with
    | Some sc => r = inr (reject_with request sc) /\
                 forall sc', gauge (w_stats w') sc' = gauge (w_stats w) sc'
    | None => exists permit, r = inl permit /\ tp_scope <$> permit = needs o request
    end) /\
  (forall sc, gauge (w_stats w) sc = count sc (concat held) /\ count sc (concat held) <= scope_limit o sc) /\
  (held = [] -> forall e, sm_entries (entries_of w e) = ∅).
Proof.
  intros Hok Hr. assert (Inv o w (concat held)) as Hi.
  { change (Inv o (w, held).1 (concat (w, held).2)).
    refine (rtc_ind_r (fun s => Inv o s.1 (concat s.2)) (World_new o, []) _ _ _ Hr); [by apply Inv_new|].
    intros s s' _ Hs Hi. by eapply Inv_step. }
  split_and!.
  - intros request. pose proof (admission_perform_spec o Hok request w _ Hi) as Hs.
    destruct (perform request w) as [r w']. unfold outcome in Hs. fold (needs o request) in Hs.
    case_match.
    + destruct Hs as [-> Hi']. split; [done|]. intros sc'. by rewrite (inv_gauge _ _ _ Hi), (inv_gauge _ _ _ Hi').
    + destruct Hs as (permit & -> & Hs & _). by exists permit.
  - intros sc. split; [apply Hi|]. by eapply count_bound.
  - intros -> e. by eapply (keyed_inv_idle (fun _ => entries_limit o e)), Hi.
Qed.

Section witness.
#[local] Existing Instance counting.
#[local] Existing Instance counting_laws.

Definition witness_options : AdmissionOptions :=
  mkAdmissionOptions (mkHttpAdmissionOptions 4 2 1) (mkTcpAdmissionOptions 1 1)
    (mkUdpAdmissionOptions 0 0).

Lemma witness_options_ok : options_ok witness_options.
Proof. intros []; unfold MAX_PERMITS; cbn; lia. Qed.

(** A second request on the same route is rejected by the route and gives the
    permits of the gateway and the listener back. *)
Lemma admission_enforces_witness :
  let '(r, w) := perform (HttpRequest "l" "r") (World_new witness_options) in
  match r with
  | inl permit =>
    rtc admission_step (World_new witness_options, []) (w, [permit]) /\
    (perform (HttpRequest "l" "r") w).1 = inr (HttpRejected RouteInflight) /\
    gauge (w_stats (perform (HttpRequest "l" "r") w).2) HttpGlobal = gauge (w_stats w) HttpGlobal
  | inr _ => False
  end.
Proof.
  set (a := perform _ _). vm_compute in a. subst a. cbv beta iota zeta.
  match goal with |- ?R /\ _ => assert R as Hr end.
  { eapply rtc_l; [eapply (step_admitted _ _ (HttpRequest "l" "r")); vm_compute; reflexivity|]. apply rtc_refl. }
  split; [exact Hr|].
  pose proof (proj1 (admission_enforces witness_options _ _ witness_options_ok Hr) (HttpRequest "l" "r")) as Hp.
  destruct (perform _ _) as [r w']. cbn [fst snd].
  match type of Hp with match ?f with _ => _ end =>
    assert (f = Some (HttpRoute "r")) as E by (vm_compute; reflexivity); rewrite E in Hp end.
  destruct Hp as [-> Hp]. split; [reflexivity|apply Hp].
Defined.
End witness.
End OverloadFacts.
