(* ===== verification/RetryBudget.v ===== *)
(** * The retry budget

    [ntgw-observability/src/retry_budget.rs]: retries are paid from tokens that
    ordinary requests earn, so that retries stay a fraction of the traffic. *)

From Stdlib Require Import ZArith Lia.
From stdpp Require Import base strings numbers list.
From S2P Require Import Prelude.

Module RetryBudget.
Local Open Scope Z_scope.

Definition RETRY_BUDGET_TOKEN_SCALE : Z := 1000.

Record RetryBudgetOptions := mkRetryBudgetOptions {
  rbo_enabled : bool;
  rbo_ratio_percent : Z;
  rbo_burst : Z;
}.

Definition RetryBudgetOptions_default : RetryBudgetOptions := mkRetryBudgetOptions true 20 16.

Record RetryBudgetState := mkRetryBudgetState {
  rb_available_milli_tokens : Z;
  rb_retryable_requests_observed_total : Z;
  rb_retry_allowed_total : Z;
  rb_retry_rejected_total : Z;
}.

Record RetryBudgetController := mkRetryBudgetController {
  rb_options : RetryBudgetOptions;
  rb_state : RetryBudgetState;
}.

Definition retry_budget_refill (options : RetryBudgetOptions) : Z :=
  Z.min (rbo_ratio_percent options) 100 * RETRY_BUDGET_TOKEN_SCALE / 100.

Definition retry_budget_capacity (options : RetryBudgetOptions) : Z :=
  Z.max (rbo_burst options) 1 * RETRY_BUDGET_TOKEN_SCALE.

Definition RetryBudgetController_new (options : RetryBudgetOptions) : RetryBudgetController :=
  mkRetryBudgetController options
    (mkRetryBudgetState (if rbo_enabled options then retry_budget_capacity options else 0) 0 0 0).

Definition observe_retryable_request (self : RetryBudgetController) : RetryBudgetController :=
  if negb (rbo_enabled (rb_options self)) then self
  else
    let state := rb_state self in
    mkRetryBudgetController (rb_options self)
      {| rb_retryable_requests_observed_total :=
           U.saturating_add64 (rb_retryable_requests_observed_total state) 1;
         rb_available_milli_tokens :=
           Z.min (U.saturating_add64 (rb_available_milli_tokens state)
                    (retry_budget_refill (rb_options self)))
             (retry_budget_capacity (rb_options self));
         rb_retry_allowed_total := rb_retry_allowed_total state;
         rb_retry_rejected_total := rb_retry_rejected_total state |}.

Definition try_acquire_retry (self : RetryBudgetController) : bool * RetryBudgetController :=
  if negb (rbo_enabled (rb_options self)) then (true, self)
  else
    let state := rb_state self in
    if rb_available_milli_tokens state <? RETRY_BUDGET_TOKEN_SCALE then
      (false, mkRetryBudgetController (rb_options self)
        {| rb_available_milli_tokens := rb_available_milli_tokens state;
           rb_retryable_requests_observed_total := rb_retryable_requests_observed_total state;
           rb_retry_allowed_total := rb_retry_allowed_total state;
           rb_retry_rejected_total := U.saturating_add64 (rb_retry_rejected_total state) 1 |})
    else
      (true, mkRetryBudgetController (rb_options self)
        {| rb_available_milli_tokens := rb_available_milli_tokens state - RETRY_BUDGET_TOKEN_SCALE;
           rb_retryable_requests_observed_total := rb_retryable_requests_observed_total state;
           rb_retry_allowed_total := U.saturating_add64 (rb_retry_allowed_total state) 1;
           rb_retry_rejected_total := rb_retry_rejected_total state |}).

Record RetryBudgetSnapshot := mkRetryBudgetSnapshot {
  rbs_enabled : bool;
  rbs_ratio_percent : Z;
  rbs_burst : Z;
  rbs_available_tokens : Z;
  rbs_available_milli_tokens : Z;
  rbs_retryable_requests_observed_total : Z;
  rbs_retry_allowed_total : Z;
  rbs_retry_rejected_total : Z;
}.

Definition RetryBudgetController_snapshot (self : RetryBudgetController) : RetryBudgetSnapshot :=
  let state := rb_state self in
  {| rbs_enabled := rbo_enabled (rb_options self);
     rbs_ratio_percent := Z.min (rbo_ratio_percent (rb_options self)) 100;
     rbs_burst := Z.max (rbo_burst (rb_options self)) 1;
     rbs_available_tokens := rb_available_milli_tokens state / RETRY_BUDGET_TOKEN_SCALE;
     rbs_available_milli_tokens := rb_available_milli_tokens state;
     rbs_retryable_requests_observed_total := rb_retryable_requests_observed_total state;
     rbs_retry_allowed_total := rb_retry_allowed_total state;
     rbs_retry_rejected_total := rb_retry_rejected_total state |}.

(** ** Use of the budget *)

Inductive op := Observe | Acquire.
#[global] Instance op_eq_dec : EqDecision op.
Proof. solve_decision. Defined.

(** The final state and, for every retry asked for, whether it was allowed. *)
Fixpoint run (ops : list op) (c : RetryBudgetController) : list bool * RetryBudgetController :=
  match ops with
  | [] => ([], c)
  | Observe :: ops => run ops (observe_retryable_request c)
  | Acquire :: ops =>
    let '(allowed, c) := try_acquire_retry c in
    let '(log, c) := run ops c in
    (allowed :: log, c)
  end.

Definition allowed_count (log : list bool) : Z := Z.of_nat (length (filter (fun b => b = true) log)).
Definition observed_count (ops : list op) : Z := Z.of_nat (length (filter (fun o => o = Observe) ops)).

Definition options_ok (o : RetryBudgetOptions) : Prop :=
  U.is_u32 (rbo_ratio_percent o) /\ U.is_u32 (rbo_burst o).

Definition budget_ok (o : RetryBudgetOptions) (c : RetryBudgetController) : Prop :=
  rb_options c = o /\ 0 <= rb_available_milli_tokens (rb_state c) <= retry_budget_capacity o.

Section facts.
Context (o : RetryBudgetOptions) (Ho : options_ok o) (He : rbo_enabled o = true).

Lemma retry_refill_range : 0 <= retry_budget_refill o <= 1000.
Proof.
  destruct Ho as [[H1 _] _]. unfold retry_budget_refill, RETRY_BUDGET_TOKEN_SCALE.
  split; [apply Z.div_pos; lia|]. apply Z.div_le_upper_bound; lia.
Qed.

Lemma retry_capacity_range : 1000 <= retry_budget_capacity o < U.u64_max - 1000.
Proof.
  destruct Ho as [_ [H1 H2]]. unfold retry_budget_capacity, RETRY_BUDGET_TOKEN_SCALE, U.u64_max,
    U.u64_modulus, U.u32_modulus in *. lia.
Qed.

Lemma observe_ok c : budget_ok o c ->
  budget_ok o (observe_retryable_request c) /\
  rb_available_milli_tokens (rb_state (observe_retryable_request c))
  = Z.min (rb_available_milli_tokens (rb_state c) + retry_budget_refill o) (retry_budget_capacity o).
Proof.
  intros [Hopt Hc]. pose proof retry_refill_range. pose proof retry_capacity_range.
  unfold observe_retryable_request, budget_ok. rewrite Hopt, He. cbn. unfold U.saturating_add64.
  split; [split; [done|]|]; lia.
Qed.

Lemma acquire_ok c : budget_ok o c ->
  let '(allowed, c') := try_acquire_retry c in
  budget_ok o c' /\ allowed = (1000 <=? rb_available_milli_tokens (rb_state c)) /\
  rb_available_milli_tokens (rb_state c')
  = rb_available_milli_tokens (rb_state c) - (if allowed then 1000 else 0).
Proof.
  intros [Hopt Hc]. unfold try_acquire_retry, budget_ok, RETRY_BUDGET_TOKEN_SCALE.
  rewrite Hopt, He. cbn [negb].
  destruct (Z.ltb_spec (rb_available_milli_tokens (rb_state c)) 1000); cbn.
  - rewrite (proj2 (Z.leb_gt _ _)) by lia. split_and!; [done|lia..].
  - rewrite (proj2 (Z.leb_le _ _)) by lia. split_and!; [done|lia..].
Qed.

Lemma run_ok ops : forall c, budget_ok o c ->
  let '(log, c') := run ops c in
  budget_ok o c' /\
  1000 * allowed_count log + rb_available_milli_tokens (rb_state c')
  <= rb_available_milli_tokens (rb_state c) + retry_budget_refill o * observed_count ops.
Proof.
  induction ops as [|[] ops IH]; intros c Hc; cbn [run].
  - split; [done|]. unfold allowed_count, observed_count. cbn. lia.
  - destruct (observe_ok c Hc) as [Hc' Ha]. specialize (IH _ Hc'). destruct (run ops _) as [log c'].
    destruct IH as [IH1 IH2]. split; [done|]. rewrite Ha in IH2.
    unfold observed_count in *. rewrite filter_cons_True by done. cbn [length]. lia.
  - pose proof (acquire_ok c Hc) as Ha. destruct (try_acquire_retry c) as [allowed c1].
    destruct Ha as (Hc1 & _ & Ha). specialize (IH _ Hc1). destruct (run ops c1) as [log c'].
    destruct IH as [IH1 IH2]. split; [done|]. unfold observed_count, allowed_count in *.
    rewrite (filter_cons_False _ Acquire) by done. rewrite filter_cons.
    destruct allowed; [rewrite decide_True by done|rewrite decide_False by done]; cbn [length]; lia.
Qed.

Lemma observes_ok n : forall c, budget_ok o c ->
  rb_available_milli_tokens (rb_state (run (replicate n Observe) c).2)
  = Z.min (rb_available_milli_tokens (rb_state c) + Z.of_nat n * retry_budget_refill o)
      (retry_budget_capacity o) /\ budget_ok o (run (replicate n Observe) c).2.
Proof.
  induction n as [|n IH]; intros c Hc.
  - cbn. split; [destruct Hc; lia|done].
  - cbn [replicate run]. destruct (observe_ok c Hc) as [Hc' Ha]. destruct (IH _ Hc') as [-> Hr].
    split; [|done]. rewrite Ha. pose proof retry_refill_range. pose proof retry_capacity_range. lia.
Qed.
End facts.

Lemma new_ok o : options_ok o -> rbo_enabled o = true -> budget_ok o (RetryBudgetController_new o).
Proof.
  intros Ho He. split; [done|]. cbn. rewrite He. pose proof (retry_capacity_range o Ho). lia.
Qed.

(** C35: retries stay within their budget.  Whatever happened before, the retries
    that are allowed while some requests are observed are at most the burst plus
    the configured percentage of these requests; and once enough requests were
    observed to earn one token, a retry is allowed. *)
Theorem retry_budget_bound o before window n :
  options_ok o -> rbo_enabled o = true ->
  let c := (run before (RetryBudgetController_new o)).2 in
  let '(log, c') := run window c in
  1000 * allowed_count log
  <= 1000 * Z.max (rbo_burst o) 1 + 10 * Z.min (rbo_ratio_percent o) 100 * observed_count window /\
  (100 <= Z.of_nat n * Z.min (rbo_ratio_percent o) 100 ->
   (try_acquire_retry (run (replicate n Observe) c').2).1 = true).
Proof.
  intros Ho He c. pose proof (run_ok o Ho He before _ (new_ok o Ho He)) as Hb. fold c in Hb.
  destruct (run before _) as [log0 c1] eqn:E0. subst c. cbn [snd] in *. destruct Hb as [Hb _].
  pose proof (run_ok o Ho He window c1 Hb) as Hw. destruct (run window c1) as [log c'].
  destruct Hw as [Hw Hle]. destruct Hb as [_ Hb].
  assert (retry_budget_refill o = 10 * Z.min (rbo_ratio_percent o) 100) as Hr.
  { unfold retry_budget_refill, RETRY_BUDGET_TOKEN_SCALE.
    replace (_ * 1000) with (10 * Z.min (rbo_ratio_percent o) 100 * 100) by lia. by rewrite Z.div_mul. }
  split.
  - rewrite Hr in Hle. destruct Hw as [_ Hw]. unfold retry_budget_capacity, RETRY_BUDGET_TOKEN_SCALE in Hb. lia.
  - intros Hn. destruct (observes_ok o Ho He n c' Hw) as [Ha Hc]. pose proof (acquire_ok o He _ Hc) as Hq.
    destruct (try_acquire_retry _) as [allowed c'']. destruct Hq as (_ & -> & _). cbn.
    apply Z.leb_le. rewrite Ha, Hr. pose proof (retry_capacity_range o Ho). destruct Hw as [_ Hw]. lia.
Qed.

Definition witness_ops : list op :=
  replicate 40 Acquire ++ replicate 5 Observe ++ [Acquire; Acquire].

Lemma retry_budget_bound_witness :
  let log := (run witness_ops (RetryBudgetController_new RetryBudgetOptions_default)).1 in
  1000 * allowed_count log <= 1000 * 16 + 10 * 20 * 5.
Proof.
  pose proof (retry_budget_bound RetryBudgetOptions_default [] witness_ops 0) as Hb.
  specialize (Hb ltac:(split; unfold U.is_u32, U.u32_modulus; cbn; lia) eq_refl).
  change (run [] (RetryBudgetController_new RetryBudgetOptions_default)).2
    with (RetryBudgetController_new RetryBudgetOptions_default) in Hb. cbv zeta in Hb |- *.
  destruct (run witness_ops _) as [log c']. exact (proj1 Hb).
Defined.
End RetryBudget.
