(* ===== verification/Sni.v ===== *)
(** * The server name of a TLS connection

    [ntgw-stream/src/sni.rs]: the server name in the ClientHello at the start of
    a connection.  A [&[u8]] is a list of bytes, each a [Z]; a slice operation
    that can fail is an [option].  The encoder below is the reference that the
    parser is compared with: a TLS record with a ClientHello, laid out as in
    RFC 8446 and RFC 6066. *)

From Stdlib Require Import ZArith Lia.
From stdpp Require Import base strings numbers list.
From S2P Require Import Prelude.

Module Sni.
Local Open Scope Z_scope.

Definition bytes : Type := list Z.

(** ** Slices *)

(** [payload.get(a..b)] *)
Definition get_range (payload : bytes) (a b : nat) : option bytes :=
  if bool_decide (a <= b)%nat && bool_decide (b <= length payload)%nat
  then Some (take (b - a) (drop a payload)) else None.

(** [payload.get(a..)] *)
Definition get_from (payload : bytes) (a : nat) : option bytes :=
  if bool_decide (a <= length payload)%nat then Some (drop a payload) else None.

Definition read_u16 (payload : bytes) : option Z :=
  match payload with
  | a :: b :: _ => Some (a * 256 + b)
  | _ => None
  end.

Definition skip_vector (payload : bytes) (len_bytes : nat) : option bytes :=
  match len_bytes with
  | 1%nat => match payload with
             | len :: _ => get_from payload (1 + Z.to_nat len)
             | [] => None
             end
  | 2%nat => match read_u16 payload with
             | Some len => get_from payload (2 + Z.to_nat len)
             | None => None
             end
  | _ => None
  end.

(** ** UTF-8

    [std::str::from_utf8]: the well-formed byte sequences of the Unicode
    standard. *)
Definition between (lo hi b : Z) : bool := (lo <=? b) && (b <=? hi).

Fixpoint from_utf8 (s : bytes) : bool :=
  match s with
  | [] => true
  | a :: s =>
    if between 0 127 a then from_utf8 s
    else
      match s with
      | b :: s =>
        if between 194 223 a && between 128 191 b then from_utf8 s
        else
          match s with
          | c :: s =>
            if between 128 191 c
               && ((bool_decide (a = 224) && between 160 191 b)
                   || (between 225 236 a && between 128 191 b)
                   || (bool_decide (a = 237) && between 128 159 b)
                   || (between 238 239 a && between 128 191 b))
            then from_utf8 s
            else
              match s with
              | d :: s =>
                if between 128 191 c && between 128 191 d
                   && ((bool_decide (a = 240) && between 144 191 b)
                       || (between 241 243 a && between 128 191 b)
                       || (bool_decide (a = 244) && between 128 143 b))
                then from_utf8 s else false
              | [] => false
              end
          | [] => false
          end
      | [] => false
      end
  end.

(** ** The parser *)

(** The loop of [parse_server_name_list]; every round drops at least three bytes. *)
Fixpoint server_name_loop (fuel : nat) (cursor : bytes) : option bytes :=
  match fuel with
  | O => None
  | S fuel =>
    if bool_decide (3 <= length cursor)%nat then
      match cursor with
      | name_type :: rest =>
        match read_u16 rest with
        | None => None
        | Some name_len =>
          match get_range cursor 3 (3 + Z.to_nat name_len) with
          | None => None
          | Some name =>
            if bool_decide (name_type = 0) then (if from_utf8 name then Some name else None)
            else
              match get_from cursor (3 + Z.to_nat name_len) with
              | None => None
              | Some cursor => server_name_loop fuel cursor
              end
          end
        end
      | [] => None
      end
    else None
  end.

Definition parse_server_name_list (payload : bytes) : option bytes :=
  match read_u16 payload with
  | None => None
  | Some list_len =>
    match get_range payload 2 (2 + Z.to_nat list_len) with
    | None => None
    | Some cursor => server_name_loop (S (length cursor)) cursor
    end
  end.

(** The loop over the extensions; every round drops at least four bytes. *)
Fixpoint extension_loop (fuel : nat) (cursor : bytes) : option bytes :=
  match fuel with
  | O => None
  | S fuel =>
    if bool_decide (4 <= length cursor)%nat then
      match read_u16 cursor with
      | None => None
      | Some ext_type =>
        match read_u16 (drop 2 cursor) with
        | None => None
        | Some ext_len =>
          match get_range cursor 4 (4 + Z.to_nat ext_len) with
          | None => None
          | Some ext_payload =>
            if bool_decide (ext_type = 0) then parse_server_name_list ext_payload
            else
              match get_from cursor (4 + Z.to_nat ext_len) with
              | None => None
              | Some cursor => extension_loop fuel cursor
              end
          end
        end
      end
    else None
  end.

Definition parse_server_name_extension (payload : bytes) : option bytes :=
  if bool_decide (length payload < 34)%nat then None
  else
    cursor ← skip_vector (drop 34 payload) 1;
    cursor ← skip_vector cursor 2;
    cursor ← skip_vector cursor 1;
    extensions_len ← read_u16 cursor;
    cursor ← get_range cursor 2 (2 + Z.to_nat extensions_len);
    extension_loop (S (length cursor)) cursor.

Definition parse_client_hello (payload : bytes) : option bytes :=
  match payload with
  | kind :: a :: b :: c :: rest =>
    if bool_decide (kind = 1) then
      let length' := Z.to_nat (Z.lor (Z.lor (Z.shiftl a 16) (Z.shiftl b 8)) c) in
      if bool_decide (length payload < 4 + length')%nat then None else Some (take length' rest)
    else None
  | _ => None
  end.

Definition tls_record_len (payload : bytes) : option nat :=
  match payload with
  | kind :: _ :: _ :: a :: b :: _ =>
    if bool_decide (kind = 22) then Some (5 + Z.to_nat (a * 256 + b))%nat else None
  | _ => None
  end.

Definition parse_tls_record (payload : bytes) : option bytes :=
  length' ← tls_record_len payload;
  if bool_decide (length payload < length')%nat then None
  else Some (take (length' - 5) (drop 5 payload)).

Definition extract_server_name (payload : bytes) : option bytes :=
  record ← parse_tls_record payload;
  handshake ← parse_client_hello record;
  parse_server_name_extension handshake.

(** ** Reading the preface

    [read_preface] of [tcp.rs].  What the socket gives to successive reads is the
    list of what arrives: bytes, the end of the stream, an error, or nothing
    within the read timeout.  A read takes at most the size of its buffer from
    the bytes that have arrived and leaves the rest to the next one. *)
Inductive ErrorKind :=
| BrokenPipe
| ConnectionAborted
| ConnectionReset
| NotConnected
| UnexpectedEof
| WouldBlock
| OtherError.

Inductive Arrival :=
| Segment (bs : bytes)
| PeerClosed
| ReadError (kind : ErrorKind)
| ReadStalled.

Inductive ReadOutcome :=
| ReadBytes (bs : bytes)
| ReadFailed (kind : ErrorKind)
| ReadTimedOut.

Fixpoint read_chunk (size : nat) (net : list Arrival) : ReadOutcome * list Arrival :=
  match net with
  | [] => (ReadTimedOut, [])
  | Segment [] :: net => read_chunk size net
  | Segment bs :: net =>
    (ReadBytes (take size bs), if bool_decide (length bs <= size)%nat then net
                               else Segment (drop size bs) :: net)
  | PeerClosed :: net => (ReadBytes [], PeerClosed :: net)
  | ReadError kind :: net => (ReadFailed kind, net)
  | ReadStalled :: net => (ReadTimedOut, net)
  end.

Inductive StreamError :=
| TcpConnection (kind : ErrorKind)
| UdpConnection (kind : ErrorKind)
| Dispatch (message : string)
| Listener (message : string).

Definition TLS_PREFACE_LIMIT : nat := 4096.
Definition TLS_PREFACE_READ_CHUNK : nat := 1024.

(** The loop; every round that goes on adds at least one byte to [buf]. *)
Fixpoint preface_loop (fuel : nat) (buf : bytes) (net : list Arrival) :
    (StreamError + bytes) * list Arrival :=
  match fuel with
  | O => (inr buf, net)
  | S fuel =>
    if bool_decide (TLS_PREFACE_LIMIT <= length buf)%nat then (inr buf, net)
    else
      match read_chunk (Nat.min (TLS_PREFACE_LIMIT - length buf) TLS_PREFACE_READ_CHUNK) net with
      | (ReadFailed kind, net) => (inl (TcpConnection kind), net)
      | (ReadTimedOut, net) => (inl (Dispatch "timed out reading client preface"), net)
      | (ReadBytes [], net) => (inr buf, net)
      | (ReadBytes chunk, net) =>
        let buf := buf ++ chunk in
        match tls_record_len buf with
        | Some expected =>
          if bool_decide (expected <= length buf)%nat then (inr buf, net)
          else preface_loop fuel buf net
        | None =>
          if bool_decide (length buf < 5)%nat then preface_loop fuel buf net else (inr buf, net)
        end
      end
  end.

Definition read_preface (net : list Arrival) : (StreamError + bytes) * list Arrival :=
  match preface_loop (S TLS_PREFACE_LIMIT) [] net with
  | (inr [], net) => (inl (Dispatch "connection closed before client preface"), net)
  | result => result
  end.

(** ** The reference encoding *)

Definition u8 (n : nat) : bytes := [Z.of_nat n].
Definition u16 (n : nat) : bytes := [Z.of_nat n / 256; Z.of_nat n mod 256].
Definition u24 (n : nat) : bytes :=
  [Z.of_nat n / 65536; Z.of_nat n / 256 mod 256; Z.of_nat n mod 256].
Definition vec8 (l : bytes) : bytes := u8 (length l) ++ l.
Definition vec16 (l : bytes) : bytes := u16 (length l) ++ l.

(** An entry of a server name list, an extension, a ClientHello. *)
Definition name_entry (kind : Z) (name : bytes) : bytes := kind :: vec16 name.
Definition extension (e : nat * bytes) : bytes := u16 e.1 ++ vec16 e.2.

Record ClientHello := mkClientHello {
  ch_head : bytes;            (** version and random, 34 bytes *)
  ch_session_id : bytes;
  ch_cipher_suites : bytes;
  ch_compression : bytes;
  ch_extensions : list (nat * bytes);
}.

Definition hello_body (h : ClientHello) : bytes :=
  ch_head h ++ vec8 (ch_session_id h) ++ vec16 (ch_cipher_suites h) ++ vec8 (ch_compression h)
  ++ vec16 (mjoin (extension <$> ch_extensions h)).

Definition hello_handshake (h : ClientHello) : bytes :=
  let body := hello_body h in [1] ++ u24 (length body) ++ body.

Definition hello_record (version : Z * Z) (h : ClientHello) : bytes :=
  [22; version.1; version.2] ++ vec16 (hello_handshake h).

(** The lengths fit their length fields. *)
Definition hello_ok (h : ClientHello) : Prop :=
  length (ch_head h) = 34%nat /\ (length (ch_session_id h) < 256)%nat /\
  (length (ch_cipher_suites h) < 65536)%nat /\ (length (ch_compression h) < 256)%nat /\
  Forall (fun e => e.1 < 65536 /\ length e.2 < 65536)%nat (ch_extensions h) /\
  (length (hello_handshake h) < 65536)%nat.
End Sni.
