(* ===== verification/SniFacts.v ===== *)
(** * The server name parser against the reference encoding

    The lemmas follow the layers of the record: length fields, vectors, the
    extension loop, the server name list; then the read loop that collects the
    record. *)

From Stdlib Require Import ZArith Lia.
From stdpp Require Import base numbers list.
From S2P Require Import Prelude Sni.

Module SniFacts.
Import Sni.
Local Open Scope Z_scope.

(** ** Length fields and vectors *)

Lemma read_u16_u16 (n : nat) (rest : bytes) : read_u16 (u16 n ++ rest) = Some (Z.of_nat n).
Proof. cbn. f_equal. pose proof (Z.div_mod (Z.of_nat n) 256). lia. Qed.

Lemma get_range_app (a l rest : bytes) (i j : nat) :
  length a = i -> j = (i + length l)%nat -> get_range (a ++ l ++ rest) i j = Some l.
Proof.
  intros Ha ->. unfold get_range. rewrite !length_app.
  rewrite !bool_decide_eq_true_2 by lia. cbn [andb].
  rewrite drop_app_length' by done. by rewrite take_app_length' by lia.
Qed.

Lemma get_range_end (a l : bytes) (i j : nat) :
  length a = i -> j = (i + length l)%nat -> get_range (a ++ l) i j = Some l.
Proof. intros. rewrite <- (app_nil_r l) at 1. by apply get_range_app. Qed.

Lemma get_from_app (a rest : bytes) (i : nat) :
  length a = i -> get_from (a ++ rest) i = Some rest.
Proof.
  intros Ha. unfold get_from. rewrite length_app, bool_decide_eq_true_2 by lia.
  by rewrite drop_app_length' by done.
Qed.

Lemma skip_vec8 (l rest : bytes) : skip_vector (vec8 l ++ rest) 1 = Some rest.
Proof.
  unfold vec8, u8. cbn [skip_vector app].
  change (Z.of_nat (length l) :: l ++ rest) with ((Z.of_nat (length l) :: l) ++ rest).
  apply get_from_app. cbn. lia.
Qed.

Lemma skip_vec16 (l rest : bytes) : skip_vector (vec16 l ++ rest) 2 = Some rest.
Proof.
  unfold vec16. rewrite <- (assoc_L app). cbn [skip_vector]. rewrite read_u16_u16.
  rewrite (assoc_L app). apply get_from_app. cbn. lia.
Qed.

(** ** The server name list *)

Definition kind_entry (e : Z * bytes) : bytes := name_entry e.1 e.2.

Lemma server_name_loop_entry (fuel : nat) (kind : Z) (name rest : bytes) :
  server_name_loop (S fuel) (name_entry kind name ++ rest) =
  if bool_decide (kind = 0) then (if from_utf8 name then Some name else None)
  else server_name_loop fuel rest.
Proof.
  cbn [server_name_loop]. rewrite bool_decide_eq_true_2 by (cbn; lia).
  unfold name_entry, vec16. cbn [app]. rewrite <- (assoc_L app), read_u16_u16.
  change (kind :: u16 (length name) ++ name ++ rest)
    with ((kind :: u16 (length name)) ++ name ++ rest).
  rewrite (get_range_app _ name) by (cbn; lia).
  rewrite (assoc_L app), get_from_app; [done|].
  rewrite length_app. cbn. lia.
Qed.

Lemma server_name_loop_skips (others : list (Z * bytes)) (name more : bytes) (fuel : nat) :
  Forall (fun e => e.1 <> 0) others -> (length others < fuel)%nat ->
  server_name_loop fuel (mjoin (kind_entry <$> others) ++ name_entry 0 name ++ more) =
  if from_utf8 name then Some name else None.
Proof.
  revert fuel. induction others as [|[kind other] others IH]; intros [|fuel] Hk Hf;
    [cbn in Hf; lia| |cbn in Hf; lia|].
  - cbn [mjoin list_join fmap list_fmap app]. by rewrite server_name_loop_entry, bool_decide_eq_true_2.
  - inversion Hk as [|? ? Hne Hk']; subst. cbn in Hne, Hf.
    change (mjoin (kind_entry <$> (kind, other) :: others))
      with (name_entry kind other ++ mjoin (kind_entry <$> others)).
    rewrite <- (assoc_L app), server_name_loop_entry, bool_decide_eq_false_2 by done.
    apply IH; [done|lia].
Qed.

(** The body of a server name extension with entries of other types before the
    host name. *)
Definition server_name_body (others : list (Z * bytes)) (name more : bytes) : bytes :=
  vec16 (mjoin (kind_entry <$> others) ++ name_entry 0 name ++ more).

Lemma mjoin_length {A} (f : A -> bytes) (l : list A) :
  (forall x, 0 < length (f x))%nat -> (length l <= length (mjoin (f <$> l)))%nat.
Proof.
  intros Hf. induction l as [|x l IH]; [cbn; lia|].
  change (mjoin (f <$> x :: l)) with (f x ++ mjoin (f <$> l)).
  rewrite length_app. specialize (Hf x). cbn. lia.
Qed.

Lemma parse_server_name_list_body (others : list (Z * bytes)) (name more : bytes) :
  Forall (fun e => e.1 <> 0) others ->
  parse_server_name_list (server_name_body others name more) =
  if from_utf8 name then Some name else None.
Proof.
  intros Hk. unfold parse_server_name_list, server_name_body, vec16. rewrite read_u16_u16.
  set (l := mjoin _ ++ _). rewrite (get_range_end _ l) by (cbn; lia).
  apply server_name_loop_skips; [done|].
  pose proof (mjoin_length kind_entry others ltac:(intros; cbn; lia)).
  subst l. rewrite length_app. lia.
Qed.

(** ** The extensions *)

Lemma extension_loop_entry (fuel : nat) (e : nat * bytes) (rest : bytes) :
  extension_loop (S fuel) (extension e ++ rest) =
  if bool_decide (e.1 = 0%nat) then parse_server_name_list e.2 else extension_loop fuel rest.
Proof.
  cbn [extension_loop]. unfold extension, vec16. rewrite <- !(assoc_L app).
  rewrite bool_decide_eq_true_2 by (cbn; lia). rewrite read_u16_u16.
  change (drop 2 (u16 e.1 ++ u16 (length e.2) ++ e.2 ++ rest)) with (u16 (length e.2) ++ e.2 ++ rest).
  rewrite read_u16_u16, (assoc_L app).
  rewrite (get_range_app _ e.2) by (cbn; lia).
  rewrite (assoc_L app), get_from_app by (rewrite !length_app; cbn; lia).
  repeat case_bool_decide; try done; lia.
Qed.

Lemma extension_loop_spec (exts : list (nat * bytes)) (fuel : nat) :
  (length exts < fuel)%nat ->
  extension_loop fuel (mjoin (extension <$> exts)) =
  match list_find (fun e => e.1 = 0%nat) exts with
  | Some (_, e) => parse_server_name_list e.2
  | None => None
  end.
Proof.
  revert fuel. induction exts as [|e exts IH]; intros [|fuel] Hf; try (cbn in Hf; lia); [done|].
  change (mjoin (extension <$> e :: exts)) with (extension e ++ mjoin (extension <$> exts)).
  rewrite extension_loop_entry. cbn [list_find].
  case_bool_decide as He; [by rewrite decide_True|].
  rewrite decide_False by done. rewrite IH by (cbn in Hf; lia).
  by destruct (list_find _ exts) as [[i e']|].
Qed.

Lemma parse_extensions (h : ClientHello) :
  length (ch_head h) = 34%nat ->
  parse_server_name_extension (hello_body h) =
  match list_find (fun e => e.1 = 0%nat) (ch_extensions h) with
  | Some (_, e) => parse_server_name_list e.2
  | None => None
  end.
Proof.
  intros Hh. unfold parse_server_name_extension, hello_body.
  rewrite length_app, bool_decide_eq_false_2 by lia.
  rewrite drop_app_length' by done.
  rewrite skip_vec8. cbn [mbind option_bind].
  rewrite skip_vec16. cbn [mbind option_bind].
  rewrite skip_vec8. cbn [mbind option_bind].
  set (l := mjoin _). unfold vec16. rewrite read_u16_u16. cbn [mbind option_bind].
  rewrite (get_range_end _ l) by (cbn; lia).
  cbn [mbind option_bind]. apply extension_loop_spec.
  pose proof (mjoin_length extension (ch_extensions h) ltac:(intros; cbn; lia)). subst l. lia.
Qed.

(** ** The record *)

Lemma lor_shiftl (a b k : Z) : 0 <= k -> 0 <= b < 2 ^ k ->
  Z.lor (Z.shiftl a k) b = a * 2 ^ k + b.
Proof.
  intros Hk Hb. assert (Hd : Z.land (Z.shiftl a k) b = 0).
  { apply Z.bits_inj'. intros i Hi. rewrite Z.land_spec, Z.shiftl_spec, Z.bits_0 by done.
    destruct (decide (i < k)); [by rewrite Z.testbit_neg_r by lia|].
    rewrite <- (Z.mod_small b (2 ^ k)) by done.
    rewrite Z.mod_pow2_bits_high by lia. apply andb_false_r. }
  rewrite <- Z.lxor_lor, <- Z.add_nocarry_lxor by done.
  by rewrite Z.shiftl_mul_pow2.
Qed.

Lemma u24_value (n : nat) :
  Z.lor (Z.lor (Z.shiftl (Z.of_nat n / 65536) 16) (Z.shiftl (Z.of_nat n / 256 mod 256) 8))
        (Z.of_nat n mod 256) = Z.of_nat n.
Proof.
  set (z := Z.of_nat n). change 65536 with (2 ^ 8 * 2 ^ 8).
  replace (Z.shiftl (z / (2 ^ 8 * 2 ^ 8)) 16) with (Z.shiftl (Z.shiftl (z / (2 ^ 8 * 2 ^ 8)) 8) 8)
    by (rewrite Z.shiftl_shiftl by lia; done).
  rewrite <- Z.shiftl_lor. change 256 with (2 ^ 8).
  rewrite !lor_shiftl by (try apply Z.mod_pos_bound; lia).
  rewrite <- Z.div_div by lia.
  pose proof (Z.div_mod (z / 2 ^ 8) (2 ^ 8)). pose proof (Z.div_mod z (2 ^ 8)). lia.
Qed.

Lemma parse_client_hello_handshake (h : ClientHello) :
  parse_client_hello (hello_handshake h) = Some (hello_body h).
Proof.
  unfold hello_handshake, u24. cbn [parse_client_hello app].
  rewrite bool_decide_eq_true_2, u24_value, Nat2Z.id by done.
  rewrite bool_decide_eq_false_2 by (cbn; lia). by rewrite firstn_all.
Qed.

Lemma hello_record_length (v : Z * Z) (h : ClientHello) :
  length (hello_record v h) = (5 + length (hello_handshake h))%nat.
Proof. unfold hello_record, vec16. rewrite !length_app. reflexivity. Qed.

Lemma hello_record_head (v : Z * Z) (h : ClientHello) :
  hello_record v h = ([22; v.1; v.2] ++ u16 (length (hello_handshake h))) ++ hello_handshake h.
Proof. unfold hello_record, vec16. by rewrite (assoc_L app). Qed.

(** The length field is read from the first five bytes. *)
Lemma tls_record_len_prefix (v : Z * Z) (h : ClientHello) (buf more rest : bytes) :
  buf ++ more = hello_record v h ++ rest ->
  tls_record_len buf = if bool_decide (length buf < 5)%nat then None
                       else Some (length (hello_record v h)).
Proof.
  rewrite hello_record_length. unfold hello_record, vec16, u16. cbn [app].
  generalize (hello_handshake h) as hs. intros hs.
  destruct buf as [|b0 [|b1 [|b2 [|b3 [|b4 buf]]]]]; try done.
  cbn [app]. intros [= -> -> -> -> -> _]. cbn [tls_record_len].
  rewrite bool_decide_eq_true_2 by done. rewrite bool_decide_eq_false_2 by (cbn; lia).
  f_equal. pose proof (Z.div_mod (Z.of_nat (length hs)) 256). lia.
Qed.

Lemma parse_tls_record_hello (v : Z * Z) (h : ClientHello) (rest : bytes) :
  parse_tls_record (hello_record v h ++ rest) = Some (hello_handshake h).
Proof.
  unfold parse_tls_record.
  rewrite (tls_record_len_prefix v h _ [] rest) by apply app_nil_r.
  rewrite length_app, hello_record_length, bool_decide_eq_false_2 by lia. cbn [mbind option_bind].
  rewrite bool_decide_eq_false_2 by lia. f_equal.
  rewrite hello_record_head, <- (assoc_L app), drop_app_length' by done.
  rewrite take_app_length' by lia. done.
Qed.

Lemma extract_server_name_hello (v : Z * Z) (h : ClientHello) (rest : bytes) :
  length (ch_head h) = 34%nat ->
  extract_server_name (hello_record v h ++ rest) =
  match list_find (fun e => e.1 = 0%nat) (ch_extensions h) with
  | Some (_, e) => parse_server_name_list e.2
  | None => None
  end.
Proof.
  intros Hh. unfold extract_server_name.
  rewrite parse_tls_record_hello. cbn [mbind option_bind].
  rewrite parse_client_hello_handshake. cbn [mbind option_bind]. by apply parse_extensions.
Qed.

(** A ClientHello whose first server name extension carries [name]. *)
Definition announces (h : ClientHello) (name : bytes) : Prop :=
  exists before others more after,
    ch_extensions h = before ++ (0%nat, server_name_body others name more) :: after /\
    Forall (fun e => e.1 <> 0%nat) before /\ Forall (fun e => e.1 <> 0) others.

Lemma extract_announced (v : Z * Z) (h : ClientHello) (name rest : bytes) :
  length (ch_head h) = 34%nat -> announces h name -> from_utf8 name = true ->
  extract_server_name (hello_record v h ++ rest) = Some name.
Proof.
  intros Hh (before & others & more & after & He & Hb & Ho) Hn.
  rewrite extract_server_name_hello, He by done.
  rewrite list_find_app_r; [|by apply list_find_None].
  cbn [list_find]. rewrite decide_True by done.
  cbn [fmap option_fmap option_map prod_map fst snd id].
  by rewrite parse_server_name_list_body, Hn.
Qed.

(** ** The read loop *)

(** The bytes that arrive before anything else happens. *)
Fixpoint stream_of (net : list Arrival) : bytes :=
  match net with
  | Segment bs :: net => bs ++ stream_of net
  | _ => []
  end.

(** The bytes that arrive before the stream ends or fails, with or without a pause. *)
Fixpoint incoming (net : list Arrival) : bytes :=
  match net with
  | Segment bs :: net => bs ++ incoming net
  | ReadStalled :: net => incoming net
  | _ => []
  end.

Lemma read_chunk_bytes (size : nat) (net : list Arrival) :
  (0 < size)%nat -> stream_of net <> [] ->
  exists b chunk net', read_chunk size net = (ReadBytes (b :: chunk), net') /\
    (length (b :: chunk) <= size)%nat /\ (b :: chunk) ++ stream_of net' = stream_of net.
Proof.
  intros Hs. induction net as [|[[|b bs]| | |] net IH]; cbn [stream_of app]; try done; intros Hne.
  destruct size as [|size]; [lia|]. cbn [read_chunk take drop].
  exists b, (take size bs). eexists. split; [reflexivity|]. split.
  - cbn. rewrite length_take. lia.
  - cbn [app]. f_equal. case_bool_decide as Hl; cbn in Hl.
    + by rewrite take_ge by lia.
    + cbn [stream_of]. by rewrite (assoc_L app), take_drop.
Qed.

Lemma preface_loop_collects (v : Z * Z) (h : ClientHello) (rest : bytes) (fuel : nat) :
  (length (hello_record v h) <= TLS_PREFACE_LIMIT)%nat ->
  forall buf net, (length buf < length (hello_record v h))%nat ->
  (TLS_PREFACE_LIMIT - length buf < fuel)%nat ->
  buf ++ stream_of net = hello_record v h ++ rest ->
  exists buf' net', preface_loop fuel buf net = (inr buf', net') /\
    (length (hello_record v h) <= length buf' <= TLS_PREFACE_LIMIT)%nat /\
    buf' ++ stream_of net' = hello_record v h ++ rest.
Proof.
  intros Hl. induction fuel as [|fuel IH]; intros buf net Hb Hf Hs; [lia|].
  cbn [preface_loop]. rewrite bool_decide_eq_false_2 by lia.
  set (size := Nat.min _ _).
  assert (Hsz : (0 < size <= TLS_PREFACE_LIMIT - length buf)%nat)
    by (subst size; unfold TLS_PREFACE_READ_CHUNK; lia).
  destruct (read_chunk_bytes size net) as (b & chunk & net' & Hr & Hc & Hn); [lia| |].
  { intros E. rewrite E in Hs. apply (f_equal length) in Hs. rewrite !length_app in Hs.
    cbn [length] in Hs. lia. }
  rewrite Hr. cbv zeta. set (buf' := buf ++ b :: chunk).
  assert (Hs' : buf' ++ stream_of net' = hello_record v h ++ rest)
    by (subst buf'; rewrite <- Hs, <- Hn; by rewrite (assoc_L app)).
  assert (Hb' : (length buf < length buf' <= TLS_PREFACE_LIMIT)%nat)
    by (subst buf'; rewrite length_app; cbn [length] in *; lia).
  rewrite (tls_record_len_prefix v h _ _ rest Hs').
  pose proof (hello_record_length v h).
  destruct (decide (length buf' < 5)%nat) as [H5|H5].
  - rewrite !bool_decide_eq_true_2 by done. apply IH; [lia|lia|done].
  - rewrite bool_decide_eq_false_2 by done.
    case_bool_decide; [by eauto with lia|]. apply IH; [lia|lia|done].
Qed.

(** Whatever arrives, a preface is a non-empty initial part of the stream of at
    most [TLS_PREFACE_LIMIT] bytes, and what follows it is still to be read. *)
Lemma read_chunk_stream (size : nat) (net net' : list Arrival) (chunk : bytes) :
  read_chunk size net = (ReadBytes chunk, net') ->
  (length chunk <= size)%nat /\ chunk ++ incoming net' = incoming net.
Proof.
  induction net as [|[[|b bs]| | |] net IH]; cbn [read_chunk]; intros E; try done.
  - by apply IH.
  - injection E as <- <-. rewrite length_take. split; [lia|]. cbn [incoming].
    case_bool_decide; [by rewrite take_ge by (cbn [length]; lia)|].
    cbn [incoming]. by rewrite (assoc_L app), take_drop.
  - injection E as <- <-. cbn. split; [lia|done].
Qed.

Lemma preface_loop_stream (fuel : nat) (buf buf' : bytes) (net net' : list Arrival) :
  (length buf <= TLS_PREFACE_LIMIT)%nat -> preface_loop fuel buf net = (inr buf', net') ->
  (length buf' <= TLS_PREFACE_LIMIT)%nat /\ buf' ++ incoming net' = buf ++ incoming net.
Proof.
  revert buf net. induction fuel as [|fuel IH]; intros buf net Hb; cbn [preface_loop].
  { by intros [= -> ->]. }
  case_bool_decide; [by intros [= -> ->]|].
  set (size := Nat.min _ _).
  destruct (read_chunk size net) as [[[|b chunk]| |] net1] eqn:Hr; try done;
    apply read_chunk_stream in Hr as [Hl Hs].
  - intros [= -> ->]. by rewrite <- Hs.
  - assert (Hb' : (length (buf ++ b :: chunk) <= TLS_PREFACE_LIMIT)%nat)
      by (rewrite length_app; subst size; lia).
    rewrite <- Hs, (assoc_L app).
    destruct (tls_record_len _); case_bool_decide; first [by intros [= <- <-]|by apply IH].
Qed.

Lemma read_preface_stream (net net' : list Arrival) (buf : bytes) :
  read_preface net = (inr buf, net') ->
  (0 < length buf <= TLS_PREFACE_LIMIT)%nat /\ buf ++ incoming net' = incoming net.
Proof.
  unfold read_preface.
  destruct (preface_loop _ _ _) as [[e|[|b buf']] net1] eqn:E; try done. intros [= <- <-].
  apply preface_loop_stream in E as [Hl Hs]; [|cbn; lia]. cbn [length] in *. split; [lia|done].
Qed.

(** ** Properties *)

(** C11: a client that announces a server name in its ClientHello is routed by that
    name.  However the bytes of the record are split over reads, and whatever
    follows them, [read_preface] returns a buffer that holds the whole record,
    loses no byte of the stream, and from which [extract_server_name] gives the
    announced name, provided the record fits the preface limit. *)
Theorem preface_server_name (v : Z * Z) (h : ClientHello) (name rest : bytes)
    (net : list Arrival) :
  hello_ok h -> announces h name -> from_utf8 name = true ->
  (length (hello_record v h) <= TLS_PREFACE_LIMIT)%nat ->
  stream_of net = hello_record v h ++ rest ->
  exists buf net', read_preface net = (inr buf, net') /\
    (length buf <= TLS_PREFACE_LIMIT)%nat /\ buf ++ stream_of net' = stream_of net /\
    extract_server_name buf = Some name.
Proof.
  intros (Hh & _) Ha Hn Hl Hs.
  pose proof (hello_record_length v h) as Hr.
  destruct (preface_loop_collects v h rest (S TLS_PREFACE_LIMIT) Hl [] net)
    as (buf & net' & Hp & Hb & He); [cbn [length]; lia|cbn [length]; lia|done|].
  exists buf, net'. unfold read_preface. rewrite Hp.
  destruct buf as [|b buf]; [cbn [length] in Hb; lia|].
  split; [done|]. split; [lia|]. split; [by rewrite Hs|].
  assert (Hpre : b :: buf = hello_record v h ++ drop (length (hello_record v h)) (b :: buf)).
  { rewrite <- (take_drop (length (hello_record v h)) (b :: buf)) at 1. f_equal.
    apply (f_equal (take (length (hello_record v h)))) in He.
    by rewrite take_app_length, take_app_le in He by lia. }
  rewrite Hpre. by apply extract_announced.
Qed.

(** a connection that announces no usable name is not given one: a record cut
    short at any byte, a ClientHello without a server name extension, and a
    name that is not UTF-8 all give [None]. *)
Theorem hello_without_name (v : Z * Z) (h : ClientHello) (rest : bytes) :
  hello_ok h ->
  (forall k, (k < length (hello_record v h))%nat ->
     extract_server_name (take k (hello_record v h)) = None) /\
  (Forall (fun e => e.1 <> 0%nat) (ch_extensions h) ->
     extract_server_name (hello_record v h ++ rest) = None) /\
  (forall before others name more after,
     ch_extensions h = before ++ (0%nat, server_name_body others name more) :: after ->
     Forall (fun e => e.1 <> 0%nat) before -> Forall (fun e => e.1 <> 0) others ->
     from_utf8 name = false ->
     extract_server_name (hello_record v h ++ rest) = None).
Proof.
  intros (Hh & _). split_and!.
  - intros k Hk. unfold extract_server_name, parse_tls_record.
    rewrite (tls_record_len_prefix v h _ (drop k (hello_record v h)) [])
      by (by rewrite take_drop, app_nil_r).
    case_bool_decide; [done|]. cbn [mbind option_bind].
    by rewrite length_take, bool_decide_eq_true_2 by lia.
  - intros Hn. rewrite extract_server_name_hello by done.
    by rewrite (proj2 (list_find_None _ _) Hn).
  - intros before others name more after He Hb Ho Hn.
    rewrite extract_server_name_hello, He by done.
    rewrite list_find_app_r by (by apply list_find_None).
    cbn [list_find]. rewrite decide_True by done.
    cbn [fmap option_fmap option_map prod_map fst snd id].
    by rewrite parse_server_name_list_body, Hn.
Qed.

(** A ClientHello for [a.io] with one other extension, arriving in three parts. *)
Definition demo_name : bytes := [97; 46; 105; 111].

Definition demo_hello : ClientHello :=
  mkClientHello (replicate 34 3) [7; 7] [19; 1] [0]
    [(43%nat, [2; 3; 4]); (0%nat, server_name_body [] demo_name [])].

Definition demo_net : list Arrival :=
  let r := hello_record (3, 1) demo_hello in
  [Segment (take 3 r); Segment []; Segment (take 20 (drop 3 r)); Segment (drop 23 r ++ [9; 9])].

Lemma demo_hello_ok : hello_ok demo_hello.
Proof.
  split; [reflexivity|]. unfold demo_hello at 1 2 3 4. cbn [ch_session_id ch_cipher_suites ch_compression ch_extensions].
  split_and!; try (apply Nat.ltb_lt; vm_compute; reflexivity).
  do 2 (apply Forall_cons_2; [split; apply Nat.ltb_lt; vm_compute; reflexivity|]).
  apply Forall_nil_2.
Qed.

Lemma demo_announces : announces demo_hello demo_name.
Proof.
  exists [(43%nat, [2; 3; 4])], [], [], []. split; [reflexivity|].
  split; [by apply Forall_singleton|constructor].
Qed.

Lemma preface_server_name_witness :
  exists buf net', read_preface demo_net = (inr buf, net') /\
    (length buf <= TLS_PREFACE_LIMIT)%nat /\ buf ++ stream_of net' = stream_of demo_net /\
    extract_server_name buf = Some demo_name.
Proof.
  apply (preface_server_name (3, 1) demo_hello demo_name [9; 9] demo_net demo_hello_ok demo_announces);
    [reflexivity| |reflexivity].
  apply Nat.leb_le. reflexivity.
Defined.

Lemma hello_without_name_witness :
  extract_server_name (take 40 (hello_record (3, 1) demo_hello)) = None.
Proof.
  apply (hello_without_name (3, 1) demo_hello []); [exact demo_hello_ok|].
  apply Nat.ltb_lt. reflexivity.
Defined.
End SniFacts.
