(* ===== verification/TcpPool.v ===== *)
(** * The pool of upstream TCP connections

    [ntgw-stream/src/pool.rs].  The pool is a map from a backend to its idle
    connections, most recent last, with counters that are 64-bit atomics.  The
    network is a parameter: what a connection attempt and what the one-byte
    liveness probe give, by the number of the effect. *)

From Stdlib Require Import ZArith Lia.
From stdpp Require Import base strings numbers gmap relations list.
From S2P Require Import Prelude IrTypes Sni.

Module TcpPool.
Import Sni.
Local Open Scope Z_scope.

Definition PoolKey : Type := string * Z.

(** A socket: which connection it is, and whether its write half was shut down. *)
Record TcpStream := mkTcpStream {
  ts_id : nat;
  ts_write_open : bool;
}.

Record IdleConnection := mkIdleConnection {
  stream : TcpStream;
  since : Instant;
}.

Record StreamPoolCounters := mkStreamPoolCounters { hits : Z; misses : Z }.

Record TcpConnectionPool := mkTcpConnectionPool {
  idle : gmap PoolKey (list IdleConnection);
  max_idle_per_backend : Z;
  idle_timeout : Z;
  active_connections : Z;
  idle_connections : Z;
  connection_hits : Z;
  connection_misses : Z;
  peak_active_connections : Z;
}.

Class Network := {
  connect_at : nat -> PoolKey -> ErrorKind + nat;
  try_read_at : nat -> nat -> ErrorKind + nat;
}.

Definition MAX_CONNECTION_COUNT : Z := 32768.

(** [usize::clamp(0, MAX_CONNECTION_COUNT)] *)
Definition clamp_count (size : Z) : Z := Z.max 0 (Z.min size MAX_CONNECTION_COUNT).

Definition new (max_idle timeout : Z) : TcpConnectionPool :=
  mkTcpConnectionPool ∅ (clamp_count max_idle) timeout 0 0 0 0 0.

Definition is_enabled (p : TcpConnectionPool) : bool := bool_decide (0 < max_idle_per_backend p).

Definition set_max_idle_per_backend (p : TcpConnectionPool) (size : Z) : TcpConnectionPool :=
  mkTcpConnectionPool (idle p) (clamp_count size) (idle_timeout p) (active_connections p)
    (idle_connections p) (connection_hits p) (connection_misses p) (peak_active_connections p).

(** ** Counter updates, each one atomic operation *)

Definition set_idle (p : TcpConnectionPool) (m : gmap PoolKey (list IdleConnection)) (count : Z) :
    TcpConnectionPool :=
  mkTcpConnectionPool m (max_idle_per_backend p) (idle_timeout p) (active_connections p)
    count (connection_hits p) (connection_misses p) (peak_active_connections p).

Definition count_hit (p : TcpConnectionPool) : TcpConnectionPool :=
  mkTcpConnectionPool (idle p) (max_idle_per_backend p) (idle_timeout p)
    (U.wrapping_add64 (active_connections p) 1) (idle_connections p)
    (U.wrapping_add64 (connection_hits p) 1) (connection_misses p) (peak_active_connections p).

Definition count_miss (p : TcpConnectionPool) : TcpConnectionPool :=
  mkTcpConnectionPool (idle p) (max_idle_per_backend p) (idle_timeout p)
    (active_connections p) (idle_connections p)
    (connection_hits p) (U.wrapping_add64 (connection_misses p) 1) (peak_active_connections p).

Definition count_connected (p : TcpConnectionPool) : TcpConnectionPool :=
  let active := U.wrapping_add64 (active_connections p) 1 in
  mkTcpConnectionPool (idle p) (max_idle_per_backend p) (idle_timeout p)
    active (idle_connections p) (connection_hits p) (connection_misses p)
    (Z.max (peak_active_connections p) active).

Definition count_returned (p : TcpConnectionPool) : TcpConnectionPool :=
  mkTcpConnectionPool (idle p) (max_idle_per_backend p) (idle_timeout p)
    (U.wrapping_sub64 (active_connections p) 1) (idle_connections p)
    (connection_hits p) (connection_misses p) (peak_active_connections p).

(** [entry.pop()] with the counter, under the shard's lock. *)
Definition pop_idle (p : TcpConnectionPool) (key : PoolKey) :
    option (IdleConnection * TcpConnectionPool) :=
  match idle p !! key with
  | None => None
  | Some entry =>
    match last entry with
    | None => None
    | Some c => Some (c, set_idle p (<[key := take (length entry - 1) entry]> (idle p))
                           (U.wrapping_sub64 (idle_connections p) 1))
    end
  end.

(** [entry.push(..)] with no counter. *)
Definition push_idle (p : TcpConnectionPool) (key : PoolKey) (c : IdleConnection) :
    gmap PoolKey (list IdleConnection) :=
  <[key := default [] (idle p !! key) ++ [c]]> (idle p).

Section Pool.
Context `{!Network, !Clock}.

Definition connect (t : nat) (key : PoolKey) : ErrorKind + TcpStream :=
  match connect_at t key with
  | inl kind => inl kind
  | inr id => inr (mkTcpStream id true)
  end.

(** [since.elapsed() >= idle_timeout] and the probe, the two checks of an idle
    connection; [t] is the number of the clock reading, [S t] that of the probe. *)
Definition reusable (p : TcpConnectionPool) (t : nat) (c : IdleConnection) : bool :=
  if bool_decide (idle_timeout p <= U.saturating_sub (instant_at t) (since c)) then false
  else match try_read_at (S t) (ts_id (stream c)) with
       | inl WouldBlock => true
       | _ => false
       end.

(** The loop of [get_connection] over the idle connections. *)
Fixpoint reuse_loop (fuel : nat) (p : TcpConnectionPool) (t : nat) (key : PoolKey) :
    option TcpStream * TcpConnectionPool * nat :=
  match fuel with
  | O => (None, p, t)
  | S fuel =>
    match pop_idle p key with
    | None => (None, p, t)
    | Some (c, p) =>
      if reusable p t c then (Some (stream c), count_hit p, (2 + t)%nat)
      else reuse_loop fuel p (2 + t) key
    end
  end.

Definition get_connection (p : TcpConnectionPool) (t : nat) (key : PoolKey) :
    (ErrorKind + TcpStream) * StreamPoolCounters * TcpConnectionPool * nat :=
  if negb (is_enabled p) then (connect t key, mkStreamPoolCounters 0 0, p, S t)
  else
    match reuse_loop (S (length (default [] (idle p !! key)))) p t key with
    | (Some s, p, t) => (inr s, mkStreamPoolCounters 1 0, p, t)
    | (None, p, t) =>
      let p := count_miss p in
      match connect t key with
      | inr s => (inr s, mkStreamPoolCounters 0 1, count_connected p, S t)
      | inl kind => (inl kind, mkStreamPoolCounters 0 1, p, S t)
      end
    end.

Definition return_connection (p : TcpConnectionPool) (t : nat) (key : PoolKey) (s : TcpStream) :
    TcpConnectionPool * nat :=
  let p := count_returned p in
  if negb (is_enabled p) then (p, t)
  else if bool_decide (max_idle_per_backend p <= Z.of_nat (length (default [] (idle p !! key))))
  then (set_idle p (<[key := default [] (idle p !! key)]> (idle p)) (idle_connections p), t)
  else (set_idle p (push_idle p key (mkIdleConnection s (instant_at t)))
          (U.wrapping_add64 (idle_connections p) 1), S t).

(** The connections of [prewarm]; a failed one is only logged. *)
Fixpoint prewarm_loop (n : nat) (p : TcpConnectionPool) (t : nat) (key : PoolKey) (warmed : Z) :
    TcpConnectionPool * nat * Z :=
  match n with
  | O => (p, t, warmed)
  | S n =>
    match connect t key with
    | inr s =>
      prewarm_loop n (set_idle p (push_idle p key (mkIdleConnection s (instant_at (S t))))
                        (idle_connections p)) (2 + t) key (warmed + 1)
    | inl _ => prewarm_loop n p (S t) key warmed
    end
  end.

Definition prewarm (p : TcpConnectionPool) (t : nat) (key : PoolKey) (count : Z) :
    TcpConnectionPool * nat :=
  if negb (is_enabled p) then (p, t)
  else
    let entry := default [] (idle p !! key) in
    let p := set_idle p (<[key := entry]> (idle p)) (idle_connections p) in
    let available := U.saturating_sub (max_idle_per_backend p) (Z.of_nat (length entry)) in
    let effective := Z.min count available in
    if bool_decide (effective = 0) then (p, t)
    else
      let '(p, t, warmed) := prewarm_loop (Z.to_nat effective) p t key 0 in
      if bool_decide (0 < warmed)
      then (set_idle p (idle p) (U.wrapping_add64 (idle_connections p) warmed), t)
      else (p, t).

Definition drain (p : TcpConnectionPool) : TcpConnectionPool := set_idle p ∅ 0.

(** The operations of the pool, one after the other. *)
Inductive pool_step : TcpConnectionPool -> TcpConnectionPool -> Prop :=
| StepGet p t key : pool_step p (get_connection p t key).1.2
| StepReturn p t key s : pool_step p (return_connection p t key s).1
| StepPrewarm p t key count : 0 <= count -> pool_step p (prewarm p t key count).1
| StepResize p size : pool_step p (set_max_idle_per_backend p size)
| StepDrain p : pool_step p (drain p).

(** ** Counting the idle connections *)

Definition total (m : gmap PoolKey (list IdleConnection)) : nat :=
  map_fold (fun _ v n => length v + n)%nat O m.

Lemma total_insert_new (m : gmap PoolKey (list IdleConnection)) (k : PoolKey) v :
  m !! k = None -> total (<[k := v]> m) = (length v + total m)%nat.
Proof.
  intros Hk. unfold total. rewrite map_fold_insert_L; [done| |done].
  intros. lia.
Qed.

Lemma total_entry (m : gmap PoolKey (list IdleConnection)) (k : PoolKey) :
  total m = (length (default [] (m !! k)) + total (delete k m))%nat.
Proof.
  destruct (m !! k) as [v|] eqn:E; cbn [default].
  - rewrite <- (insert_delete_id m k v E) at 1.
    by rewrite total_insert_new by apply lookup_delete_eq.
  - by rewrite delete_id.
Qed.

Lemma total_insert (m : gmap PoolKey (list IdleConnection)) (k : PoolKey) v :
  (total (<[k := v]> m) + length (default [] (m !! k)) = length v + total m)%nat.
Proof.
  rewrite <- (insert_delete_eq m k v), total_insert_new by apply lookup_delete_eq.
  rewrite (total_entry m k). lia.
Qed.

(** The counter of idle connections is the number of idle connections, no
    backend has more than [MAX_CONNECTION_COUNT] of them. *)
Definition pool_inv (p : TcpConnectionPool) : Prop :=
  idle_connections p = U.wrap64 (Z.of_nat (total (idle p))) /\
  (forall k, Z.of_nat (length (default [] (idle p !! k))) <= MAX_CONNECTION_COUNT) /\
  0 <= max_idle_per_backend p <= MAX_CONNECTION_COUNT.

Lemma clamp_count_range (size : Z) : 0 <= clamp_count size <= MAX_CONNECTION_COUNT.
Proof. unfold clamp_count, MAX_CONNECTION_COUNT. lia. Qed.

Lemma default_insert (m : gmap PoolKey (list IdleConnection)) (key k : PoolKey) v :
  default [] (<[key := v]> m !! k) = if decide (key = k) then v else default [] (m !! k).
Proof. rewrite lookup_insert. by destruct (decide _). Qed.

(** Replacing the idle connections of one backend keeps the invariant when the
    counter moves by the difference. *)
Lemma set_idle_inv (p : TcpConnectionPool) (key : PoolKey) v (count : Z) :
  pool_inv p -> Z.of_nat (length v) <= MAX_CONNECTION_COUNT ->
  count = U.wrap64 (idle_connections p
                    + (Z.of_nat (length v) - Z.of_nat (length (default [] (idle p !! key))))) ->
  pool_inv (set_idle p (<[key := v]> (idle p)) count).
Proof.
  intros (Hc & Hl & Hm) Hv ->. split_and!; cbn; [| |lia..].
  - pose proof (total_insert (idle p) key v). rewrite Hc. unfold U.wrap64.
    rewrite Zplus_mod_idemp_l. f_equal. lia.
  - intros k. rewrite default_insert. by destruct (decide _).
Qed.

Lemma wrap64_idle (p : TcpConnectionPool) :
  pool_inv p -> U.wrap64 (idle_connections p) = idle_connections p.
Proof. intros (-> & _). unfold U.wrap64. by rewrite Zmod_mod. Qed.

Lemma pop_idle_spec (p : TcpConnectionPool) (key : PoolKey) :
  match pop_idle p key with
  | None => default [] (idle p !! key) = []
  | Some (c, p') => exists kept, default [] (idle p !! key) = kept ++ [c] /\
      p' = set_idle p (<[key := kept]> (idle p)) (U.wrapping_sub64 (idle_connections p) 1)
  end.
Proof.
  unfold pop_idle. destruct (idle p !! key) as [entry|] eqn:E; cbn [default]; [|done].
  destruct (last entry) as [c|] eqn:El; [|by apply last_None in El].
  apply last_Some in El as [kept ->]. exists kept. split; [done|].
  by rewrite length_app, Nat.add_sub, take_app_length.
Qed.

Lemma push_idle_inv (p : TcpConnectionPool) (key : PoolKey) (c : IdleConnection) :
  pool_inv p ->
  Z.of_nat (length (default [] (idle p !! key))) < max_idle_per_backend p ->
  pool_inv (set_idle p (push_idle p key c) (U.wrapping_add64 (idle_connections p) 1)).
Proof.
  intros Hp Hl. apply set_idle_inv; [done| |].
  - rewrite length_app. destruct Hp as (_ & _ & Hm). cbn. lia.
  - unfold U.wrapping_add64. rewrite length_app. cbn. f_equal. lia.
Qed.

(** ** The loop over the idle connections *)

(** The newest connection that passes the checks, those older than it, and the
    number of the next effect; [l] is newest first. *)
Fixpoint newest_reusable (p : TcpConnectionPool) (t : nat) (l : list IdleConnection) :
    option IdleConnection * list IdleConnection * nat :=
  match l with
  | [] => (None, [], t)
  | c :: l => if reusable p t c then (Some c, l, (2 + t)%nat) else newest_reusable p (2 + t) l
  end.

Lemma newest_reusable_timeout (p q : TcpConnectionPool) (t : nat) (l : list IdleConnection) :
  idle_timeout p = idle_timeout q -> newest_reusable p t l = newest_reusable q t l.
Proof.
  intros E. revert t. induction l as [|c l IH]; intros t; [done|]. cbn.
  unfold reusable. by rewrite E, IH.
Qed.

Definition others_kept (key : PoolKey) (p q : TcpConnectionPool) : Prop :=
  forall k, k <> key -> idle q !! k = idle p !! k.

Lemma reuse_loop_spec (fuel : nat) (p : TcpConnectionPool) (t : nat) (key : PoolKey) :
  (length (default [] (idle p !! key)) < fuel)%nat -> pool_inv p ->
  let '(found, kept, t') := newest_reusable p t (reverse (default [] (idle p !! key))) in
  exists p', reuse_loop fuel p t key = (stream <$> found, p', t') /\ pool_inv p' /\
    default [] (idle p' !! key) = reverse kept /\ others_kept key p p' /\
    max_idle_per_backend p' = max_idle_per_backend p /\
    active_connections p' =
      (if found then U.wrapping_add64 (active_connections p) 1 else active_connections p).
Proof.
  revert p t. induction fuel as [|fuel IH]; intros p t Hf Hp; [lia|]. cbn [reuse_loop].
  pose proof (pop_idle_spec p key) as Hpop.
  destruct (pop_idle p key) as [[c p1]|]; cycle 1.
  { rewrite Hpop. cbn. exists p. by rewrite Hpop. }
  destruct Hpop as (kept & Hk & ->). rewrite Hk, reverse_snoc. cbn [newest_reusable].
  rewrite Hk, length_app in Hf. cbn in Hf.
  set (p1 := set_idle p _ _).
  assert (Hp1 : pool_inv p1).
  { apply set_idle_inv; [done| |].
    - destruct Hp as (_ & Hl & _). specialize (Hl key). rewrite Hk, length_app in Hl. lia.
    - rewrite Hk, length_app. unfold U.wrapping_sub64. cbn. f_equal. lia. }
  assert (Hk1 : default [] (idle p1 !! key) = kept) by (cbn; by rewrite lookup_insert_eq).
  assert (Ho1 : others_kept key p p1) by (intros k Hne; cbn; by rewrite lookup_insert_ne).
  change (reusable p1 t c) with (reusable p t c).
  destruct (reusable p t c).
  - exists (count_hit p1). split_and!; try done. by rewrite reverse_involutive.
  - specialize (IH p1 (2 + t)%nat). rewrite Hk1 in IH. specialize (IH ltac:(lia) Hp1).
    rewrite (newest_reusable_timeout p1 p) in IH by done.
    destruct (newest_reusable p _ (reverse kept)) as [[found kept'] t'].
    destruct IH as (p' & Hr & Hp' & Hkey & Ho & Hmax & Hact).
    exists p'. split_and!; try done. intros k Hne. by rewrite Ho, Ho1.
Qed.

(** ** Every operation keeps the invariant *)

Lemma get_connection_inv (p : TcpConnectionPool) (t : nat) (key : PoolKey) :
  pool_inv p -> pool_inv (get_connection p t key).1.2.
Proof.
  intros Hp. unfold get_connection. destruct (is_enabled p); cbn [negb]; [|done].
  pose proof (reuse_loop_spec (S (length (default [] (idle p !! key)))) p t key ltac:(lia) Hp) as Hr.
  destruct (newest_reusable _ _ _) as [[found kept] t'].
  destruct Hr as (p' & -> & Hp' & _).
  destruct found; cbn [fmap option_fmap option_map]; [done|].
  by destruct (connect t' key).
Qed.

Lemma return_connection_inv (p : TcpConnectionPool) (t : nat) (key : PoolKey) (s : TcpStream) :
  pool_inv p -> pool_inv (return_connection p t key s).1.
Proof.
  intros Hp. unfold return_connection.
  assert (Hr : pool_inv (count_returned p)) by done.
  destruct (is_enabled _); cbn [negb]; [|done].
  case_bool_decide; cbn [fst].
  - apply set_idle_inv; [done|apply Hp|]. rewrite Z.sub_diag, Z.add_0_r. by rewrite wrap64_idle.
  - apply push_idle_inv; [done|lia].
Qed.

Lemma set_idle_twice (p : TcpConnectionPool) m n m' n' :
  set_idle (set_idle p m n) m' n' = set_idle p m' n'.
Proof. done. Qed.

(** [prewarm_loop] adds the connections it counts to the one backend. *)
Lemma prewarm_loop_spec (n : nat) (p : TcpConnectionPool) (t : nat) (key : PoolKey) (w : Z) :
  let '(p', t', w') := prewarm_loop n p t key w in
  exists added, p' = set_idle p (if added is [] then idle p else
                       <[key := default [] (idle p !! key) ++ added]> (idle p)) (idle_connections p) /\
    (length added <= n)%nat /\ w' = w + Z.of_nat (length added).
Proof.
  revert p t w. induction n as [|n IH]; intros p t w; cbn [prewarm_loop].
  { exists []. split_and!; [by destruct p|done|cbn; lia]. }
  destruct (connect t key) as [kind|s].
  { specialize (IH p (S t) w). destruct (prewarm_loop _ _ _ _ _) as [[p' t'] w'].
    destruct IH as (added & -> & Ha & ->). exists added. split_and!; [done|lia|done]. }
  set (c := mkIdleConnection _ _). set (p1 := set_idle p _ _).
  specialize (IH p1 (2 + t)%nat (w + 1)). destruct (prewarm_loop _ _ _ _ _) as [[p' t'] w'].
  destruct IH as (added & -> & Ha & ->). exists (c :: added).
  split_and!; [|cbn; lia|cbn [length]; lia].
  destruct added as [|c' added]; [done|]. subst p1. cbn [set_idle idle idle_connections].
  unfold push_idle. rewrite lookup_insert_eq, insert_insert_eq. cbn [default from_option id].
  by rewrite <- (assoc_L app).
Qed.

Lemma prewarm_inv (p : TcpConnectionPool) (t : nat) (key : PoolKey) (count : Z) :
  0 <= count -> pool_inv p -> pool_inv (prewarm p t key count).1.
Proof.
  intros Hn Hp. unfold prewarm. destruct (is_enabled _); cbn [negb]; [|done].
  set (entry := default [] _). set (p1 := set_idle p _ _).
  assert (Hp1 : pool_inv p1).
  { apply set_idle_inv; [done|apply Hp|]. rewrite Z.sub_diag, Z.add_0_r. by rewrite wrap64_idle. }
  assert (He : default [] (idle p1 !! key) = entry) by (cbn; by rewrite lookup_insert_eq).
  set (effective := Z.min _ _). case_bool_decide; [done|].
  pose proof (prewarm_loop_spec (Z.to_nat effective) p1 t key 0) as Hl.
  destruct (prewarm_loop _ _ _ _ _) as [[p' t'] w]. destruct Hl as (added & -> & Ha & ->).
  case_bool_decide as Hw; cbn [fst].
  - destruct added as [|c added]; [cbn in Hw; lia|].
    rewrite set_idle_twice. apply set_idle_inv; [done| |].
    + rewrite He, length_app. destruct Hp1 as (_ & _ & Hm).
      subst effective. unfold U.saturating_sub in *. lia.
    + rewrite He, length_app. unfold U.wrapping_add64. cbn [set_idle idle_connections].
      f_equal. lia.
  - destruct added as [|c added]; [|cbn [length] in Hw; lia]. by destruct p1.
Qed.

Lemma new_inv (max_idle timeout : Z) : pool_inv (new max_idle timeout).
Proof.
  split_and!; [done| |apply clamp_count_range..].
  intros k. cbn. rewrite lookup_empty. cbn. unfold MAX_CONNECTION_COUNT. lia.
Qed.

Lemma pool_step_inv (p q : TcpConnectionPool) : pool_step p q -> pool_inv p -> pool_inv q.
Proof.
  intros [p' t key|p' t key s|p' t key count Hn|p' size|p'] Hp.
  - by apply get_connection_inv.
  - by apply return_connection_inv.
  - by apply prewarm_inv.
  - destruct Hp as (Hc & Hl & _). split_and!; [done|done|apply clamp_count_range..].
  - destruct Hp as (_ & _ & Hm). split_and!; [done| |apply Hm..].
    intros k. cbn. rewrite lookup_empty. cbn. unfold MAX_CONNECTION_COUNT. lia.
Qed.

(** ** Properties *)

(** C29: after any sequence of pool operations the counter of idle connections
    is the number of connections that sit in the pool (modulo 2^64), no backend has
    more than [MAX_CONNECTION_COUNT] idle connections, and the configured limit is
    within that bound. *)
Theorem pool_counts_idle (max_idle timeout : Z) (p : TcpConnectionPool) :
  rtc pool_step (new max_idle timeout) p ->
  idle_connections p = U.wrap64 (Z.of_nat (total (idle p))) /\
  (forall k, Z.of_nat (length (default [] (idle p !! k))) <= MAX_CONNECTION_COUNT) /\
  0 <= max_idle_per_backend p <= MAX_CONNECTION_COUNT.
Proof.
  change (rtc pool_step (new max_idle timeout) p -> pool_inv p).
  revert p. apply rtc_ind_r.
  - apply new_inv.
  - intros q r _ Hs Hq. by apply (pool_step_inv q).
Qed.

(** An enabled pool gives out the newest idle connection of the backend that is
    younger than the idle timeout and whose probe finds neither data nor an end
    of the stream; the newer ones it examined are gone, the older ones stay, and other
    backends are untouched.  When no idle connection passes, a new connection is
    opened.  The loop always returns. *)
Theorem get_connection_reuses_newest (p : TcpConnectionPool) (t : nat) (key : PoolKey) :
  pool_inv p -> is_enabled p = true ->
  let '(found, kept, t') := newest_reusable p t (reverse (default [] (idle p !! key))) in
  let '(result, counters, p', _) := get_connection p t key in
  others_kept key p p' /\ default [] (idle p' !! key) = reverse kept /\
  match found with
  | Some c => result = inr (stream c) /\ counters = mkStreamPoolCounters 1 0 /\
      active_connections p' = U.wrapping_add64 (active_connections p) 1
  | None => kept = [] /\ result = connect t' key /\ counters = mkStreamPoolCounters 0 1 /\
      active_connections p' = (if result is inr _ then U.wrapping_add64 (active_connections p) 1
                               else active_connections p)
  end.
Proof.
  intros Hp He. unfold get_connection. rewrite He. cbn [negb].
  pose proof (reuse_loop_spec (S (length (default [] (idle p !! key)))) p t key ltac:(lia) Hp) as Hr.
  assert (Hk : forall l t, (newest_reusable p t l).1.1 = None -> (newest_reusable p t l).1.2 = []).
  { induction l as [|c l IH]; intros t1; cbn; [done|]. destruct (reusable p t1 c); [done|apply IH]. }
  specialize (Hk (reverse (default [] (idle p !! key))) t).
  destruct (newest_reusable _ _ _) as [[found kept] t'].
  destruct Hr as (p' & -> & Hp' & Hkey & Ho & Hmax & Hact).
  destruct found; cbn [fmap option_fmap option_map]; [by split_and!|].
  destruct (connect t' key); cbn; split_and!; try done; try by apply Hk.
  by rewrite Hact.
Qed.

(** A connection opened while the pool is disabled is not counted as active, but
    its return is: when the pool is enabled in between, the counter of active
    connections wraps around to the largest 64-bit value. *)
Theorem return_after_enable_wraps (p : TcpConnectionPool) (t t' : nat) (key : PoolKey)
    (s : TcpStream) (size : Z) :
  is_enabled p = false -> active_connections p = 0 -> 0 < size -> connect t key = inr s ->
  let '(result, _, p1, _) := get_connection p t key in
  let p2 := set_max_idle_per_backend p1 size in
  result = inr s /\ is_enabled p2 = true /\
  active_connections (return_connection p2 t' key s).1 = U.u64_max.
Proof.
  intros He Ha Hs Hc. unfold get_connection. rewrite He, Hc. cbn [negb].
  assert (He2 : is_enabled (set_max_idle_per_backend p size) = true).
  { unfold is_enabled. cbn. unfold clamp_count, MAX_CONNECTION_COUNT.
    apply bool_decide_eq_true_2. lia. }
  split_and!; [done|done|]. unfold return_connection.
  change (is_enabled (count_returned ?q)) with (is_enabled q). rewrite He2. cbn [negb].
  case_bool_decide; cbn; by rewrite Ha.
Qed.
End Pool.

(** ** Witnesses *)

Section Witnesses.

(** Every connection attempt succeeds; connection 1 has been closed by its peer. *)
#[local] Instance demo_network : Network := {
  connect_at t key := inr t;
  try_read_at t id := if bool_decide (id = 1%nat) then inr O else inl WouldBlock;
}.
#[local] Instance demo_clock : Clock := fun t => Z.of_nat t.

Definition demo_key : PoolKey := ("10.0.0.1"%string, 80).

(** Two connections are returned, the newer one closed by its peer. *)
Definition demo_pool : TcpConnectionPool :=
  let p := (return_connection (new 4 100) 5 demo_key (mkTcpStream 0 true)).1 in
  (return_connection p 6 demo_key (mkTcpStream 1 true)).1.

Lemma demo_pool_reachable : rtc pool_step (new 4 100) demo_pool.
Proof. eapply rtc_l; [apply StepReturn|]. eapply rtc_l; [apply StepReturn|]. apply rtc_refl. Qed.

Lemma pool_counts_idle_witness : idle_connections demo_pool = 2 /\
  idle_connections demo_pool = U.wrap64 (Z.of_nat (total (idle demo_pool))).
Proof.
  split; [reflexivity|]. by apply (pool_counts_idle 4 100 demo_pool demo_pool_reachable).
Defined.

Lemma demo_pool_inv : pool_inv demo_pool.
Proof. do 2 apply return_connection_inv. apply new_inv. Qed.

Lemma get_connection_reuses_newest_witness :
  let '(result, _, p', _) := get_connection demo_pool 7 demo_key in
  result = inr (mkTcpStream 0 true) /\ default [] (idle p' !! demo_key) = [].
Proof.
  pose proof (get_connection_reuses_newest demo_pool 7 demo_key demo_pool_inv eq_refl) as Hg.
  vm_compute in Hg. vm_compute. by destruct Hg as (_ & Hk & Hr & _).
Defined.

Lemma return_after_enable_wraps_witness :
  active_connections
    (return_connection (set_max_idle_per_backend (get_connection (new 0 100) 3 demo_key).1.2 4)
       4 demo_key (mkTcpStream 3 true)).1 = U.u64_max.
Proof.
  exact (proj2 (proj2 (return_after_enable_wraps (new 0 100) 3 4 demo_key (mkTcpStream 3 true) 4
           eq_refl eq_refl eq_refl eq_refl))).
Defined.
End Witnesses.
End TcpPool.
