(* ===== verification/TcpProxy.v ===== *)
(** * The TCP proxy

    [ntgw-stream/src/tcp.rs]: the relay between a client and a backend
    ([proxy_stream_connection]) and the life of a connection around it
    ([handle_connection]): preface, backend selection, pool, relay, return to the
    pool.  What each socket delivers is a list of arrivals, as in [Sni]; the order
    in which sockets and timers become ready, and what each write gives, is the
    schedule. *)

From Stdlib Require Import ZArith Lia.
From stdpp Require Import base strings numbers gmap list.
From S2P Require Import Prelude IrTypes Sni TcpPool.

Module TcpProxy.
Import Sni TcpPool.
Local Open Scope Z_scope.

Definition is_tcp_connection_closed (kind : ErrorKind) : bool :=
  match kind with
  | BrokenPipe | ConnectionAborted | ConnectionReset | NotConnected | UnexpectedEof => true
  | WouldBlock | OtherError => false
  end.

Inductive ProxyEvent :=
| DownstreamRead (bs : bytes)
| UpstreamRead (bs : bytes)
| DownstreamClosed
| UpstreamClosed
| DownstreamReset
| UpstreamReset
| IdleTimeout
| MaxConnectionAgeReached.

(** What [write_all] gives: everything is sent, or an error after [n] bytes. *)
Inductive WriteResult :=
| Written
| WriteFailed (kind : ErrorKind) (n : nat).

(** What the [select!] of [next_proxy_event] finds ready. *)
Inductive Ready :=
| DownstreamReady
| UpstreamReady
| IdleElapsed
| AgeElapsed.

#[global] Instance Ready_eq_dec : EqDecision Ready.
Proof. solve_decision. Defined.

Definition Turn : Type := Ready * WriteResult.

(** The state of the relay: the local variables of [proxy_stream_connection],
    what is still to arrive on each socket, what was written to each, and whether
    their write halves were shut down. *)
Record Relay := mkRelay {
  downstream_open : bool;
  upstream_open : bool;
  bytes_received : Z;
  bytes_sent : Z;
  response_flags : string;
  down_net : list Arrival;
  up_net : list Arrival;
  to_upstream : bytes;
  to_downstream : bytes;
  upstream_shut : bool;
  downstream_shut : bool;
}.

Definition relay_start (s : TcpStream) (preface : bytes) (down up : list Arrival) : Relay :=
  mkRelay true true 0 0 EmptyString down up preface [] (negb (ts_write_open s)) false.

Definition set_down_net (st : Relay) (net : list Arrival) : Relay :=
  mkRelay (downstream_open st) (upstream_open st) (bytes_received st) (bytes_sent st)
    (response_flags st) net (up_net st) (to_upstream st) (to_downstream st)
    (upstream_shut st) (downstream_shut st).

Definition set_up_net (st : Relay) (net : list Arrival) : Relay :=
  mkRelay (downstream_open st) (upstream_open st) (bytes_received st) (bytes_sent st)
    (response_flags st) (down_net st) net (to_upstream st) (to_downstream st)
    (upstream_shut st) (downstream_shut st).

Definition set_flags (st : Relay) (flags : string) : Relay :=
  mkRelay (downstream_open st) (upstream_open st) (bytes_received st) (bytes_sent st)
    flags (down_net st) (up_net st) (to_upstream st) (to_downstream st)
    (upstream_shut st) (downstream_shut st).

(** [upstream_write.shutdown()] and [downstream_write.shutdown()]; their errors
    are only logged. *)
Definition shutdown_upstream (st : Relay) : Relay :=
  mkRelay (downstream_open st) (upstream_open st) (bytes_received st) (bytes_sent st)
    (response_flags st) (down_net st) (up_net st) (to_upstream st) (to_downstream st)
    true (downstream_shut st).

Definition shutdown_downstream (st : Relay) : Relay :=
  mkRelay (downstream_open st) (upstream_open st) (bytes_received st) (bytes_sent st)
    (response_flags st) (down_net st) (up_net st) (to_upstream st) (to_downstream st)
    (upstream_shut st) true.

Definition close_downstream (st : Relay) : Relay :=
  mkRelay false (upstream_open st) (bytes_received st) (bytes_sent st)
    (response_flags st) (down_net st) (up_net st) (to_upstream st) (to_downstream st)
    (upstream_shut st) (downstream_shut st).

Definition close_upstream (st : Relay) : Relay :=
  mkRelay (downstream_open st) false (bytes_received st) (bytes_sent st)
    (response_flags st) (down_net st) (up_net st) (to_upstream st) (to_downstream st)
    (upstream_shut st) (downstream_shut st).

(** The bytes a write of [bs] sends; a write to a half that was shut down fails. *)
Definition effective (shut : bool) (w : WriteResult) : WriteResult :=
  if shut then WriteFailed BrokenPipe O else w.

Definition sent (bs : bytes) (w : WriteResult) : bytes :=
  match w with
  | Written => bs
  | WriteFailed _ n => take n bs
  end.

Definition write_upstream (st : Relay) (bs : bytes) (w : WriteResult) : Relay :=
  mkRelay (downstream_open st) (upstream_open st)
    (U.saturating_add64 (bytes_received st) (Z.of_nat (length bs))) (bytes_sent st)
    (response_flags st) (down_net st) (up_net st)
    (to_upstream st ++ sent bs (effective (upstream_shut st) w)) (to_downstream st)
    (upstream_shut st) (downstream_shut st).

Definition write_downstream (st : Relay) (bs : bytes) (w : WriteResult) : Relay :=
  mkRelay (downstream_open st) (upstream_open st) (bytes_received st)
    (U.saturating_add64 (bytes_sent st) (Z.of_nat (length bs)))
    (response_flags st) (down_net st) (up_net st) (to_upstream st)
    (to_downstream st ++ sent bs (effective (downstream_shut st) w))
    (upstream_shut st) (downstream_shut st).

(** ** One event *)

(** The branch of the [select!] that [ready] enables, if any: a branch whose half is
    closed or whose timer is not configured is never taken, and a socket on
    which nothing has arrived is not ready. *)
Definition next_proxy_event (size : nat) (idle_timeout max_age : option Z) (st : Relay)
    (ready : Ready) : option (ErrorKind + ProxyEvent) * Relay :=
  match ready with
  | DownstreamReady =>
    if downstream_open st then
      match read_chunk size (down_net st) with
      | (ReadBytes [], net) => (Some (inr DownstreamClosed), set_down_net st net)
      | (ReadBytes bs, net) => (Some (inr (DownstreamRead bs)), set_down_net st net)
      | (ReadFailed kind, net) =>
        (Some (if is_tcp_connection_closed kind then inr DownstreamReset else inl kind),
         set_down_net st net)
      | (ReadTimedOut, net) => (None, set_down_net st net)
      end
    else (None, st)
  | UpstreamReady =>
    if upstream_open st then
      match read_chunk size (up_net st) with
      | (ReadBytes [], net) => (Some (inr UpstreamClosed), set_up_net st net)
      | (ReadBytes bs, net) => (Some (inr (UpstreamRead bs)), set_up_net st net)
      | (ReadFailed kind, net) =>
        (Some (if is_tcp_connection_closed kind then inr UpstreamReset else inl kind),
         set_up_net st net)
      | (ReadTimedOut, net) => (None, set_up_net st net)
      end
    else (None, st)
  | IdleElapsed => (if idle_timeout then Some (inr IdleTimeout) else None, st)
  | AgeElapsed => (if max_age then Some (inr MaxConnectionAgeReached) else None, st)
  end.

(** How a round of the loop ends: go on, or break with the error to report. *)
Inductive Flow :=
| Continue
| Break (proxy_error : option ErrorKind).

Definition on_proxy_event (st : Relay) (event : ProxyEvent) (w : WriteResult) : Relay * Flow :=
  match event with
  | DownstreamRead bs =>
    match effective (upstream_shut st) w with
    | Written => (write_upstream st bs w, Continue)
    | WriteFailed kind _ =>
      if is_tcp_connection_closed kind
      then (write_upstream (shutdown_downstream (set_flags st "UC"%string)) bs w, Break None)
      else (write_upstream (set_flags st "UE"%string) bs w, Break (Some kind))
    end
  | UpstreamRead bs =>
    match effective (downstream_shut st) w with
    | Written => (write_downstream st bs w, Continue)
    | WriteFailed kind _ =>
      if is_tcp_connection_closed kind
      then (write_downstream (shutdown_upstream (set_flags st "DC"%string)) bs w, Break None)
      else (write_downstream (set_flags st "DE"%string) bs w, Break (Some kind))
    end
  | DownstreamClosed => (shutdown_upstream (close_downstream st), Continue)
  | UpstreamClosed => (shutdown_downstream (close_upstream st), Continue)
  | DownstreamReset => (shutdown_upstream (set_flags st "DC"%string), Break None)
  | UpstreamReset => (shutdown_downstream (set_flags st "UC"%string), Break None)
  | IdleTimeout => (shutdown_upstream (shutdown_downstream (set_flags st "IT"%string)), Break None)
  | MaxConnectionAgeReached =>
    (shutdown_upstream (shutdown_downstream (set_flags st "MC"%string)), Break None)
  end.

Definition proxy_round (size : nat) (idle_timeout max_age : option Z) (st : Relay) (turn : Turn) :
    Relay * Flow :=
  match next_proxy_event size idle_timeout max_age st turn.1 with
  | (None, st) => (st, Continue)
  | (Some (inl kind), st) => (set_flags st "NE"%string, Break (Some kind))
  | (Some (inr event), st) => on_proxy_event st event turn.2
  end.

(** The loop: it ends when both halves are closed or a round breaks; with the
    schedule used up it is still running. *)
Fixpoint proxy_loop (size : nat) (idle_timeout max_age : option Z) (turns : list Turn)
    (st : Relay) : Relay * option (option ErrorKind) :=
  if negb (downstream_open st) && negb (upstream_open st) then (st, Some None)
  else
    match turns with
    | [] => (st, None)
    | turn :: turns =>
      match proxy_round size idle_timeout max_age st turn with
      | (st, Continue) => proxy_loop size idle_timeout max_age turns st
      | (st, Break proxy_error) => (st, Some proxy_error)
      end
    end.

Definition DEFAULT_TCP_PROXY_BUFFER_BYTES : Z := 16 * 1024.
Definition MIN_TCP_PROXY_BUFFER_BYTES : Z := 4 * 1024.
Definition MAX_TCP_PROXY_BUFFER_BYTES : Z := 256 * 1024.

Definition normalize_tcp_proxy_buffer_bytes (value : Z) : Z :=
  if bool_decide (value = 0) then DEFAULT_TCP_PROXY_BUFFER_BYTES
  else Z.max MIN_TCP_PROXY_BUFFER_BYTES (Z.min value MAX_TCP_PROXY_BUFFER_BYTES).

Definition proxy_stream_connection (s : TcpStream) (preface : bytes) (down up : list Arrival)
    (tcp_proxy_buffer_bytes : Z) (idle_timeout max_connection_age : option Z) (turns : list Turn) :
    Relay * option (option ErrorKind) :=
  proxy_loop (Z.to_nat (normalize_tcp_proxy_buffer_bytes tcp_proxy_buffer_bytes))
    idle_timeout max_connection_age turns (relay_start s preface down up).

(** ** The life of a connection *)

(** What the client and the backend do in one connection. *)
Record Session := mkSession {
  ss_down : list Arrival;                       (** what the client sends *)
  ss_up : TcpStream -> list Arrival;            (** what a backend connection sends *)
  ss_down_nodelay : option ErrorKind;           (** [set_nodelay] on the client's socket *)
  ss_up_nodelay : option ErrorKind;
  ss_preface_write : WriteResult;
  ss_turns : list Turn;
}.

(** The part of the observation that depends on the connection. *)
Record TcpTraffic := mkTcpTraffic {
  tt_bytes_received : Z;
  tt_bytes_sent : Z;
  tt_flags : string;
  tt_pool : StreamPoolCounters;
}.

(** The outcome; the result is [None] while the relay still runs. *)
Record Handled := mkHandled {
  h_result : option (StreamError + unit);
  h_pool : TcpConnectionPool;
  h_tick : nat;
  h_traffic : option TcpTraffic;
  h_relay : option Relay;
  h_returned : option TcpStream;
}.

Definition failed (e : StreamError) (p : TcpConnectionPool) (t : nat) (traffic : option TcpTraffic) :
    Handled := mkHandled (Some (inl e)) p t traffic None None.

Section Connection.
Context `{!Network, !Clock}.

(** The return of the reunited connection to the pool: only when the relay
    succeeded, the pool is enabled and a one-byte probe would block. *)
Definition maybe_return (p : TcpConnectionPool) (t : nat) (key : PoolKey) (s : TcpStream)
    (succeeded : bool) : TcpConnectionPool * nat * option TcpStream :=
  if succeeded && is_enabled p then
    match try_read_at t (ts_id s) with
    | inl WouldBlock => let '(p, t) := return_connection p (S t) key s in (p, t, Some s)
    | _ => (p, S t, None)
    end
  else (p, t, None).

(** From the selected backend on; [preface] is what was read ahead. *)
Definition forward_connection (buffer_bytes : Z) (idle_timeout max_connection_age : option Z)
    (ss : Session) (preface : bytes) (down : list Arrival) (key : PoolKey)
    (p : TcpConnectionPool) (t : nat) : Handled :=
  match get_connection p t key with
  | (inl kind, _, p, t) =>
    failed (TcpConnection kind) p t
      (Some (mkTcpTraffic (Z.of_nat (length preface)) 0 "UF"%string (mkStreamPoolCounters 0 0)))
  | (inr s, counters, p, t) =>
    match ss_up_nodelay ss with
    | Some kind => failed (TcpConnection kind) p t None
    | None =>
      match (if bool_decide (preface = []) then Written
             else effective (negb (ts_write_open s)) (ss_preface_write ss)) with
      | WriteFailed kind _ => failed (TcpConnection kind) p t None
      | Written =>
        match proxy_stream_connection s preface down (ss_up ss s) buffer_bytes
                idle_timeout max_connection_age (ss_turns ss) with
        | (relay, None) => mkHandled None p t None (Some relay) None
        | (relay, Some proxy_error) =>
          let upstream := mkTcpStream (ts_id s) (negb (upstream_shut relay)) in
          let '(p, t, returned) :=
            maybe_return p t key upstream (if proxy_error then false else true) in
          mkHandled
            (Some (match proxy_error with
                   | Some kind => inl (TcpConnection kind)
                   | None => inr tt
                   end)) p t
            (Some (mkTcpTraffic (bytes_received relay) (bytes_sent relay)
                     (response_flags relay) counters))
            (Some relay) returned
        end
      end
    end
  end.

(** [select] is the snapshot's [select_stream_backend] for the listener. *)
Definition handle_connection (select : option bytes -> option PoolKey) (listener_name : string)
    (is_tls_passthrough : bool) (buffer_bytes : Z) (idle_timeout max_connection_age : option Z)
    (ss : Session) (p : TcpConnectionPool) (t : nat) : Handled :=
  match (if is_tls_passthrough then read_preface (ss_down ss) else (inr [], ss_down ss)) with
  | (inl e, _) => failed e p t None
  | (inr preface, down) =>
    let server_name := if is_tls_passthrough then extract_server_name preface else None in
    match select server_name with
    | None =>
      failed (Dispatch ("no stream route matched listener " +:+ listener_name)) p t None
    | Some key =>
      match ss_down_nodelay ss with
      | Some kind => failed (TcpConnection kind) p t None
      | None =>
        forward_connection buffer_bytes idle_timeout max_connection_age ss preface down key p t
      end
    end
  end.
End Connection.
End TcpProxy.
