(* ===== verification/TcpProxyFacts.v ===== *)
(** * What the TCP proxy delivers and what it gives back to the pool

    The relay's invariant says that what was written to one side and what is
    still to arrive from the other side make up the whole stream. *)

From Stdlib Require Import ZArith Lia.
From stdpp Require Import base strings numbers gmap list.
From S2P Require Import Prelude IrTypes Sni SniFacts TcpPool TcpProxy.

Module TcpProxyFacts.
Import Sni SniFacts TcpPool TcpProxy.
Local Open Scope Z_scope.

(** ** Reads *)

Lemma read_chunk_incoming (size : nat) (net net' : list Arrival) (r : ReadOutcome) :
  read_chunk size net = (r, net') ->
  match r with
  | ReadBytes [] => (0 < size)%nat -> incoming net = [] /\ incoming net' = []
  | ReadBytes bs => incoming net = bs ++ incoming net'
  | ReadFailed _ => incoming net = []
  | ReadTimedOut => incoming net' = incoming net
  end.
Proof.
  induction net as [|[[|b bs]| |k|] net IH]; intros E; pose proof E as E0; cbn [read_chunk] in E;
    try (by injection E as <- <-); [by apply IH in E|].
  destruct r as [bs'|k|]; [|done|done]. apply read_chunk_stream in E0 as [_ E0].
  injection E as E _. destruct size as [|size]; cbn [take] in E; subst bs'; [lia|done].
Qed.

(** ** The invariant of the relay *)

Section Relay.
Context (s : TcpStream) (preface : bytes) (down up : list Arrival).

(** [wrote] of the bytes [whole] have been written, [rest] are to come. *)
Record relay_inv (st : Relay) : Prop := {
  inv_down : to_upstream st ++ incoming (down_net st) = preface ++ incoming down;
  inv_up : to_downstream st ++ incoming (up_net st) = incoming up;
  inv_received : bytes_received st =
    Z.min (Z.of_nat (length (to_upstream st)) - Z.of_nat (length preface)) U.u64_max;
  inv_sent : bytes_sent st = Z.min (Z.of_nat (length (to_downstream st))) U.u64_max;
  inv_preface : (length preface <= length (to_upstream st))%nat;
  inv_down_closed : downstream_open st = false ->
    incoming (down_net st) = [] /\ upstream_shut st = true;
  inv_up_closed : upstream_open st = false -> incoming (up_net st) = [];
  inv_down_shut : downstream_shut st = negb (upstream_open st);
  inv_flags : response_flags st = EmptyString;
}.

(** What holds of the relay however it ends: each side was written an initial part
    of what the other side sent, and when no error is reported the backend's
    write half is shut down or the backend closed the connection. *)
Definition relay_post (st : Relay) (proxy_error : option ErrorKind) : Prop :=
  to_upstream st `prefix_of` preface ++ incoming down /\
  to_downstream st `prefix_of` incoming up /\
  response_flags st <> EmptyString /\
  (proxy_error = None -> upstream_shut st = true \/ response_flags st = "UC"%string).

Lemma relay_start_inv : relay_inv (relay_start s preface down up).
Proof.
  constructor; cbn; try done; try lia; unfold U.u64_max, U.u64_modulus; lia.
Qed.

Lemma prefix_of_total {A} (l k m : list A) : l ++ k = m -> l `prefix_of` m.
Proof. intros <-. by apply prefix_app_r. Qed.

Lemma prefix_sent (l k m bs : bytes) (w : WriteResult) :
  l ++ bs ++ k = m -> l ++ sent bs w `prefix_of` m.
Proof.
  intros <-. destruct w as [|kind n]; cbn [sent].
  - rewrite (assoc_L app). by apply prefix_app_r.
  - apply prefix_app. rewrite <- (take_drop n bs) at 2. rewrite <- (assoc_L app).
    by apply prefix_app_r.
Qed.

Lemma saturating_count (n k c : Z) :
  0 <= n -> 0 <= k -> c = Z.min n U.u64_max -> U.saturating_add64 c k = Z.min (n + k) U.u64_max.
Proof. intros Hn Hk ->. unfold U.saturating_add64. lia. Qed.

Lemma on_read_down_inv (st : Relay) (bs : bytes) (net : list Arrival) :
  relay_inv st -> downstream_open st = true -> upstream_shut st = false ->
  incoming (down_net st) = bs ++ incoming net ->
  relay_inv (write_upstream (set_down_net st net) bs Written).
Proof.
  intros [] Ho Hs Hn. constructor; cbn; rewrite ?Hs; cbn; try done.
  - by rewrite <- (assoc_L app), <- Hn.
  - rewrite length_app. erewrite saturating_count; [| | |exact inv_received0]; lia.
  - rewrite length_app. lia.
  - by rewrite Ho.
Qed.

Lemma on_read_up_inv (st : Relay) (bs : bytes) (net : list Arrival) :
  relay_inv st -> upstream_open st = true ->
  incoming (up_net st) = bs ++ incoming net ->
  relay_inv (write_downstream (set_up_net st net) bs Written).
Proof.
  intros [] Ho Hn.
  assert (Hs : downstream_shut st = false) by (by rewrite inv_down_shut0, Ho).
  constructor; cbn; rewrite ?Hs; cbn; try done.
  - by rewrite <- (assoc_L app), <- Hn.
  - rewrite length_app. erewrite saturating_count; [| | |exact inv_sent0]; lia.
  - by rewrite Ho.
  - by rewrite Ho.
Qed.
Lemma set_down_net_inv (st : Relay) (net : list Arrival) :
  relay_inv st -> incoming net = incoming (down_net st) -> relay_inv (set_down_net st net).
Proof. intros [] Hn. constructor; cbn; rewrite ?Hn; done. Qed.

Lemma set_up_net_inv (st : Relay) (net : list Arrival) :
  relay_inv st -> incoming net = incoming (up_net st) -> relay_inv (set_up_net st net).
Proof. intros [] Hn. constructor; cbn; rewrite ?Hn; done. Qed.

Lemma close_downstream_inv (st : Relay) :
  relay_inv st -> incoming (down_net st) = [] ->
  relay_inv (shutdown_upstream (close_downstream st)).
Proof. intros [] Hn. by constructor. Qed.

Lemma close_upstream_inv (st : Relay) :
  relay_inv st -> incoming (up_net st) = [] ->
  relay_inv (shutdown_downstream (close_upstream st)).
Proof. intros [] Hn. by constructor. Qed.

(** A break that writes nothing more. *)
Lemma relay_break (st st' : Relay) (proxy_error : option ErrorKind) :
  relay_inv st -> to_upstream st' = to_upstream st -> to_downstream st' = to_downstream st ->
  response_flags st' <> EmptyString ->
  (proxy_error = None -> upstream_shut st' = true \/ response_flags st' = "UC"%string) ->
  relay_post st' proxy_error.
Proof.
  intros [] Hu Hd Hf He. unfold relay_post. rewrite Hu, Hd.
  split_and!; eauto using prefix_of_total.
Qed.

Lemma downstream_round (size : nat) (idle age : option Z) (st : Relay) (w : WriteResult) :
  (0 < size)%nat -> relay_inv st ->
  match proxy_round size idle age st (DownstreamReady, w) with
  | (st', Continue) => relay_inv st'
  | (st', Break proxy_error) => relay_post st' proxy_error
  end.
Proof.
  intros Hsz Hi. unfold proxy_round. cbn [next_proxy_event fst snd].
  destruct (downstream_open st) eqn:Ho; [|done].
  destruct (read_chunk size (down_net st)) as [r net] eqn:Er. apply read_chunk_incoming in Er.
  destruct r as [[|b bs]|kind|].
  - destruct (Er Hsz) as [E1 E2]. cbn [on_proxy_event].
    apply close_downstream_inv; [|done]. apply set_down_net_inv; [done|]. by rewrite E2.
  - cbn [on_proxy_event]. change (upstream_shut (set_down_net st net)) with (upstream_shut st).
    destruct (effective (upstream_shut st) w) as [|kind n] eqn:Ew.
    + assert (Hs : upstream_shut st = false) by (by destruct (upstream_shut st)).
      assert (w = Written) as -> by (by rewrite Hs in Ew). by apply on_read_down_inv.
    + destruct Hi. assert (Hp : to_upstream st ++ sent (b :: bs) (effective (upstream_shut st) w)
                                 `prefix_of` preface ++ incoming down)
        by (eapply prefix_sent; by rewrite <- Er).
      destruct (is_tcp_connection_closed kind); unfold relay_post; cbn;
        (split_and!; eauto using prefix_of_total; done).
  - destruct (is_tcp_connection_closed kind); cbn [on_proxy_event];
      (eapply relay_break; [exact Hi|done..|]; cbn; by try left).
  - by apply set_down_net_inv.
Qed.

Lemma upstream_round (size : nat) (idle age : option Z) (st : Relay) (w : WriteResult) :
  (0 < size)%nat -> relay_inv st ->
  match proxy_round size idle age st (UpstreamReady, w) with
  | (st', Continue) => relay_inv st'
  | (st', Break proxy_error) => relay_post st' proxy_error
  end.
Proof.
  intros Hsz Hi. unfold proxy_round. cbn [next_proxy_event fst snd].
  destruct (upstream_open st) eqn:Ho; [|done].
  destruct (read_chunk size (up_net st)) as [r net] eqn:Er. apply read_chunk_incoming in Er.
  destruct r as [[|b bs]|kind|].
  - destruct (Er Hsz) as [E1 E2]. cbn [on_proxy_event].
    apply close_upstream_inv; [|done]. apply set_up_net_inv; [done|]. by rewrite E2.
  - cbn [on_proxy_event]. change (downstream_shut (set_up_net st net)) with (downstream_shut st).
    destruct (effective (downstream_shut st) w) as [|kind n] eqn:Ew.
    + assert (w = Written) as -> by (by destruct (downstream_shut st)). by apply on_read_up_inv.
    + destruct Hi. assert (Hp : to_downstream st ++ sent (b :: bs) (effective (downstream_shut st) w)
                                 `prefix_of` incoming up)
        by (eapply prefix_sent; by rewrite <- Er).
      destruct (is_tcp_connection_closed kind); unfold relay_post; cbn;
        (split_and!; eauto using prefix_of_total; done).
  - destruct (is_tcp_connection_closed kind); cbn [on_proxy_event];
      (eapply relay_break; [exact Hi|done..|]; cbn; by try right).
  - by apply set_up_net_inv.
Qed.

Lemma proxy_round_inv (size : nat) (idle age : option Z) (st : Relay) (turn : Turn) :
  (0 < size)%nat -> relay_inv st ->
  match proxy_round size idle age st turn with
  | (st', Continue) => relay_inv st'
  | (st', Break proxy_error) => relay_post st' proxy_error
  end.
Proof.
  intros Hsz Hi. destruct turn as [[] w].
  - by apply downstream_round.
  - by apply upstream_round.
  - unfold proxy_round. cbn. destruct idle; cbn; [|done].
    eapply relay_break; [exact Hi|done..|]. by left.
  - unfold proxy_round. cbn. destruct age; cbn; [|done].
    eapply relay_break; [exact Hi|done..|]. by left.
Qed.

Lemma proxy_loop_inv (size : nat) (idle age : option Z) (turns : list Turn) (st : Relay) :
  (0 < size)%nat -> relay_inv st ->
  match proxy_loop size idle age turns st with
  | (st', None) => relay_inv st'
  | (st', Some proxy_error) =>
    relay_post st' proxy_error \/
    proxy_error = None /\ relay_inv st' /\ downstream_open st' = false /\ upstream_open st' = false
  end.
Proof.
  intros Hsz. revert st. induction turns as [|turn turns IH]; intros st Hi; cbn [proxy_loop].
  all: destruct (negb (downstream_open st) && negb (upstream_open st)) eqn:Hc;
    [apply andb_true_iff in Hc as [Hd%negb_true_iff Hu%negb_true_iff]; by right|].
  - done.
  - pose proof (proxy_round_inv size idle age st turn Hsz Hi) as Hr.
    destruct (proxy_round _ _ _ _ _) as [st' [|proxy_error]]; [by apply IH|by left].
Qed.
End Relay.

(** ** Progress *)

(** The peer sends its bytes, with or without pauses, and closes its half. *)
Fixpoint closes (net : list Arrival) : bool :=
  match net with
  | Segment _ :: net | ReadStalled :: net => closes net
  | PeerClosed :: _ => true
  | _ => false
  end.

(** The most reads it takes to see the peer's close. *)
Fixpoint reads_needed (net : list Arrival) : nat :=
  match net with
  | Segment bs :: net => length bs + reads_needed net
  | ReadStalled :: net => S (reads_needed net)
  | _ => 1
  end.

Lemma read_chunk_progress (size : nat) (net net' : list Arrival) (r : ReadOutcome) :
  (0 < size)%nat -> closes net = true -> read_chunk size net = (r, net') ->
  match r with
  | ReadBytes [] => True
  | ReadBytes _ | ReadTimedOut => closes net' = true /\ (reads_needed net' < reads_needed net)%nat
  | ReadFailed _ => False
  end.
Proof.
  intros Hsz. induction net as [|[[|b bs]| |k|] net IH]; cbn [closes]; intros Hc E;
    cbn [read_chunk] in E; try done.
  - by apply IH in E.
  - injection E as <- <-. destruct size as [|size]; [lia|]. cbn [take].
    case_bool_decide; cbn [closes reads_needed length drop]; (split; [done|]);
      rewrite ?length_drop; cbn [length] in *; lia.
  - by injection E as <- _.
  - injection E as <- <-. split; [done|cbn; lia].
Qed.

(** A schedule in which writes succeed and no timer fires. *)
Definition calm (turn : Turn) : Prop :=
  turn.2 = Written /\ (turn.1 = DownstreamReady \/ turn.1 = UpstreamReady).

Definition rounds (ready : Ready) (turns : list Turn) : nat :=
  length (filter (fun turn : Turn => turn.1 = ready) turns).

Definition needs_down (st : Relay) : nat :=
  if downstream_open st then reads_needed (down_net st) else O.
Definition needs_up (st : Relay) : nat :=
  if upstream_open st then reads_needed (up_net st) else O.

(** Both peers will close, and the backend's write half is shut only after the
    client's close. *)
Definition live (st : Relay) : Prop :=
  (downstream_open st = true -> closes (down_net st) = true) /\
  (upstream_open st = true -> closes (up_net st) = true) /\
  upstream_shut st = negb (downstream_open st) /\
  downstream_shut st = negb (upstream_open st).

Lemma reads_needed_pos (net : list Arrival) : closes net = true -> (0 < reads_needed net)%nat.
Proof.
  induction net as [|[bs| |k|] net IH]; cbn [closes reads_needed]; intros Hc; try lia.
  specialize (IH Hc). lia.
Qed.

Ltac relay_live Ho Hs Ht :=
  unfold live; cbn; rewrite ?Ho, ?Hs, ?Ht; cbn; split_and!; first [done | lia].

Lemma downstream_round_live (size : nat) (idle age : option Z) (st : Relay) :
  (0 < size)%nat -> live st ->
  exists st', proxy_round size idle age st (DownstreamReady, Written) = (st', Continue) /\
    live st' /\ (needs_down st' <= Nat.pred (needs_down st))%nat /\ needs_up st' = needs_up st.
Proof.
  intros Hsz Hl. pose proof Hl as (Hd & Hu & Hs & Ht). unfold proxy_round, needs_down. cbn [next_proxy_event fst snd].
  destruct (downstream_open st) eqn:Ho; cycle 1.
  { exists st. rewrite Ho. by split_and!. }
  destruct (read_chunk size (down_net st)) as [r net] eqn:Er.
  apply (read_chunk_progress _ _ _ _ Hsz (Hd eq_refl)) in Er.
  cbn [negb] in Hs. destruct r as [[|b bs]|kind|]; [| |done|].
  - eexists. split; [reflexivity|]. relay_live Ho Hs Ht.
  - destruct Er as [Hc Hn]. cbn [on_proxy_event].
    change (upstream_shut (set_down_net st net)) with (upstream_shut st). rewrite Hs. cbn [effective].
    eexists. split; [reflexivity|]. relay_live Ho Hs Ht.
  - destruct Er as [Hc Hn]. eexists. split; [reflexivity|]. relay_live Ho Hs Ht.
Qed.

Lemma upstream_round_live (size : nat) (idle age : option Z) (st : Relay) :
  (0 < size)%nat -> live st ->
  exists st', proxy_round size idle age st (UpstreamReady, Written) = (st', Continue) /\
    live st' /\ (needs_up st' <= Nat.pred (needs_up st))%nat /\ needs_down st' = needs_down st.
Proof.
  intros Hsz Hl. pose proof Hl as (Hd & Hu & Hs & Ht). unfold proxy_round, needs_up. cbn [next_proxy_event fst snd].
  destruct (upstream_open st) eqn:Ho; cycle 1.
  { exists st. rewrite Ho. by split_and!. }
  destruct (read_chunk size (up_net st)) as [r net] eqn:Er.
  apply (read_chunk_progress _ _ _ _ Hsz (Hu eq_refl)) in Er.
  cbn [negb] in Ht. destruct r as [[|b bs]|kind|]; [| |done|].
  - eexists. split; [reflexivity|]. relay_live Ho Hs Ht.
  - destruct Er as [Hc Hn]. cbn [on_proxy_event].
    change (downstream_shut (set_up_net st net)) with (downstream_shut st). rewrite Ht. cbn [effective].
    eexists. split; [reflexivity|]. relay_live Ho Hs Ht.
  - destruct Er as [Hc Hn]. eexists. split; [reflexivity|]. relay_live Ho Hs Ht.
Qed.

Lemma live_closed (st : Relay) :
  live st -> needs_down st = O -> needs_up st = O ->
  downstream_open st = false /\ upstream_open st = false.
Proof.
  intros (Hd & Hu & _ & _). unfold needs_down, needs_up.
  destruct (downstream_open st); [pose proof (reads_needed_pos _ (Hd eq_refl)); lia|].
  destruct (upstream_open st); [pose proof (reads_needed_pos _ (Hu eq_refl)); lia|done].
Qed.

Lemma proxy_loop_completes (preface : bytes) (down up : list Arrival) (size : nat)
    (idle age : option Z) (turns : list Turn) (st : Relay) :
  (0 < size)%nat -> live st -> relay_inv preface down up st -> Forall calm turns ->
  (needs_down st <= rounds DownstreamReady turns)%nat ->
  (needs_up st <= rounds UpstreamReady turns)%nat ->
  exists st', proxy_loop size idle age turns st = (st', Some None) /\
    downstream_open st' = false /\ upstream_open st' = false /\ relay_inv preface down up st'.
Proof.
  intros Hsz. revert st. induction turns as [|[ready w] turns IH]; intros st Hl Hi Hc Hd Hu;
    cbn [proxy_loop].
  { destruct (live_closed st Hl) as [-> ->]; [cbn in *; lia..|].
    destruct (live_closed st Hl); [cbn in *; lia..|]. cbn. by exists st. }
  destruct (negb (downstream_open st) && negb (upstream_open st)) eqn:Hcl.
  { apply andb_true_iff in Hcl as [Ha%negb_true_iff Hb%negb_true_iff]. by exists st. }
  inversion Hc as [|? ? [Hw Hr] Hc']; subst. cbn in Hw, Hr. subst w.
  unfold rounds in Hd, Hu. rewrite !filter_cons in Hd, Hu. cbn [fst] in Hd, Hu.
  destruct Hr as [-> | ->].
  - pose proof (downstream_round preface down up size idle age st Written Hsz Hi) as Hi'.
    destruct (downstream_round_live size idle age st Hsz Hl) as (st' & Hr & Hl' & Hd' & Hu').
    rewrite Hr in Hi' |- *. apply IH; [done..| |]; unfold rounds; repeat case_decide; try done; cbn [length] in *; lia.
  - pose proof (upstream_round preface down up size idle age st Written Hsz Hi) as Hi'.
    destruct (upstream_round_live size idle age st Hsz Hl) as (st' & Hr & Hl' & Hu' & Hd').
    rewrite Hr in Hi' |- *. apply IH; [done..| |]; unfold rounds; repeat case_decide; try done; cbn [length] in *; lia.
Qed.

Lemma normalize_positive (value : Z) :
  (0 < Z.to_nat (normalize_tcp_proxy_buffer_bytes value))%nat.
Proof.
  unfold normalize_tcp_proxy_buffer_bytes, DEFAULT_TCP_PROXY_BUFFER_BYTES,
    MIN_TCP_PROXY_BUFFER_BYTES, MAX_TCP_PROXY_BUFFER_BYTES.
  case_bool_decide; lia.
Qed.

Lemma proxy_prefix (s : TcpStream) (preface : bytes) (down up : list Arrival) (buffer : Z)
    (idle age : option Z) (turns : list Turn) :
  let '(relay, ended) := proxy_stream_connection s preface down up buffer idle age turns in
  to_upstream relay `prefix_of` preface ++ incoming down /\
  to_downstream relay `prefix_of` incoming up /\
  (ended = Some None -> upstream_shut relay = true \/ response_flags relay = "UC"%string).
Proof.
  unfold proxy_stream_connection.
  pose proof (proxy_loop_inv preface down up _ idle age turns _ (normalize_positive buffer)
                (relay_start_inv s preface down up)) as Hl.
  destruct (proxy_loop _ _ _ _ _) as [relay [proxy_error|]].
  - destruct Hl as [(Hu & Hd & _ & He)|(-> & [] & Hd & _)].
    + split_and!; [done..|]. intros [= ->]. by apply He.
    + split_and!; [by eapply prefix_of_total..|]. intros _. left. by apply inv_down_closed0.
  - destruct Hl. by split_and!; [eapply prefix_of_total..|].
Qed.

(** ** The connection *)

Section Connection.
Context `{!Network, !Clock}.

Lemma forward_relay (buffer : Z) (idle age : option Z) (ss : Session) (preface : bytes)
    (down : list Arrival) (key : PoolKey) (p : TcpConnectionPool) (t : nat) (relay : Relay) :
  h_relay (forward_connection buffer idle age ss preface down key p t) = Some relay ->
  exists s, to_upstream relay `prefix_of` preface ++ incoming down /\
    to_downstream relay `prefix_of` incoming (ss_up ss s).
Proof.
  unfold forward_connection.
  destruct (get_connection p t key) as [[[[kind|s] counters] p1] t1]; [done|].
  destruct (ss_up_nodelay ss); [done|].
  destruct (if bool_decide _ then _ else _) as [|kind n]; [|done].
  pose proof (proxy_prefix s preface down (ss_up ss s) buffer idle age (ss_turns ss)) as Hx.
  destruct (proxy_stream_connection _ _ _ _ _ _ _ _) as [relay' [proxy_error|]];
    [destruct (maybe_return _ _ _ _ _) as [[p2 t2] returned]|];
    intros [= ->]; exists s; by destruct Hx as (? & ? & _).
Qed.

Lemma forward_returned (buffer : Z) (idle age : option Z) (ss : Session) (preface : bytes)
    (down : list Arrival) (key : PoolKey) (p : TcpConnectionPool) (t : nat) (s : TcpStream) :
  h_returned (forward_connection buffer idle age ss preface down key p t) = Some s ->
  ts_write_open s = false \/
  tt_flags <$> h_traffic (forward_connection buffer idle age ss preface down key p t)
    = Some "UC"%string.
Proof.
  unfold forward_connection.
  destruct (get_connection p t key) as [[[[kind|s1] counters] p1] t1]; [done|].
  destruct (ss_up_nodelay ss); [done|].
  destruct (if bool_decide _ then _ else _) as [|kind n]; [|done].
  pose proof (proxy_prefix s1 preface down (ss_up ss s1) buffer idle age (ss_turns ss)) as Hx.
  destruct (proxy_stream_connection _ _ _ _ _ _ _ _) as [relay [[kind|]|]]; try done.
  destruct Hx as (_ & _ & Hx). specialize (Hx eq_refl).
  unfold maybe_return. cbn [andb]. destruct (is_enabled p1); [|done].
  destruct (try_read_at _ _) as [[]|]; try done.
  destruct (return_connection _ _ _ _) as [p2 t2]. cbn. intros [= <-]. cbn.
  destruct Hx as [-> | ->]; [by left|by right].
Qed.

Lemma get_connection_active (p : TcpConnectionPool) (t : nat) (key : PoolKey) :
  pool_inv p -> is_enabled p = true ->
  let '(result, _, p', _) := get_connection p t key in
  if result is inr _ then active_connections p' = U.wrapping_add64 (active_connections p) 1
  else True.
Proof.
  intros Hp He. unfold get_connection. rewrite He. cbn [negb].
  pose proof (reuse_loop_spec (S (length (default [] (idle p !! key)))) p t key ltac:(lia) Hp) as Hr.
  destruct (newest_reusable _ _ _) as [[found kept] t'].
  destruct Hr as (p' & -> & _ & _ & _ & _ & Hact).
  destruct found; cbn [fmap option_fmap option_map]; [done|].
  destruct (connect t' key); [done|]. cbn. by rewrite Hact.
Qed.
End Connection.

(** ** Properties *)

(** C8: when the client and the backend each send their bytes and close, writes
    succeed and no timer fires, the relay ends after a bounded number of turns with
    no error and no flag; the backend has received the preface followed by
    everything the client sent, the client everything the backend sent, in order and
    unchanged, both write halves are shut down, and the byte counters are the
    numbers of bytes relayed. *)
Theorem relay_delivers (s : TcpStream) (preface : bytes) (down up : list Arrival) (buffer : Z)
    (idle age : option Z) (turns : list Turn) :
  ts_write_open s = true -> closes down = true -> closes up = true ->
  Forall calm turns ->
  (reads_needed down <= rounds DownstreamReady turns)%nat ->
  (reads_needed up <= rounds UpstreamReady turns)%nat ->
  exists relay,
    proxy_stream_connection s preface down up buffer idle age turns = (relay, Some None) /\
    to_upstream relay = preface ++ incoming down /\ to_downstream relay = incoming up /\
    upstream_shut relay = true /\ downstream_shut relay = true /\
    response_flags relay = EmptyString /\
    bytes_received relay = Z.min (Z.of_nat (length (incoming down))) U.u64_max /\
    bytes_sent relay = Z.min (Z.of_nat (length (incoming up))) U.u64_max.
Proof.
  intros Hw Hd Hu Hc Hnd Hnu. unfold proxy_stream_connection.
  destruct (proxy_loop_completes preface down up _ idle age turns (relay_start s preface down up)
              (normalize_positive buffer)) as (relay & Hr & Ho & Ho' & []);
    [|apply relay_start_inv|done..|].
  { split_and!; cbn; try done. by rewrite Hw. }
  exists relay. split; [done|]. destruct (inv_down_closed0 Ho) as [Ed Hsh]. specialize (inv_up_closed0 Ho').
  rewrite Ed, app_nil_r in inv_down0. rewrite inv_up_closed0, app_nil_r in inv_up0.
  rewrite inv_down0, length_app in inv_received0. rewrite inv_up0 in inv_sent0.
  split_and!; try done.
  - by rewrite inv_down_shut0, Ho'.
  - rewrite inv_received0. f_equal. lia.
Qed.

(** C28: whatever arrives and however sockets, timers and write errors interleave, the
    backend of a proxied connection receives an initial part of what the client
    sent, the bytes read ahead to find the server name included, and the
    client an initial part of what the backend sent: no byte is lost in the
    middle, repeated, reordered or changed. *)
Theorem connection_relays_prefix `{!Network, !Clock} (select : option bytes -> option PoolKey)
    (listener : string) (tls : bool) (buffer : Z) (idle age : option Z) (ss : Session)
    (p : TcpConnectionPool) (t : nat) (relay : Relay) :
  h_relay (handle_connection select listener tls buffer idle age ss p t) = Some relay ->
  to_upstream relay `prefix_of` incoming (ss_down ss) /\
  exists s, to_downstream relay `prefix_of` incoming (ss_up ss s).
Proof.
  unfold handle_connection.
  assert (Hpre : forall preface down,
    (if tls then read_preface (ss_down ss) else (inr [], ss_down ss)) = (inr preface, down) ->
    preface ++ incoming down = incoming (ss_down ss)).
  { intros preface down. destruct tls; [|by intros [= <- <-]].
    intros E. by apply read_preface_stream in E as [_ E]. }
  destruct (if tls then _ else _) as [[e|preface] down]; [done|].
  specialize (Hpre _ _ eq_refl). destruct (select _) as [key|]; [|done].
  destruct (ss_down_nodelay ss); [done|].
  intros Hr. apply forward_relay in Hr as (s & Hs).
  rewrite Hpre in Hs. destruct Hs as [Hu Hd]. eauto.
Qed.

(** a connection that [handle_connection] gives back to the pool cannot carry
    another session: its write half has been shut down, or the backend had
    already closed it. *)
Theorem returned_connection_is_closed `{!Network, !Clock} (select : option bytes -> option PoolKey)
    (listener : string) (tls : bool) (buffer : Z) (idle age : option Z) (ss : Session)
    (p : TcpConnectionPool) (t : nat) (s : TcpStream) :
  h_returned (handle_connection select listener tls buffer idle age ss p t) = Some s ->
  ts_write_open s = false \/
  tt_flags <$> h_traffic (handle_connection select listener tls buffer idle age ss p t)
    = Some "UC"%string.
Proof.
  unfold handle_connection.
  destruct (if tls then _ else _) as [[e|preface] down]; [done|].
  destruct (select _) as [key|]; [|done].
  destruct (ss_down_nodelay ss); [done|].
  apply forward_returned.
Qed.

(** A connection taken from an enabled pool that ends without being given back
    is counted as active from then on, although no one holds it. *)
Theorem unreturned_stays_active `{!Network, !Clock} (buffer : Z) (idle age : option Z)
    (ss : Session) (preface : bytes) (down : list Arrival) (key : PoolKey)
    (p : TcpConnectionPool) (t : nat) :
  pool_inv p -> is_enabled p = true ->
  let h := forward_connection buffer idle age ss preface down key p t in
  is_Some (h_relay h) -> h_result h <> None -> h_returned h = None ->
  active_connections (h_pool h) = U.wrapping_add64 (active_connections p) 1.
Proof.
  intros Hp He h. subst h. unfold forward_connection.
  pose proof (get_connection_active p t key Hp He) as Ha.
  destruct (get_connection p t key) as [[[[kind|s] counters] p1] t1]; [by intros [? ?]|].
  destruct (ss_up_nodelay ss); [by intros [? ?]|].
  destruct (if bool_decide _ then _ else _) as [|kind n]; [|by intros [? ?]].
  destruct (proxy_stream_connection _ _ _ _ _ _ _ _) as [relay [proxy_error|]]; [|done].
  unfold maybe_return. intros _ _.
  destruct (_ && _); [|done].
  destruct (try_read_at _ _) as [[]|]; try done. by destruct (return_connection _ _ _ _).
Qed.

(** ** Witnesses *)

Section Witnesses.
#[local] Existing Instance demo_network.
#[local] Existing Instance demo_clock.

Definition demo_down : list Arrival := [Segment [3; 4]; PeerClosed].
Definition demo_up : list Arrival := [ReadStalled; Segment [9]; PeerClosed].
Definition demo_turns : list Turn :=
  [(DownstreamReady, Written); (UpstreamReady, Written); (UpstreamReady, Written);
   (DownstreamReady, Written); (DownstreamReady, Written); (UpstreamReady, Written)].

Lemma demo_turns_calm : Forall calm demo_turns.
Proof. repeat apply Forall_cons_2; try apply Forall_nil_2; (split; [done|cbn; auto]). Qed.

Lemma relay_delivers_witness :
  exists relay, proxy_stream_connection (mkTcpStream 0 true) [1; 2] demo_down demo_up 0 None None
      demo_turns = (relay, Some None) /\ to_upstream relay = [1; 2; 3; 4].
Proof.
  destruct (relay_delivers (mkTcpStream 0 true) [1; 2] demo_down demo_up 0 None None demo_turns
              eq_refl eq_refl eq_refl demo_turns_calm) as (relay & Hr & Hu & _);
    [vm_compute; lia|vm_compute; lia|]. by exists relay.
Defined.

(** A client that says nothing until the idle timeout; then one that sends a byte. *)
Definition silent_session : Session :=
  mkSession [ReadStalled] (fun _ => [ReadStalled]) None None Written [(IdleElapsed, Written)].
Definition next_session : Session :=
  mkSession [Segment [7]] (fun _ => []) None None Written [(DownstreamReady, Written)].

Definition demo_handle (ss : Session) (p : TcpConnectionPool) (t : nat) : Handled :=
  handle_connection (fun _ => Some demo_key) "l" false 0 (Some 5) None ss p t.

Lemma connection_relays_prefix_witness :
  exists relay, h_relay (demo_handle next_session (new 4 100) 0) = Some relay /\
    to_upstream relay = [7] /\ to_upstream relay `prefix_of` incoming (ss_down next_session).
Proof.
  eexists. split; [vm_compute; reflexivity|]. split; [reflexivity|].
  apply (connection_relays_prefix (fun _ => Some demo_key) "l" false 0 (Some 5) None next_session
           (new 4 100) 0). vm_compute. reflexivity.
Defined.

(** The first session leaves a connection in the pool; the next one gets it and fails. *)
Lemma returned_connection_is_closed_witness :
  exists s, h_returned (demo_handle silent_session (new 4 100) 0) = Some s /\
    (ts_write_open s = false \/
     tt_flags <$> h_traffic (demo_handle silent_session (new 4 100) 0) = Some "UC"%string) /\
    let h := demo_handle next_session (h_pool (demo_handle silent_session (new 4 100) 0)) 9 in
    to_upstream <$> h_relay h = Some [] /\ tt_flags <$> h_traffic h = Some "UC"%string.
Proof.
  exists (mkTcpStream 0 false). split; [vm_compute; reflexivity|].
  split; [|vm_compute; split; reflexivity].
  apply (returned_connection_is_closed (fun _ => Some demo_key) "l" false 0 (Some 5) None
           silent_session (new 4 100) 0 (mkTcpStream 0 false)).
  vm_compute. reflexivity.
Defined.

(** The write to the backend fails: the connection is dropped. *)
Definition broken_session : Session :=
  mkSession [Segment [7]] (fun _ => []) None None Written
    [(DownstreamReady, WriteFailed OtherError 0)].

Lemma unreturned_stays_active_witness :
  let h := forward_connection 0 None None broken_session [] [Segment [7]] demo_key (new 4 100) 0 in
  active_connections (h_pool h) = 1.
Proof.
  apply (unreturned_stays_active 0 None None broken_session [] [Segment [7]] demo_key (new 4 100) 0
           (new_inv 4 100) eq_refl).
  - vm_compute. by eexists.
  - vm_compute. discriminate.
  - vm_compute. reflexivity.
Defined.
End Witnesses.
End TcpProxyFacts.
