(* ===== verification/Reconnect.v ===== *)
(** * Reconnect backoff and required features

    [ntgw-xds/src/reconnect.rs]: the delay before the control-plane stream is
    opened again.  [ntgw-xds/src/features.rs]: the features a snapshot may
    require, compared as ordered sets of strings. *)

From Stdlib Require Import ZArith Lia Ascii String.
From stdpp Require Import base strings numbers sorting sets list.
From S2P Require Import Prelude Strs.

Module Reconnect.
Local Open Scope Z_scope.

(** ** Backoff *)

Record TransportOptions := mkTransportOptions {
  initial_reconnect_backoff : Z;
  max_reconnect_backoff : Z;
  apply_timeout : Z;
  stale_stream_timeout : Z;
}.

Record ReconnectBackoff := mkReconnectBackoff {
  initial : Z;
  max : Z;
  attempt : Z;
}.

Definition new (options : TransportOptions) : ReconnectBackoff :=
  mkReconnectBackoff (initial_reconnect_backoff options)
    (Z.max (max_reconnect_backoff options) (initial_reconnect_backoff options)) 0.

Definition reset (self : ReconnectBackoff) : ReconnectBackoff :=
  mkReconnectBackoff (initial self) (max self) 0.

(** [duration.as_millis().try_into().unwrap_or(u64::MAX)] *)
Definition duration_millis (duration : Z) : Z := Z.min (duration / 1000000) U.u64_max.
Definition from_millis (ms : Z) : Z := ms * 1000000.

Definition deterministic_jitter (attempt modulo : Z) : Z :=
  let seed := U.wrapping_add64 (U.wrapping_mul64 attempt 1103515245) 12345 in
  if bool_decide (modulo = 0) then 0 else seed mod modulo.

(** The delay before jitter, in milliseconds. *)
Definition capped_ms (self : ReconnectBackoff) : Z :=
  let shift := Z.min (attempt self) 16 in
  let multiplier := Z.shiftl 1 shift in
  Z.max (Z.min (U.saturating_mul64 (duration_millis (initial self)) multiplier)
           (duration_millis (max self))) 1.

Definition next_delay (self : ReconnectBackoff) : Z * ReconnectBackoff :=
  let capped := capped_ms self in
  let attempt := U.saturating_add32 (attempt self) 1 in
  let floor_ms := Z.max (capped / 2) 1 in
  let spread_ms := U.saturating_sub capped floor_ms in
  let jitter_ms := if bool_decide (spread_ms = 0) then 0
                   else deterministic_jitter attempt (spread_ms + 1) in
  (from_millis (U.saturating_add64 floor_ms jitter_ms),
   mkReconnectBackoff (initial self) (max self) attempt).

Definition retry_delay_after_stream_failure (backoff : ReconnectBackoff)
    (stream_established : bool) : Z * ReconnectBackoff :=
  next_delay (if stream_established then reset backoff else backoff).

(** The delays of [n] failures in a row, none of which established a stream. *)
Fixpoint delays (n : nat) (backoff : ReconnectBackoff) : list Z :=
  match n with
  | O => []
  | S n => let '(d, backoff) := retry_delay_after_stream_failure backoff false in
           d :: delays n backoff
  end.

Lemma next_delay_bounds (self : ReconnectBackoff) :
  let '(delay, _) := next_delay self in
  from_millis (Z.max (capped_ms self / 2) 1) <= delay <= from_millis (capped_ms self).
Proof.
  unfold next_delay. set (c := capped_ms self).
  assert (Hc : 1 <= c) by (subst c; unfold capped_ms; lia).
  set (f := Z.max (c / 2) 1). assert (Hf : 1 <= f <= c).
  { subst f. split; [lia|]. assert (c / 2 <= c) by (apply Z.div_le_upper_bound; lia). lia. }
  assert (Hm : c <= U.u64_max).
  { subst c. unfold capped_ms, duration_millis.
    change U.u64_max with 18446744073709551615. lia. }
  unfold from_millis, U.saturating_sub, U.saturating_add64, deterministic_jitter.
  rewrite Z.max_r by lia. case_bool_decide as E; [lia|].
  rewrite bool_decide_eq_false_2 by lia.
  set (seed := U.wrapping_add64 _ _).
  pose proof (Z.mod_pos_bound seed (c - f + 1) ltac:(lia)). lia.
Qed.

Lemma capped_ms_max (self : ReconnectBackoff) :
  capped_ms self <= Z.max (duration_millis (max self)) 1.
Proof. unfold capped_ms. lia. Qed.

Lemma capped_ms_attempt (i m a b : Z) :
  0 <= i -> 0 <= a <= b ->
  capped_ms (mkReconnectBackoff i m a) <= capped_ms (mkReconnectBackoff i m b).
Proof.
  intros Hi Hab. unfold capped_ms. cbn [initial max attempt].
  rewrite !Z.shiftl_mul_pow2, !Z.mul_1_l by lia.
  assert (2 ^ Z.min a 16 <= 2 ^ Z.min b 16) by (apply Z.pow_le_mono_r; lia).
  assert (0 <= duration_millis i).
  { unfold duration_millis. change U.u64_max with 18446744073709551615.
    pose proof (Z.div_pos i 1000000 Hi). lia. }
  unfold U.saturating_mul64. set (d := duration_millis i) in *.
  assert (d * 2 ^ Z.min a 16 <= d * 2 ^ Z.min b 16) by (apply Z.mul_le_mono_nonneg_l; lia).
  lia.
Qed.

Lemma delays_lookup (n k : nat) (b : ReconnectBackoff) (d : Z) :
  0 <= attempt b <= U.u32_max -> delays n b !! k = Some d ->
  d = (next_delay (mkReconnectBackoff (initial b) (max b)
                     (Z.min (attempt b + Z.of_nat k) U.u32_max))).1.
Proof.
  revert k b. induction n as [|n IH]; intros k b Hb; [done|].
  cbn [delays]. unfold retry_delay_after_stream_failure.
  destruct (next_delay b) as [d0 b'] eqn:E. destruct k as [|k]; cbn [lookup list_lookup].
  - intros [= <-]. destruct b as [i m a]. cbn [initial max attempt] in *.
    rewrite Z.min_l by lia. by rewrite Z.add_0_r, E.
  - intros Hd. unfold next_delay in E. injection E as _ <-.
    apply IH in Hd; cbn [initial max attempt] in *; unfold U.saturating_add32 in *; [|lia].
    rewrite Hd. do 3 f_equal. lia.
Qed.

(** the delays between failed attempts to reach the control plane double from
    the initial backoff up to the maximum, and jitter only takes away at most half:
    the [k]-th delay lies between [c / 2] and [c], where [c] is the initial backoff
    times 2^min(k, 16), cut at the maximum; no delay is below a millisecond. *)
Theorem reconnect_delays_bounded (options : TransportOptions) (n k : nat) (d : Z) :
  0 <= initial_reconnect_backoff options ->
  delays n (new options) !! k = Some d ->
  let c := Z.max (Z.min (duration_millis (initial_reconnect_backoff options)
                         * 2 ^ Z.min (Z.of_nat k) 16)
                    (Z.max (duration_millis (max_reconnect_backoff options))
                           (duration_millis (initial_reconnect_backoff options)))) 1 in
  from_millis (Z.max (c / 2) 1) <= d <= from_millis c.
Proof.
  intros Hi Hd. apply delays_lookup in Hd; [|cbn; unfold U.u32_max, U.u32_modulus; lia].
  cbn [new initial max attempt] in Hd. set (b := mkReconnectBackoff _ _ _) in Hd.
  intros c. enough (capped_ms b = c) as <-.
  { pose proof (next_delay_bounds b) as Hb. destruct (next_delay b). cbn in Hd. by subst d. }
  subst c b. unfold capped_ms. cbn [initial max attempt].
  assert (Hm : Z.min (Z.min (0 + Z.of_nat k) U.u32_max) 16 = Z.min (Z.of_nat k) 16)
    by (unfold U.u32_max, U.u32_modulus; lia).
  rewrite Hm, Z.shiftl_mul_pow2, Z.mul_1_l by lia. f_equal.
  assert (Hd' : forall x y, duration_millis (Z.max x y) = Z.max (duration_millis x) (duration_millis y)).
  { intros x y. unfold duration_millis.
    destruct (Z.max_spec x y) as [[Hxy ->]|[Hxy ->]];
      [pose proof (Z.div_le_mono x y 1000000)|pose proof (Z.div_le_mono y x 1000000)]; lia. }
  rewrite Hd'. unfold U.saturating_mul64, duration_millis. lia.
Qed.

Lemma reconnect_delays_bounded_witness :
  exists d, delays 3 (new (mkTransportOptions 2000000000 30000000000 0 0)) !! 2%nat = Some d /\
    4000000000 <= d <= 8000000000.
Proof.
  eexists. split; [vm_compute; reflexivity|].
  apply (reconnect_delays_bounded (mkTransportOptions 2000000000 30000000000 0 0) 3 2);
    [cbn; lia|vm_compute; reflexivity].
Defined.

(** ** Features *)

#[global] Instance string_ord : RustOrd string := String.compare.

Lemma ascii_compare_lt (a b c : ascii) :
  Ascii.compare a b = Lt -> Ascii.compare b c = Lt -> Ascii.compare a c = Lt.
Proof. unfold Ascii.compare. rewrite !N.compare_lt_iff. lia. Qed.

Lemma ascii_compare_refl (a : ascii) : Ascii.compare a a = Eq.
Proof. apply N.compare_refl. Qed.

#[global] Instance string_ord_laws : RustOrdLaws string.
Proof.
  split; unfold cmp, string_ord.
  - intros x y. split; [apply String.compare_eq_iff|intros ->].
    induction y as [|a y IH]; [done|]. cbn. by rewrite ascii_compare_refl.
  - intros x y. apply String.compare_antisym.
  - intros x. induction x as [|a x IH]; intros [|b y] [|c z]; cbn; try done.
    destruct (Ascii.compare a b) eqn:E1, (Ascii.compare b c) eqn:E2; try done; intros H1 H2.
    + apply Ascii.compare_eq_iff in E1 as ->. rewrite E2. by eapply IH.
    + apply Ascii.compare_eq_iff in E1 as ->. by rewrite E2.
    + apply Ascii.compare_eq_iff in E2 as ->. by rewrite E1.
    + by rewrite (ascii_compare_lt _ _ _ E1 E2).
Qed.

Definition FEATURE_CORE_V1 : string := "core.v1".
Definition FEATURE_ROUTE_LABELS_V1 : string := "route.labels.v1".
Definition FEATURE_BACKEND_AI_SERVICE_V1 : string := "backend.ai_service.v1".
Definition FEATURE_BACKEND_TOKEN_POLICY_V1 : string := "backend.token_policy.v1".
Definition FEATURE_BACKEND_WASM_PLUGIN_V1 : string := "backend.wasm_plugin.v1".

(** [BTreeSet::insert], the set as its sorted elements. *)
Fixpoint btree_insert (x : string) (l : list string) : list string :=
  match l with
  | [] => [x]
  | y :: l' =>
    match cmp x y with
    | Lt => x :: l
    | Eq => l
    | Gt => y :: btree_insert x l'
    end
  end.

Definition canonicalize_supported_features (items : list string) : list string :=
  foldl (fun set item =>
    let trimmed := Str.trim item in
    if Str.is_empty trimmed then set else btree_insert trimmed set) [] items.

Definition supported_features : list string :=
  canonicalize_supported_features
    [FEATURE_CORE_V1; FEATURE_ROUTE_LABELS_V1; FEATURE_BACKEND_AI_SERVICE_V1;
     FEATURE_BACKEND_TOKEN_POLICY_V1; FEATURE_BACKEND_WASM_PLUGIN_V1].

(** [slice.binary_search(x)] *)
Definition search_string (l : list string) (x : string) : nat + nat :=
  binary_search_by (fun i => match l !! i with Some y => cmp y x | None => Gt end) (length l).

(** [items.join(", ")] *)
Fixpoint join_comma (items : list string) : string :=
  match items with
  | [] => EmptyString
  | [x] => x
  | x :: items => x +:+ ", " +:+ join_comma items
  end.

(** What [preflight_required_features] reads of a snapshot is its list of required
    features. *)
Definition preflight_required_features (required supported : list string) : string + unit :=
  let supported := canonicalize_supported_features supported in
  let missing := List.filter (fun feature => negb (is_inl (search_string supported feature)))
                   (canonicalize_supported_features required) in
  match missing with
  | [] => inr tt
  | _ => inl ("snapshot requires unsupported features: " +:+ join_comma missing)
  end.

(** Strictly ascending lists. *)
Definition ascending (l : list string) : Prop := StronglySorted (fun x y => cmp x y = Lt) l.

Lemma btree_insert_elem (x y : string) (l : list string) :
  y ∈ btree_insert x l <-> y = x \/ y ∈ l.
Proof.
  induction l as [|z l IH]; cbn [btree_insert].
  - set_solver.
  - destruct (cmp x z) eqn:E; [apply cmp_eq in E as ->|..]; set_solver.
Qed.

Lemma btree_insert_ascending (x : string) (l : list string) :
  ascending l -> ascending (btree_insert x l).
Proof.
  induction 1 as [|z l Hs IH Hz]; cbn [btree_insert].
  - repeat constructor.
  - destruct (cmp x z) eqn:E.
    + by constructor.
    + constructor; [by constructor|]. constructor; [done|].
      eapply list.Forall_impl; [exact Hz|]. intros y Hy. by eapply cmp_lt_trans.
    + constructor; [done|]. apply list.Forall_forall. intros y [->|Hy]%btree_insert_elem.
      * rewrite cmp_antisym, E. done.
      * rewrite list.Forall_forall in Hz. by apply Hz.
Qed.

Lemma canonicalize_spec (items : list string) :
  ascending (canonicalize_supported_features items) /\
  (forall x, x ∈ canonicalize_supported_features items <->
     x <> EmptyString /\ x ∈ Str.trim <$> items).
Proof.
  unfold canonicalize_supported_features.
  enough (Hg : forall set, ascending set -> (forall x, x ∈ set -> x <> EmptyString) ->
    ascending (foldl (fun set item => let trimmed := Str.trim item in
      if Str.is_empty trimmed then set else btree_insert trimmed set) set items) /\
    forall x, x ∈ foldl (fun set item => let trimmed := Str.trim item in
      if Str.is_empty trimmed then set else btree_insert trimmed set) set items <->
      x <> EmptyString /\ (x ∈ set \/ x ∈ Str.trim <$> items)).
  { destruct (Hg []) as [Ha Hx]; [constructor|by intros x ?%elem_of_nil|].
    split; [done|]. intros x. rewrite Hx. set_solver. }
  induction items as [|item items IH]; intros set Hs He; cbn [foldl].
  - split; [done|]. intros x. set_solver.
  - cbv zeta. rewrite fmap_cons. destruct (Str.is_empty (Str.trim item)) eqn:Et.
    + apply Str.is_empty_true in Et. destruct (IH set Hs He) as [Ha Hx]. split; [done|].
      intros x. rewrite Hx, elem_of_cons, Et. naive_solver.
    + assert (Hne : Str.trim item <> EmptyString)
        by (intros E; apply Str.is_empty_true in E; congruence).
      destruct (IH (btree_insert (Str.trim item) set)) as [Ha Hx].
      * by apply btree_insert_ascending.
      * intros x [->|Hx]%btree_insert_elem; [done|by apply He].
      * split; [done|]. intros x. rewrite Hx, elem_of_cons, btree_insert_elem. naive_solver.
Qed.

Lemma ascending_lookup (l : list string) (i j : nat) (x y : string) :
  ascending l -> (i < j)%nat -> l !! i = Some x -> l !! j = Some y -> cmp x y = Lt.
Proof.
  intros Hs. revert i j. induction Hs as [|z l Hs IH Hz]; intros i j Hij; [done|].
  destruct j as [|j]; [lia|]. cbn. destruct i as [|i]; cbn.
  - intros [= ->] Hj. rewrite list.Forall_forall in Hz. apply Hz. by apply list_elem_of_lookup_2 in Hj.
  - apply IH. lia.
Qed.

Lemma search_string_elem (l : list string) (x : string) :
  ascending l -> is_inl (search_string l x) = bool_decide (x ∈ l).
Proof.
  intros Hs. unfold search_string. set (f := fun i : nat => _).
  assert (Hm : bsearch_mono f (length l)).
  { intros i j [Hij Hj]. unfold f.
    destruct (lookup_lt_is_Some_2 l j Hj) as [y Hy]. rewrite Hy.
    destruct (lookup_lt_is_Some_2 l i ltac:(lia)) as [z Hz]. rewrite Hz.
    destruct (decide (i = j)) as [->|Hne]; [naive_solver|].
    pose proof (ascending_lookup l i j z y Hs ltac:(lia) Hz Hy) as Hlt.
    split; intros Hf; [|by eapply cmp_lt_trans].
    rewrite cmp_antisym in Hf |- *.
    destruct (cmp x z) eqn:E; cbn in Hf; try done. by rewrite (cmp_lt_trans _ _ _ E Hlt). }
  pose proof (binary_search_by_spec f _ Hm) as Hb.
  destruct (binary_search_by f (length l)) as [i|k]; cbn.
  - destruct Hb as [Hi Heq]. symmetry. apply bool_decide_eq_true.
    unfold f in Heq. destruct (l !! i) as [y|] eqn:Hy; [|done]. apply cmp_eq in Heq as ->.
    by eapply list_elem_of_lookup_2.
  - destruct Hb as (_ & Hlt & Hgt). symmetry. apply bool_decide_eq_false.
    intros [i Hi]%list_elem_of_lookup. assert (f i = Eq) as E.
    { unfold f. rewrite Hi. by apply cmp_eq. }
    pose proof (lookup_lt_Some _ _ _ Hi). destruct (decide (i < k)%nat).
    + rewrite Hlt in E by done. done.
    + rewrite Hgt in E by lia. done.
Qed.

Lemma ascending_filter (p : string -> bool) (l : list string) :
  ascending l -> ascending (List.filter p l).
Proof.
  induction 1 as [|z l Hs IH Hz]; cbn; [constructor|]. destruct (p z); [|done].
  constructor; [done|]. apply list.Forall_forall. intros y [Hy _]%list_elem_of_In%List.filter_In.
  rewrite list.Forall_forall in Hz. by apply Hz, list_elem_of_In.
Qed.

(** A snapshot passes the feature check exactly when every feature it requires,
    blanks trimmed and empty entries ignored, is one of the supported ones;
    otherwise the message lists exactly the missing features, in ascending
    order and without repetition. *)
Theorem preflight_features_spec (required supported : list string) :
  (preflight_required_features required supported = inr tt <->
   forall f, f <> EmptyString -> f ∈ Str.trim <$> required -> f ∈ Str.trim <$> supported) /\
  (forall message, preflight_required_features required supported = inl message ->
   exists missing, ascending missing /\ missing <> [] /\
     message = "snapshot requires unsupported features: " +:+ join_comma missing /\
     forall f, f ∈ missing <->
       f <> EmptyString /\ f ∈ Str.trim <$> required /\ f ∉ Str.trim <$> supported).
Proof.
  unfold preflight_required_features.
  destruct (canonicalize_spec required) as [Hra Hr].
  destruct (canonicalize_spec supported) as [Hsa Hs].
  set (missing := List.filter _ _).
  assert (Hm : forall f, f ∈ missing <->
    f <> EmptyString /\ f ∈ Str.trim <$> required /\ f ∉ Str.trim <$> supported).
  { intros f. subst missing. rewrite list_elem_of_In, List.filter_In, <- list_elem_of_In, Hr.
    rewrite search_string_elem, negb_true_iff, bool_decide_eq_false, Hs by done. naive_solver. }
  assert (Ha : ascending missing) by (by apply ascending_filter).
  clearbody missing. destruct missing as [|f missing].
  - split; [|done]. split; [|done]. intros _ f Hne Hf.
    destruct (decide (f ∈ Str.trim <$> supported)) as [|Hn]; [done|].
    pose proof (proj2 (Hm f) (conj Hne (conj Hf Hn))) as Hin. by apply elem_of_nil in Hin.
  - split; [|intros message [= <-]; by exists (f :: missing)]. split; [done|]. intros Hall.
    destruct (proj1 (Hm f)) as (Hne & Hf & Hn); [by left|]. by destruct Hn; apply Hall.
Qed.
End Reconnect.
