(* ===== verification/XdsClient.v ===== *)
(** * The control-plane client

    [ntgw-xds]: how a configuration snapshot is received, checked, swapped in,
    acknowledged or rejected ([lib.rs], [stream.rs], [status.rs], [stats.rs]), and
    how the stream is kept up.  The messages' types are generated from protocol
    files that are not part of the sources; a snapshot message is an id, its
    required features and a body, and the decoding of the body is a parameter. *)

From Stdlib Require Import ZArith Lia String.
From stdpp Require Import base strings numbers gmap list.
From S2P Require Import Prelude Strs IrTypes EndpointRuntime Snapshot Reconnect.

Module XdsClient.
Import EndpointRuntime Snapshots Reconnect.
Local Open Scope Z_scope.

(** ** Parameters *)

(** The body of a snapshot message and its decoding: what
    [Snapshot::from_proto_without_runtime_indexes] makes of a message with the id
    and the body. *)
Class SnapshotProto := {
  Body : Type;
  from_proto_without_runtime_indexes : string -> Body -> Snapshot;
}.

(** The decoded snapshot has the id of the message. *)
Class SnapshotProtoLaws `{SnapshotProto} : Prop :=
  from_proto_id : forall id body, sn_id (from_proto_without_runtime_indexes id body) = id.

Record ConfigSnapshot `{SnapshotProto} := mkConfigSnapshot {
  cs_id : string;
  cs_required_features : list string;
  cs_body : Body;
}.

(** ** Requests and reports *)

Inductive DiscoveryResultStatus :=
| DiscoveryUnspecified
| DiscoveryAck
| DiscoveryNack.

Record DiscoveryRequest := mkDiscoveryRequest {
  dr_node_id : string;
  dr_cluster : string;
  dr_version : string;
  dr_nonce : string;
  dr_subscriptions : list string;
  dr_result_status : DiscoveryResultStatus;
  dr_error_detail : string;
  dr_supported_features : list string;
}.

Definition discovery_ack (node_id cluster version nonce : string)
    (supported_features : list string) : DiscoveryRequest :=
  mkDiscoveryRequest node_id cluster version nonce ["*"%string] DiscoveryAck EmptyString
    supported_features.

Definition discovery_open (node_id cluster version : string)
    (supported_features : list string) : DiscoveryRequest :=
  mkDiscoveryRequest node_id cluster version EmptyString ["*"%string] DiscoveryUnspecified
    EmptyString supported_features.

Definition discovery_nack (node_id cluster version nonce error_detail : string)
    (supported_features : list string) : DiscoveryRequest :=
  mkDiscoveryRequest node_id cluster version nonce ["*"%string] DiscoveryNack error_detail
    supported_features.

Inductive XdsError :=
| ConnectionFailed (message : string)
| StreamError (message : string)
| TlsConfig (message : string)
| ChannelSend (message : string).

(** ** Versions *)

Definition snapshot_version_from_response (message_version snapshot_id : string) : option string :=
  let payload_version := Str.trim snapshot_id in
  if negb (Str.is_empty payload_version) then Some payload_version
  else
    let message_version := Str.trim message_version in
    if negb (Str.is_empty message_version) then Some message_version else None.

Definition should_apply_snapshot (current_version : string) (next_version : option string) : bool :=
  match next_version with
  | None => true
  | Some version => negb (bool_decide (current_version = version))
  end.

(** ** Runtime status *)

(** The fields of the runtime's statistics that the client reads. *)
Record RuntimeStatsSnapshot := mkRuntimeStatsSnapshot {
  http_last_good_reload_version : string;
  http_last_reload_failure_version : string;
  http_last_reload_failure_message : string;
  tls_last_good_reload_version : string;
  tls_last_reload_failure_version : string;
  tls_last_reload_failure_message : string;
  stream_last_good_reload_version : string;
  stream_last_reload_failure_version : string;
  stream_last_reload_failure_message : string;
}.

Record RuntimeApplyRequirements := mkRuntimeApplyRequirements {
  http : bool;
  tls : bool;
  stream : bool;
}.

Definition requires_http_runtime (protocol : string) : bool :=
  bool_decide (protocol ∈ ["LISTENER_PROTOCOL_HTTP"; "LISTENER_PROTOCOL_HTTP3";
    "LISTENER_PROTOCOL_GRPC"; "HTTP"; "HTTP3"; "GRPC"]%string).

Definition requires_tls_runtime (protocol : string) : bool :=
  bool_decide (protocol ∈ ["LISTENER_PROTOCOL_HTTPS"; "LISTENER_PROTOCOL_TLS_PASSTHROUGH";
    "HTTPS"; "TLS"; "TLS_PASSTHROUGH"]%string).

Definition requires_stream_runtime (protocol : string) : bool :=
  bool_decide (protocol ∈ ["LISTENER_PROTOCOL_TCP"; "LISTENER_PROTOCOL_UDP"; "TCP"; "UDP"]%string).

Definition snapshot_runtime_apply_requirements (snapshot : Snapshot) : RuntimeApplyRequirements :=
  mkRuntimeApplyRequirements
    (existsb (fun listener => requires_http_runtime (l_protocol listener)) (sn_listeners snapshot))
    (existsb (fun listener => requires_tls_runtime (l_protocol listener)) (sn_listeners snapshot))
    (existsb (fun listener => requires_stream_runtime (l_protocol listener)) (sn_listeners snapshot)).

Definition required_runtime_names (requirements : RuntimeApplyRequirements) : string :=
  match http requirements, tls requirements, stream requirements with
  | true, true, true => "HTTP, TLS, and stream"
  | true, true, false => "HTTP and TLS"
  | true, false, true => "HTTP and stream"
  | false, true, true => "TLS and stream"
  | true, false, false => "HTTP"
  | false, true, false => "TLS"
  | false, false, true => "stream"
  | false, false, false => "listener"
  end.

(** The failure a runtime reports for [version]: its version matches and it has a message. *)
Definition failure_for (version failure_version message : string) : option string :=
  if bool_decide (failure_version = version) && negb (Str.is_empty message)
  then Some message else None.

Definition current_runtime_apply_result (rt : RuntimeStatsSnapshot) (version : string)
    (requirements : RuntimeApplyRequirements) : option (string + unit) :=
  let http_ready := negb (http requirements)
                    || bool_decide (http_last_good_reload_version rt = version) in
  let tls_ready := negb (tls requirements)
                   || bool_decide (tls_last_good_reload_version rt = version) in
  let stream_ready := negb (stream requirements)
                      || bool_decide (stream_last_good_reload_version rt = version) in
  if http_ready && tls_ready && stream_ready then Some (inr tt)
  else
    match (if http requirements then failure_for version (http_last_reload_failure_version rt)
             (http_last_reload_failure_message rt) else None) with
    | Some message => Some (inl ("HTTP runtime apply failed: " +:+ message))
    | None =>
      match (if tls requirements then failure_for version (tls_last_reload_failure_version rt)
               (tls_last_reload_failure_message rt) else None) with
      | Some message => Some (inl ("TLS runtime apply failed: " +:+ message))
      | None =>
        match (if stream requirements then failure_for version (stream_last_reload_failure_version rt)
                 (stream_last_reload_failure_message rt) else None) with
        | Some message => Some (inl ("stream runtime apply failed: " +:+ message))
        | None => None
        end
      end
    end.

(** The loop of [wait_for_runtime_apply_result] over what the runtime's statistics
    show at each look before the deadline. *)
Fixpoint wait_loop (version : string) (requirements : RuntimeApplyRequirements)
    (observed : list RuntimeStatsSnapshot) : string + unit :=
  match observed with
  | [] => inl ("timed out waiting for " +:+ required_runtime_names requirements
               +:+ " runtime apply result for snapshot " +:+ version)
  | rt :: observed =>
    match current_runtime_apply_result rt version requirements with
    | Some result => result
    | None => wait_loop version requirements observed
    end
  end.

Definition wait_for_runtime_apply_result (version : string)
    (requirements : RuntimeApplyRequirements) (observed : list RuntimeStatsSnapshot) :
    string + unit :=
  if negb (http requirements) && negb (tls requirements) && negb (stream requirements)
  then inr tt else wait_loop version requirements observed.

(** [segments.join("; ")] *)
Fixpoint join_semicolon (items : list string) : string :=
  match items with
  | [] => EmptyString
  | [x] => x
  | x :: items => x +:+ "; " +:+ join_semicolon items
  end.

Definition current_runtime_rejection_message (rt : RuntimeStatsSnapshot) (version : string) :
    option string :=
  if Str.is_empty version then None
  else
    let http := failure_for version (http_last_reload_failure_version rt)
                  (http_last_reload_failure_message rt) in
    let tls := failure_for version (tls_last_reload_failure_version rt)
                 (tls_last_reload_failure_message rt) in
    let stream := failure_for version (stream_last_reload_failure_version rt)
                    (stream_last_reload_failure_message rt) in
    match http, tls, stream with
    | None, None, None => None
    | Some http, None, None => Some http
    | None, Some tls, None => Some tls
    | None, None, Some stream => Some stream
    | http, tls, stream =>
      Some (join_semicolon
        (match http with Some m => ["HTTP runtime: " +:+ m] | None => [] end
         ++ match tls with Some m => ["TLS runtime: " +:+ m] | None => [] end
         ++ match stream with Some m => ["stream runtime: " +:+ m] | None => [] end))
    end.

Definition runtime_has_last_good_configuration (rt : RuntimeStatsSnapshot) : bool :=
  negb (Str.is_empty (http_last_good_reload_version rt))
  || negb (Str.is_empty (tls_last_good_reload_version rt))
  || negb (Str.is_empty (stream_last_good_reload_version rt)).

Record StatusReport := mkStatusReport {
  sr_node_id : string;
  sr_version : string;
  sr_ready : bool;
  sr_message : string;
  sr_observed_at : Z;
}.

Definition SNAPSHOT_APPLIED_MESSAGE : string := "snapshot applied".
Definition SNAPSHOT_REJECTED_MESSAGE_PREFIX : string := "snapshot rejected: ".
Definition WAITING_FOR_SNAPSHOT_MESSAGE : string := "waiting for snapshot".

Definition build_status_report (node_id current_id : string) (rt : RuntimeStatsSnapshot)
    (include_version : bool) (now : Z) : StatusReport :=
  let rejection_message := current_runtime_rejection_message rt current_id in
  let ready := if rejection_message then runtime_has_last_good_configuration rt
               else negb (Str.is_empty current_id) in
  let message := match rejection_message with
                 | Some m => SNAPSHOT_REJECTED_MESSAGE_PREFIX +:+ m
                 | None => if ready then SNAPSHOT_APPLIED_MESSAGE else WAITING_FOR_SNAPSHOT_MESSAGE
                 end in
  mkStatusReport node_id (if include_version then current_id else EmptyString) ready message now.

(** ** Statistics *)

Definition XDS_APPLY_STAGE_MS_BUCKET_BOUNDS : list Z :=
  [1; 5; 10; 25; 50; 100; 250; 500; 1000; 2500; 5000].

Definition XDS_APPLY_STAGE_MS_BUCKET_COUNT : nat := 12.

Record XdsApplyStageHistogramState := mkHistogram {
  hg_buckets : list Z;
  hg_sum : Z;
  hg_count : Z;
}.

Definition Histogram_default : XdsApplyStageHistogramState :=
  mkHistogram (replicate XDS_APPLY_STAGE_MS_BUCKET_COUNT 0) 0 0.

(** [iter().position(|bound| duration_ms <= *bound).unwrap_or(len)] *)
Fixpoint position_le (duration_ms : Z) (bounds : list Z) : nat :=
  match bounds with
  | [] => O
  | bound :: bounds => if bool_decide (duration_ms <= bound) then O else S (position_le duration_ms bounds)
  end.

Definition xds_apply_stage_ms_bucket_index (duration_ms : Z) : nat :=
  position_le duration_ms XDS_APPLY_STAGE_MS_BUCKET_BOUNDS.

Definition observe_histogram (h : XdsApplyStageHistogramState) (duration_ms : Z) :
    XdsApplyStageHistogramState :=
  mkHistogram
    (alter (fun n => U.saturating_add64 n 1) (xds_apply_stage_ms_bucket_index duration_ms)
       (hg_buckets h))
    (U.saturating_add64 (hg_sum h) duration_ms) (U.saturating_add64 (hg_count h) 1).

(** The cumulative counts that are exported, the last one for [+Inf]. *)
Fixpoint cumulative_counts (acc : Z) (buckets : list Z) : list Z :=
  match buckets with
  | [] => []
  | n :: buckets => let acc := U.saturating_add64 acc n in acc :: cumulative_counts acc buckets
  end.

Definition apply_stage_bucket_snapshot (buckets : list Z) : list Z := cumulative_counts 0 buckets.

Record ClientStats := mkClientStats {
  stream_connected : bool;
  last_control_plane_contact_unix_seconds : Z;
  last_apply_unix_seconds : Z;
  last_nack_message : string;
  last_nack_version : string;
  last_stream_error : string;
  last_stream_failure_unix_seconds : Z;
  snapshots_skipped : Z;
  snapshots_applied : Z;
  snapshots_nacked : Z;
  stream_failures : Z;
  last_snapshot_version : string;
  apply_stage_ms_histograms : StringMap XdsApplyStageHistogramState;
}.

Definition ClientStats_default : ClientStats :=
  mkClientStats false 0 0 EmptyString EmptyString EmptyString 0 0 0 0 0 EmptyString ∅.

Definition observe_control_plane_contact (s : ClientStats) (now : Z) : ClientStats :=
  mkClientStats (stream_connected s) now (last_apply_unix_seconds s) (last_nack_message s)
    (last_nack_version s) (last_stream_error s) (last_stream_failure_unix_seconds s)
    (snapshots_skipped s) (snapshots_applied s) (snapshots_nacked s) (stream_failures s)
    (last_snapshot_version s) (apply_stage_ms_histograms s).

Definition set_connected (s : ClientStats) (connected : bool) : ClientStats :=
  mkClientStats connected (last_control_plane_contact_unix_seconds s) (last_apply_unix_seconds s)
    (last_nack_message s) (last_nack_version s) (last_stream_error s)
    (last_stream_failure_unix_seconds s) (snapshots_skipped s) (snapshots_applied s)
    (snapshots_nacked s) (stream_failures s) (last_snapshot_version s)
    (apply_stage_ms_histograms s).

Definition observe_stream_connected (s : ClientStats) (now : Z) : ClientStats :=
  observe_control_plane_contact (set_connected s true) now.

Definition observe_stream_disconnected (s : ClientStats) : ClientStats := set_connected s false.

Definition observe_stream_failure_with_error (s : ClientStats) (error : string) (now : Z) :
    ClientStats :=
  mkClientStats false (last_control_plane_contact_unix_seconds s) (last_apply_unix_seconds s)
    (last_nack_message s) (last_nack_version s) error now
    (snapshots_skipped s) (snapshots_applied s) (snapshots_nacked s)
    (U.wrapping_add64 (stream_failures s) 1) (last_snapshot_version s)
    (apply_stage_ms_histograms s).

Definition observe_snapshot_applied (s : ClientStats) (version : string) (now : Z) : ClientStats :=
  mkClientStats (stream_connected s) (last_control_plane_contact_unix_seconds s) now
    EmptyString EmptyString (last_stream_error s) (last_stream_failure_unix_seconds s)
    (snapshots_skipped s) (U.wrapping_add64 (snapshots_applied s) 1) (snapshots_nacked s)
    (stream_failures s) version (apply_stage_ms_histograms s).

Definition observe_snapshot_skipped (s : ClientStats) : ClientStats :=
  mkClientStats (stream_connected s) (last_control_plane_contact_unix_seconds s)
    (last_apply_unix_seconds s) (last_nack_message s) (last_nack_version s) (last_stream_error s)
    (last_stream_failure_unix_seconds s) (U.wrapping_add64 (snapshots_skipped s) 1)
    (snapshots_applied s) (snapshots_nacked s) (stream_failures s) (last_snapshot_version s)
    (apply_stage_ms_histograms s).

Definition observe_snapshot_nacked (s : ClientStats) (version message : string) : ClientStats :=
  mkClientStats (stream_connected s) (last_control_plane_contact_unix_seconds s)
    (last_apply_unix_seconds s) message version (last_stream_error s)
    (last_stream_failure_unix_seconds s) (snapshots_skipped s) (snapshots_applied s)
    (U.wrapping_add64 (snapshots_nacked s) 1) (stream_failures s) (last_snapshot_version s)
    (apply_stage_ms_histograms s).

Definition observe_apply_stage_duration (s : ClientStats) (stage : string) (duration_ms : Z) :
    ClientStats :=
  let stage := Str.trim stage in
  if Str.is_empty stage then s
  else
    mkClientStats (stream_connected s) (last_control_plane_contact_unix_seconds s)
      (last_apply_unix_seconds s) (last_nack_message s) (last_nack_version s) (last_stream_error s)
      (last_stream_failure_unix_seconds s) (snapshots_skipped s) (snapshots_applied s)
      (snapshots_nacked s) (stream_failures s) (last_snapshot_version s)
      (<[stage := observe_histogram
                    (default Histogram_default (apply_stage_ms_histograms s !! stage)) duration_ms]>
         (apply_stage_ms_histograms s)).

(** ** Receiving a message *)

Section Client.
Context `{!RegexEngine, !KeyHasher, !SnapshotProto}.
Context (node_id cluster : string).

(** The state the client works on: the shared snapshot with the health state
    of its endpoints, the generation of the change signal, the statistics,
    and what was sent on the stream and as status reports. *)
Record Client := mkClient {
  cl_snapshot : Snapshot;
  cl_endpoints : EndpointRuntimeStore;
  cl_generation : Z;
  cl_stats : ClientStats;
  cl_sent : list DiscoveryRequest;
  cl_reports : list StatusReport;
}.

Definition with_stats (c : Client) (stats : ClientStats) : Client :=
  mkClient (cl_snapshot c) (cl_endpoints c) (cl_generation c) stats (cl_sent c) (cl_reports c).

Definition send (c : Client) (request : DiscoveryRequest) : Client :=
  mkClient (cl_snapshot c) (cl_endpoints c) (cl_generation c) (cl_stats c)
    (cl_sent c ++ [request]) (cl_reports c).

Definition report (c : Client) (r : StatusReport) : Client :=
  mkClient (cl_snapshot c) (cl_endpoints c) (cl_generation c) (cl_stats c) (cl_sent c)
    (cl_reports c ++ [r]).

(** A message of the control plane, and what happens while it is handled: the
    wall clock, the looks at the runtime's statistics, the time each stage takes
    in milliseconds, and whether the channel and the status call work. *)
Record Incoming := mkIncoming {
  in_version : string;
  in_nonce : string;
  in_snapshot : option ConfigSnapshot;
  in_now : Z;
  in_observed : list RuntimeStatsSnapshot;
  in_runtime : RuntimeStatsSnapshot;
  in_elapsed : string -> Z;
  in_send : option XdsError;
  in_report : option XdsError;
}.

(** [stats.observe_apply_stage_duration] of the elapsed time; [as u64] after the cut. *)
Definition observe_apply_stage_elapsed (m : Incoming) (c : Client) (stage : string) : Client :=
  with_stats c (observe_apply_stage_duration (cl_stats c) stage
                  (Z.min (in_elapsed m stage) U.u64_max)).

(** [tx.send(..).await?] and [status_client.report_status(..).await?] *)
Definition try_send (m : Incoming) (c : Client) (request : DiscoveryRequest) :
    option XdsError * Client :=
  match in_send m with
  | Some e => (Some e, c)
  | None => (None, send c request)
  end.

Definition try_report (m : Incoming) (c : Client) : option XdsError * Client :=
  match in_report m with
  | Some e => (Some e, c)
  | None => (None, report c (build_status_report node_id (sn_id (cl_snapshot c)) (in_runtime m)
                               true (in_now m)))
  end.

Definition preflight_snapshot_before_swap (config : ConfigSnapshot) (version_hint : option string)
    (features : list string) (stats : ClientStats) : (string * string + unit) * ClientStats :=
  match preflight_required_features (cs_required_features config) features with
  | inr _ => (inr tt, stats)
  | inl error_detail =>
    let version :=
      match version_hint with
      | Some hint => if Str.is_empty (Str.trim hint) then cs_id config else Str.trim hint
      | None => cs_id config
      end in
    (inl (version, error_detail), observe_snapshot_nacked stats version error_detail)
  end.

(** [snapshot.store(next)] and [updates.notify_changed()] *)
Definition swap_in (c : Client) (next : Snapshot) (endpoints : EndpointRuntimeStore) : Client :=
  mkClient next endpoints (U.wrapping_add64 (cl_generation c) 1) (cl_stats c) (cl_sent c)
    (cl_reports c).

(** Decode, inherit the health state, rebuild the indexes and store. *)
Definition apply_config (m : Incoming) (config : ConfigSnapshot) (c : Client) : Client :=
  let next := from_proto_without_runtime_indexes (cs_id config) (cs_body config) in
  let c := observe_apply_stage_elapsed m c "decode" in
  let endpoints := inherit_for_backends (cl_endpoints c) (sn_backends next) in
  let c := observe_apply_stage_elapsed m c "inherit_runtime_state" in
  let next := rebuild_runtime_indexes next in
  let c := observe_apply_stage_elapsed m c "rebuild_indexes" in
  let c := swap_in c next endpoints in
  observe_apply_stage_elapsed m c "snapshot_swap".

(** The branch of a new version after the feature check. *)
Definition apply_and_report (m : Incoming) (config : ConfigSnapshot) (next_version : option string)
    (c : Client) : option XdsError * Client :=
  let next := from_proto_without_runtime_indexes (cs_id config) (cs_body config) in
  let version := default (sn_id next) next_version in
  let c := apply_config m config c in
  let requirements := snapshot_runtime_apply_requirements (cl_snapshot c) in
  match wait_for_runtime_apply_result version requirements (in_observed m) with
  | inr _ =>
    let c := observe_apply_stage_elapsed m c "listener_apply" in
    let c := with_stats c (observe_snapshot_applied (cl_stats c) version (in_now m)) in
    match try_send m c (discovery_ack node_id cluster version (in_nonce m) supported_features) with
    | (Some e, c) => (Some e, c)
    | (None, c) =>
      match try_report m c with
      | (Some e, c) => (Some e, c)
      | (None, c) => (None, observe_apply_stage_elapsed m c "ack_wait")
      end
    end
  | inl error_detail =>
    let c := observe_apply_stage_elapsed m c "listener_apply" in
    let c := with_stats c (observe_snapshot_nacked (cl_stats c) version error_detail) in
    match try_send m c (discovery_nack node_id cluster version (in_nonce m) error_detail
                          supported_features) with
    | (Some e, c) => (Some e, c)
    | (None, c) => (None, observe_apply_stage_elapsed m c "ack_wait")
    end
  end.

(** The branch of a version that is already current. *)
Definition skip_duplicate (m : Incoming) (next_version : option string) (c : Client) :
    option XdsError * Client :=
  let version := default (sn_id (cl_snapshot c)) next_version in
  let c := with_stats c (observe_snapshot_skipped (cl_stats c)) in
  match try_send m c (discovery_ack node_id cluster version (in_nonce m) supported_features) with
  | (Some e, c) => (Some e, c)
  | (None, c) => try_report m c
  end.

(** One message of the stream; the error ends the stream. *)
Definition handle_message (m : Incoming) (c : Client) : option XdsError * Client :=
  let c := with_stats c (observe_control_plane_contact (cl_stats c) (in_now m)) in
  match in_snapshot m with
  | None => (None, c)
  | Some config =>
    let next_version := snapshot_version_from_response (in_version m) (cs_id config) in
    if should_apply_snapshot (sn_id (cl_snapshot c)) next_version then
      match preflight_snapshot_before_swap config next_version supported_features (cl_stats c) with
      | (inl (version, error_detail), stats) =>
        try_send m (with_stats c stats)
          (discovery_nack node_id cluster version (in_nonce m) error_detail supported_features)
      | (inr _, stats) => apply_and_report m config next_version (with_stats c stats)
      end
    else skip_duplicate m next_version c
  end.

(** ** The stream *)

Inductive StreamEvent :=
| Message (m : Incoming)
| StreamStale (message : string)
| StreamFailed (message : string)
| StreamClosed
| ShutdownSignal.

(** The loop of [run_stream]. *)
Fixpoint stream_loop (events : list StreamEvent) (c : Client) : option XdsError * Client :=
  match events with
  | [] => (None, c)
  | Message m :: events =>
    match handle_message m c with
    | (Some e, c) => (Some e, c)
    | (None, c) => stream_loop events c
    end
  | StreamStale message :: _ | StreamFailed message :: _ => (Some (StreamError message), c)
  | StreamClosed :: _ | ShutdownSignal :: _ => (None, c)
  end.

Record StreamRunResult := mkStreamRunResult {
  established : bool;
  result : option XdsError;
}.

(** An attempt to run the stream: the error of opening it, or its events. *)
Definition run_stream (attempt : XdsError + list StreamEvent) (now : Z) (c : Client) :
    StreamRunResult * Client :=
  let c := send c (discovery_open node_id cluster (sn_id (cl_snapshot c)) supported_features) in
  match attempt with
  | inl e => (mkStreamRunResult false (Some e), c)
  | inr events =>
    let c := with_stats c (observe_stream_connected (cl_stats c) now) in
    let '(result, c) := stream_loop events c in
    (mkStreamRunResult true result, with_stats c (observe_stream_disconnected (cl_stats c)))
  end.

(** [ControlPlaneClient::run] over a sequence of attempts, with the pause it makes
    after each one. *)
Fixpoint run (attempts : list ((XdsError + list StreamEvent) * Z)) (backoff : ReconnectBackoff)
    (c : Client) : list (option Z) * Client :=
  match attempts with
  | [] => ([], c)
  | (attempt, now) :: attempts =>
    let '(stream_run, c) := run_stream attempt now c in
    match result stream_run with
    | None => let '(pauses, c) := run attempts backoff c in (None :: pauses, c)
    | Some e =>
      let message := match e with
                     | ConnectionFailed m => "xDS connection failed: " +:+ m
                     | StreamError m => "xDS stream error: " +:+ m
                     | TlsConfig m => "xDS TLS configuration error: " +:+ m
                     | ChannelSend m => "xDS channel send error: " +:+ m
                     end in
      let c := with_stats c (observe_stream_failure_with_error (cl_stats c) message now) in
      let '(delay, backoff) := retry_delay_after_stream_failure backoff (established stream_run) in
      let '(pauses, c) := run attempts backoff c in (Some delay :: pauses, c)
    end
  end.
End Client.
End XdsClient.
