(* ===== verification/XdsFacts.v ===== *)
(** * What the control-plane client guarantees

    Every snapshot message is answered once, by its nonce; what is stored is always
    an indexed snapshot with the health state of the endpoints that remain; a
    rejected feature set leaves the state alone. *)

From Stdlib Require Import ZArith Lia String.
From stdpp Require Import base strings numbers gmap sorting list.
From S2P Require Import Prelude Strs IrTypes EndpointRuntime Snapshot Demo Reconnect XdsClient.

Module XdsFacts.
Import EndpointRuntime Snapshots Reconnect XdsClient.
Local Open Scope Z_scope.

Section Client.
Context `{!RegexEngine, !KeyHasher, !SnapshotProto}.
Context (node_id cluster : string).

Notation handle := (handle_message node_id cluster).

(** ** One message *)

(** What the answer to a snapshot message depends on. *)
Inductive Verdict :=
| Duplicate (version : string)
| Unsupported (version error_detail : string)
| ApplyFailed (version error_detail : string)
| Applied (version : string).

Definition rejected_version (config : ConfigSnapshot) (next_version : option string) : string :=
  match next_version with
  | Some hint => if Str.is_empty (Str.trim hint) then cs_id config else Str.trim hint
  | None => cs_id config
  end.

Definition verdict (m : Incoming) (config : ConfigSnapshot) (c : Client) : Verdict :=
  let next := from_proto_without_runtime_indexes (cs_id config) (cs_body config) in
  let next_version := snapshot_version_from_response (in_version m) (cs_id config) in
  if should_apply_snapshot (sn_id (cl_snapshot c)) next_version then
    match preflight_required_features (cs_required_features config) supported_features with
    | inl error_detail => Unsupported (rejected_version config next_version) error_detail
    | inr _ =>
      let version := default (sn_id next) next_version in
      match wait_for_runtime_apply_result version
              (snapshot_runtime_apply_requirements next) (in_observed m) with
      | inl error_detail => ApplyFailed version error_detail
      | inr _ => Applied version
      end
    end
  else Duplicate (default (sn_id (cl_snapshot c)) next_version).

Definition answer (m : Incoming) (v : Verdict) : DiscoveryRequest :=
  match v with
  | Duplicate version | Applied version =>
    discovery_ack node_id cluster version (in_nonce m) supported_features
  | Unsupported version error_detail | ApplyFailed version error_detail =>
    discovery_nack node_id cluster version (in_nonce m) error_detail supported_features
  end.

(** The snapshot and the health state after a message. *)
Definition stored (config : ConfigSnapshot) (v : Verdict) (c : Client) :
    Snapshot * EndpointRuntimeStore :=
  let next := from_proto_without_runtime_indexes (cs_id config) (cs_body config) in
  match v with
  | Duplicate _ | Unsupported _ _ => (cl_snapshot c, cl_endpoints c)
  | ApplyFailed _ _ | Applied _ =>
    (rebuild_runtime_indexes next, inherit_for_backends (cl_endpoints c) (sn_backends next))
  end.

Lemma requirements_rebuild (s : Snapshot) :
  snapshot_runtime_apply_requirements (rebuild_runtime_indexes s)
  = snapshot_runtime_apply_requirements s.
Proof. done. Qed.

Lemma apply_config_state (m : Incoming) (config : ConfigSnapshot) (c : Client) :
  let c' := apply_config m config c in
  let next := from_proto_without_runtime_indexes (cs_id config) (cs_body config) in
  cl_snapshot c' = rebuild_runtime_indexes next /\
  cl_endpoints c' = inherit_for_backends (cl_endpoints c) (sn_backends next) /\
  cl_generation c' = U.wrapping_add64 (cl_generation c) 1 /\
  cl_sent c' = cl_sent c /\ cl_reports c' = cl_reports c.
Proof. done. Qed.

Lemma handle_message_spec (m : Incoming) (config : ConfigSnapshot) (c : Client) :
  in_snapshot m = Some config -> in_send m = None -> in_report m = None ->
  let v := verdict m config c in
  let '(error, c') := handle m c in
  error = None /\ cl_sent c' = cl_sent c ++ [answer m v] /\
  (cl_snapshot c', cl_endpoints c') = stored config v c.
Proof.
  intros Hc Hs Hr. unfold handle_message, verdict. rewrite Hc.
  change (cl_snapshot (with_stats c _)) with (cl_snapshot c).
  destruct (should_apply_snapshot _ _) eqn:Ha; cycle 1.
  { unfold skip_duplicate, try_send, try_report. by rewrite Hs, Hr. }
  unfold preflight_snapshot_before_swap.
  destruct (preflight_required_features _ _) as [error_detail|[]].
  { unfold try_send. by rewrite Hs. }
  unfold apply_and_report. rewrite (proj1 (apply_config_state m config _)), requirements_rebuild.
  destruct (wait_for_runtime_apply_result _ _ _) as [error_detail|[]];
    unfold try_send, try_report; rewrite ?Hs, ?Hr; done.
Qed.

(** The same without the assumption that the channel works: the state in use is
    the one the verdict gives. *)
Lemma handle_message_stored (m : Incoming) (c : Client) :
  let '(_, c') := handle m c in
  (cl_snapshot c', cl_endpoints c') =
  match in_snapshot m with
  | None => (cl_snapshot c, cl_endpoints c)
  | Some config => stored config (verdict m config c) c
  end.
Proof.
  unfold handle_message, verdict. destruct (in_snapshot m) as [config|]; [|done].
  change (cl_snapshot (with_stats c _)) with (cl_snapshot c).
  destruct (should_apply_snapshot _ _) eqn:Ha; cycle 1.
  { unfold skip_duplicate, try_send, try_report. by destruct (in_send m), (in_report m). }
  unfold preflight_snapshot_before_swap.
  destruct (preflight_required_features _ _) as [error_detail|[]].
  { unfold try_send. by destruct (in_send m). }
  unfold apply_and_report. rewrite (proj1 (apply_config_state m config _)), requirements_rebuild.
  destruct (wait_for_runtime_apply_result _ _ _) as [error_detail|[]];
    unfold try_send, try_report; destruct (in_send m), (in_report m); done.
Qed.

(** ** A whole stream *)

(** The snapshot in use was indexed by [rebuild_runtime_indexes], the store of health
    states is well formed and has only states of the store it started from. *)
Definition client_inv (start : EndpointRuntimeStore) (c : Client) : Prop :=
  (exists s0, cl_snapshot c = rebuild_runtime_indexes s0) /\
  store_inv (cl_endpoints c) /\ snapshot_map (cl_endpoints c) ⊆ snapshot_map start.

Lemma handle_message_inv (start : EndpointRuntimeStore) (m : Incoming) (c : Client) :
  client_inv start c -> client_inv start (handle m c).2.
Proof.
  intros (Hs & Hi & Hm). pose proof (handle_message_stored m c) as Hh.
  destruct (handle m c) as [error c']. cbn [snd].
  destruct (in_snapshot m) as [config|]; cycle 1.
  { injection Hh as E1 E2. unfold client_inv. by rewrite E1, E2. }
  destruct (verdict m config c); cbn [stored] in Hh; injection Hh as E1 E2;
    unfold client_inv; rewrite E1, E2; try done.
  all: destruct (inherit_refines (cl_endpoints c)
         (sn_backends (from_proto_without_runtime_indexes (cs_id config) (cs_body config))) Hi)
         as [Hi' Hm'].
  all: split; [by eexists|]; split; [done|].
  all: rewrite Hm'; etrans; [apply map_filter_subseteq|done].
Qed.

Lemma stream_loop_inv (start : EndpointRuntimeStore) (events : list StreamEvent) (c : Client) :
  client_inv start c -> client_inv start (stream_loop node_id cluster events c).2.
Proof.
  revert c. induction events as [|event events IH]; intros c Hc; cbn [stream_loop]; [done|].
  destruct event as [m|message|message| |]; try done.
  pose proof (handle_message_inv start m c Hc) as Hm.
  destruct (handle m c) as [[e|] c']; [done|]. by apply IH.
Qed.


(** C27: through any stream of messages, stale periods and failures, the snapshot in
    use is always one whose indexes were rebuilt after decoding, so the
    indexed lookups agree with the plain ones on it; the store of endpoint
    health states stays well formed, and no endpoint gets a health state it
    did not have before. *)
Theorem stream_keeps_indexed (events : list StreamEvent) (c : Client) :
  (exists s0, cl_snapshot c = rebuild_runtime_indexes s0) -> store_inv (cl_endpoints c) ->
  let '(_, c') := stream_loop node_id cluster events c in
  (exists s0, cl_snapshot c' = rebuild_runtime_indexes s0) /\
  store_inv (cl_endpoints c') /\
  snapshot_map (cl_endpoints c') ⊆ snapshot_map (cl_endpoints c).
Proof.
  intros Hs Hi. pose proof (stream_loop_inv (cl_endpoints c) events c) as Hl.
  destruct (stream_loop node_id cluster events c) as [error c']. by apply Hl.
Qed.

(** when the runtimes fail to apply a new version the client rejects it, but it
    stays the version in use; when the control plane sends it again it is taken
    for a duplicate and acknowledged, although no runtime has applied it. *)
Theorem rejected_version_acked_when_resent `{!SnapshotProtoLaws} (m : Incoming)
    (config : ConfigSnapshot) (c : Client) (version error_detail : string) :
  in_snapshot m = Some config -> in_send m = None -> in_report m = None ->
  Str.trim (cs_id config) = cs_id config -> Str.is_empty (cs_id config) = false ->
  verdict m config c = ApplyFailed version error_detail ->
  let '(_, c1) := handle m c in
  let '(_, c2) := handle m c1 in
  version = cs_id config /\ sn_id (cl_snapshot c1) = version /\
  cl_sent c2 = cl_sent c ++
    [discovery_nack node_id cluster version (in_nonce m) error_detail supported_features;
     discovery_ack node_id cluster version (in_nonce m) supported_features] /\
  cl_snapshot c2 = cl_snapshot c1.
Proof.
  intros Hc Hs Hr Ht He Hv.
  pose proof (handle_message_spec m config c Hc Hs Hr) as Ha. cbv zeta in Ha. rewrite Hv in Ha.
  destruct (handle m c) as [e1 c1]. destruct Ha as (_ & Hsent & Hst). cbn [stored] in Hst.
  injection Hst as Hsn _.
  assert (Hid : sn_id (cl_snapshot c1) = cs_id config)
    by (rewrite Hsn; apply (from_proto_id (cs_id config))).
  assert (Hver : snapshot_version_from_response (in_version m) (cs_id config) = Some (cs_id config)).
  { unfold snapshot_version_from_response. by rewrite Ht, He. }
  assert (Hv' : version = cs_id config).
  { unfold verdict in Hv. rewrite Hver in Hv. cbn [default] in Hv.
    repeat case_match; by simplify_eq. }
  pose proof (handle_message_spec m config c1 Hc Hs Hr) as Hb. cbv zeta in Hb.
  assert (Hd : verdict m config c1 = Duplicate version).
  { unfold verdict. rewrite Hver, Hid. unfold should_apply_snapshot.
    rewrite bool_decide_eq_true_2 by done. cbn. by rewrite Hv'. }
  rewrite Hd in Hb. destruct (handle m c1) as [e2 c2]. destruct Hb as (_ & Hsent2 & Hst2).
  injection Hst2 as Hsn2 _. rewrite Hsent2, Hsent, <- (assoc_L app). subst version. done.
Qed.
(** Streams that the control plane closes without an error follow each other
    without a pause, whatever the backoff. *)
Theorem clean_close_reconnects_at_once (n : nat) (now : Z) (backoff : ReconnectBackoff) (c : Client) :
  (run node_id cluster (replicate n (inr [StreamClosed], now)) backoff c).1 = replicate n None.
Proof.
  revert c. induction n as [|n IH]; intros c; cbn [replicate run]; [done|].
  cbn [run_stream stream_loop result]. specialize (IH (with_stats
    (with_stats (send c (discovery_open node_id cluster (sn_id (cl_snapshot c)) supported_features))
       (observe_stream_connected (cl_stats c) now))
    (observe_stream_disconnected (observe_stream_connected (cl_stats c) now)))).
  cbn [with_stats cl_stats send] in IH |- *.
  destruct (run node_id cluster _ backoff _) as [pauses c']. cbn in *. by rewrite IH.
Qed.
End Client.

(** ** The stage histograms *)

Definition at_most (b : Z) (ds : list Z) : list Z := filter (fun d => d <= b) ds.
Definition above (b : Z) (ds : list Z) : list Z := filter (fun d => ~ d <= b) ds.

(** How many of [ds] fall into each bucket. *)
Fixpoint bucket_counts (bounds : list Z) (ds : list Z) : list nat :=
  match bounds with
  | [] => [length ds]
  | b :: bounds => length (at_most b ds) :: bucket_counts bounds (above b ds)
  end.

Lemma at_most_above_length (b : Z) (ds : list Z) :
  (length (at_most b ds) + length (above b ds) = length ds)%nat.
Proof.
  induction ds as [|d ds IH]; [done|]. unfold at_most, above in *. rewrite !filter_cons.
  repeat case_decide; try done; cbn [length] in *; lia.
Qed.

Lemma at_most_mono_length (b b' : Z) (ds : list Z) :
  b <= b' -> (length (at_most b' ds) = length (at_most b ds) + length (at_most b' (above b ds)))%nat.
Proof.
  intros Hb. induction ds as [|d ds IH]; [done|]. unfold at_most, above in *. rewrite !filter_cons.
  repeat case_decide; try done; rewrite ?filter_cons; repeat case_decide; cbn [length] in *; lia.
Qed.

Lemma bucket_counts_snoc (bounds ds : list Z) (d : Z) :
  bucket_counts bounds (ds ++ [d]) = alter S (position_le d bounds) (bucket_counts bounds ds).
Proof.
  revert ds. induction bounds as [|b bounds IH]; intros ds; cbn [bucket_counts position_le].
  - rewrite length_app. cbn. f_equal. lia.
  - unfold at_most, above. rewrite !filter_app, !filter_cons, !filter_nil.
    destruct (decide (d <= b)) as [Hd|Hd].
    + rewrite (bool_decide_eq_true_2 _ Hd), decide_False by naive_solver.
      rewrite app_nil_r, length_app. cbn. f_equal. lia.
    + rewrite (bool_decide_eq_false_2 _ Hd), decide_True by done. rewrite app_nil_r. cbn. f_equal.
      apply IH.
Qed.

Lemma cumulative_counts_spec (bounds ds : list Z) (acc : Z) :
  Sorted Z.le bounds -> acc + Z.of_nat (length ds) <= U.u64_max ->
  cumulative_counts acc (Z.of_nat <$> bucket_counts bounds ds)
  = ((fun b => acc + Z.of_nat (length (at_most b ds))) <$> bounds)
    ++ [acc + Z.of_nat (length ds)].
Proof.
  intros Hs. apply Sorted_StronglySorted in Hs; [|intros ???; apply Z.le_trans].
  revert ds acc. induction Hs as [|b bounds Hs IH Hb]; intros ds acc Hl;
    cbn [bucket_counts fmap list_fmap cumulative_counts app]; unfold U.saturating_add64.
  - by rewrite Z.min_l by lia.
  - pose proof (at_most_above_length b ds) as Hlen.
    rewrite Z.min_l by lia. f_equal. rewrite IH by lia. f_equal; [|f_equal; lia].
    apply list_fmap_ext. intros i b' Hb'. rewrite list.Forall_forall in Hb.
    rewrite (at_most_mono_length b b' ds) by (apply Hb; by eapply list_elem_of_lookup_2). lia.
Qed.

Lemma observe_all_buckets (ds : list Z) :
  Z.of_nat (length ds) <= U.u64_max ->
  hg_buckets (foldl observe_histogram Histogram_default ds)
    = Z.of_nat <$> bucket_counts XDS_APPLY_STAGE_MS_BUCKET_BOUNDS ds /\
  hg_count (foldl observe_histogram Histogram_default ds) = Z.of_nat (length ds).
Proof.
  induction ds as [|d ds IH] using rev_ind; intros Hl; [done|].
  rewrite length_app in *. cbn [length] in *. destruct IH as [IHb IHc]; [lia|].
  rewrite foldl_app. cbn [foldl observe_histogram hg_buckets hg_count]. rewrite IHb, IHc.
  split; [|unfold U.saturating_add64; lia].
  rewrite bucket_counts_snoc. unfold xds_apply_stage_ms_bucket_index.
  assert (Hsmall : Forall (fun n => Z.of_nat n < U.u64_max)
                     (bucket_counts XDS_APPLY_STAGE_MS_BUCKET_BOUNDS ds)).
  { assert (Hn : (length ds < Z.to_nat U.u64_max)%nat) by lia. revert Hn. clear.
    generalize XDS_APPLY_STAGE_MS_BUCKET_BOUNDS as bounds. intros bounds.
    revert ds. induction bounds as [|b bounds IH]; intros ds Hn; cbn.
    - constructor; [lia|constructor].
    - pose proof (at_most_above_length b ds). constructor; [lia|]. apply IH. lia. }
  revert Hsmall. generalize (bucket_counts XDS_APPLY_STAGE_MS_BUCKET_BOUNDS ds) as counts.
  generalize (position_le d XDS_APPLY_STAGE_MS_BUCKET_BOUNDS) as i. clear.
  intros i counts. revert i. induction counts as [|n counts IH]; intros i Hs; [done|].
  inversion Hs; subst. destruct i as [|i]; cbn; f_equal; [unfold U.saturating_add64; lia|by apply IH].
Qed.

(** The exported histogram of a stage is exact: after the durations [ds] have been
    observed, each bucket holds the number of durations up to its bound, and
    the last one and the count the number of all of them. *)
Theorem apply_stage_histogram_exact (ds : list Z) :
  Z.of_nat (length ds) <= U.u64_max ->
  let h := foldl observe_histogram Histogram_default ds in
  apply_stage_bucket_snapshot (hg_buckets h)
    = ((fun b => Z.of_nat (length (filter (fun d => d <= b) ds)))
         <$> XDS_APPLY_STAGE_MS_BUCKET_BOUNDS) ++ [Z.of_nat (length ds)] /\
  hg_count h = Z.of_nat (length ds).
Proof.
  intros Hl h. destruct (observe_all_buckets ds Hl) as [Hb Hc]. fold h in Hb, Hc.
  split; [|done]. unfold apply_stage_bucket_snapshot. rewrite Hb.
  apply (cumulative_counts_spec XDS_APPLY_STAGE_MS_BUCKET_BOUNDS ds 0); [|done].
  repeat constructor; lia.
Qed.

Lemma apply_stage_histogram_exact_witness :
  apply_stage_bucket_snapshot (hg_buckets (foldl observe_histogram Histogram_default [3; 7000; 5]))
  = [0; 2; 2; 2; 2; 2; 2; 2; 2; 2; 2; 3].
Proof.
  rewrite (proj1 (apply_stage_histogram_exact [3; 7000; 5] ltac:(vm_compute; discriminate))).
  reflexivity.
Defined.

(** ** Witnesses *)

Section Witnesses.
#[local] Existing Instance Demo.demo_regex.
#[local] Existing Instance witness_hasher.

(** A body is the list of listeners. *)
#[local] Instance listeners_proto : SnapshotProto := {
  Body := list Listener;
  from_proto_without_runtime_indexes id body :=
    mkSnapshot id body [] [] [] [] ∅ [] [] SnapshotIndexes_default;
}.

#[local] Instance listeners_proto_laws : SnapshotProtoLaws.
Proof. done. Qed.

Definition demo_client : Client :=
  mkClient Demo.demo_snapshot EndpointRuntimeStore_default 0 ClientStats_default [] [].

(** Version [v2] with one HTTP listener, which cannot be bound. *)
Definition v2_config : ConfigSnapshot :=
  mkConfigSnapshot _ "v2" ["core.v1"%string]
    [mkListener "web" "0.0.0.0" [] 80 "HTTP" [] [] None None ∅].

Definition bind_failed : RuntimeStatsSnapshot :=
  mkRuntimeStatsSnapshot "v1" "v2" "address in use" "" "" "" "" "" "".

Definition v2_message : Incoming :=
  mkIncoming "" "n1" (Some v2_config) 100 [bind_failed] bind_failed (fun _ => 1) None None.


Lemma stream_keeps_indexed_witness :
  let '(_, c') := stream_loop "n" "c" [Message v2_message; StreamClosed] demo_client in
  exists s0, cl_snapshot c' = rebuild_runtime_indexes s0.
Proof.
  pose proof (stream_keeps_indexed "n" "c" [Message v2_message; StreamClosed] demo_client
                (ex_intro _ Demo.demo_config eq_refl) default_store_inv) as Hs.
  destruct (stream_loop _ _ _ _) as [error c']. exact (proj1 Hs).
Defined.

Lemma rejected_version_acked_when_resent_witness :
  let '(_, c1) := handle_message "n" "c" v2_message demo_client in
  let '(_, c2) := handle_message "n" "c" v2_message c1 in
  dr_result_status <$> cl_sent c2 = [DiscoveryNack; DiscoveryAck].
Proof.
  pose proof (rejected_version_acked_when_resent "n" "c" v2_message v2_config demo_client "v2"
    "HTTP runtime apply failed: address in use" eq_refl eq_refl eq_refl
    ltac:(vm_compute; reflexivity) eq_refl ltac:(vm_compute; reflexivity)) as Ha.
  destruct (handle_message "n" "c" v2_message demo_client) as [e1 c1].
  destruct (handle_message "n" "c" v2_message c1) as [e2 c2].
  destruct Ha as (_ & _ & -> & _). reflexivity.
Defined.
End Witnesses.
End XdsFacts.
