(* ===== verification/XdsDelta.v ===== *)
(** * Incremental discovery

    [ntgw-xds/src/delta.rs]: the loop that keeps a copy of the configuration from
    incremental messages and publishes it.  The resource messages are generated
    types that are not part of the sources: a resource is a value with a name, and its
    decoding is a parameter. *)

From Stdlib Require Import ZArith Lia String.
From stdpp Require Import base strings numbers gmap sets list.
From S2P Require Import Prelude Strs.

Module XdsDelta.
Local Open Scope Z_scope.

Inductive ResourceKind :=
| Listener
| HttpRoute
| GrpcRoute
| StreamRoute
| BackendCluster
| SecretMaterial.

#[global] Instance ResourceKind_eq_dec : EqDecision ResourceKind.
Proof. solve_decision. Defined.

Class DeltaProto := {
  Resource : Type;
  resource_name : Resource -> string;
  decode : ResourceKind -> list Z -> string + Resource;
}.

Definition SUBSCRIPTIONS : list string :=
  ["type.googleapis.com/gateway.control.v1.Listener";
   "type.googleapis.com/gateway.control.v1.HttpRoute";
   "type.googleapis.com/gateway.control.v1.GrpcRoute";
   "type.googleapis.com/gateway.control.v1.StreamRoute";
   "type.googleapis.com/gateway.control.v1.BackendCluster";
   "type.googleapis.com/gateway.control.v1.SecretMaterial"]%string.

Definition SUBSCRIPTION_COUNT : nat := length SUBSCRIPTIONS.

(** [type_url.contains(..)] *)
Definition contains (needle s : string) : bool :=
  match Str.split_once_str needle s with Some _ => true | None => false end.

(** The chain of tests on the type URL that the three cache operations share. *)
Definition kind_of (type_url : string) : option ResourceKind :=
  if contains "Listener" type_url then Some Listener
  else if contains "HttpRoute" type_url then Some HttpRoute
  else if contains "GrpcRoute" type_url then Some GrpcRoute
  else if contains "StreamRoute" type_url then Some StreamRoute
  else if contains "BackendCluster" type_url then Some BackendCluster
  else if contains "SecretMaterial" type_url then Some SecretMaterial
  else None.

Section Delta.
Context `{!DeltaProto}.

(** The repeated fields of the cached [ConfigSnapshot], by kind. *)
Definition Cache : Type := ResourceKind -> list Resource.

Definition set_field (snap : Cache) (kind : ResourceKind) (l : list Resource) : Cache :=
  fun k => if decide (k = kind) then l else snap k.

Definition clear_type (snap : Cache) (type_url : string) : Cache :=
  match kind_of type_url with
  | Some kind => set_field snap kind []
  | None => snap
  end.

(** [retain(|r| r.name != name)] *)
Definition retain_other (name : string) (l : list Resource) : list Resource :=
  List.filter (fun r => negb (bool_decide (resource_name r = name))) l.

Definition remove_resource (snap : Cache) (type_url name : string) : Cache :=
  match kind_of type_url with
  | Some kind => set_field snap kind (retain_other name (snap kind))
  | None => snap
  end.

(** A resource of a message: its name and the encoded value, if there is one. *)
Record DeltaResource := mkDeltaResource {
  rs_name : string;
  rs_value : option (list Z);
}.

Definition upsert_resource (snap : Cache) (type_url name : string) (resource : DeltaResource) :
    (string + unit) * Cache :=
  match rs_value resource with
  | None => (inr tt, snap)
  | Some bytes =>
    match kind_of type_url with
    | None => (inr tt, snap)
    | Some kind =>
      let snap := set_field snap kind (retain_other name (snap kind)) in
      match decode kind bytes with
      | inl e => (inl e, snap)
      | inr r => (inr tt, set_field snap kind (snap kind ++ [r]))
      end
    end
  end.

Record DeltaMessage := mkDeltaMessage {
  dm_type_url : string;
  dm_system_version_info : string;
  dm_nonce : string;
  dm_non_incremental : bool;
  dm_removed_resources : list string;
  dm_resources : list DeltaResource;
}.

(** An acknowledgement: the nonce and the type. *)
Record DeltaAck := mkDeltaAck { da_nonce : string; da_type_url : string }.

(** The variables of the loop, with what was published and acknowledged. *)
Record DeltaState := mkDeltaState {
  cached : Cache;
  seen_types : gset string;
  version : string;
  published : list Cache;
  acks : list DeltaAck;
}.

Definition delta_start : DeltaState := mkDeltaState (fun _ => []) ∅ EmptyString [] [].

(** The three passes over the cache. *)
Definition update_cache (msg : DeltaMessage) (snap : Cache) : Cache :=
  let snap := if dm_non_incremental msg then clear_type snap (dm_type_url msg) else snap in
  let snap := foldl (fun snap name => remove_resource snap (dm_type_url msg) name) snap
                (dm_removed_resources msg) in
  foldl (fun snap resource =>
    if Str.is_empty (rs_name resource) then snap
    else (upsert_resource snap (dm_type_url msg) (rs_name resource) resource).2) snap
    (dm_resources msg).

(** One round of the loop of [delta_connect_loop]. *)
Definition delta_step (msg : DeltaMessage) (st : DeltaState) : DeltaState :=
  let seen := if bool_decide (size (seen_types st) < SUBSCRIPTION_COUNT)%nat
              then seen_types st ∪ {[ dm_type_url msg ]} else seen_types st in
  let initialized := bool_decide (SUBSCRIPTION_COUNT <= size seen)%nat in
  let version_changed := negb (bool_decide (dm_system_version_info msg = version st)) in
  let snap := update_cache msg (cached st) in
  if initialized && version_changed then
    mkDeltaState snap seen (dm_system_version_info msg) (published st ++ [snap])
      (acks st ++ [mkDeltaAck (dm_nonce msg) (dm_type_url msg)])
  else mkDeltaState snap seen (version st) (published st) (acks st).

Definition delta_run (msgs : list DeltaMessage) (st : DeltaState) : DeltaState :=
  foldl (fun st msg => delta_step msg st) st msgs.

(** ** The abstract view: a map from names to resources *)

Definition names (l : list Resource) : list string := resource_name <$> l.

Definition view (l : list Resource) : gmap string Resource :=
  list_to_map ((fun r => (resource_name r, r)) <$> l).

Definition apply_resource (kind : ResourceKind) (m : gmap string Resource)
    (resource : DeltaResource) : gmap string Resource :=
  if Str.is_empty (rs_name resource) then m
  else
    match rs_value resource with
    | None => m
    | Some bytes =>
      match decode kind bytes with
      | inl _ => delete (rs_name resource) m
      | inr r => <[rs_name resource := r]> m
      end
    end.

Definition apply_delta (kind : ResourceKind) (msg : DeltaMessage) (m : gmap string Resource) :
    gmap string Resource :=
  let m := if dm_non_incremental msg then ∅ else m in
  let m := foldl (fun m name => delete name m) m (dm_removed_resources msg) in
  foldl (apply_resource kind) m (dm_resources msg).

(** Every decoded resource has the name it is sent under. *)
Definition well_named (kind : ResourceKind) (msg : DeltaMessage) : Prop :=
  Forall (fun resource => forall bytes r, rs_value resource = Some bytes ->
    decode kind bytes = inr r -> resource_name r = rs_name resource) (dm_resources msg).

Lemma view_fst (l : list Resource) : ((fun r => (resource_name r, r)) <$> l).*1 = names l.
Proof. unfold names. rewrite <- list_fmap_compose. by apply list_fmap_ext. Qed.

Lemma view_retain (name : string) (l : list Resource) :
  view (retain_other name l) = delete name (view l).
Proof.
  unfold view. induction l as [|r l IH]; cbn [retain_other List.filter].
  - cbn. by rewrite delete_empty.
  - change (List.filter _ l) with (retain_other name l).
    destruct (bool_decide (resource_name r = name)) eqn:E; cbn [negb];
      [apply bool_decide_eq_true in E as <-|apply bool_decide_eq_false in E];
      rewrite !fmap_cons; cbn [list_to_map foldr].
    + by rewrite IH, delete_insert_eq.
    + by rewrite IH, delete_insert_ne.
Qed.

Lemma retain_names (name : string) (l : list Resource) :
  NoDup (names l) -> NoDup (names (retain_other name l)) /\ name ∉ names (retain_other name l).
Proof.
  intros Hn. split.
  - eapply sublist_NoDup; [exact Hn|]. unfold names. apply fmap_sublist.
    induction l as [|r l IH]; cbn; [done|]. destruct (bool_decide _); cbn;
      [apply sublist_cons|apply sublist_skip]; (apply IH; by inversion Hn).
  - unfold names, retain_other. intros (r & -> & Hr)%list_elem_of_fmap.
    apply list_elem_of_In, List.filter_In in Hr as [_ Hr]. by rewrite bool_decide_eq_true_2 in Hr.
Qed.

Lemma view_push (l : list Resource) (r : Resource) :
  resource_name r ∉ names l -> view (l ++ [r]) = <[resource_name r := r]> (view l).
Proof.
  intros Hr. unfold view. rewrite fmap_app. cbn. apply list_to_map_snoc. by rewrite view_fst.
Qed.

Lemma names_push (l : list Resource) (r : Resource) :
  NoDup (names l) -> resource_name r ∉ names l -> NoDup (names (l ++ [r])).
Proof.
  intros Hn Hr. unfold names. rewrite fmap_app. apply list.NoDup_app. split_and!; [done| |].
  - intros x Hx Hx'%list_elem_of_singleton. by subst x.
  - apply NoDup_singleton.
Qed.

(** The relation between the cache and its view that the passes keep. *)
Definition tracks (kind : ResourceKind) (start snap : Cache) (m : gmap string Resource) : Prop :=
  NoDup (names (snap kind)) /\ view (snap kind) = m /\ forall k, k <> kind -> snap k = start k.

Lemma tracks_set (kind : ResourceKind) (start snap : Cache) (m m' : gmap string Resource) l :
  tracks kind start snap m -> NoDup (names l) -> view l = m' ->
  tracks kind start (set_field snap kind l) m'.
Proof.
  intros (_ & _ & Ho) Hn Hv. unfold tracks, set_field. rewrite decide_True by done.
  split_and!; [done..|]. intros k Hk. rewrite decide_False by done. by apply Ho.
Qed.

Lemma remove_tracks (kind : ResourceKind) (type_url : string) (start : Cache)
    (removed : list string) (snap : Cache) (m : gmap string Resource) :
  kind_of type_url = Some kind -> tracks kind start snap m ->
  tracks kind start (foldl (fun snap name => remove_resource snap type_url name) snap removed)
    (foldl (fun m name => delete name m) m removed).
Proof.
  intros Hk. revert snap m. induction removed as [|name removed IH]; intros snap m Ht; cbn [foldl]; [done|].
  apply IH. unfold remove_resource. rewrite Hk. destruct (retain_names name (snap kind)); [by apply Ht|].
  eapply tracks_set; [done..|]. rewrite view_retain. by destruct Ht as (_ & -> & _).
Qed.

Lemma upsert_tracks (kind : ResourceKind) (type_url : string) (start : Cache)
    (resources : list DeltaResource) (snap : Cache) (m : gmap string Resource) :
  kind_of type_url = Some kind ->
  Forall (fun resource => forall bytes r, rs_value resource = Some bytes ->
    decode kind bytes = inr r -> resource_name r = rs_name resource) resources ->
  tracks kind start snap m ->
  tracks kind start
    (foldl (fun snap resource =>
       if Str.is_empty (rs_name resource) then snap
       else (upsert_resource snap type_url (rs_name resource) resource).2) snap resources)
    (foldl (apply_resource kind) m resources).
Proof.
  intros Hk Hw. revert snap m. induction Hw as [|resource resources Hr Hw IH]; intros snap m Ht;
    cbn [foldl]; [done|].
  apply IH. unfold apply_resource, upsert_resource.
  destruct (Str.is_empty (rs_name resource)); [done|].
  destruct (rs_value resource) as [bytes|]; [|done]. rewrite Hk.
  destruct (retain_names (rs_name resource) (snap kind)) as [Hn1 Hn2]; [by apply Ht|].
  assert (Ht1 : tracks kind start
    (set_field snap kind (retain_other (rs_name resource) (snap kind))) (delete (rs_name resource) m)).
  { eapply tracks_set; [done..|]. rewrite view_retain. by destruct Ht as (_ & -> & _). }
  destruct (decode kind bytes) as [e|r] eqn:Ed; cbn [snd]; [done|].
  specialize (Hr bytes r eq_refl Ed). set (snap1 := set_field _ _ _) in *.
  assert (E1 : snap1 kind = retain_other (rs_name resource) (snap kind))
    by (subst snap1; unfold set_field; by rewrite decide_True).
  eapply tracks_set; [done|..]; rewrite E1.
  - apply names_push; [done|by rewrite Hr].
  - rewrite view_push by (by rewrite Hr). destruct Ht1 as (_ & Hv & _). rewrite E1 in Hv.
    by rewrite Hv, Hr, insert_delete_eq.
Qed.

(** C26: a message keeps the cache a faithful copy of the control plane's
    resources of its type: seen as a map from names to resources, the cached list
    is emptied when the message is not incremental, loses the removed names, and
    gets the resources sent, the last one of a name winning; a resource that
    cannot be decoded loses its previous value; no name is listed twice, and
    the other types are untouched. *)
Theorem delta_message_refines (msg : DeltaMessage) (kind : ResourceKind) (snap : Cache) :
  kind_of (dm_type_url msg) = Some kind -> well_named kind msg ->
  (forall k, NoDup (names (snap k))) ->
  let snap' := update_cache msg snap in
  view (snap' kind) = apply_delta kind msg (view (snap kind)) /\
  (forall k, NoDup (names (snap' k))) /\ (forall k, k <> kind -> snap' k = snap k).
Proof.
  intros Hk Hw Hn snap'.
  assert (Ht : tracks kind snap snap' (apply_delta kind msg (view (snap kind)))).
  { apply upsert_tracks; [done..|]. apply remove_tracks; [done|].
    destruct (dm_non_incremental msg); [|by split_and!].
    unfold clear_type. rewrite Hk. eapply (tracks_set _ _ _ (view (snap kind))); [by split_and!|constructor|done]. }
  destruct Ht as (Hd & Hv & Ho). split_and!; [done| |done].
  intros k. destruct (decide (k = kind)) as [->|Hne]; [done|]. by rewrite Ho.
Qed.

(** ** Publishing *)

Definition delta_inv (msgs : list DeltaMessage) (st : DeltaState) : Prop :=
  seen_types st ⊆ list_to_set (dm_type_url <$> msgs) /\
  (published st <> [] -> SUBSCRIPTION_COUNT <= size (seen_types st))%nat /\
  length (acks st) = length (published st).

Lemma delta_step_inv (msgs : list DeltaMessage) (msg : DeltaMessage) (st : DeltaState) :
  delta_inv msgs st -> delta_inv (msgs ++ [msg]) (delta_step msg st).
Proof.
  intros (Hs & Hp & Ha). unfold delta_step. set (seen := if bool_decide _ then _ else _).
  assert (Hseen : seen ⊆ list_to_set (dm_type_url <$> msgs ++ [msg])).
  { rewrite fmap_app, list_to_set_app_L. cbn. subst seen. case_bool_decide; set_solver. }
  assert (Hsize : (size (seen_types st) <= size seen)%nat).
  { apply subseteq_size. subst seen. case_bool_decide; set_solver. }
  case_bool_decide as Hi; cbn [andb].
  - destruct (negb _); (split_and!; cbn; try done; rewrite !length_app; cbn; lia).
  - split_and!; cbn; try done. intros Hne. specialize (Hp Hne). lia.
Qed.

Lemma delta_run_inv (msgs : list DeltaMessage) : delta_inv msgs (delta_run msgs delta_start).
Proof.
  induction msgs as [|msg msgs IH] using rev_ind; [by split_and!|].
  unfold delta_run. rewrite foldl_app. cbn [foldl]. by apply delta_step_inv.
Qed.


(** of the messages that carry one new version only the first is published and
    acknowledged: what the later ones change reaches the cache, but not the
    snapshot in use, until a message with another version arrives. *)
Theorem delta_same_version_withheld (st : DeltaState) (msg1 msg2 : DeltaMessage) :
  (SUBSCRIPTION_COUNT <= size (seen_types st))%nat ->
  dm_system_version_info msg1 <> version st ->
  dm_system_version_info msg2 = dm_system_version_info msg1 ->
  let st' := delta_run [msg1; msg2] st in
  published st' = published st ++ [update_cache msg1 (cached st)] /\
  cached st' = update_cache msg2 (update_cache msg1 (cached st)) /\
  acks st' = acks st ++ [mkDeltaAck (dm_nonce msg1) (dm_type_url msg1)].
Proof.
  intros Hs Hv Hv2 st'. subst st'. unfold delta_run. cbn [foldl].
  unfold delta_step at 2 4 6. rewrite (bool_decide_eq_false_2 (size _ < _)%nat) by lia.
  rewrite (bool_decide_eq_true_2 (_ <= size _)%nat) by done.
  rewrite (bool_decide_eq_false_2 _ Hv). cbn [negb andb].
  unfold delta_step. cbn [seen_types version cached published acks].
  rewrite (bool_decide_eq_false_2 (size _ < _)%nat) by lia.
  rewrite (bool_decide_eq_true_2 _ Hv2). cbn [negb]. by rewrite andb_false_r.
Qed.
End Delta.

(** ** Witnesses *)

Section Witnesses.

(** A resource is its name; its encoding is one byte per resource. *)
#[local] Instance demo_proto : DeltaProto := {
  Resource := string;
  resource_name r := r;
  decode _ bytes := match bytes with
                    | [1] => inr "a"%string
                    | [2] => inr "b"%string
                    | _ => inl "invalid"%string
                    end;
}.

Definition full (url ver : string) (resources : list DeltaResource) : DeltaMessage :=
  mkDeltaMessage url ver "n" true [] resources.

Definition demo_cache : Cache := fun k => if decide (k = HttpRoute) then ["a"%string] else [].

Definition demo_update : DeltaMessage :=
  mkDeltaMessage "type.googleapis.com/gateway.control.v1.HttpRoute" "v2" "n" false []
    [mkDeltaResource "b" (Some [2]); mkDeltaResource "a" (Some [7])].

Lemma delta_message_refines_witness :
  view (update_cache demo_update demo_cache HttpRoute) = {[ "b"%string := "b"%string ]}.
Proof.
  rewrite (proj1 (delta_message_refines demo_update HttpRoute demo_cache
    ltac:(vm_compute; reflexivity)
    ltac:(repeat constructor; intros bytes r [= <-]; by intros [= <-])
    ltac:(intros []; repeat constructor; by intros ?%elem_of_nil))).
  reflexivity.
Defined.

Definition initial_messages : list DeltaMessage :=
  (fun url => full url "v1" []) <$> SUBSCRIPTIONS.


Lemma delta_same_version_withheld_witness :
  let st := delta_run initial_messages delta_start in
  let msg1 := full "type.googleapis.com/gateway.control.v1.Listener" "v2" [] in
  let st' := delta_run [msg1; demo_update] st in
  published st' = published st ++ [update_cache msg1 (cached st)].
Proof.
  intros st msg1.
  apply (delta_same_version_withheld st msg1 demo_update).
  - apply Nat.leb_le. vm_compute. reflexivity.
  - vm_compute. discriminate.
  - reflexivity.
Defined.
End Witnesses.
End XdsDelta.
