(* ===== verification/RateLimit.v ===== *)
(** * Request rate limits

    [ntgw-observability/src/rate_limit.rs] with [rate_limit/bucket.rs] and
    [rate_limit/stats.rs]: token buckets in milli-tokens for the whole gateway
    and for every listener, route and backend.

    The methods work under a shared reference and change the buckets and the
    statistics behind locks: they are state transformers on the controller, whose
    last field counts the clock readings.  The [Arc] of a bucket is the place
    where the bucket is stored; buckets are never removed, so that a place stays
    valid. *)

From Stdlib Require Import ZArith Lia.
From stdpp Require Import base gmap strings numbers list.
From S2P Require Import Prelude Strs IrTypes.

Module RateLimit.
Local Open Scope Z_scope.

(** ** Options and buckets *)

Definition RATE_LIMIT_TOKEN_SCALE : Z := 1000.

Record ScopeOptions := mkScopeOptions {
  so_requests_per_second : Z;
  so_burst : Z;
}.

Definition enabled (self : ScopeOptions) : bool := 0 <? so_requests_per_second self.

Definition burst (self : ScopeOptions) : Z :=
  if enabled self then Z.max (so_burst self) 1 else 0.

Definition capacity (self : ScopeOptions) : Z :=
  if negb (enabled self) then 0 else burst self * RATE_LIMIT_TOKEN_SCALE.

Definition as_millis (d : Duration) : Z := d / 1000000.

Definition refill (self : ScopeOptions) (elapsed : Duration) : Z :=
  if negb (enabled self) then 0
  else
    let elapsed_millis := Z.min (as_millis elapsed) U.u64_max in
    U.saturating_mul64 (U.saturating_mul64 elapsed_millis (so_requests_per_second self))
      RATE_LIMIT_TOKEN_SCALE / 1000.

Record RateLimitScopeSnapshot := mkRateLimitScopeSnapshot {
  rss_enabled : bool;
  rss_requests_per_second : Z;
  rss_burst : Z;
  rss_available_tokens : Z;
  rss_available_milli_tokens : Z;
}.

Definition ScopeOptions_snapshot (self : ScopeOptions) (available_milli_tokens : Z) :
    RateLimitScopeSnapshot :=
  {| rss_enabled := enabled self;
     rss_requests_per_second := so_requests_per_second self;
     rss_burst := burst self;
     rss_available_tokens := available_milli_tokens / RATE_LIMIT_TOKEN_SCALE;
     rss_available_milli_tokens := available_milli_tokens |}.

Record RateLimitBucket := mkRateLimitBucket {
  available_milli_tokens : Z;
  last_refill : Instant;
}.

Definition new_bucket (options : ScopeOptions) (now : Instant) : RateLimitBucket :=
  mkRateLimitBucket (capacity options) now.

Definition saturating_duration_since (now earlier : Instant) : Duration := Z.max 0 (now - earlier).

Definition refill_bucket (state : RateLimitBucket) (options : ScopeOptions) (now : Instant) :
    RateLimitBucket :=
  if negb (enabled options) then mkRateLimitBucket 0 now
  else
    let refill := refill options (saturating_duration_since now (last_refill state)) in
    mkRateLimitBucket
      (if 0 <? refill
       then Z.min (U.saturating_add64 (available_milli_tokens state) refill) (capacity options)
       else available_milli_tokens state)
      now.

(** ** Statistics *)

Inductive HttpRateLimitRejection := RejectGlobal | RejectListener | RejectRoute | RejectBackend.
#[global] Instance HttpRateLimitRejection_eq_dec : EqDecision HttpRateLimitRejection.
Proof. solve_decision. Defined.

Record HttpRateLimitStats := mkHttpRateLimitStats {
  rs_allowed_total : Z;
  rs_rejected_total : Z;
  rs_rejected_global_total : Z;
  rs_rejected_listener_total : Z;
  rs_rejected_route_total : Z;
  rs_rejected_backend_total : Z;
  rs_rejected_listener_by_name : StringMap Z;
  rs_rejected_route_by_name : StringMap Z;
  rs_rejected_backend_by_name : StringMap Z;
}.

Definition HttpRateLimitStats_default : HttpRateLimitStats :=
  mkHttpRateLimitStats 0 0 0 0 0 0 ∅ ∅ ∅.

Definition stats_observe_allow (self : HttpRateLimitStats) : HttpRateLimitStats :=
  {| rs_allowed_total := U.saturating_add64 (rs_allowed_total self) 1;
     rs_rejected_total := rs_rejected_total self;
     rs_rejected_global_total := rs_rejected_global_total self;
     rs_rejected_listener_total := rs_rejected_listener_total self;
     rs_rejected_route_total := rs_rejected_route_total self;
     rs_rejected_backend_total := rs_rejected_backend_total self;
     rs_rejected_listener_by_name := rs_rejected_listener_by_name self;
     rs_rejected_route_by_name := rs_rejected_route_by_name self;
     rs_rejected_backend_by_name := rs_rejected_backend_by_name self |}.

(** [*items.entry(key.to_string()).or_default() += 1], which wraps in a release
    build. *)
Definition increment_named (items : StringMap Z) (key : string) : StringMap Z :=
  <[key := U.wrapping_add64 (default 0 (items !! key)) 1]> items.

Definition increment_key (items : StringMap Z) (key : option string) : StringMap Z :=
  match key with
  | Some key => if negb (Str.is_empty (Str.trim key)) then increment_named items key else items
  | None => items
  end.

Definition stats_observe_reject (self : HttpRateLimitStats) (rejection : HttpRateLimitRejection)
    (key : option string) : HttpRateLimitStats :=
  let hit r total := if bool_decide (rejection = r) then U.saturating_add64 total 1 else total in
  let name r items := if bool_decide (rejection = r) then increment_key items key else items in
  {| rs_allowed_total := rs_allowed_total self;
     rs_rejected_total := U.saturating_add64 (rs_rejected_total self) 1;
     rs_rejected_global_total := hit RejectGlobal (rs_rejected_global_total self);
     rs_rejected_listener_total := hit RejectListener (rs_rejected_listener_total self);
     rs_rejected_route_total := hit RejectRoute (rs_rejected_route_total self);
     rs_rejected_backend_total := hit RejectBackend (rs_rejected_backend_total self);
     rs_rejected_listener_by_name := name RejectListener (rs_rejected_listener_by_name self);
     rs_rejected_route_by_name := name RejectRoute (rs_rejected_route_by_name self);
     rs_rejected_backend_by_name := name RejectBackend (rs_rejected_backend_by_name self) |}.

(** ** The controller *)

Record KeyedScopeController := mkKeyedScopeController {
  ks_options : ScopeOptions;
  ks_buckets : StringMap RateLimitBucket;
}.

Definition KeyedScopeController_new (requests_per_second burst : Z) : KeyedScopeController :=
  mkKeyedScopeController (mkScopeOptions requests_per_second burst) ∅.

Record HttpRateLimitController := mkHttpRateLimitController {
  rl_global_options : ScopeOptions;
  rl_global : option RateLimitBucket;
  rl_listener : KeyedScopeController;
  rl_route : KeyedScopeController;
  rl_backend : KeyedScopeController;
  rl_stats : HttpRateLimitStats;
  rl_ticks : nat;
}.

Record HttpRateLimitOptions := mkHttpRateLimitOptions {
  ro_global_requests_per_second : Z;
  ro_global_burst : Z;
  ro_listener_requests_per_second : Z;
  ro_listener_burst : Z;
  ro_route_requests_per_second : Z;
  ro_route_burst : Z;
  ro_backend_requests_per_second : Z;
  ro_backend_burst : Z;
}.

(** Where a bucket is stored: the field [global], or an entry of the map of a
    keyed scope. *)
Inductive Scope := Global | ScopeListener | ScopeRoute | ScopeBackend.
#[global] Instance Scope_eq_dec : EqDecision Scope.
Proof. solve_decision. Defined.

Definition SharedBucket : Type := Scope * string.

Definition RL (A : Type) : Type := HttpRateLimitController -> A * HttpRateLimitController.
#[global] Instance RL_ret : MRet RL := fun A x c => (x, c).
#[global] Instance RL_bind : MBind RL := fun A B f m c => let '(x, c) := m c in f x c.

Definition keyed (c : HttpRateLimitController) (scope : Scope) : KeyedScopeController :=
  match scope with
  | Global => mkKeyedScopeController (rl_global_options c) ∅
  | ScopeListener => rl_listener c
  | ScopeRoute => rl_route c
  | ScopeBackend => rl_backend c
  end.

Definition bucket_at (c : HttpRateLimitController) (bucket : SharedBucket) :
    option RateLimitBucket :=
  match bucket.1 with
  | Global => rl_global c
  | scope => ks_buckets (keyed c scope) !! bucket.2
  end.

Definition put (self : KeyedScopeController) (key : string) (state : RateLimitBucket) :
    KeyedScopeController :=
  mkKeyedScopeController (ks_options self) (<[key := state]> (ks_buckets self)).

Definition set_bucket (c : HttpRateLimitController) (bucket : SharedBucket)
    (state : RateLimitBucket) : HttpRateLimitController :=
  let '(scope, key) := bucket in
  {| rl_global_options := rl_global_options c;
     rl_global := if bool_decide (scope = Global) then Some state else rl_global c;
     rl_listener :=
       if bool_decide (scope = ScopeListener) then put (rl_listener c) key state else rl_listener c;
     rl_route := if bool_decide (scope = ScopeRoute) then put (rl_route c) key state else rl_route c;
     rl_backend :=
       if bool_decide (scope = ScopeBackend) then put (rl_backend c) key state else rl_backend c;
     rl_stats := rl_stats c;
     rl_ticks := rl_ticks c |}.

Definition set_stats (c : HttpRateLimitController) (stats : HttpRateLimitStats) :
    HttpRateLimitController :=
  mkHttpRateLimitController (rl_global_options c) (rl_global c) (rl_listener c) (rl_route c)
    (rl_backend c) stats (rl_ticks c).

Definition options_of (scope : Scope) : RL ScopeOptions := fun c => (ks_options (keyed c scope), c).

(** [self.global.clone()] *)
Definition global_bucket : RL (option SharedBucket) := fun c =>
  ((fun _ => (Global, EmptyString)) <$> rl_global c, c).

Definition try_consume_bucket (bucket : SharedBucket) (options : ScopeOptions) (now : Instant) :
    RL bool := fun c =>
  match bucket_at c bucket with
  | None => (true, c)
  | Some state =>
    let state := refill_bucket state options now in
    if available_milli_tokens state <? RATE_LIMIT_TOKEN_SCALE
    then (false, set_bucket c bucket state)
    else
      (true, set_bucket c bucket
               (mkRateLimitBucket (available_milli_tokens state - RATE_LIMIT_TOKEN_SCALE)
                  (last_refill state)))
  end.

Definition refund_bucket (bucket : SharedBucket) (options : ScopeOptions) (now : Instant) :
    RL unit := fun c =>
  match bucket_at c bucket with
  | None => (tt, c)
  | Some state =>
    let state := refill_bucket state options now in
    (tt, set_bucket c bucket
           (mkRateLimitBucket
              (Z.min (U.saturating_add64 (available_milli_tokens state) RATE_LIMIT_TOKEN_SCALE)
                 (capacity options))
              (last_refill state)))
  end.

Definition observe_reject (rejection : HttpRateLimitRejection) (key : option string) : RL unit :=
  fun c => (tt, set_stats c (stats_observe_reject (rl_stats c) rejection key)).

Definition observe_allow : RL unit := fun c =>
  if negb (enabled (rl_global_options c)) && negb (enabled (ks_options (rl_listener c)))
     && negb (enabled (ks_options (rl_route c))) && negb (enabled (ks_options (rl_backend c)))
  then (tt, c)
  else (tt, set_stats c (stats_observe_allow (rl_stats c))).

(** [if let Some(bucket) = bucket.as_ref() && !try_consume_bucket(..)] *)
Definition exhausted (bucket : option SharedBucket) (options : ScopeOptions) (now : Instant) :
    RL bool :=
  match bucket with
  | Some bucket => admitted ← try_consume_bucket bucket options now; mret (negb admitted)
  | None => mret false
  end.

(** [if let Some(bucket) = bucket.as_ref() { refund_bucket(..) }] *)
Definition refund (bucket : option SharedBucket) (options : ScopeOptions) (now : Instant) :
    RL unit :=
  match bucket with
  | Some bucket => refund_bucket bucket options now
  | None => mret tt
  end.

Definition is_some {A} (o : option A) : bool := match o with Some _ => true | None => false end.

Section with_clock.
Context `{Clock}.

Definition instant_now : RL Instant := fun c =>
  (instant_at (rl_ticks c),
   mkHttpRateLimitController (rl_global_options c) (rl_global c) (rl_listener c) (rl_route c)
     (rl_backend c) (rl_stats c) (S (rl_ticks c))).

Definition HttpRateLimitController_new (options : HttpRateLimitOptions) (ticks : nat) :
    HttpRateLimitController :=
  let global_options :=
    mkScopeOptions (ro_global_requests_per_second options) (ro_global_burst options) in
  {| rl_global_options := global_options;
     rl_global :=
       if enabled global_options then Some (new_bucket global_options (instant_at ticks)) else None;
     rl_listener :=
       KeyedScopeController_new (ro_listener_requests_per_second options)
         (ro_listener_burst options);
     rl_route :=
       KeyedScopeController_new (ro_route_requests_per_second options) (ro_route_burst options);
     rl_backend :=
       KeyedScopeController_new (ro_backend_requests_per_second options)
         (ro_backend_burst options);
     rl_stats := HttpRateLimitStats_default;
     rl_ticks := if enabled global_options then S ticks else ticks |}.

(** [KeyedScopeController::bucket] of the keyed scope [scope]. *)
Definition bucket (scope : Scope) (key : string) : RL (option SharedBucket) :=
  options ← options_of scope;
  if negb (enabled options) then mret None
  else
    let key := Str.trim key in
    if Str.is_empty key then mret None
    else fun c =>
      match bucket_at c (scope, key) with
      | Some _ => (Some (scope, key), c)
      | None =>
        let '(now, c) := instant_now c in
        (Some (scope, key), set_bucket c (scope, key) (new_bucket options now))
      end.

Definition try_acquire_listener (listener : string) : RL (bool + HttpRateLimitRejection) :=
  now ← instant_now;
  global ← global_bucket;
  global_options ← options_of Global;
  over ← exhausted global global_options now;
  if over : bool then
    _ ← observe_reject RejectGlobal None;
    mret (inr RejectGlobal)
  else
    listener_bucket ← bucket ScopeListener listener;
    listener_options ← options_of ScopeListener;
    over ← exhausted listener_bucket listener_options now;
    if over : bool then
      _ ← refund global global_options now;
      _ ← observe_reject RejectListener (Some listener);
      mret (inr RejectListener)
    else mret (inl (is_some global || is_some listener_bucket)).

Definition try_acquire_route (route : string) : RL (bool + HttpRateLimitRejection) :=
  now ← instant_now;
  route_bucket ← bucket ScopeRoute route;
  route_options ← options_of ScopeRoute;
  over ← exhausted route_bucket route_options now;
  if over : bool then
    _ ← observe_reject RejectRoute (Some route);
    mret (inr RejectRoute)
  else mret (inl (is_some route_bucket)).

Definition try_acquire_backend (backend : string) : RL (bool + HttpRateLimitRejection) :=
  now ← instant_now;
  backend_bucket ← bucket ScopeBackend backend;
  backend_options ← options_of ScopeBackend;
  over ← exhausted backend_bucket backend_options now;
  if over : bool then
    _ ← observe_reject RejectBackend (Some backend);
    mret (inr RejectBackend)
  else mret (inl (is_some backend_bucket)).

Definition try_acquire (listener route : string) : RL (bool + HttpRateLimitRejection) :=
  now ← instant_now;
  global ← global_bucket;
  global_options ← options_of Global;
  over ← exhausted global global_options now;
  if over : bool then
    _ ← observe_reject RejectGlobal None;
    mret (inr RejectGlobal)
  else
    listener_bucket ← bucket ScopeListener listener;
    listener_options ← options_of ScopeListener;
    over ← exhausted listener_bucket listener_options now;
    if over : bool then
      _ ← refund global global_options now;
      _ ← observe_reject RejectListener (Some listener);
      mret (inr RejectListener)
    else
      route_bucket ← bucket ScopeRoute route;
      route_options ← options_of ScopeRoute;
      over ← exhausted route_bucket route_options now;
      if over : bool then
        _ ← refund listener_bucket listener_options now;
        _ ← refund global global_options now;
        _ ← observe_reject RejectRoute (Some route);
        mret (inr RejectRoute)
      else mret (inl (is_some global || is_some listener_bucket || is_some route_bucket)).

(** ** Snapshots of the limits *)

Record NamedRateLimitScopeSnapshot := mkNamedRateLimitScopeSnapshot {
  nss_enabled : bool;
  nss_requests_per_second : Z;
  nss_burst : Z;
  nss_available_tokens_by_name : StringMap Z;
  nss_available_milli_tokens_by_name : StringMap Z;
}.

(** The refilled buckets and what the snapshot shows of them. *)
Definition KeyedScopeController_snapshot (self : KeyedScopeController) (now : Instant) :
    NamedRateLimitScopeSnapshot * KeyedScopeController :=
  let buckets :=
    (fun state => refill_bucket state (ks_options self) now) <$> ks_buckets self in
  ({| nss_enabled := enabled (ks_options self);
      nss_requests_per_second := so_requests_per_second (ks_options self);
      nss_burst := burst (ks_options self);
      nss_available_tokens_by_name :=
        (fun state => available_milli_tokens state / RATE_LIMIT_TOKEN_SCALE) <$> buckets;
      nss_available_milli_tokens_by_name := available_milli_tokens <$> buckets |},
   mkKeyedScopeController (ks_options self) buckets).

Record HttpRateLimitSnapshot := mkHttpRateLimitSnapshot {
  hrs_global : RateLimitScopeSnapshot;
  hrs_listener : NamedRateLimitScopeSnapshot;
  hrs_route : NamedRateLimitScopeSnapshot;
  hrs_backend : NamedRateLimitScopeSnapshot;
  hrs_stats : HttpRateLimitStats;
}.

Definition snapshot : RL HttpRateLimitSnapshot :=
  fun c =>
    let '(now, c) := instant_now c in
    let global := (fun state => refill_bucket state (rl_global_options c) now) <$> rl_global c in
    let '(listener, rl_listener) := KeyedScopeController_snapshot (rl_listener c) now in
    let '(route, rl_route) := KeyedScopeController_snapshot (rl_route c) now in
    let '(backend, rl_backend) := KeyedScopeController_snapshot (rl_backend c) now in
    ({| hrs_global :=
          ScopeOptions_snapshot (rl_global_options c)
            (match global with Some state => available_milli_tokens state | None => 0 end);
        hrs_listener := listener;
        hrs_route := route;
        hrs_backend := backend;
        hrs_stats := rl_stats c |},
     mkHttpRateLimitController (rl_global_options c) global rl_listener rl_route rl_backend
       (rl_stats c) (rl_ticks c)).
End with_clock.

(** ** Use of the controller *)

Inductive op :=
| OpListener (listener : string)
| OpRoute (route : string)
| OpBackend (backend : string)
| OpBoth (listener route : string)
| OpAllow
| OpSnapshot.

Definition result : Type := option (bool + HttpRateLimitRejection).

Definition perform `{Clock} (o : op) : RL result :=
  match o with
  | OpListener listener => r ← try_acquire_listener listener; mret (Some r)
  | OpRoute route => r ← try_acquire_route route; mret (Some r)
  | OpBackend backend => r ← try_acquire_backend backend; mret (Some r)
  | OpBoth listener route => r ← try_acquire listener route; mret (Some r)
  | OpAllow => _ ← observe_allow; mret None
  | OpSnapshot => _ ← snapshot; mret None
  end.

Fixpoint run `{Clock} (ops : list op) : RL (list (op * result)) :=
  match ops with
  | [] => mret []
  | o :: ops => r ← perform o; log ← run ops; mret ((o, r) :: log)
  end.

(** The buckets a request takes a token from when it is admitted. *)
Definition charged (o : op) : list SharedBucket :=
  match o with
  | OpListener listener => [(Global, EmptyString); (ScopeListener, Str.trim listener)]
  | OpRoute route => [(ScopeRoute, Str.trim route)]
  | OpBackend backend => [(ScopeBackend, Str.trim backend)]
  | OpBoth listener route =>
    [(Global, EmptyString); (ScopeListener, Str.trim listener); (ScopeRoute, Str.trim route)]
  | OpAllow | OpSnapshot => []
  end.

Definition admits (b : SharedBucket) (entry : op * result) : Z :=
  match entry.2 with
  | Some (inl _) => if bool_decide (b ∈ charged entry.1) then 1 else 0
  | _ => 0
  end.

(** How many requests of a log were admitted against a bucket. *)
Fixpoint admitted (b : SharedBucket) (log : list (op * result)) : Z :=
  match log with
  | [] => 0
  | entry :: log => admits b entry + admitted b log
  end.

(** The place of the global bucket, or of the bucket of a name. *)
Definition proper (b : SharedBucket) : Prop := b.1 = Global <-> b.2 = EmptyString.
#[global] Instance proper_dec b : Decision (proper b).
Proof. unfold proper. apply _. Defined.

(** ** Buckets *)

Definition options_ok (o : ScopeOptions) : Prop :=
  0 <= so_requests_per_second o < U.u32_modulus /\ 0 <= so_burst o < U.u32_modulus.

Section bucket_facts.
Context (o : ScopeOptions) (Ho : options_ok o) (He : enabled o = true).

Definition tokens_ok (st : RateLimitBucket) : Prop :=
  0 <= available_milli_tokens st <= capacity o.

(** [g] tokens were taken since [t0], and the last one at [upto] or before. *)
Definition good (t0 upto : Instant) (g : Z) (st : RateLimitBucket) : Prop :=
  tokens_ok st /\
  (g = 0 \/
   t0 <= last_refill st <= upto /\
   1000000000 * g + 1000000 * available_milli_tokens st
   <= 1000000 * capacity o + so_requests_per_second o * (last_refill st - t0)).

Lemma capacity_range : 1000 <= capacity o < U.u64_max.
Proof.
  destruct Ho. unfold capacity, burst, RATE_LIMIT_TOKEN_SCALE, U.u64_max, U.u64_modulus in *.
  rewrite He. unfold U.u32_modulus in *. cbn [negb]. lia.
Qed.

Lemma refill_range elapsed : 0 <= elapsed ->
  0 <= refill o elapsed /\ 1000000 * refill o elapsed <= so_requests_per_second o * elapsed.
Proof.
  intros Hl. destruct Ho as [[Hr _] _]. unfold refill, U.saturating_mul64, RATE_LIMIT_TOKEN_SCALE, as_millis.
  rewrite He. cbn [negb].
  set (r := so_requests_per_second o) in *.
  assert (0 <= elapsed / 1000000) as H0 by (apply Z.div_pos; lia).
  assert (0 <= Z.min (elapsed / 1000000) U.u64_max) as H1 by (unfold U.u64_max, U.u64_modulus; lia).
  pose proof (Z.mul_div_le elapsed 1000000 ltac:(lia)) as Hd.
  set (m := Z.min (elapsed / 1000000) U.u64_max) in *.
  set (p := Z.min (m * r) U.u64_max).
  assert (0 <= p <= m * r) as Hp by (unfold p, U.u64_max, U.u64_modulus; nia).
  set (q := Z.min (p * 1000) U.u64_max).
  assert (0 <= q <= p * 1000) as Hq by (unfold q, U.u64_max, U.u64_modulus; lia).
  split; [apply Z.div_pos; lia|].
  assert (q / 1000 <= p) by (apply Z.div_le_upper_bound; lia).
  assert (m * 1000000 <= elapsed) by lia. nia.
Qed.

Lemma refill_tokens_ok st now : tokens_ok st -> tokens_ok (refill_bucket st o now).
Proof.
  unfold tokens_ok, refill_bucket. rewrite He. cbn [negb available_milli_tokens]. intros.
  destruct (refill_range (saturating_duration_since now (last_refill st))) as [Hr _].
  { unfold saturating_duration_since. lia. }
  pose proof capacity_range. unfold U.saturating_add64. case_match; lia.
Qed.

Lemma refill_good t0 upto g st :
  t0 <= upto -> good t0 upto g st ->
  good t0 upto g (refill_bucket st o upto) /\
  1000000000 * g + 1000000 * available_milli_tokens (refill_bucket st o upto)
  <= 1000000 * capacity o + so_requests_per_second o * (upto - t0).
Proof.
  intros Ht [Htok Hg]. pose proof (refill_tokens_ok st upto Htok) as Htok'.
  assert (last_refill (refill_bucket st o upto) = upto) as Hl.
  { unfold refill_bucket. by rewrite He. }
  assert (1000000000 * g + 1000000 * available_milli_tokens (refill_bucket st o upto)
    <= 1000000 * capacity o + so_requests_per_second o * (upto - t0)) as Hineq.
  { destruct Ho as [[Hr _] _]. destruct Hg as [->|[Hls Hi]].
    { unfold tokens_ok in Htok'. nia. }
    clear Htok'. unfold refill_bucket. rewrite He. cbn [negb available_milli_tokens].
    destruct (refill_range (saturating_duration_since upto (last_refill st))) as [Hr0 Hr1].
    { unfold saturating_duration_since. lia. }
    unfold saturating_duration_since in *. rewrite Z.max_r in * by lia.
    unfold U.saturating_add64. case_match; nia. }
  split; [|done]. split; [done|]. right. rewrite Hl. split; [lia|done].
Qed.

Lemma good_mono t0 upto upto' g st : upto <= upto' -> good t0 upto g st -> good t0 upto' g st.
Proof. intros ? [? [?|?]]; split; [done|by left|done|right; lia]. Qed.

Lemma good_fresh t0 upto st : tokens_ok st -> good t0 upto 0 st.
Proof. intros. split; [done|by left]. Qed.
End bucket_facts.
End RateLimit.
