(* ===== verification/RateLimitFacts.v ===== *)
(** * What the rate limits guarantee

    The requests that the controller of the file RateLimit admits against a
    bucket in any window of time stay within the burst and the rate of its
    scope, a rejected request takes no token from any bucket, and a bucket that
    is asked more often than once a millisecond is never refilled. *)

From Stdlib Require Import ZArith Lia.
From stdpp Require Import base gmap strings numbers list.
From S2P Require Import Prelude Strs IrTypes RateLimit.

Module RateLimitFacts.
Import RateLimit.
Local Open Scope Z_scope.

(** ** Reading and writing buckets *)

Definition opts (c : HttpRateLimitController) (scope : Scope) : ScopeOptions :=
  ks_options (keyed c scope).

Ltac scopes := cbn; repeat case_bool_decide; try congruence; cbn; try done.

Lemma bucket_at_set c b st b' : proper b -> proper b' ->
  bucket_at (set_bucket c b st) b' = if decide (b = b') then Some st else bucket_at c b'.
Proof.
  destruct b as [s k], b' as [s' k']. unfold proper, bucket_at. simpl. intros Hb Hb'.
  destruct (decide (s = s')) as [->|Hs].
  - destruct (decide (k = k')) as [->|Hk].
    + rewrite decide_True by done. destruct s'; scopes; by rewrite lookup_insert_eq.
    + rewrite decide_False by congruence. destruct s'; scopes; [|by rewrite lookup_insert_ne..].
      destruct Hk. by rewrite (proj1 Hb), (proj1 Hb').
  - rewrite decide_False by congruence. destruct s, s'; scopes.
Qed.

Lemma opts_set c b st s : opts (set_bucket c b st) s = opts c s.
Proof. destruct b as [[] ?], s; unfold opts; scopes. Qed.

(** ** One operation

    An operation that begins at [now] in the state [c0] leaves a bucket as it
    is, refills it, or refills it and takes a token. *)
Section operation.
Context (o : Scope -> ScopeOptions) (Ho : forall s, options_ok (o s)).

Definition live (b : SharedBucket) : Prop := proper b /\ enabled (o b.1) = true.

#[global] Instance live_dec b : Decision (live b).
Proof. unfold live. apply _. Defined.

Record wf (c : HttpRateLimitController) : Prop := {
  wf_opts : forall s, opts c s = o s;
  wf_global : is_some (rl_global c) = enabled (o Global);
  wf_tokens : forall b st, live b -> bucket_at c b = Some st -> tokens_ok (o b.1) st;
}.

Context (c0 : HttpRateLimitController) (Hwf : wf c0) (now : Instant).

(** The bucket at [now]: refilled, or full if it is new. *)
Definition refilled (b : SharedBucket) : RateLimitBucket :=
  match bucket_at c0 b with
  | Some st => refill_bucket st (o b.1) now
  | None => mkRateLimitBucket (capacity (o b.1)) now
  end.

Definition lacking (b : SharedBucket) : bool :=
  available_milli_tokens (refilled b) <? RATE_LIMIT_TOKEN_SCALE.

Definition taken (b : SharedBucket) : RateLimitBucket :=
  mkRateLimitBucket (available_milli_tokens (refilled b) - RATE_LIMIT_TOKEN_SCALE) now.

(** No token was taken from [b]. *)
Definition kept (c : HttpRateLimitController) (b : SharedBucket) : Prop :=
  bucket_at c b = bucket_at c0 b \/
  bucket_at c b = Some (refilled b) \/
  bucket_at c0 b = None /\ exists t, bucket_at c b = Some (new_bucket (o b.1) t).

Record Tr (n : nat) (T : list SharedBucket) (c : HttpRateLimitController) : Prop := {
  tr_ticks : (n <= rl_ticks c)%nat;
  tr_opts : forall s, opts c s = o s;
  tr_global : is_some (rl_global c) = enabled (o Global);
  tr_taken : forall b, live b -> b ∈ T -> bucket_at c b = Some (taken b) /\ lacking b = false;
  tr_kept : forall b, live b -> b ∉ T -> kept c b;
}.

Lemma refilled_last b : live b -> last_refill (refilled b) = now.
Proof.
  intros [_ He]. unfold refilled, refill_bucket. case_match; [|done]. by rewrite He.
Qed.

Lemma refilled_tokens b : live b -> tokens_ok (o b.1) (refilled b).
Proof.
  intros Hb. unfold refilled. destruct (bucket_at c0 b) as [st|] eqn:E.
  - apply refill_tokens_ok; [done|apply Hb|]. by eapply wf_tokens.
  - pose proof (capacity_range _ (Ho b.1) (proj2 Hb)). unfold tokens_ok. cbn. lia.
Qed.

Lemma refill_at_last scope st : enabled (o scope) = true ->
  refill_bucket st (o scope) (last_refill st) = st.
Proof.
  intros He. unfold refill_bucket, saturating_duration_since, refill. rewrite He, Z.sub_diag.
  cbn. by destruct st.
Qed.

Lemma refill_new b t : live b -> bucket_at c0 b = None ->
  refill_bucket (new_bucket (o b.1) t) (o b.1) now = refilled b.
Proof.
  intros [_ He] E. unfold refilled, refill_bucket. rewrite He, E. cbn. f_equal.
  destruct (refill_range _ (Ho b.1) He (saturating_duration_since now t)) as [Hr _].
  { unfold saturating_duration_since. lia. }
  pose proof (capacity_range _ (Ho b.1) He). unfold U.saturating_add64.
  case_match; [|done]. lia.
Qed.

Lemma kept_refill c b st : live b -> kept c b -> bucket_at c b = Some st ->
  refill_bucket st (o b.1) now = refilled b.
Proof.
  intros Hb Hk Hst. destruct Hk as [Hk|[Hk|[Hn [t Ht]]]].
  - unfold refilled. by rewrite <- Hk, Hst.
  - rewrite Hst in Hk. injection Hk as ->. rewrite <- (refilled_last b Hb) at 1.
    apply refill_at_last, Hb.
  - rewrite Hst in Ht. injection Ht as ->. by apply refill_new.
Qed.

Lemma taken_refill b : live b -> refill_bucket (taken b) (o b.1) now = taken b.
Proof. intros Hb. change now with (last_refill (taken b)) at 1. apply refill_at_last, Hb. Qed.

(** A bucket that gets its token back is as if it had not been asked. *)
Lemma taken_refund b : live b ->
  mkRateLimitBucket
    (Z.min (U.saturating_add64 (available_milli_tokens (taken b)) RATE_LIMIT_TOKEN_SCALE)
       (capacity (o b.1))) now = refilled b.
Proof.
  intros Hb. pose proof (refilled_tokens b Hb) as Ht. pose proof (refilled_last b Hb) as Hl.
  pose proof (capacity_range _ (Ho b.1) (proj2 Hb)). unfold taken, tokens_ok in *. cbn.
  unfold U.saturating_add64, RATE_LIMIT_TOKEN_SCALE. destruct (refilled b) as [a t]. cbn in *.
  subst t. f_equal. lia.
Qed.

Lemma kept_set c b st b' : live b -> live b' -> b <> b' -> kept c b' -> kept (set_bucket c b st) b'.
Proof.
  intros Hb Hb' Hn. unfold kept. rewrite bucket_at_set by (apply Hb || apply Hb').
  by rewrite decide_False by done.
Qed.

Lemma is_some_set c b st : live b -> is_some (rl_global c) = enabled (o Global) ->
  is_some (rl_global (set_bucket c b st)) = enabled (o Global).
Proof. destruct b as [s k]. intros [_ He] Hg. cbn in *. case_bool_decide; [by subst|done]. Qed.

Lemma ticks_set c b st : rl_ticks (set_bucket c b st) = rl_ticks c.
Proof. by destruct b. Qed.

Lemma Tr_take n T c b : live b -> b ∉ T -> lacking b = false ->
  Tr n T c -> Tr n (b :: T) (set_bucket c b (taken b)).
Proof.
  intros Hb HT Hl [H1 H2 H3 H4 H5]. split.
  - by rewrite ticks_set.
  - intros s. by rewrite opts_set.
  - by apply is_some_set.
  - intros b' Hb' Hin. rewrite bucket_at_set by (apply Hb || apply Hb').
    case_decide; [by subst|]. apply H4; [done|]. set_solver.
  - intros b' Hb' Hin. apply kept_set; [done..|set_solver|]. apply H5; [done|]. set_solver.
Qed.

Lemma Tr_keep n T c b : live b -> b ∉ T ->
  (Tr n T c \/ Tr n (b :: T) c) -> Tr n T (set_bucket c b (refilled b)).
Proof.
  intros Hb HT Hor.
  assert ((n <= rl_ticks c)%nat /\ (forall s, opts c s = o s) /\
    is_some (rl_global c) = enabled (o Global) /\
    (forall b', live b' -> b' ∈ T -> bucket_at c b' = Some (taken b') /\ lacking b' = false) /\
    (forall b', live b' -> b' ∉ T -> b' <> b -> kept c b')) as (H1 & H2 & H3 & H4 & H5).
  { destruct Hor as [[]|[? ? ? Ht Hk]]; split_and!; auto.
    - intros. apply Ht; [done|]. by right.
    - intros. apply Hk; [done|]. set_solver. }
  split.
  - by rewrite ticks_set.
  - intros s. by rewrite opts_set.
  - by apply is_some_set.
  - intros b' Hb' Hin. rewrite bucket_at_set by (apply Hb || apply Hb').
    rewrite decide_False by (intros ->; done). auto.
  - intros b' Hb' Hin. destruct (decide (b = b')) as [<-|Hn]; [|by apply kept_set; auto].
    right. left. rewrite bucket_at_set by apply Hb. by rewrite decide_True.
Qed.

(** ** Triples *)

Definition hoare {A} (P : HttpRateLimitController -> Prop) (m : RL A)
    (Q : A -> HttpRateLimitController -> Prop) : Prop :=
  forall c, P c -> Q (m c).1 (m c).2.

Lemma hoare_bind {A B} P (m : RL A) R (f : A -> RL B) Q :
  hoare P m R -> (forall x, hoare (R x) (f x) Q) -> hoare P (m ≫= f) Q.
Proof.
  intros Hm Hf c Hc. unfold mbind, RL_bind. specialize (Hm c Hc). destruct (m c) as [x c'].
  by apply Hf.
Qed.

Lemma hoare_pure {A} (phi : Prop) (P : HttpRateLimitController -> Prop) (m : RL A) Q :
  (phi -> hoare P m Q) -> hoare (fun c => phi /\ P c) m Q.
Proof. intros Hm c [? ?]. by apply Hm. Qed.

Definition slot_ok (c : HttpRateLimitController) (slot : option SharedBucket) : Prop :=
  match slot with Some b => live b /\ is_Some (bucket_at c b) | None => True end.

(** Between two steps of the operation: at least [n] clock readings were taken,
    the buckets [T] gave a token, and the buckets of [slots] exist. *)
Definition At (n : nat) (T : list SharedBucket) (slots : list (option SharedBucket))
    (c : HttpRateLimitController) : Prop :=
  Tr n T c /\ Forall (slot_ok c) slots.

Definition slot_list (slot : option SharedBucket) : list SharedBucket :=
  match slot with Some b => [b] | None => [] end.
Definition slot_lacking (slot : option SharedBucket) : bool :=
  match slot with Some b => lacking b | None => false end.

Lemma slot_ok_set c b st slot : live b -> slot_ok c slot -> slot_ok (set_bucket c b st) slot.
Proof.
  intros Hb. destruct slot as [b'|]; [|done]. intros [Hb' Hs]. split; [done|].
  rewrite bucket_at_set by (apply Hb || apply Hb'). by case_decide.
Qed.

Lemma hoare_options n T slots s :
  hoare (At n T slots) (options_of s) (fun x c => x = o s /\ At n T slots c).
Proof. intros c Hc. split; [|done]. apply (tr_opts _ _ _ (proj1 Hc)). Qed.

Lemma hoare_exhausted n T slot slots s :
  (forall b, slot = Some b -> b.1 = s /\ b ∉ T) -> slot ∈ slots ->
  hoare (At n T slots) (exhausted slot (o s) now)
    (fun over c => over = slot_lacking slot /\
                   At n (if over then T else slot_list slot ++ T) slots c).
Proof.
  intros Hs Hin c [Ht Hok]. destruct slot as [b|]; [|done].
  destruct (Hs b eq_refl) as [<- HT].
  assert (slot_ok c (Some b)) as [Hb [st Hst]] by (by eapply list.Forall_forall in Hok).
  cbn [exhausted]. unfold mbind, RL_bind, try_consume_bucket. rewrite Hst.
  rewrite (kept_refill c b st Hb (tr_kept _ _ _ Ht b Hb HT) Hst). cbn [slot_lacking]. fold (lacking b).
  destruct (lacking b) eqn:El; cbn [negb mret RL_ret fst snd]; (split; [done|]);
    (split; [|eapply Forall_impl; [exact Hok|]; intros; by apply slot_ok_set]).
  - apply Tr_keep; auto.
  - rewrite refilled_last by done. by apply Tr_take.
Qed.

Lemma hoare_refund n T slot slots s :
  (forall b, slot = Some b -> b.1 = s /\ b ∉ T) -> slot ∈ slots ->
  hoare (At n (slot_list slot ++ T) slots) (refund slot (o s) now) (fun _ => At n T slots).
Proof.
  intros Hs Hin c [Ht Hok]. destruct slot as [b|]; [|done].
  destruct (Hs b eq_refl) as [<- HT].
  assert (slot_ok c (Some b)) as [Hb _] by (by eapply list.Forall_forall in Hok).
  destruct (tr_taken _ _ _ Ht b Hb) as [Htk _]; [apply list_elem_of_here|].
  cbn [refund]. unfold refund_bucket. rewrite Htk, taken_refill by done.
  cbn [fst snd]. change (last_refill (taken b)) with now. rewrite taken_refund by done.
  split; [apply Tr_keep; auto|]. eapply Forall_impl; [exact Hok|]. intros; by apply slot_ok_set.
Qed.

Lemma hoare_reject n T slots rejection key :
  hoare (At n T slots) (observe_reject rejection key) (fun _ => At n T slots).
Proof.
  intros c [[H1 H2 H3 H4 H5] Hok]. split.
  - split; [done|intros s; rewrite <- H2; by destruct s|done| |].
    + intros b Hb Hin. destruct (H4 b Hb Hin) as [? ?]. by destruct b as [[] ?].
    + intros b Hb Hin. specialize (H5 b Hb Hin). by destruct b as [[] ?].
  - eapply Forall_impl; [exact Hok|]. intros [[[] ?]|]; done.
Qed.

Definition global_slot : option SharedBucket :=
  if enabled (o Global) then Some (Global, EmptyString) else None.
Definition keyed_slot (s : Scope) (key : string) : option SharedBucket :=
  if enabled (o s) && negb (Str.is_empty (Str.trim key)) then Some (s, Str.trim key) else None.

Lemma hoare_global n T slots :
  hoare (At n T slots) global_bucket
    (fun x c => x = global_slot /\ At n T (global_slot :: slots) c).
Proof.
  intros c [Ht Hok]. unfold global_bucket, global_slot. cbn [fst snd].
  pose proof (tr_global _ _ _ Ht) as Hg. rewrite <- Hg.
  destruct (rl_global c) as [st|] eqn:E; cbn; (split; [done|]); (split; [done|]);
    constructor; [|done| |done]; cbn; [|done].
  unfold live, proper, bucket_at. cbn. rewrite E. split; [|done]. split; [done|]. by rewrite <- Hg.
Qed.

Lemma keyed_slot_live s key b : s <> Global -> keyed_slot s key = Some b -> live b /\ b.1 = s.
Proof.
  unfold keyed_slot. intros Hs. case_match eqn:E; [|done]. intros [= <-]. bool_hyps.
  split; [|done]. split; [|done]. split; [done|]. cbn. intros Ht. by rewrite Ht in *.
Qed.

Section clock.
Context `{Clock}.

(** A clock reading changes only the count of readings. *)
Lemma Tr_tick n T c : Tr n T c -> Tr n T (instant_now c).2.
Proof.
  intros [H1 H2 H3 H4 H5]. split.
  - cbn. lia.
  - intros s. rewrite <- H2. by destruct s.
  - done.
  - intros b Hb Hin. destruct (H4 b Hb Hin) as [? ?]. by destruct b as [[] ?].
  - intros b Hb Hin. specialize (H5 b Hb Hin). by destruct b as [[] ?].
Qed.

Lemma Tr_create n T c b t : live b -> bucket_at c b = None -> Tr n T c ->
  Tr n T (set_bucket c b (new_bucket (o b.1) t)).
Proof.
  intros Hb Hn Ht. assert (b ∉ T) as HT.
  { intros HT. destruct (tr_taken _ _ _ Ht b Hb HT). congruence. }
  destruct Ht as [H1 H2 H3 H4 H5]. split.
  - by rewrite ticks_set.
  - intros s. by rewrite opts_set.
  - by apply is_some_set.
  - intros b' Hb' Hin. rewrite bucket_at_set by (apply Hb || apply Hb').
    rewrite decide_False by (intros ->; done). auto.
  - intros b' Hb' Hin. destruct (decide (b = b')) as [<-|Hne]; [|by apply kept_set; auto].
    right. right. specialize (H5 b Hb HT). unfold kept in H5. rewrite Hn in H5. split.
    + destruct H5 as [?|[?|(_ & ? & ?)]]; congruence.
    + exists t. rewrite bucket_at_set by apply Hb. by rewrite decide_True.
Qed.

Lemma hoare_bucket n T slots s key : s <> Global ->
  hoare (At n T slots) (bucket s key)
    (fun x c => x = keyed_slot s key /\ At n T (keyed_slot s key :: slots) c).
Proof.
  intros Hs. unfold bucket. eapply hoare_bind; [apply hoare_options|]. intros x.
  apply hoare_pure. intros ->. intros c [Ht Hok].
  pose proof (keyed_slot_live s key) as Hl. unfold keyed_slot in *.
  destruct (enabled (o s)); cbn [negb andb] in *; [|split; [done|split; [done|by constructor]]].
  destruct (Str.is_empty (Str.trim key)); cbn [negb] in *; [split; [done|split; [done|by constructor]]|].
  destruct (Hl _ Hs eq_refl) as [Hb _]. set (b := (s, Str.trim key)) in *.
  destruct (bucket_at c b) as [st|] eqn:E.
  { split; [done|]. split; [done|]. constructor; [|done]. by split. }
  pose proof (Tr_tick n T c Ht) as Ht'. destruct (instant_now c) as [t c'] eqn:En.
  assert (forall b', bucket_at c' b' = bucket_at c b') as Hsame.
  { injection En as _ <-. by intros [[] ?]. }
  split; [done|]. split.
  - apply Tr_create; [done| |done]. by rewrite Hsame.
  - constructor.
    + split; [done|]. cbn [fst snd]. rewrite bucket_at_set by apply Hb. by rewrite decide_True.
    + eapply Forall_impl; [exact Hok|]. intros slot Hsl. apply slot_ok_set; [done|].
      destruct slot as [b'|]; [|done]. unfold slot_ok in *. by rewrite Hsame.
Qed.

(** ** The operations *)

Definition rejection_of (b : SharedBucket) : HttpRateLimitRejection :=
  match b.1 with
  | Global => RejectGlobal
  | ScopeListener => RejectListener
  | ScopeRoute => RejectRoute
  | ScopeBackend => RejectBackend
  end.

(** The outcome of an operation that needs the buckets [slots] in this order. *)
Definition decided (slots : list (option SharedBucket)) (n : nat)
    (r : bool + HttpRateLimitRejection) (c : HttpRateLimitController) : Prop :=
  match List.find lacking (slots ≫= slot_list) with
  | Some b => r = inr (rejection_of b) /\ Tr n [] c
  | None => r = inl (existsb is_some slots) /\ exists T, T ≡ₚ slots ≫= slot_list /\ Tr n T c
  end.

Lemma keyed_slot_scope s key b (T : list SharedBucket) :
  keyed_slot s key = Some b -> (forall b', b' ∈ T -> b'.1 <> s) -> b.1 = s /\ b ∉ T.
Proof.
  unfold keyed_slot. case_match; [|done]. intros [= <-] HT. split; [done|]. intros Hin.
  by apply (HT _ Hin).
Qed.

Lemma slot_list_scope s key b : b ∈ slot_list (keyed_slot s key) -> b.1 = s.
Proof. unfold keyed_slot. case_match; [|by intros ?%elem_of_nil]. by intros ->%list_elem_of_singleton. Qed.

Lemma global_list_scope b : b ∈ slot_list global_slot -> b.1 = Global.
Proof. unfold global_slot. case_match; [|by intros ?%elem_of_nil]. by intros ->%list_elem_of_singleton. Qed.

Lemma Tr_start : Tr (S (rl_ticks c0)) [] (instant_now c0).2.
Proof.
  destruct Hwf as [H1 H2 H3]. split; [done| |done|by intros ? ? ?%elem_of_nil|].
  - intros s. rewrite <- H1. by destruct s.
  - intros b _ _. left. by destruct b as [[] ?].
Qed.

Ltac step := eapply hoare_bind; [|intros ?].
Ltac pure_step lem := eapply hoare_bind; [apply lem|intros ?; apply hoare_pure; intros ->].

Lemma hoare_start {A} (m : Instant -> RL A) Q :
  now = instant_at (rl_ticks c0) -> hoare (At (S (rl_ticks c0)) [] []) (m now) Q ->
  let '(r, c) := (instant_now ≫= m) c0 in Q r c.
Proof.
  intros Hnow Hm. unfold mbind, RL_bind. cbn [instant_now]. rewrite <- Hnow.
  specialize (Hm (instant_now c0).2). cbn [instant_now snd] in Hm.
  destruct (m now _) as [r c]. apply Hm. split; [apply Tr_start|done].
Qed.

(** A keyed scope asked on its own. *)
Lemma hoare_keyed n s key rejection : s <> Global -> rejection = rejection_of (s, EmptyString) ->
  hoare (At n [] [])
    (b ← bucket s key;
     options ← options_of s;
     over ← exhausted b options now;
     if over : bool then _ ← observe_reject rejection (Some key); mret (inr rejection)
     else mret (inl (is_some b)))
    (decided [keyed_slot s key] n).
Proof.
  intros Hs ->. pure_step (hoare_bucket n [] [] s key Hs). pure_step hoare_options.
  eapply hoare_bind.
  { apply hoare_exhausted; [|apply list_elem_of_here]. intros b Hb.
    apply (keyed_slot_scope s key b [] Hb). by intros ? ?%elem_of_nil. }
  intros over. apply hoare_pure. intros ->. unfold decided. cbn [mbind list_bind existsb].
  rewrite !app_nil_r, orb_false_r. destruct (keyed_slot s key) as [b|] eqn:E; cbn.
  - destruct (keyed_slot_live s key b Hs E) as [_ <-]. destruct (lacking b).
    + step; [apply hoare_reject|]. intros c [Hc _]. by split.
    + intros c [Hc _]. split; [done|]. by eexists.
  - intros c [Hc _]. split; [done|]. by eexists.
Qed.

Lemma try_acquire_route_spec route : now = instant_at (rl_ticks c0) ->
  let '(r, c) := try_acquire_route route c0 in
  decided [keyed_slot ScopeRoute route] (S (rl_ticks c0)) r c.
Proof. intros Hnow. by apply hoare_start, hoare_keyed. Qed.

Lemma try_acquire_backend_spec backend : now = instant_at (rl_ticks c0) ->
  let '(r, c) := try_acquire_backend backend c0 in
  decided [keyed_slot ScopeBackend backend] (S (rl_ticks c0)) r c.
Proof. intros Hnow. by apply hoare_start, hoare_keyed. Qed.

(** The global bucket and then the bucket of a listener. *)
Definition front (t : Instant) (listener : string)
    (rest : option SharedBucket -> option SharedBucket -> ScopeOptions -> ScopeOptions ->
            RL (bool + HttpRateLimitRejection)) : RL (bool + HttpRateLimitRejection) :=
  global ← global_bucket;
  global_options ← options_of Global;
  over ← exhausted global global_options t;
  if over : bool then
    _ ← observe_reject RejectGlobal None;
    mret (inr RejectGlobal)
  else
    listener_bucket ← bucket ScopeListener listener;
    listener_options ← options_of ScopeListener;
    over ← exhausted listener_bucket listener_options t;
    if over : bool then
      _ ← refund global global_options t;
      _ ← observe_reject RejectListener (Some listener);
      mret (inr RejectListener)
    else rest global listener_bucket global_options listener_options.

Lemma find_slot slot slots :
  List.find lacking ((slot :: slots) ≫= slot_list)
  = if slot_lacking slot then slot else List.find lacking (slots ≫= slot_list).
Proof. destruct slot as [b|]; [|done]. done. Qed.

Lemma global_scope b : global_slot = Some b -> b.1 = Global.
Proof. unfold global_slot. case_match; [|done]. by intros [= <-]. Qed.

Lemma lacking_Some slot : slot_lacking slot = true -> exists b, slot = Some b.
Proof. destruct slot; [by eexists|done]. Qed.

Lemma hoare_front n listener more rest :
  let G := global_slot in
  let L := keyed_slot ScopeListener listener in
  (slot_lacking G = false -> slot_lacking L = false ->
   hoare (At n (slot_list L ++ slot_list G) [L; G]) (rest G L (o Global) (o ScopeListener))
     (decided (G :: L :: more) n)) ->
  hoare (At n [] []) (front now listener rest) (decided (G :: L :: more) n).
Proof.
  intros G L Hrest. unfold front. pure_step hoare_global. pure_step hoare_options.
  eapply hoare_bind.
  { apply hoare_exhausted; [|apply list_elem_of_here]. intros b Hb. split; [by apply global_scope|].
    by intros ?%elem_of_nil. }
  intros over. apply hoare_pure. intros ->. fold G. destruct (slot_lacking G) eqn:EG.
  { step; [apply hoare_reject|]. intros c [Hc _]. unfold decided. rewrite find_slot, EG.
    destruct (lacking_Some _ EG) as [b Hb]. rewrite Hb. split; [|done].
    unfold rejection_of. by rewrite (global_scope b Hb). }
  rewrite app_nil_r. pure_step (hoare_bucket n (slot_list G) [G] ScopeListener listener ltac:(done)).
  pure_step hoare_options. eapply hoare_bind.
  { apply hoare_exhausted; [|apply list_elem_of_here]. intros b Hb.
    apply (keyed_slot_scope _ _ _ _ Hb). by intros b' ->%global_list_scope. }
  intros over. apply hoare_pure. intros ->. fold L. destruct (slot_lacking L) eqn:EL; [|by apply Hrest].
  eapply hoare_bind.
  { rewrite <- (app_nil_r (slot_list G)). apply hoare_refund; [|by right; left].
    intros b Hb. split; [by apply global_scope|]. by intros ?%elem_of_nil. }
  intros u. cbv beta. clear u. step; [apply hoare_reject|]. intros c [Hc _]. unfold decided.
  rewrite !find_slot, EG, EL. destruct (lacking_Some _ EL) as [b Hb]. rewrite Hb. split; [|done].
  unfold rejection_of. by rewrite (proj2 (keyed_slot_live ScopeListener listener b ltac:(done) Hb)).
Qed.

Lemma decided_ok slots T n c :
  forallb (fun slot => negb (slot_lacking slot)) slots = true ->
  T ≡ₚ slots ≫= slot_list -> Tr n T c -> decided slots n (inl (existsb is_some slots)) c.
Proof.
  intros Hs HT Hc. unfold decided. assert (List.find lacking (slots ≫= slot_list) = None) as ->.
  { clear HT. induction slots as [|slot slots IH]; [done|]. rewrite find_slot.
    cbn [forallb] in Hs. bool_hyps. by rewrite H0, IH. }
  split; [done|]. by exists T.
Qed.

Lemma try_acquire_listener_spec listener : now = instant_at (rl_ticks c0) ->
  let '(r, c) := try_acquire_listener listener c0 in
  decided [global_slot; keyed_slot ScopeListener listener] (S (rl_ticks c0)) r c.
Proof.
  intros Hnow. apply (hoare_start (fun t => front t listener
    (fun global listener_bucket _ _ => mret (inl (is_some global || is_some listener_bucket))))); [done|].
  apply hoare_front. intros EG EL c [Hc _]. cbn [mret RL_ret fst snd].
  rewrite <- (orb_false_r (is_some (keyed_slot _ _))). eapply decided_ok; [|idtac|exact Hc].
  - cbn. by rewrite EG, EL.
  - cbn. rewrite app_nil_r. apply Permutation_app_comm.
Qed.

Definition back (t : Instant) (route : string) (global listener_bucket : option SharedBucket)
    (global_options listener_options : ScopeOptions) : RL (bool + HttpRateLimitRejection) :=
  route_bucket ← bucket ScopeRoute route;
  route_options ← options_of ScopeRoute;
  over ← exhausted route_bucket route_options t;
  if over : bool then
    _ ← refund listener_bucket listener_options t;
    _ ← refund global global_options t;
    _ ← observe_reject RejectRoute (Some route);
    mret (inr RejectRoute)
  else mret (inl (is_some global || is_some listener_bucket || is_some route_bucket)).

Lemma hoare_back n listener route :
  let G := global_slot in
  let L := keyed_slot ScopeListener listener in
  let R := keyed_slot ScopeRoute route in
  slot_lacking G = false -> slot_lacking L = false ->
  hoare (At n (slot_list L ++ slot_list G) [L; G]) (back now route G L (o Global) (o ScopeListener))
    (decided [G; L; R] n).
Proof.
  intros G L R EG EL. unfold back.
  pure_step (hoare_bucket n (slot_list L ++ slot_list G) [L; G] ScopeRoute route ltac:(done)).
  pure_step hoare_options. eapply hoare_bind.
  { apply hoare_exhausted; [|apply list_elem_of_here]. intros b Hb.
    apply (keyed_slot_scope _ _ _ _ Hb).
    by intros b' [->%slot_list_scope| ->%global_list_scope]%elem_of_app. }
  intros over. apply hoare_pure. intros ->. fold R. destruct (slot_lacking R) eqn:ER.
  - eapply hoare_bind.
    { apply hoare_refund; [|by right; left]. intros b Hb. apply (keyed_slot_scope _ _ _ _ Hb).
      by intros b' ->%global_list_scope. }
    intros u. cbv beta. clear u. eapply hoare_bind.
    { rewrite <- (app_nil_r (slot_list G)). apply hoare_refund; [|by do 2 right; left].
      intros b Hb. split; [by apply global_scope|]. by intros ?%elem_of_nil. }
    intros u. cbv beta. clear u. step; [apply hoare_reject|]. intros c [Hc _]. unfold decided.
    rewrite !find_slot, EG, EL, ER. destruct (lacking_Some _ ER) as [b Hb]. rewrite Hb. split; [|done].
    unfold rejection_of. by rewrite (proj2 (keyed_slot_live ScopeRoute route b ltac:(done) Hb)).
  - intros c [Hc _]. cbn [mret RL_ret fst snd].
    assert (is_some G || is_some L || is_some R = existsb is_some [G; L; R]) as ->.
    { cbn. by rewrite orb_false_r, orb_assoc. }
    eapply decided_ok; [|idtac|exact Hc]; cbn; [by rewrite EG, EL, ER|].
    rewrite app_nil_r. solve_Permutation.
Qed.

Lemma try_acquire_spec listener route : now = instant_at (rl_ticks c0) ->
  let '(r, c) := try_acquire listener route c0 in
  decided [global_slot; keyed_slot ScopeListener listener; keyed_slot ScopeRoute route]
    (S (rl_ticks c0)) r c.
Proof.
  intros Hnow. apply (hoare_start (fun t => front t listener (back t route))); [done|].
  apply hoare_front, hoare_back.
Qed.

Lemma snapshot_spec : now = instant_at (rl_ticks c0) -> Tr (S (rl_ticks c0)) [] (snapshot c0).2.
Proof.
  intros Hnow. destruct Hwf as [H1 H2 H3]. unfold snapshot. cbn.
  split; [done| | |by intros ? ? ?%elem_of_nil|].
  - intros s. rewrite <- H1. by destruct s.
  - cbn. rewrite <- H2. by destruct (rl_global c0).
  - intros b Hb _. unfold kept, refilled. rewrite <- H1, Hnow. unfold opts.
    destruct b as [[] k]; unfold bucket_at; cbn; rewrite ?lookup_fmap;
      case_match eqn:E; cbn; auto.
Qed.

Lemma observe_allow_spec : Tr (rl_ticks c0) [] (observe_allow c0).2.
Proof.
  destruct Hwf as [H1 H2 H3].
  assert (Tr (rl_ticks c0) [] c0) as Hc.
  { split; [done|done|done|by intros ? ? ?%elem_of_nil|]. intros b _ _. by left. }
  unfold observe_allow. case_match; [done|]. destruct Hc as [K1 K2 K3 K4 K5].
  split; [done|intros s; rewrite <- K2; by destruct s|done|by intros ? ? ?%elem_of_nil|].
  intros b Hb HT. specialize (K5 b Hb HT). by destruct b as [[] ?].
Qed.

(** ** Any operation *)

Definition demand (op : op) : list (option SharedBucket) :=
  match op with
  | OpListener listener => [global_slot; keyed_slot ScopeListener listener]
  | OpRoute route => [keyed_slot ScopeRoute route]
  | OpBackend backend => [keyed_slot ScopeBackend backend]
  | OpBoth listener route =>
    [global_slot; keyed_slot ScopeListener listener; keyed_slot ScopeRoute route]
  | OpAllow | OpSnapshot => []
  end.

Lemma global_slot_charged : slot_list global_slot = filter live [(Global, EmptyString)].
Proof.
  unfold global_slot. cbn. destruct (enabled (o Global)) eqn:E.
  - by rewrite decide_True by done.
  - rewrite decide_False; [done|]. intros [_ He]. cbn in He. congruence.
Qed.

Lemma keyed_slot_charged s key : s <> Global ->
  slot_list (keyed_slot s key) = filter live [(s, Str.trim key)].
Proof.
  intros Hs. unfold keyed_slot. cbn. case_match eqn:E; cbn.
  - rewrite decide_True; [done|]. bool_hyps. split; [|done]. split; [done|]. cbn. intros Ht.
    by rewrite Ht in *.
  - rewrite decide_False; [done|]. intros [Hp He]. cbn in He. rewrite He in E. cbn in E.
    apply negb_false_iff, Str.is_empty_true in E. by apply Hs, Hp.
Qed.

Lemma demand_charged op : demand op ≫= slot_list = filter live (charged op).
Proof.
  destruct op; cbn [demand charged mbind list_bind]; rewrite ?app_nil_r; try done;
    rewrite ?global_slot_charged, ?keyed_slot_charged by done; try done.
  - by rewrite <- filter_app.
  - by rewrite <- !filter_app.
Qed.

Lemma perform_spec op : now = instant_at (rl_ticks c0) ->
  let '(r, c) := perform op c0 in
  match r with
  | Some r => decided (demand op) (S (rl_ticks c0)) r c
  | None => charged op = [] /\ Tr (rl_ticks c0) [] c
  end.
Proof.
  intros Hnow. destruct op as [l|r|b|l r| |]; unfold perform, mbind, RL_bind; cbn [demand charged].
  - pose proof (try_acquire_listener_spec l Hnow) as Hs. by destruct (try_acquire_listener l c0).
  - pose proof (try_acquire_route_spec r Hnow) as Hs. by destruct (try_acquire_route r c0).
  - pose proof (try_acquire_backend_spec b Hnow) as Hs. by destruct (try_acquire_backend b c0).
  - pose proof (try_acquire_spec l r Hnow) as Hs. by destruct (try_acquire l r c0).
  - pose proof observe_allow_spec as Hs. by destruct (observe_allow c0).
  - pose proof (snapshot_spec Hnow) as [? ? ? ? ?].
    destruct (snapshot c0) as [x c]. cbn in *. split; [done|]. split; [lia|done..].
Qed.

Lemma Tr_wf n T c : Tr n T c -> wf c.
Proof.
  intros [H1 H2 H3 H4 H5]. split; [done..|]. intros b st Hb Hst.
  pose proof (refilled_tokens b Hb) as Ht. destruct (decide (b ∈ T)) as [HT|HT].
  - destruct (H4 b Hb HT) as [Hk Hl]. rewrite Hst in Hk. injection Hk as ->.
    unfold lacking in Hl. apply Z.ltb_ge in Hl. unfold tokens_ok, taken, RATE_LIMIT_TOKEN_SCALE in *.
    cbn. lia.
  - destruct (H5 b Hb HT) as [Hk|[Hk|[_ [t Hk]]]]; rewrite Hst in Hk.
    + by eapply wf_tokens.
    + by injection Hk as ->.
    + injection Hk as ->. pose proof (capacity_range _ (Ho b.1) (proj2 Hb)). unfold tokens_ok. cbn. lia.
Qed.

Lemma decided_Tr slots n r c : decided slots n r c -> exists T, Tr n T c.
Proof. unfold decided. case_match; intros [_ Hd]; [by eexists|]. destruct Hd as [T [_ HT]]. by exists T. Qed.
End clock.
End operation.

(** ** A controller in use *)

Definition scope_options (options : HttpRateLimitOptions) (s : Scope) : ScopeOptions :=
  match s with
  | Global => mkScopeOptions (ro_global_requests_per_second options) (ro_global_burst options)
  | ScopeListener =>
    mkScopeOptions (ro_listener_requests_per_second options) (ro_listener_burst options)
  | ScopeRoute => mkScopeOptions (ro_route_requests_per_second options) (ro_route_burst options)
  | ScopeBackend =>
    mkScopeOptions (ro_backend_requests_per_second options) (ro_backend_burst options)
  end.

(** The options are [u32]s. *)
Definition u32_options (options : HttpRateLimitOptions) : Prop :=
  forall s, options_ok (scope_options options s).

Definition monotonic `{Clock} : Prop :=
  forall m n : nat, (m <= n)%nat -> instant_at m <= instant_at n.

Section use.
Context `{Clock} (options : HttpRateLimitOptions) (Hu : u32_options options).
Notation o := (scope_options options).

Lemma new_wf ticks : wf o (HttpRateLimitController_new options ticks).
Proof.
  split.
  - by intros [].
  - unfold HttpRateLimitController_new. cbn. by case_match.
  - intros [s k] st [_ He] Hst. cbn in He. destruct s; try done. cbn in Hst. case_match; [|done].
    injection Hst as <-. pose proof (capacity_range _ (Hu Global) He). unfold tokens_ok. cbn in *. lia.
Qed.

Lemma perform_wf op c : wf o c -> wf o (perform op c).2.
Proof.
  intros Hc. pose proof (perform_spec o Hu c Hc _ op eq_refl) as Hs.
  destruct (perform op c) as [[r|] c']; cbn in *.
  - destruct (decided_Tr _ _ _ _ _ _ _ Hs) as [T HT]. by eapply Tr_wf.
  - by eapply Tr_wf; [..|apply Hs].
Qed.

Lemma run_cons op ops c :
  run (op :: ops) c
  = let '(r, c) := perform op c in let '(log, c) := run ops c in ((op, r) :: log, c).
Proof. done. Qed.

Lemma run_wf ops c : wf o c -> wf o (run ops c).2.
Proof.
  revert c. induction ops as [|op ops IH]; intros c Hc; [done|]. rewrite run_cons.
  pose proof (perform_wf op c Hc) as Hp. destruct (perform op c) as [r c']. cbn in Hp.
  specialize (IH c' Hp). by destruct (run ops c').
Qed.

(** ** Admitted requests in a window *)

Definition counted (t0 : Instant) (g : SharedBucket -> Z) (c : HttpRateLimitController) : Prop :=
  forall b, live o b ->
    0 <= g b /\
    match bucket_at c b with
    | Some st => good (o b.1) t0 (instant_at (rl_ticks c)) (g b) st
    | None => g b = 0
    end.

Lemma refilled_good t0 g c b :
  wf o c -> counted t0 g c -> live o b -> t0 <= instant_at (rl_ticks c) ->
  let st := refilled o c (instant_at (rl_ticks c)) b in
  good (o b.1) t0 (instant_at (rl_ticks c)) (g b) st /\
  1000000000 * g b + 1000000 * available_milli_tokens st
  <= 1000000 * capacity (o b.1)
     + so_requests_per_second (o b.1) * (instant_at (rl_ticks c) - t0).
Proof.
  intros Hw Hc Hb Ht st. destruct (Hc b Hb) as [H0 Hm]. destruct Hb as [Hp He].
  subst st. unfold refilled.
  destruct (bucket_at c b) as [st|]; [by apply (refill_good (o b.1) (Hu _) He)|].
  pose proof (capacity_range _ (Hu b.1) He). destruct (Hu b.1) as [[Hr _] _]. rewrite Hm. split.
  - apply good_fresh. unfold tokens_ok. cbn. lia.
  - cbn [available_milli_tokens]. nia.
Qed.

Lemma counted_step t0 g c c' n T :
  monotonic -> wf o c -> counted t0 g c -> t0 <= instant_at (rl_ticks c) ->
  Tr o c (instant_at (rl_ticks c)) n T c' -> (rl_ticks c <= n)%nat ->
  counted t0 (fun b => (if bool_decide (b ∈ T) then 1 else 0) + g b) c'.
Proof.
  intros Hm Hw Hc Ht [K1 K2 K3 K4 K5] Hn b Hb.
  destruct (refilled_good t0 g c b Hw Hc Hb Ht) as [Hg Hi].
  assert (instant_at (rl_ticks c) <= instant_at (rl_ticks c')) as Hle by (apply Hm; lia).
  destruct (Hc b Hb) as [H0 Hb0]. case_bool_decide as HT.
  - destruct (K4 b Hb HT) as [-> Hl]. split; [lia|]. unfold lacking in Hl. apply Z.ltb_ge in Hl.
    unfold good, taken, tokens_ok, RATE_LIMIT_TOKEN_SCALE in *. cbn. split; [lia|]. right.
    split; [lia|]. lia.
  - split; [lia|]. rewrite Z.add_0_l. destruct (K5 b Hb HT) as [->|[->|[Hn0 [t ->]]]].
    + case_match; [|done]. by eapply good_mono.
    + by eapply good_mono.
    + rewrite Hn0 in Hb0. rewrite Hb0. apply good_fresh.
      pose proof (capacity_range _ (Hu b.1) (proj2 Hb)). unfold tokens_ok. cbn. lia.
Qed.

Lemma counted_ext t0 g g' c : (forall b, live o b -> g b = g' b) -> counted t0 g c -> counted t0 g' c.
Proof. intros He Hc b Hb. rewrite <- He by done. by apply Hc. Qed.

Lemma perform_counted t0 g op c :
  monotonic -> wf o c -> counted t0 g c -> t0 <= instant_at (rl_ticks c) ->
  let '(r, c') := perform op c in
  counted t0 (fun b => admits b (op, r) + g b) c' /\ (rl_ticks c <= rl_ticks c')%nat.
Proof.
  intros Hm Hw Hc Ht. pose proof (perform_spec o Hu c Hw _ op eq_refl) as Hs.
  destruct (perform op c) as [[r|] c'].
  - unfold decided in Hs. rewrite demand_charged in Hs.
    case_match eqn:E; destruct Hs as [-> Hs].
    + pose proof (counted_step _ _ _ _ _ _ Hm Hw Hc Ht Hs ltac:(lia)) as H'.
      split; [|destruct Hs; lia]. eapply counted_ext; [|exact H']. intros b _. cbn.
      by rewrite bool_decide_false by apply not_elem_of_nil.
    + destruct Hs as [T [HT Hs]].
      pose proof (counted_step _ _ _ _ _ _ Hm Hw Hc Ht Hs ltac:(lia)) as H'.
      split; [|destruct Hs; lia]. eapply counted_ext; [|exact H']. intros b Hb. cbn. f_equal.
      rewrite (bool_decide_ext (b ∈ T) (b ∈ charged op)); [done|].
      rewrite HT, list_elem_of_filter. naive_solver.
  - destruct Hs as [Hch Hs]. pose proof (counted_step _ _ _ _ _ _ Hm Hw Hc Ht Hs ltac:(lia)) as H'.
    split; [|by destruct Hs]. eapply counted_ext; [|exact H']. intros b _. cbn.
    by rewrite bool_decide_false by apply not_elem_of_nil.
Qed.

Lemma run_counted t0 ops : forall g c,
  monotonic -> wf o c -> counted t0 g c -> t0 <= instant_at (rl_ticks c) ->
  let '(log, c') := run ops c in
  counted t0 (fun b => admitted b log + g b) c' /\ (rl_ticks c <= rl_ticks c')%nat.
Proof.
  induction ops as [|op ops IH]; intros g c Hm Hw Hc Ht; [by split|]. rewrite run_cons.
  pose proof (perform_counted t0 g op c Hm Hw Hc Ht) as Hp. pose proof (perform_wf op c Hw) as Hw'.
  destruct (perform op c) as [r c1]. destruct Hp as [Hc1 Hn1].
  assert (t0 <= instant_at (rl_ticks c1)) as Ht1. { etrans; [exact Ht|]. by apply Hm. }
  specialize (IH _ c1 Hm Hw' Hc1 Ht1). destruct (run ops c1) as [log c2]. destruct IH as [Hc2 Hn2].
  split; [|lia]. eapply counted_ext; [|exact Hc2]. intros b _. cbn. lia.
Qed.

Lemma counted_zero t0 c : wf o c -> counted t0 (fun _ => 0) c.
Proof.
  intros Hw b Hb. split; [done|]. case_match eqn:E; [|done]. apply good_fresh. by eapply wf_tokens.
Qed.

(** ** Requests less than a millisecond apart *)

Section frequent.
Context (route : string).
Notation b := ((ScopeRoute, Str.trim route) : SharedBucket).
Context (Hb : live o b).

(** The route's bucket holds [k] tokens and was refilled less than a millisecond
    before the next reading. *)
Definition holds (k : nat) (c : HttpRateLimitController) : Prop :=
  opts c ScopeRoute = o ScopeRoute /\
  exists t, bucket_at c b = Some (mkRateLimitBucket (1000 * Z.of_nat k) t) /\
    0 <= instant_at (rl_ticks c) - t < 1000000.

Lemma refill_short st (now : Instant) :
  now - last_refill st < 1000000 ->
  refill_bucket st (o ScopeRoute) now = mkRateLimitBucket (available_milli_tokens st) now.
Proof.
  intros Hn. destruct Hb as [_ He]. cbn [fst] in He. unfold refill_bucket, refill, as_millis. rewrite He.
  cbn [negb]. unfold saturating_duration_since.
  rewrite (Z.div_small (Z.max 0 (now - last_refill st))) by lia. done.
Qed.

Lemma route_named : Str.is_empty (Str.trim route) = false.
Proof.
  destruct Hb as [Hp _]. destruct (Str.is_empty (Str.trim route)) eqn:E; [|done].
  apply Str.is_empty_true in E. exfalso. assert (ScopeRoute = Global) by (by apply Hp). done.
Qed.

(** A request to a bucket that exists. *)
Lemma route_present c st :
  opts c ScopeRoute = o ScopeRoute -> bucket_at c b = Some st ->
  0 <= instant_at (rl_ticks c) - last_refill st < 1000000 ->
  let now := instant_at (rl_ticks c) in
  exists c', opts c' ScopeRoute = o ScopeRoute /\ rl_ticks c' = S (rl_ticks c) /\
    if available_milli_tokens st <? RATE_LIMIT_TOKEN_SCALE
    then try_acquire_route route c = (inr RejectRoute, c') /\
         bucket_at c' b = Some (mkRateLimitBucket (available_milli_tokens st) now)
    else try_acquire_route route c = (inl true, c') /\
         bucket_at c' b
         = Some (mkRateLimitBucket (available_milli_tokens st - RATE_LIMIT_TOKEN_SCALE) now).
Proof.
  intros Ho Hst Hgap now. destruct Hb as [_ He]. cbn [fst] in He. pose proof route_named as Hk.
  set (c1 := (instant_now c).2).
  assert (bucket ScopeRoute route c1 = (Some b, c1)) as E1.
  { unfold bucket, mbind, RL_bind, options_of. change (ks_options (keyed c1 ScopeRoute)) with (opts c ScopeRoute).
    rewrite Ho, He, Hk. cbn [negb]. change (bucket_at c1 b) with (bucket_at c b). by rewrite Hst. }
  assert (options_of ScopeRoute c1 = (o ScopeRoute, c1)) as E2 by (by rewrite <- Ho).
  assert (try_consume_bucket b (o ScopeRoute) now c1
    = if available_milli_tokens st <? RATE_LIMIT_TOKEN_SCALE
      then (false, set_bucket c1 b (mkRateLimitBucket (available_milli_tokens st) now))
      else (true, set_bucket c1 b
              (mkRateLimitBucket (available_milli_tokens st - RATE_LIMIT_TOKEN_SCALE) now))) as E3.
  { unfold try_consume_bucket. change (bucket_at c1 b) with (bucket_at c b).
    by rewrite Hst, refill_short by lia. }
  unfold try_acquire_route, mbind, RL_bind. change (instant_now c) with (now, c1).
  cbv beta iota. rewrite E1, E2. unfold exhausted, mbind, RL_bind. rewrite E3.
  destruct (_ <? _); cbn; eexists; (split; [|split; [|split; [reflexivity|]]]);
    [exact Ho|done| |exact Ho|done|]; unfold bucket_at; scopes; by rewrite lookup_insert_eq.
Qed.

(** The first request of a route. *)
Lemma route_absent c :
  opts c ScopeRoute = o ScopeRoute -> bucket_at c b = None ->
  instant_at (rl_ticks c) <= instant_at (S (rl_ticks c)) ->
  let now := instant_at (rl_ticks c) in
  exists c', opts c' ScopeRoute = o ScopeRoute /\ rl_ticks c' = S (S (rl_ticks c)) /\
    try_acquire_route route c = (inl true, c') /\
    bucket_at c' b
    = Some (mkRateLimitBucket (capacity (o ScopeRoute) - RATE_LIMIT_TOKEN_SCALE) now).
Proof.
  intros Ho Hst Hle now. destruct Hb as [_ He]. cbn [fst] in He. pose proof route_named as Hk.
  set (c1 := (instant_now c).2). set (t := instant_at (S (rl_ticks c))).
  set (c2 := set_bucket (instant_now c1).2 b (new_bucket (o ScopeRoute) t)).
  assert (bucket ScopeRoute route c1 = (Some b, c2)) as E1.
  { unfold bucket, mbind, RL_bind, options_of. change (ks_options (keyed c1 ScopeRoute)) with (opts c ScopeRoute).
    rewrite Ho, He, Hk. cbn [negb]. change (bucket_at c1 b) with (bucket_at c b). by rewrite Hst. }
  assert (options_of ScopeRoute c2 = (o ScopeRoute, c2)) as E2 by (by rewrite <- Ho).
  assert (bucket_at c2 b = Some (new_bucket (o ScopeRoute) t)) as Hst2.
  { unfold c2. rewrite bucket_at_set by apply Hb. by rewrite decide_True. }
  assert (try_consume_bucket b (o ScopeRoute) now c2
    = (true, set_bucket c2 b
              (mkRateLimitBucket (capacity (o ScopeRoute) - RATE_LIMIT_TOKEN_SCALE) now))) as E3.
  { unfold try_consume_bucket. rewrite Hst2, refill_short by (cbn; unfold t, now; lia). cbn [new_bucket available_milli_tokens].
    pose proof (capacity_range _ (Hu ScopeRoute) He). unfold RATE_LIMIT_TOKEN_SCALE.
    by rewrite (proj2 (Z.ltb_ge _ _)) by lia. }
  unfold try_acquire_route, mbind, RL_bind. change (instant_now c) with (now, c1).
  cbv beta iota. rewrite E1, E2. unfold exhausted, mbind, RL_bind. rewrite E3. cbn [negb mret RL_ret].
  eexists. split; [|split; [|split; [reflexivity|]]]; [exact Ho|done|].
  rewrite bucket_at_set by apply Hb. by rewrite decide_True.
Qed.

Lemma run_replicate_S n op c :
  run (replicate (S n) op) c
  = let '(r, c) := perform op c in let '(log, c) := run (replicate n op) c in ((op, r) :: log, c).
Proof. done. Qed.

Definition outcomes (k n : nat) : list result :=
  replicate (Nat.min n k) (Some (inl true)) ++ replicate (n - k) (Some (inr RejectRoute)).

Lemma outcomes_S k n :
  outcomes k (S n)
  = match k with
    | O => Some (inr RejectRoute) :: outcomes O n
    | S k => Some (inl true) :: outcomes k n
    end.
Proof. unfold outcomes. destruct k; cbn; [|done]. by rewrite Nat.min_0_r, Nat.sub_0_r. Qed.

Lemma frequent_run n : forall k c,
  (forall m, 0 <= instant_at (S m) - instant_at m < 500000) -> holds k c ->
  (run (replicate n (OpRoute route)) c).1.*2 = outcomes k n.
Proof.
  induction n as [|n IH]; intros k c Hgap (Ho & t & Hst & Hn); [done|].
  rewrite run_replicate_S, outcomes_S.
  destruct (route_present c _ Ho Hst Hn) as (c' & Ho' & Ht' & Hr). unfold perform, mbind, RL_bind.
  assert (0 <= instant_at (rl_ticks c') - instant_at (rl_ticks c) < 1000000) as Hn'.
  { rewrite Ht'. specialize (Hgap (rl_ticks c)). lia. }
  cbn [available_milli_tokens] in Hr. unfold RATE_LIMIT_TOKEN_SCALE in Hr. destruct k as [|k].
  - destruct Hr as [-> Hb']. cbn [mret RL_ret]. specialize (IH O c' Hgap). cbv beta iota.
    destruct (run _ c') as [log c'']. cbn. f_equal. apply IH. split; [done|]. by eexists.
  - rewrite (proj2 (Z.ltb_ge _ _)) in Hr by lia. destruct Hr as [-> Hb']. cbn [mret RL_ret].
    specialize (IH k c' Hgap). cbv beta iota.
    destruct (run _ c') as [log c'']. cbn. f_equal. apply IH. split; [done|]. eexists.
    split; [|exact Hn']. rewrite Hb'. repeat f_equal. lia.
Qed.

Lemma frequent_new n ticks :
  (forall m, 0 <= instant_at (S m) - instant_at m < 500000) ->
  (run (replicate n (OpRoute route)) (HttpRateLimitController_new options ticks)).1.*2
  = outcomes (Z.to_nat (burst (o ScopeRoute))) n.
Proof.
  intros Hgap. destruct n as [|n]; [done|]. set (c := HttpRateLimitController_new options ticks).
  pose proof (Hgap (rl_ticks c)) as Hg1. pose proof (Hgap (S (rl_ticks c))) as Hg2.
  destruct (route_absent c) as (c' & Ho' & Ht' & Hr & Hst'); [done|done|lia|].
  pose proof (capacity_range _ (Hu ScopeRoute) (proj2 Hb)) as Hcap.
  assert (capacity (o ScopeRoute) = burst (o ScopeRoute) * 1000) as Hc.
  { unfold capacity. by rewrite (proj2 Hb : enabled (o ScopeRoute) = true). }
  rewrite run_replicate_S, outcomes_S. unfold perform, mbind, RL_bind. rewrite Hr. cbn [mret RL_ret].
  destruct (Z.to_nat (burst (o ScopeRoute))) as [|k] eqn:Ek; [lia|].
  pose proof (frequent_run n k c' Hgap) as Hrun. cbv beta iota.
  destruct (run (replicate n _) c') as [log c'']. cbn. f_equal. apply Hrun. split; [done|]. eexists.
  split; [|rewrite Ht'; instantiate (1 := instant_at (rl_ticks c)); lia].
  rewrite Hst'. unfold RATE_LIMIT_TOKEN_SCALE. repeat f_equal. lia.
Qed.
End frequent.
End use.

(** ** Theorems *)

(** C24: the decision of a rate-limited request.  In any state that a controller
    reaches, a request is admitted exactly when every bucket it is charged to
    (of the enabled scopes with a name) has a token left after refilling, and
    then exactly these buckets lose one token; otherwise it is rejected in the
    name of the first bucket without a token, and no bucket loses a token: those
    asked before are refunded in full. *)
Theorem rate_limit_decision `{Clock} options ticks before op :
  u32_options options -> charged op <> [] ->
  let o := scope_options options in
  let c := (run before (HttpRateLimitController_new options ticks)).2 in
  let now := instant_at (rl_ticks c) in
  let '(r, c') := perform op c in
  let buckets := filter (live o) (charged op) in
  match List.find (lacking o c now) buckets with
  | Some b => r = Some (inr (rejection_of b)) /\ forall b', live o b' -> kept o c now c' b'
  | None =>
    (exists counted, r = Some (inl counted)) /\
    forall b', live o b' ->
      if bool_decide (b' ∈ buckets) then bucket_at c' b' = Some (taken o c now b')
      else kept o c now c' b'
  end.
Proof.
  intros Hu Hch o c now. pose proof (run_wf options Hu before _ (new_wf options Hu ticks)) as Hw.
  fold c in Hw. pose proof (perform_spec o Hu c Hw now op eq_refl) as Hs.
  destruct (perform op c) as [[r|] c']; [|by destruct Hs]. cbv zeta.
  unfold decided in Hs. rewrite demand_charged in Hs. case_match; destruct Hs as [-> Hs].
  - split; [done|]. intros b' Hb'. apply (tr_kept _ _ _ _ _ _ Hs b' Hb'). apply not_elem_of_nil.
  - destruct Hs as [T [HT Hs]]. split; [by eexists|]. intros b' Hb'. case_bool_decide as Hin.
    + apply (tr_taken _ _ _ _ _ _ Hs b' Hb'). by rewrite HT.
    + apply (tr_kept _ _ _ _ _ _ Hs b' Hb'). by rewrite HT.
Qed.

Definition witness_limits : HttpRateLimitOptions := mkHttpRateLimitOptions 0 0 5 2 3 1 0 0.
Definition witness_time : Clock := fun n => 100000000 * Z.of_nat n.

Lemma witness_limits_ok : u32_options witness_limits.
Proof. intros []; unfold options_ok, U.u32_modulus; cbn; lia. Qed.

Section witness.
#[local] Existing Instance witness_time.

Lemma rate_limit_decision_witness :
  let c := (run [OpBoth "a" "r"] (HttpRateLimitController_new witness_limits 0)).2 in
  (perform (OpBoth "a" "r") c).1 = Some (inr RejectRoute) /\
  kept (scope_options witness_limits) c (instant_at (rl_ticks c)) (perform (OpBoth "a" "r") c).2
    (ScopeListener, "a"%string).
Proof.
  intros c.
  pose proof (@rate_limit_decision witness_time witness_limits 0%nat [OpBoth "a" "r"] (OpBoth "a" "r")
    witness_limits_ok ltac:(done)) as Hd. cbv zeta in Hd. fold c in Hd.
  destruct (perform (OpBoth "a" "r") c) as [r c'].
  assert (List.find (lacking (scope_options witness_limits) c (instant_at (rl_ticks c)))
    (filter (live (scope_options witness_limits)) (charged (OpBoth "a" "r")))
    = Some (ScopeRoute, "r"%string)) as E by (vm_compute; reflexivity).
  rewrite E in Hd. destruct Hd as [-> Hk]. split; [reflexivity|]. apply Hk. clear. split; [vm_compute; done|vm_compute; reflexivity].
Defined.
End witness.

(** C25: the rate limit holds in every window of time.  Whatever happened before,
    the requests admitted against an enabled bucket between two points of a run
    are at most its burst plus its rate times the time between them, on a
    monotonic clock. *)
Theorem rate_limit_bound `{Clock} options ticks before window b :
  u32_options options -> monotonic -> live (scope_options options) b ->
  let o := scope_options options b.1 in
  let c := (run before (HttpRateLimitController_new options ticks)).2 in
  let '(log, c') := run window c in
  1000000000 * admitted b log
  <= 1000000000 * burst o
     + so_requests_per_second o * (instant_at (rl_ticks c') - instant_at (rl_ticks c)).
Proof.
  intros Hu Hm Hb o c. pose proof (run_wf options Hu before _ (new_wf options Hu ticks)) as Hw.
  fold c in Hw.
  pose proof (run_counted options Hu (instant_at (rl_ticks c)) window (fun _ => 0) c Hm Hw
    (counted_zero options _ c Hw) (Z.le_refl _)) as Hr.
  destruct (run window c) as [log c']. destruct Hr as [Hr Hn]. destruct (Hr b Hb) as [H0 Hg].
  assert (capacity o = burst o * 1000) as Hcap.
  { unfold capacity. by rewrite (proj2 Hb : enabled o = true). }
  pose proof (capacity_range o (Hu b.1) (proj2 Hb)). destruct (Hu b.1) as [[Hr0 _] _]. fold o in Hr0.
  specialize (Hm _ _ Hn). cbv beta in H0, Hg. rewrite Z.add_0_r in H0, Hg.
  assert (0 <= so_requests_per_second o * (instant_at (rl_ticks c') - instant_at (rl_ticks c))) by nia.
  destruct (bucket_at c' b) as [st|]; [|lia]. destruct Hg as [Ht [Hg|[Hl Hg]]]; [lia|].
  unfold tokens_ok in Ht. fold o in Ht, Hg. nia.
Qed.

Lemma rate_limit_bound_witness :
  let H := witness_time in
  1000000000 * admitted (ScopeRoute, "r"%string)
    (run (replicate 20 (OpBoth "a" "r")) (HttpRateLimitController_new witness_limits 0)).1
  <= 1000000000 * 1 + 3 * 2200000000.
Proof.
  intros H.
  pose proof (@rate_limit_bound witness_time witness_limits 0%nat [] (replicate 20 (OpBoth "a" "r"))
    (ScopeRoute, "r"%string) witness_limits_ok ltac:(intros m n Hmn; unfold instant_at, witness_time; lia)
    ltac:(split; done)) as Hb.
  vm_compute in Hb. vm_compute. exact Hb.
Defined.

(** a limited route that is asked more often than every half millisecond is
    never refilled: a new controller admits as many requests as the burst, and
    none after them, however high the rate of the route is and however long the
    requests go on.  Each request rounds the time since the previous one down to
    zero milliseconds and then moves the time of the last refill. *)
Theorem rate_limit_starves `{Clock} options ticks route n :
  u32_options options -> live (scope_options options) (ScopeRoute, Str.trim route) ->
  (forall m, 0 <= instant_at (S m) - instant_at m < 500000) ->
  let burst := Z.to_nat (burst (scope_options options ScopeRoute)) in
  (run (replicate n (OpRoute route)) (HttpRateLimitController_new options ticks)).1.*2
  = replicate (Nat.min n burst) (Some (inl true)) ++ replicate (n - burst) (Some (inr RejectRoute)).
Proof. intros Hu Hb Hgap. by apply frequent_new. Qed.

Definition fast_limits : HttpRateLimitOptions := mkHttpRateLimitOptions 0 0 0 0 1000 2 0 0.
Definition fast_time : Clock := fun n => 400000 * Z.of_nat n.

Lemma rate_limit_starves_witness :
  let H := fast_time in
  (run (replicate 7 (OpRoute "r")) (HttpRateLimitController_new fast_limits 0)).1.*2
  = [Some (inl true); Some (inl true)] ++ replicate 5 (Some (inr RejectRoute)).
Proof.
  intros H. apply (@rate_limit_starves fast_time fast_limits 0%nat "r" 7).
  - intros []; unfold options_ok, U.u32_modulus; cbn; lia.
  - split; done.
  - intros m. unfold instant_at, fast_time. lia.
Defined.
End RateLimitFacts.
