(* ===== verification/Records.v ===== *)
(** * Assignments to fields

    [ctx.field = value] on a record with many fields.  A record declares how it
    is rebuilt from its fields ([Rebuild]); [r <| field := value |>] is the same
    record with one field replaced. *)

From stdpp Require Import base tactics.

Class Rebuild (R : Type) := {
  rebuild : R -> R;
  rebuild_id r : rebuild r = r;
}.

Class Assign {R T : Type} (field : R -> T) := assign : T -> R -> R.
Arguments assign {R T} field {_} value r : assert.

Ltac derive_assign :=
  lazymatch goal with
  | |- @Assign ?R ?T ?field =>
    let i := constr:(_ : Rebuild R) in
    let value := fresh "value" in
    let r := fresh "r" in
    unfold Assign; intros value r;
    let t := eval hnf in (@rebuild R i r) in
    lazymatch t with
    | context C [field r] => let u := context C [value] in exact u
    end
  end.

#[export] Hint Extern 0 (Assign _) => derive_assign : typeclass_instances.

Declare Scope record_scope.
Delimit Scope record_scope with record.
Notation "r <| field := value |>" := (assign field value r)
  (at level 12, left associativity, field at level 10, value at level 200,
   format "r  <| field  :=  value |>") : record_scope.
