(* ===== verification/IpAddr.v ===== *)
(** * Internet addresses

    The part of [core::net] that the data plane uses: [IpAddr] and [SocketAddr],
    their [Display] and [<IpAddr as FromStr>::from_str].  The parser keeps the
    rest of the text as its state and gives it back when it reads nothing, as
    [Parser::read_atomically] does. *)

From Stdlib Require Import ZArith Lia Ascii.
From stdpp Require Import base gmap strings numbers list.
From S2P Require Import Prelude Strs IrTypes RouteIndex Decimal.

Local Open Scope string_scope.
Local Open Scope list_scope.
Local Open Scope Z_scope.

Module IpAddr.

(** The octets of an IPv4 address and the segments of an IPv6 address, in
    network order. *)
Inductive IpAddr := V4 (octets : list Z) | V6 (segments : list Z).
#[global] Instance IpAddr_eq_dec : EqDecision IpAddr.
Proof. solve_decision. Defined.

Inductive SocketAddr := SocketAddrV4 (octets : list Z) (port : Z)
                      | SocketAddrV6 (segments : list Z) (scope_id port : Z).

Definition is_octets (o : list Z) : Prop := length o = 4%nat /\ Forall (fun x => 0 <= x < 256) o.
Definition is_segments (s : list Z) : Prop :=
  length s = 8%nat /\ Forall (fun x => 0 <= x < 65536) s.

(** ** Display *)

Definition hex_char (d : Z) : ascii :=
  if d <? 10 then ascii_of_nat (48 + Z.to_nat d) else ascii_of_nat (87 + Z.to_nat d).

(** [{:x}] of a [u16] *)
Fixpoint hex_digits (fuel : nat) (n : Z) (acc : string) : string :=
  match fuel with
  | 0%nat => acc
  | S fuel =>
    let acc := String (hex_char (n mod 16)) acc in
    if bool_decide (n / 16 = 0) then acc else hex_digits fuel (n / 16) acc
  end.
Definition to_hex (n : Z) : string := hex_digits 4 n EmptyString.

Definition Ipv4Addr_fmt (octets : list Z) : string := Str.join "." (Str.to_string <$> octets).

(** The first of the longest runs of zero segments: its start and its length. *)
Fixpoint zero_run (segments : list Z) (i : nat) (current longest : nat * nat) : nat * nat :=
  match segments with
  | [] => longest
  | segment :: segments =>
    if bool_decide (segment = 0) then
      let current :=
        (if bool_decide (current.2 = 0%nat) then i else current.1, S current.2) in
      zero_run segments (S i) current
        (if bool_decide (longest.2 < current.2)%nat then current else longest)
    else zero_run segments (S i) (0%nat, 0%nat) longest
  end.

Definition to_ipv4_mapped (segments : list Z) : option (list Z) :=
  match segments with
  | [0; 0; 0; 0; 0; mark; a; b] =>
    if bool_decide (mark = 65535) then Some [a / 256; a mod 256; b / 256; b mod 256] else None
  | _ => None
  end.

Definition fmt_subslice (segments : list Z) : string := Str.join ":" (to_hex <$> segments).

Definition Ipv6Addr_fmt (segments : list Z) : string :=
  match to_ipv4_mapped segments with
  | Some ipv4 => "::ffff:" +:+ Ipv4Addr_fmt ipv4
  | None =>
    let zeroes := zero_run segments 0 (0%nat, 0%nat) (0%nat, 0%nat) in
    if bool_decide (1 < zeroes.2)%nat then
      fmt_subslice (take zeroes.1 segments) +:+ "::"
        +:+ fmt_subslice (drop (zeroes.1 + zeroes.2) segments)
    else fmt_subslice segments
  end.

Definition SocketAddr_fmt (addr : SocketAddr) : string :=
  match addr with
  | SocketAddrV4 octets port => Ipv4Addr_fmt octets +:+ ":" +:+ Str.to_string port
  | SocketAddrV6 segments scope_id port =>
    if bool_decide (scope_id = 0)
    then "[" +:+ Ipv6Addr_fmt segments +:+ "]:" +:+ Str.to_string port
    else "[" +:+ Ipv6Addr_fmt segments +:+ "%" +:+ Str.to_string scope_id +:+ "]:"
           +:+ Str.to_string port
  end.

(** The address of a connection in [pingora]: a Unix socket has a text of its
    own. *)
Inductive PeerAddr := Inet (addr : SocketAddr) | UnixAddr (text : string).

Definition PeerAddr_fmt (addr : PeerAddr) : string :=
  match addr with Inet addr => SocketAddr_fmt addr | UnixAddr text => text end.

Definition inet_port (addr : PeerAddr) : option Z :=
  match addr with
  | Inet (SocketAddrV4 _ port) | Inet (SocketAddrV6 _ _ port) => Some port
  | UnixAddr _ => None
  end.

(** ** The parser *)

Definition Parser (A : Type) : Type := string -> option (A * string).

Definition read_given_char (c : ascii) : Parser unit := fun s =>
  match s with
  | String a s => if bool_decide (a = c) then Some (tt, s) else None
  | EmptyString => None
  end.

(** [char::to_digit] *)
Definition to_digit (radix : Z) (a : ascii) : option Z :=
  let v :=
    if Str.is_digit a then Z.of_nat (nat_of_ascii a) - 48
    else if (97 <=? nat_of_ascii a)%nat && (nat_of_ascii a <=? 122)%nat
    then Z.of_nat (nat_of_ascii a) - 87
    else if (65 <=? nat_of_ascii a)%nat && (nat_of_ascii a <=? 90)%nat
    then Z.of_nat (nat_of_ascii a) - 55
    else radix in
  if v <? radix then Some v else None.

Fixpoint read_digits (radix : Z) (max_digits : nat) (result : Z) (digit_count : nat) (s : string) :
    option (Z * nat * string) :=
  match s with
  | EmptyString => Some (result, digit_count, s)
  | String a t =>
    match to_digit radix a with
    | None => Some (result, digit_count, s)
    | Some digit =>
      if bool_decide (max_digits < S digit_count)%nat then None
      else read_digits radix max_digits (result * radix + digit) (S digit_count) t
    end
  end.

(** [read_number(radix, Some(max_digits), allow_zero_prefix)] for an integer
    type with the given modulus. *)
Definition read_number (modulus radix : Z) (max_digits : nat) (allow_zero_prefix : bool) :
    Parser Z := fun s =>
  let has_leading_zero := bool_decide (Str.byte_at 0 s = Some "0"%char) in
  '(result, digit_count, s) ← read_digits radix max_digits 0 0 s;
  if bool_decide (digit_count = 0%nat) then None
  else if negb allow_zero_prefix && has_leading_zero && bool_decide (1 < digit_count)%nat then None
  else if result <? modulus then Some (result, s) else None.

Definition read_separator {A} (sep : ascii) (index : nat) (inner : Parser A) : Parser A := fun s =>
  if bool_decide (0 < index)%nat then '(_, s) ← read_given_char sep s; inner s else inner s.

(** The octets from [index] on. *)
Fixpoint read_octets (count index : nat) : Parser (list Z) := fun s =>
  match count with
  | 0%nat => Some ([], s)
  | S count =>
    '(octet, s) ← read_separator "." index (read_number 256 10 3 false) s;
    '(octets, s) ← read_octets count (S index) s;
    Some (octet :: octets, s)
  end.
Definition read_ipv4_addr : Parser (list Z) := read_octets 4 0.

(** [read_groups] with [limit] groups from [i] on: the groups read, and whether
    they end with an embedded IPv4 address. *)
Fixpoint read_groups (fuel limit i : nat) (s : string) : list Z * bool * string :=
  match fuel with
  | 0%nat => ([], false, s)
  | S fuel =>
    let ipv4 :=
      if bool_decide (i < limit - 1)%nat then read_separator ":" i read_ipv4_addr s else None in
    match ipv4 with
    | Some ([one; two; three; four], s) => ([one * 256 + two; three * 256 + four], true, s)
    | _ =>
      match read_separator ":" i (read_number 65536 16 4 true) s with
      | None => ([], false, s)
      | Some (group, s) =>
        let '(groups, ipv4, s) := read_groups fuel limit (S i) s in (group :: groups, ipv4, s)
      end
    end
  end.

Definition read_ipv6_addr : Parser (list Z) := fun s =>
  let '(head, head_ipv4, s) := read_groups 8 8 0 s in
  if bool_decide (length head = 8%nat) then Some (head, s)
  else if head_ipv4 : bool then None
  else
    '(_, s) ← read_given_char ":" s;
    '(_, s) ← read_given_char ":" s;
    let limit := (8 - (length head + 1))%nat in
    let '(tail, _, s) := read_groups limit limit 0 s in
    Some (head ++ replicate (8 - length head - length tail) 0 ++ tail, s).

Definition read_ip_addr : Parser IpAddr := fun s =>
  match read_ipv4_addr s with
  | Some (octets, s) => Some (V4 octets, s)
  | None => '(segments, s) ← read_ipv6_addr s; Some (V6 segments, s)
  end.

(** [<IpAddr as FromStr>::from_str]: the whole text is read. *)
Definition IpAddr_from_str (s : string) : option IpAddr :=
  '(addr, rest) ← read_ip_addr s;
  if Str.is_empty rest then Some addr else None.

(** ** What the parser reads *)

#[local] Arguments Str.to_string : simpl never.
#[local] Opaque Str.to_string.

Lemma read_digits_app radix m ds : forall r c t v c',
  read_digits radix m r c ds = Some (v, c', EmptyString) ->
  (forall a, Str.byte_at 0 t = Some a -> to_digit radix a = None) ->
  read_digits radix m r c (ds +:+ t) = Some (v, c', t).
Proof.
  induction ds as [|a ds IH]; intros r c t v c' Hd Ht.
  - simpl in Hd. simplify_eq. rewrite Str.app_nil_l. destruct t as [|b t]; [done|].
    cbn [read_digits]. by rewrite (Ht b).
  - rewrite Str.app_cons. cbn [read_digits] in *. destruct (to_digit radix a); [|done].
    case_bool_decide; [done|]. by apply IH.
Qed.

Definition octet_reads (o : Z) : bool :=
  match read_digits 10 3 0 0 (Str.to_string o) with
  | Some (v, c, EmptyString) =>
    bool_decide (v = o) && negb (bool_decide (c = 0%nat))
    && negb (bool_decide (Str.byte_at 0 (Str.to_string o) = Some "0"%char) && bool_decide (1 < c)%nat)
  | _ => false
  end.

Lemma octets_read o : 0 <= o < 256 -> octet_reads o = true.
Proof.
  intros Ho. assert (Hall : forallb octet_reads (seqZ 0 256) = true) by (vm_compute; reflexivity).
  rewrite forallb_forall in Hall. apply Hall, list_elem_of_In, elem_of_seqZ. lia.
Qed.

Lemma read_octet o t : 0 <= o < 256 ->
  (forall a, Str.byte_at 0 t = Some a -> to_digit 10 a = None) ->
  read_number 256 10 3 false (Str.to_string o +:+ t) = Some (o, t).
Proof.
  intros Ho Ht. pose proof (octets_read o Ho) as Hr. unfold octet_reads in Hr. revert Hr.
  generalize (Str.to_string o) as text. intros text Hr.
  destruct (read_digits 10 3 0 0 text) as [[[v c] [|]]|] eqn:E; try discriminate.
  apply andb_true_iff in Hr as [[Hv Hc]%andb_true_iff Hz].
  apply bool_decide_eq_true in Hv. subst v. unfold read_number.
  rewrite (read_digits_app _ _ _ _ _ t _ _ E Ht). cbn [mbind option_bind].
  apply negb_true_iff in Hc, Hz. rewrite Hc.
  assert (Hne : text <> EmptyString) by (intros ->; simpl in E; simplify_eq/=).
  destruct text as [|b bs]; [done|]. rewrite Str.app_cons. cbn [Str.byte_at negb andb] in *.
  rewrite Hz, (proj2 (Z.ltb_lt _ _)) by lia. done.
Qed.

Definition no_digit (t : string) : Prop :=
  forall a, Str.byte_at 0 t = Some a -> to_digit 10 a = None.

Lemma read_first_octet o t : 0 <= o < 256 -> no_digit t ->
  read_separator "." 0 (read_number 256 10 3 false) (Str.to_string o +:+ t) = Some (o, t).
Proof. apply read_octet. Qed.

Lemma read_next_octet i o t : 0 <= o < 256 -> no_digit t ->
  read_separator "." (S i) (read_number 256 10 3 false) (String "." (Str.to_string o +:+ t))
  = Some (o, t).
Proof.
  intros Ho Ht. unfold read_separator. rewrite bool_decide_eq_true_2 by lia.
  unfold read_given_char. rewrite bool_decide_eq_true_2 by done. by apply read_octet.
Qed.

Lemma read_ipv4_fmt a b c d : is_octets [a; b; c; d] ->
  IpAddr_from_str (Ipv4Addr_fmt [a; b; c; d]) = Some (V4 [a; b; c; d]).
Proof.
  intros [_ Ho]. rewrite !Forall_cons in Ho. destruct Ho as (Ha & Hb & Hc & Hd & _).
  assert (Hdot : forall t, no_digit (String "." t)) by (intros t a0 [= <-]; done).
  assert (Hend : no_digit EmptyString) by done.
  unfold IpAddr_from_str, read_ip_addr, read_ipv4_addr, Ipv4Addr_fmt.
  cbn [fmap list_fmap Str.join read_octets]. rewrite <- (Str.append_nil_r (Str.to_string d)).
  rewrite read_first_octet by auto. cbn [mbind option_bind].
  do 3 (rewrite read_next_octet by auto; cbn [mbind option_bind]). done.
Qed.

(** No address starts with a bracket. *)
Lemma bracket_not_read s : IpAddr_from_str (String "[" s) = None.
Proof. reflexivity. Qed.

Lemma bracket_fmt_V6 segments scope_id port : exists s,
  SocketAddr_fmt (SocketAddrV6 segments scope_id port) = String "[" s.
Proof. unfold SocketAddr_fmt. case_bool_decide; eauto. Qed.

End IpAddr.
