(* ===== verification/HttpTypes.v ===== *)
(** * HTTP messages and errors

    The types of the [http] and [pingora] crates that [ntgw-http] works on: header
    maps, request and response heads, and the error type of the proxy framework.
    Those crates are not part of the sources, so header maps and the validation
    of names, values, status codes and paths are the class [HttpLib]; what the
    data plane relies on is [HttpLibLaws]. *)

From Stdlib Require Import ZArith Lia Ascii.
From stdpp Require Import base gmap strings numbers list.
From S2P Require Import Prelude Strs IrTypes Records RouteIndex Decimal IpAddr.

Local Open Scope string_scope.
Local Open Scope list_scope.
Local Open Scope Z_scope.

Module HttpTypes.
Import IpAddr.

Record Uri := mkUri {
  uri_path : string;
  uri_query : option string;
  uri_path_and_query : option string;
  uri_authority : option string;
  uri_scheme : option string;
  uri_host : option string;
  uri_text : string;
}.

Class HttpLib := {
  HeaderMap : Type;
  hm_new : HeaderMap;
  (** [HeaderMap::iter]: names in lower case, and the bytes of the values. *)
  hm_iter : HeaderMap -> list (string * string);
  (** The fallible operations give [None] for an invalid name or value. *)
  hm_insert : string -> string -> HeaderMap -> option HeaderMap;
  hm_append : string -> string -> HeaderMap -> option HeaderMap;
  hm_remove : string -> HeaderMap -> HeaderMap;
  (** Whether [HeaderValue::to_str], [StatusCode::from_u16] and
      [HeaderName::from_bytes] succeed. *)
  value_is_text : string -> bool;
  status_is_valid : Z -> bool;
  name_is_valid : string -> bool;
  (** [RequestHeader::set_raw_path] *)
  uri_set_raw_path : Uri -> string -> option Uri;
}.

(** ** Errors *)

Inductive ErrorSource := SourceUpstream | SourceDownstream | SourceInternal | SourceUnset.
#[global] Instance ErrorSource_eq_dec : EqDecision ErrorSource.
Proof. solve_decision. Defined.

(** The error types that the code distinguishes; the others by their name. *)
Inductive ErrorType :=
| ConnectTimedout
| ConnectRefused
| ConnectNoRoute
| ConnectionClosed
| HTTPStatus (code : Z)
| CustomCode (name : string) (code : Z)
| Named (name : string).
#[global] Instance ErrorType_eq_dec : EqDecision ErrorType.
Proof. solve_decision. Defined.

Definition ErrorType_as_str (self : ErrorType) : string :=
  match self with
  | ConnectTimedout => "ConnectTimedout"
  | ConnectRefused => "ConnectRefused"
  | ConnectNoRoute => "ConnectNoRoute"
  | ConnectionClosed => "ConnectionClosed"
  | HTTPStatus _ => "HTTPStatus"
  | CustomCode name _ => name
  | Named name => name
  end.

Inductive RetryType := Decided (retry : bool) | ReusedOnly.
#[global] Instance RetryType_eq_dec : EqDecision RetryType.
Proof. solve_decision. Defined.

Record Error := mkError {
  er_etype : ErrorType;
  er_esource : ErrorSource;
  er_retry : RetryType;
}.

Definition Error_new (etype : ErrorType) : Error := mkError etype SourceUnset (Decided false).
Definition set_retry (retry : bool) (self : Error) : Error :=
  mkError (er_etype self) (er_esource self) (Decided retry).
Definition decide_reuse (reused : bool) (self : Error) : Error :=
  mkError (er_etype self) (er_esource self)
    (match er_retry self with ReusedOnly => Decided reused | decided => decided end).

Definition INVALID_ROUTE_FILTER : ErrorType := Named "InvalidRouteFilter".
Definition UNSUPPORTED_ROUTE_FILTER : ErrorType := Named "UnsupportedRouteFilter".
Definition InvalidHTTPHeader : Error := Error_new (Named "InvalidHTTPHeader").

(** [pingora::Result] *)
Definition Res (A : Type) : Type := sum A Error.
#[global] Instance Res_ret : MRet Res := fun A x => inl x.
#[global] Instance Res_bind : MBind Res := fun A B f m =>
  match m with inl x => f x | inr e => inr e end.

Definition ok_or {A} (o : option A) (e : Error) : Res A :=
  match o with Some x => inl x | None => inr e end.

Lemma res_bind_inl {A B} (m : Res A) (f : A -> Res B) y :
  m ≫= f = inl y <-> exists x, m = inl x /\ f x = inl y.
Proof. destruct m; simpl; [|naive_solver]. naive_solver. Qed.

(** ** Messages *)

Section with_lib.
Context `{HttpLib}.

Record RequestHeader := mkRequestHeader {
  rh_method : string;
  rh_uri : Uri;
  rh_http2 : bool;
  rh_headers : HeaderMap;
}.

Record ResponseHeader := mkResponseHeader {
  rsp_status : Z;
  rsp_headers : HeaderMap;
}.

Definition get_all (name : string) (h : HeaderMap) : list string :=
  snd <$> List.filter (fun item => Str.eq_ignore_ascii_case item.1 name) (hm_iter h).
Definition get (name : string) (h : HeaderMap) : option string := head (get_all name h).
(** [headers.get(name).and_then(|value| value.to_str().ok())] *)
Definition get_str (name : string) (h : HeaderMap) : option string :=
  value ← get name h; if value_is_text value then Some value else None.

Definition insert_header (name value : string) (h : HeaderMap) : Res HeaderMap :=
  ok_or (hm_insert name value h) InvalidHTTPHeader.
Definition append_header (name value : string) (h : HeaderMap) : Res HeaderMap :=
  ok_or (hm_append name value h) InvalidHTTPHeader.

(** The same on a response. *)
Definition rsp_insert (name value : string) (r : ResponseHeader) : Res ResponseHeader :=
  h ← insert_header name value (rsp_headers r); mret (mkResponseHeader (rsp_status r) h).
Definition rsp_append (name value : string) (r : ResponseHeader) : Res ResponseHeader :=
  h ← append_header name value (rsp_headers r); mret (mkResponseHeader (rsp_status r) h).
Definition rsp_remove (name : string) (r : ResponseHeader) : ResponseHeader :=
  mkResponseHeader (rsp_status r) (hm_remove name (rsp_headers r)).

(** [ResponseHeader::build] *)
Definition ResponseHeader_build (status : Z) : Res ResponseHeader :=
  if status_is_valid status then inl (mkResponseHeader status hm_new)
  else inr (Error_new (Named "InvalidHTTPHeader")).

(** ** The downstream session

    What the code reads of a [pingora] session, and what it has written to the
    client, last write first. *)

Record DownstreamTlsInfo := mkDownstreamTlsInfo {
  dti_server_name : string;
  dti_client_certificate_present : bool;
}.

Inductive BodyRead := BodyChunk (bytes : string) | BodyFailed (error : Error).

Inductive Written :=
| WroteError (code : Z)
| WroteHeader (response : ResponseHeader) (end_of_stream : bool)
| WroteBody (body : option string) (end_of_stream : bool)
| WroteTasks (response : ResponseHeader) (trailers : list (string * string)).

Record Session := mkSession {
  ss_request : RequestHeader;
  ss_client_addr : option PeerAddr;
  ss_peer_addr : option PeerAddr;
  ss_server_addr : option PeerAddr;
  (** The digest of a TLS connection, and the extension that the listener adds. *)
  ss_ssl : option (option DownstreamTlsInfo);
  ss_body_empty : bool;
  ss_body : list BodyRead;
  ss_mirror_subrequest : option SelectedBackend;
  ss_retry_buffer_truncated : bool;
  (** Whether subrequests can be spawned, and how long the connection is open. *)
  ss_subrequest_spawner : bool;
  ss_connection_age : option Duration;
  ss_keepalive : bool;
  ss_written : list Written;
}.

#[export, refine] Instance Session_rebuild : Rebuild Session := {
  rebuild s :=
    mkSession (ss_request s) (ss_client_addr s) (ss_peer_addr s) (ss_server_addr s) (ss_ssl s)
      (ss_body_empty s) (ss_body s) (ss_mirror_subrequest s) (ss_retry_buffer_truncated s)
      (ss_subrequest_spawner s) (ss_connection_age s) (ss_keepalive s) (ss_written s)
}.
Proof. abstract by intros []. Defined.

(** The writes that fail, given what was written before. *)
Class Downstream := write_error : list Written -> Written -> option Error.

Class HttpLibLaws := {
  new_get_all name : get_all name hm_new = [];
  insert_get_all name value h h' other : hm_insert name value h = Some h' ->
    get_all other h' = if Str.eq_ignore_ascii_case name other then [value] else get_all other h;
  append_get_all name value h h' other : hm_append name value h = Some h' ->
    get_all other h'
    = if Str.eq_ignore_ascii_case name other then get_all other h ++ [value] else get_all other h;
  remove_get_all name h other :
    get_all other (hm_remove name h)
    = if Str.eq_ignore_ascii_case name other then [] else get_all other h;
}.
End with_lib.

(** ** An instance

    A header map as the list of its entries, with names of at least one byte. *)
Section instance.

Definition entries_without (name : string) (h : list (string * string)) : list (string * string) :=
  List.filter (fun item => negb (Str.eq_ignore_ascii_case item.1 name)) h.

Definition push_entry (name value : string) (h : list (string * string)) :
    option (list (string * string)) :=
  if Str.is_empty name then None else Some (h ++ [(Str.to_ascii_lowercase name, value)]).

Definition text_value (v : string) : bool :=
  negb (Str.any_byte (fun a => (nat_of_ascii a <? 32)%nat || (126 <? nat_of_ascii a)%nat) v).

Definition list_http : HttpLib := {|
  HeaderMap := list (string * string);
  hm_new := [];
  hm_iter h := h;
  hm_insert name value h := push_entry name value (entries_without name h);
  hm_append := push_entry;
  hm_remove := entries_without;
  value_is_text := text_value;
  status_is_valid status := (100 <=? status) && (status <=? 999);
  name_is_valid name := negb (Str.is_empty name);
  uri_set_raw_path uri path :=
    Some (match Str.split_once "?" path with
          | Some (p, q) => mkUri p (Some q) (Some path) (uri_authority uri) (uri_scheme uri) (uri_host uri) path
          | None => mkUri path None (Some path) (uri_authority uri) (uri_scheme uri) (uri_host uri) path
          end);
|}.

#[local] Existing Instance list_http.

Lemma entries_without_get name other h :
  get_all other (entries_without name h)
  = if Str.eq_ignore_ascii_case name other then [] else get_all other h.
Proof.
  unfold get_all, entries_without; simpl.
  assert (Heq : forall x, Str.eq_ignore_ascii_case name other = true ->
            Str.eq_ignore_ascii_case x name = Str.eq_ignore_ascii_case x other).
  { intros x Hn. apply Str.eq_ignore_ascii_case_iff in Hn. apply eq_bool_prop_intro.
    rewrite !Is_true_true, !Str.eq_ignore_ascii_case_iff. by rewrite Hn. }
  induction h as [|[n v] h IH]; simpl; [by destruct (Str.eq_ignore_ascii_case name other)|].
  destruct (Str.eq_ignore_ascii_case name other) eqn:E.
  - rewrite (Heq n eq_refl). destruct (Str.eq_ignore_ascii_case n other) eqn:En; simpl; [done|].
    by rewrite En.
  - destruct (Str.eq_ignore_ascii_case n name) eqn:En; simpl.
    + destruct (Str.eq_ignore_ascii_case n other) eqn:Eo; simpl; [|done].
      apply Str.eq_ignore_ascii_case_iff in En, Eo. exfalso. revert E.
      apply not_false_iff_true, Str.eq_ignore_ascii_case_iff. congruence.
    + destruct (Str.eq_ignore_ascii_case n other); simpl; [f_equal|]; exact IH.
Qed.

Lemma push_entry_get name value h h' other : push_entry name value h = Some h' ->
  get_all other h'
  = if Str.eq_ignore_ascii_case name other then get_all other h ++ [value] else get_all other h.
Proof.
  unfold push_entry. destruct (Str.is_empty name); [done|]. intros [= <-].
  unfold get_all; simpl. rewrite List.filter_app, fmap_app. simpl.
  assert (Str.eq_ignore_ascii_case (Str.to_ascii_lowercase name) other
          = Str.eq_ignore_ascii_case name other) as ->.
  { apply eq_bool_prop_intro. rewrite !Is_true_true, !Str.eq_ignore_ascii_case_iff.
    by rewrite Str.lowercase_idem. }
  destruct (Str.eq_ignore_ascii_case name other); simpl; [done|by rewrite app_nil_r].
Qed.

Lemma list_http_laws : HttpLibLaws.
Proof.
  split; simpl.
  - done.
  - intros name value h h' other Hp. rewrite (push_entry_get _ _ _ _ other Hp).
    rewrite entries_without_get. by destruct (Str.eq_ignore_ascii_case name other).
  - intros. by apply push_entry_get.
  - intros. apply entries_without_get.
Qed.
End instance.

End HttpTypes.
