(* ===== verification/HttpFilters.v ===== *)
(** * HTTP filters

    [ntgw-http/src/filters.rs] with [filters/redirect.rs], [filters/cors.rs],
    [filters/headers.rs], and [extensions.rs]: redirects and rewrites of the path,
    cross-origin headers, header modifiers, the default security headers, direct
    responses, and which filters a route may carry. *)

From Stdlib Require Import ZArith Lia Ascii.
From stdpp Require Import base gmap strings numbers list.
From S2P Require Import Prelude Strs IrTypes Matching RouteIndex Decimal IpAddr HttpTypes.

Local Open Scope string_scope.
Local Open Scope list_scope.
Local Open Scope Z_scope.

Module HttpFilters.
Import IpAddr HttpTypes.

Definition is_some {A} (o : option A) : bool := match o with Some _ => true | None => false end.

Fixpoint find_map {A B} (f : A -> option B) (l : list A) : option B :=
  match l with
  | [] => None
  | x :: l => match f x with Some y => Some y | None => find_map f l end
  end.

(** [values.join(", ")] *)
Fixpoint join_header_values (values : list string) : string :=
  match values with
  | [] => EmptyString
  | [value] => value
  | value :: values => value +:+ ", " +:+ join_header_values values
  end.

(** ** Rewriting the path *)

Definition normalize_prefix (prefix : string) : string :=
  if bool_decide (prefix = "/") then prefix else Str.trim_end_char "/" prefix.

Definition path_after_prefix (path prefix : string) : option string :=
  if bool_decide (prefix = "/") then Some path
  else if bool_decide (path = prefix) then Some EmptyString
  else Str.strip_prefix prefix path.

Definition if_empty (self fallback : string) : string :=
  if Str.is_empty self then fallback else self.

Definition normalize_replacement (replacement : string) : string :=
  if Str.is_empty replacement then "/"
  else if Str.starts_with "/" replacement
  then if_empty (Str.trim_end_char "/" replacement) "/"
  else if_empty ("/" +:+ Str.trim_end_char "/" replacement) "/".

Definition rewrite_prefix_path (path matched_prefix replacement : string) : string :=
  let normalized_prefix := normalize_prefix matched_prefix in
  match path_after_prefix path normalized_prefix with
  | None => path
  | Some remainder =>
    if Str.is_empty replacement then
      if Str.is_empty remainder then "/"
      else if Str.starts_with "/" remainder then remainder
      else "/" +:+ remainder
    else if Str.is_empty remainder then normalize_replacement replacement
    else
      let replacement := normalize_replacement replacement in
      if bool_decide (replacement = "/") then remainder
      else if bool_decide (remainder = "/") then replacement +:+ "/"
      else replacement +:+ remainder
  end.

Definition rewrite_path_and_query (path : string) (query : option string) (modifier : PathModifier)
    (matched_http_path : option MatchedHttpPath) : string :=
  let rewritten_path :=
    if bool_decide (pm_modifier_type modifier = "ReplaceFullPath")
       && negb (Str.is_empty (pm_replace_full_path modifier))
    then pm_replace_full_path modifier
    else if bool_decide (pm_modifier_type modifier = "ReplacePrefixMatch")
    then rewrite_prefix_path path (default "/" (mhp_path <$> matched_http_path))
           (pm_replace_prefix_match modifier)
    else path in
  match query with
  | Some query => if Str.is_empty query then rewritten_path else rewritten_path +:+ "?" +:+ query
  | None => rewritten_path
  end.

(** ** Redirects *)

Definition default_port_for_scheme (scheme : string) : option Z :=
  if Str.eq_ignore_ascii_case scheme "http" then Some 80
  else if Str.eq_ignore_ascii_case scheme "https" then Some 443
  else None.

Definition strip_port (host : string) : string :=
  if Str.starts_with "[" host then
    match Str.split_once "]" host with
    | Some (value, _) => value +:+ "]"
    | None => host
    end
  else Str.split_first ":" host.

Definition redirect_scheme (original_scheme : string) (redirect : RequestRedirectFilter) : string :=
  if negb (Str.is_empty (rr_scheme redirect)) then rr_scheme redirect else original_scheme.

Definition redirect_port (target_scheme original_scheme : string) (original_port : Z)
    (redirect : RequestRedirectFilter) : Z :=
  if negb (bool_decide (rr_port redirect = 0)) then rr_port redirect
  else if negb (bool_decide (original_port = 0))
          && Str.eq_ignore_ascii_case target_scheme original_scheme
  then original_port
  else default original_port (default_port_for_scheme target_scheme).

Definition redirect_authority (scheme host : string) (port : Z) : string :=
  let host :=
    if Str.contains_char ":" host && negb (Str.starts_with "[" host)
    then "[" +:+ host +:+ "]" else host in
  if (Str.eq_ignore_ascii_case scheme "http" && bool_decide (port = 80))
     || (Str.eq_ignore_ascii_case scheme "https" && bool_decide (port = 443))
     || bool_decide (port = 0)
  then host
  else host +:+ ":" +:+ Str.to_string port.

(** ** Which filters are supported *)

Definition is_supported_filter_type (filter_type : string) : bool :=
  bool_decide (filter_type ∈
    ["RequestHeaderModifier"; "ResponseHeaderModifier"; "CORS"; "RequestRedirect"; "URLRewrite";
     "RequestMirror"; "ExternalAuth"; "ExtensionRef"; "JwtAuth"]).

Definition extension_filter_supported (filter : ExtensionFilter) : bool :=
  ef_resolved filter
  && (bool_decide (ef_extension_type filter = "DirectResponse")
      && is_some (ef_direct_response filter)).

Definition extension_filters_supported (filters : list Filter) : bool :=
  forallb extension_filter_supported (omap f_extension_ref filters).

Definition ensure_supported_filters (filters : list Filter) : Res unit :=
  if existsb (fun filter => negb (is_supported_filter_type (f_filter_type filter))) filters
  then inr (Error_new UNSUPPORTED_ROUTE_FILTER)
  else if negb (extension_filters_supported filters)
  then inr (Error_new UNSUPPORTED_ROUTE_FILTER)
  else if existsb (fun filter =>
            match f_external_auth filter with
            | Some auth =>
              negb (Str.eq_ignore_ascii_case (ea_protocol auth) "HTTP"
                    || Str.eq_ignore_ascii_case (ea_protocol auth) "GRPC")
            | None => false
            end) filters
  then inr (Error_new UNSUPPORTED_ROUTE_FILTER)
  else inl tt.

Definition request_redirect_filter (filters : list Filter) : option RequestRedirectFilter :=
  find_map f_request_redirect filters.
Definition jwt_auth_filter (filters : list Filter) : option JwtAuthFilter :=
  find_map f_jwt_auth filters.
Definition external_auth_filter (filters : list Filter) : option ExternalAuthFilter :=
  find_map f_external_auth filters.

Definition direct_response_filter (filters : list Filter) : option DirectResponseFilter :=
  find_map (fun filter =>
    item ← f_extension_ref filter;
    if ef_resolved item then
      if bool_decide (ef_extension_type item = "DirectResponse") then ef_direct_response item
      else None
    else None) filters.

Definition normalize_status_code (status_code : Z) : Z :=
  if (100 <=? status_code) && (status_code <=? 599) then status_code else 500.

(** ** Origins *)

Definition RequestHeaders : Type := StringMap (list string).

Definition cors_request_header (request_headers : RequestHeaders) (name : string) : option string :=
  values ← request_headers !! name;
  value ← head values;
  if Str.is_empty value then None else Some value.

Definition is_cors_preflight_request (request_method : option string)
    (request_headers : RequestHeaders) : bool :=
  match request_method with
  | Some method =>
    Str.eq_ignore_ascii_case method "OPTIONS"
    && is_some (cors_request_header request_headers "access-control-request-method")
  | None => false
  end.

Definition request_has_credentials (request_headers : RequestHeaders) : bool :=
  existsb (fun name => is_some (cors_request_header request_headers name))
    ["cookie"; "authorization"; "proxy-authorization"].

Definition default_port (scheme : string) : option Z :=
  if Str.eq_ignore_ascii_case scheme "http" then Some 80
  else if Str.eq_ignore_ascii_case scheme "https" then Some 443
  else None.

Definition split_host_port (authority : string) (default_port : Z) : option (string * Z) :=
  match Str.rsplit_once ":" authority with
  | None => Some (authority, default_port)
  | Some (host, port) =>
    if Str.is_empty host || Str.is_empty port || Str.any_byte (fun a => negb (Str.is_digit a)) port
    then Some (authority, default_port)
    else port ← Str.parse_u16 port; Some (host, port)
  end.

Record ParsedOrigin := mkParsedOrigin { po_scheme : string; po_host : string; po_port : Z }.

Definition ParsedOrigin_parse (value : string) : option ParsedOrigin :=
  '(scheme, authority) ← Str.split_once_str "://" value;
  if negb (Str.eq_ignore_ascii_case scheme "http") && negb (Str.eq_ignore_ascii_case scheme "https")
  then None
  else if Str.is_empty authority || Str.contains_char "/" authority || Str.contains_char "?" authority
  then None
  else
    port ← default_port scheme;
    '(host, port) ← split_host_port authority port;
    if Str.is_empty host then None else Some (mkParsedOrigin scheme host port).

Definition host_pattern_matches (pattern host : string) : bool :=
  if bool_decide (pattern = "*") then true
  else if negb (Str.contains_char "*" pattern) then Str.eq_ignore_ascii_case pattern host
  else
    let pattern := Str.to_ascii_lowercase pattern in
    let host := Str.to_ascii_lowercase host in
    match Str.split_once "*" pattern with
    | None => false
    | Some (prefix, suffix) =>
      Str.starts_with prefix host && Str.ends_with suffix host
      && bool_decide (String.length prefix + String.length suffix < String.length host)%nat
    end.

Definition origin_matches (allowed origin : string) : bool :=
  if Str.eq_ignore_ascii_case allowed origin then true
  else
    match ParsedOrigin_parse allowed, ParsedOrigin_parse origin with
    | Some allowed, Some origin =>
      if negb (Str.eq_ignore_ascii_case (po_scheme allowed) (po_scheme origin))
         || negb (bool_decide (po_port allowed = po_port origin))
      then false
      else host_pattern_matches (po_host allowed) (po_host origin)
    | _, _ => false
    end.

Definition cors_allow_origin (cors : CorsFilter) (origin : string)
    (request_headers : RequestHeaders) : option string :=
  if bool_decide ("*" ∈ cors_allow_origins cors) then
    if cors_allow_credentials cors || request_has_credentials request_headers
    then Some origin else Some "*"
  else if existsb (fun allowed => origin_matches allowed origin) (cors_allow_origins cors)
  then Some origin else None.

Definition cors_allowed_methods (cors : CorsFilter) (request_headers : RequestHeaders) :
    option string :=
  if bool_decide (cors_allow_methods cors = []) then None
  else if cors_allow_credentials cors && bool_decide ("*" ∈ cors_allow_methods cors)
  then cors_request_header request_headers "access-control-request-method"
  else Some (join_header_values (cors_allow_methods cors)).

Definition cors_allowed_headers (cors : CorsFilter) (request_headers : RequestHeaders) :
    option string :=
  if bool_decide (cors_allow_headers cors = []) then None
  else if cors_allow_credentials cors && bool_decide ("*" ∈ cors_allow_headers cors)
  then cors_request_header request_headers "access-control-request-headers"
  else Some (join_header_values (cors_allow_headers cors)).

(** ** Filters on messages *)

Section with_lib.
Context `{HttpLib}.

(** [if let Some(value) = value { insert } else { remove }] *)
Definition insert_or_remove (name : string) (value : option string) (r : ResponseHeader) :
    Res ResponseHeader :=
  match value with
  | Some value => rsp_insert name value r
  | None => mret (rsp_remove name r)
  end.

Definition apply_cors_filter (response : ResponseHeader) (cors : CorsFilter)
    (request_method : option string) (request_headers : option RequestHeaders) :
    Res ResponseHeader :=
  match request_headers with
  | None => mret response
  | Some request_headers =>
    match request_headers !! "origin" ≫= head with
    | None => mret response
    | Some origin =>
      match cors_allow_origin cors origin request_headers with
      | None => mret response
      | Some allow_origin =>
        response ← rsp_insert "access-control-allow-origin" allow_origin response;
        response ← (if bool_decide (allow_origin = "*") then mret response
                    else rsp_append "vary" "Origin" response);
        response ← insert_or_remove "access-control-allow-credentials"
                     (if cors_allow_credentials cors then Some "true" else None) response;
        response ← insert_or_remove "access-control-expose-headers"
                     (if bool_decide (cors_expose_headers cors = []) then None
                      else Some (join_header_values (cors_expose_headers cors))) response;
        if is_cors_preflight_request request_method request_headers then
          response ← insert_or_remove "access-control-allow-methods"
                       (cors_allowed_methods cors request_headers) response;
          response ← insert_or_remove "access-control-allow-headers"
                       (cors_allowed_headers cors request_headers) response;
          insert_or_remove "access-control-max-age" (Str.to_string <$> cors_max_age cors) response
        else
          mret (rsp_remove "access-control-max-age"
                  (rsp_remove "access-control-allow-headers"
                     (rsp_remove "access-control-allow-methods" response)))
      end
    end
  end.

Fixpoint insert_all (headers : list HeaderOperation) (h : HeaderMap) : Res HeaderMap :=
  match headers with
  | [] => mret h
  | header :: headers =>
    h ← insert_header (ho_name header) (ho_value header) h; insert_all headers h
  end.
Fixpoint append_all (headers : list HeaderOperation) (h : HeaderMap) : Res HeaderMap :=
  match headers with
  | [] => mret h
  | header :: headers =>
    h ← append_header (ho_name header) (ho_value header) h; append_all headers h
  end.

(** Both [HeaderEditor]s edit the header map of their message. *)
Definition apply_header_modifier (h : HeaderMap) (modifier : HeaderModifier) : Res HeaderMap :=
  let h := foldl (fun h name => hm_remove name h) h (hmod_remove modifier) in
  h ← insert_all (hmod_set modifier) h;
  append_all (hmod_add modifier) h.

Definition default_security_headers : list HeaderOperation :=
  [mkHeaderOperation "x-content-type-options" "nosniff";
   mkHeaderOperation "x-frame-options" "DENY";
   mkHeaderOperation "referrer-policy" "strict-origin-when-cross-origin";
   mkHeaderOperation "x-permitted-cross-domain-policies" "none";
   mkHeaderOperation "cross-origin-opener-policy" "same-origin"].

Fixpoint insert_missing (defaults : list HeaderOperation) (r : ResponseHeader) :
    Res ResponseHeader :=
  match defaults with
  | [] => mret r
  | header :: defaults =>
    r ← (if is_some (get (ho_name header) (rsp_headers r)) then mret r
         else rsp_insert (ho_name header) (ho_value header) r);
    insert_missing defaults r
  end.
Definition apply_default_security_headers (response : ResponseHeader) : Res ResponseHeader :=
  insert_missing default_security_headers response.

Definition apply_response_filter (request_method : option string)
    (request_headers : option RequestHeaders) (response : ResponseHeader) (filter : Filter) :
    Res ResponseHeader :=
  if bool_decide (f_filter_type filter = "ResponseHeaderModifier") then
    match f_header_modifier filter with
    | Some modifier =>
      h ← apply_header_modifier (rsp_headers response) modifier;
      mret (mkResponseHeader (rsp_status response) h)
    | None => mret response
    end
  else if bool_decide (f_filter_type filter = "CORS") then
    match f_cors filter with
    | Some cors => apply_cors_filter response cors request_method request_headers
    | None => mret response
    end
  else mret response.

Fixpoint response_filters (filters : list Filter) (request_method : option string)
    (request_headers : option RequestHeaders) (response : ResponseHeader) : Res ResponseHeader :=
  match filters with
  | [] => mret response
  | filter :: filters =>
    response ← apply_response_filter request_method request_headers response filter;
    response_filters filters request_method request_headers response
  end.

Definition apply_response_filters (response : ResponseHeader) (filters : list Filter)
    (request_method : option string) (request_headers : option RequestHeaders) :
    Res ResponseHeader :=
  response ← response_filters filters request_method request_headers response;
  apply_default_security_headers response.

Definition build_cors_preflight_response (filters : list Filter) (request_method : string)
    (request_headers : RequestHeaders) : Res (option ResponseHeader) :=
  if negb (is_cors_preflight_request (Some request_method) request_headers)
     || negb (existsb (fun filter => bool_decide (f_filter_type filter = "CORS")) filters)
  then mret None
  else
    response ← ResponseHeader_build 204;
    response ← rsp_insert "content-length" "0" response;
    response ← apply_response_filters response filters (Some request_method) (Some request_headers);
    mret (Some response).

Definition build_redirect_response (status_code : Z) (location : string) : Res ResponseHeader :=
  response ← ResponseHeader_build status_code;
  response ← rsp_insert "location" location response;
  rsp_insert "content-length" "0" response.

Fixpoint insert_direct_headers (headers : list HeaderOperation) (r : ResponseHeader) :
    Res ResponseHeader :=
  match headers with
  | [] => mret r
  | header :: headers =>
    r ← rsp_insert (ho_name header) (ho_value header) r; insert_direct_headers headers r
  end.

Definition build_direct_response (filter : DirectResponseFilter) :
    Res (ResponseHeader * option string) :=
  let status_code := normalize_status_code (dr_status_code filter) in
  let body := if Str.is_empty (dr_body filter) then None else Some (dr_body filter) in
  response ← ResponseHeader_build status_code;
  response ← insert_direct_headers (dr_headers filter) response;
  match body with
  | Some bytes =>
    response ← (if Str.is_empty (dr_content_type filter) then mret response
                else rsp_insert "content-type" (dr_content_type filter) response);
    response ← rsp_insert "content-length" (Str.to_string (Z.of_nat (String.length bytes))) response;
    mret (response, body)
  | None =>
    response ← rsp_insert "content-length" "0" response;
    mret (response, body)
  end.

Definition apply_url_rewrite (request : RequestHeader) (rewrite : UrlRewriteFilter)
    (matched_http_path : option MatchedHttpPath) : Res RequestHeader :=
  headers ← (if Str.is_empty (ur_hostname rewrite) then mret (rh_headers request)
             else insert_header "host" (ur_hostname rewrite) (rh_headers request));
  let request := mkRequestHeader (rh_method request) (rh_uri request) (rh_http2 request) headers in
  match ur_path rewrite with
  | Some modifier =>
    let rewritten :=
      rewrite_path_and_query (uri_path (rh_uri request)) (uri_query (rh_uri request)) modifier
        matched_http_path in
    uri ← ok_or (uri_set_raw_path (rh_uri request) rewritten) (Error_new INVALID_ROUTE_FILTER);
    mret (mkRequestHeader (rh_method request) uri (rh_http2 request) (rh_headers request))
  | None => mret request
  end.

Fixpoint apply_request_filters (request : RequestHeader) (filters : list Filter)
    (matched_http_path : option MatchedHttpPath) : Res RequestHeader :=
  match filters with
  | [] => mret request
  | filter :: filters =>
    request ←
      match f_url_rewrite filter with
      | Some rewrite => apply_url_rewrite request rewrite matched_http_path
      | None =>
        if bool_decide (f_filter_type filter = "RequestHeaderModifier") then
          match f_header_modifier filter with
          | Some modifier =>
            h ← apply_header_modifier (rh_headers request) modifier;
            mret (mkRequestHeader (rh_method request) (rh_uri request) (rh_http2 request) h)
          | None => mret request
          end
        else mret request
      end;
    apply_request_filters request filters matched_http_path
  end.

(** *** The location of a redirect *)

Definition request_scheme (session : Session) : string :=
  if is_some (ss_ssl session) then "https" else "http".

Definition redirect_hostname (session : Session) (request : RequestMeta)
    (redirect : RequestRedirectFilter) : string :=
  if negb (Str.is_empty (rr_hostname redirect)) then rr_hostname redirect
  else
    match rq_host request with
    | Some host => host
    | None =>
      default "localhost" ((fun addr => strip_port (PeerAddr_fmt addr)) <$> ss_server_addr session)
    end.

Definition request_port (session : Session) (request : RequestMeta) : Z :=
  if negb (bool_decide (rq_port request = 0)) then rq_port request
  else default 0 (ss_server_addr session ≫= inet_port).

Definition redirect_path_and_query (request_header : RequestHeader)
    (matched_http_path : MatchedHttpPath) (redirect : RequestRedirectFilter) : string :=
  let uri := rh_uri request_header in
  match rr_path redirect with
  | Some modifier =>
    rewrite_path_and_query (uri_path uri) (uri_query uri) modifier (Some matched_http_path)
  | None => default (uri_path uri) (uri_path_and_query uri)
  end.

Definition build_redirect_location (session : Session) (request : RequestMeta)
    (matched_http_path : MatchedHttpPath) (redirect : RequestRedirectFilter) : string :=
  let original_scheme := request_scheme session in
  let scheme := redirect_scheme original_scheme redirect in
  let host := redirect_hostname session request redirect in
  let port := redirect_port scheme original_scheme (request_port session request) redirect in
  let path_and_query := redirect_path_and_query (ss_request session) matched_http_path redirect in
  let authority := redirect_authority scheme host port in
  scheme +:+ "://" +:+ authority +:+ path_and_query.
End with_lib.

End HttpFilters.
