(* ===== verification/HttpFiltersFacts.v ===== *)
(** * What the HTTP filters guarantee

    The prefix rewrite replaces whole path elements, and the cross-origin headers
    that a response carries after the filter. *)

From Stdlib Require Import ZArith Lia Ascii.
From stdpp Require Import base gmap strings numbers list.
From S2P Require Import Prelude Strs IrTypes Matching RouteIndex Decimal IpAddr HttpTypes HttpFilters.

Local Open Scope string_scope.
Local Open Scope list_scope.
Local Open Scope Z_scope.

Module HttpFiltersFacts.
Import Matching IpAddr HttpTypes HttpFilters.

(** ** Paths as elements *)

(** The elements of a path after its leading slash: [/foo/] has [foo] and an
    empty one. *)
Definition elements (path : string) : list string := tail (Str.split "/" path).

(** The elements of a prefix or of a replacement: slashes at its end, and the
    absence of one at its start, do not count. *)
Definition prefix_elements (prefix : string) : list string :=
  let p := Str.trim_end_char "/" prefix in
  if Str.is_empty p then [] else if Str.starts_with "/" p then elements p else Str.split "/" p.

Fixpoint slashed (l : list string) : string :=
  match l with [] => EmptyString | s :: l => String "/" (s +:+ slashed l) end.

Definition path_of (l : list string) : string := if_empty (slashed l) "/".

Lemma slashed_app l k : slashed (l ++ k) = slashed l +:+ slashed k.
Proof.
  induction l as [|s l IH]; simpl; [done|].
  by rewrite Str.app_cons, IH, Str.append_assoc.
Qed.

Lemma slashed_split s : slashed (Str.split "/" s) = String "/" s.
Proof.
  rewrite <- (Str.join_split "/" s) at 2. pose proof (Str.split_not_nil "/" s) as Hn.
  induction (Str.split "/" s) as [|f fs IH]; [done|]. destruct fs as [|g fs].
  - simpl. by rewrite Str.append_nil_r.
  - rewrite Str.join_cons by done. rewrite <- IH by done. done.
Qed.

Lemma elements_slash t : elements (String "/" t) = Str.split "/" t.
Proof. done. Qed.

Lemma slashed_elements t : slashed (elements (String "/" t)) = String "/" t.
Proof. rewrite elements_slash. apply slashed_split. Qed.

(** ** Trimmed prefixes *)

Lemma trim_end_split c s : exists t,
  s = Str.trim_end_char c s +:+ t /\ (t = EmptyString \/ exists u, t = String c u).
Proof.
  induction s as [|a s (t & Hs & Ht)]; simpl; [by exists EmptyString; eauto|].
  destruct (Str.trim_end_char c s) as [|b u] eqn:E.
  - rewrite Str.app_nil_l in Hs. subst t. case_bool_decide as Ha.
    + subst a. exists (String c s). eauto.
    + exists s. by rewrite Str.app_cons, Str.app_nil_l.
  - exists t. rewrite Str.app_cons, <- Hs. eauto.
Qed.

Lemma trim_end_not_end c s u : Str.trim_end_char c s <> u +:+ String c EmptyString.
Proof.
  revert u. induction s as [|a s IH]; simpl; intros u; [by destruct u|].
  destruct (Str.trim_end_char c s) as [|b t] eqn:E.
  - case_bool_decide as Ha; [by destruct u|]. destruct u as [|x u]; [intros [= ?]; congruence|].
    rewrite Str.app_cons. intros [= _ Hn]. by destruct u.
  - destruct u as [|x u]; rewrite ?Str.app_nil_l, ?Str.app_cons; [done|].
    intros [= _ Hn]. by apply (IH u).
Qed.

Lemma trim_end_single c s : Str.trim_end_char c s <> String c EmptyString.
Proof. exact (trim_end_not_end c s EmptyString). Qed.

Definition at_boundary (r : string) : Prop := r = EmptyString \/ exists u, r = String "/" u.

(** A matched path continues the trimmed prefix at a slash. *)
Lemma matched_boundary prefix path t : path = String "/" t ->
  matches_path_prefix prefix path = true ->
  exists r, path = Str.trim_end_char "/" prefix +:+ r /\ at_boundary r.
Proof.
  intros Hp Hm. destruct (trim_end_split "/" prefix) as (q & Hq & Hb). unfold at_boundary.
  unfold matches_path_prefix in Hm. case_bool_decide as H1.
  { subst prefix. exists path. simpl. rewrite Str.app_nil_l. eauto. }
  case_bool_decide as H2; [by exists q; split; [congruence|]|].
  assert (exists u, path = prefix +:+ u /\ (q = EmptyString -> exists v, u = String "/" v))
    as (u & Hu & Hv).
  { destruct (Str.ends_with "/" prefix) eqn:E.
    - apply Str.starts_with_iff in Hm as [u Hu]. exists u. split; [done|]. intros ->.
      apply Str.ends_with_iff in E as [v Hv]. rewrite Str.append_nil_r in Hq.
      exfalso. by apply (trim_end_not_end "/" prefix v); rewrite <- Hq.
    - apply andb_true_iff in Hm as [[u Hu]%Str.starts_with_iff Hb']. exists u. split; [done|].
      intros _. apply bool_decide_eq_true in Hb'. rewrite Hu, Str.byte_at_app in Hb'.
      destruct u as [|a v]; [done|]. simpl in Hb'. simplify_eq. eauto. }
  exists (q +:+ u). rewrite Str.append_assoc, <- Hq. split; [done|].
  destruct Hb as [->|[v ->]]; rewrite ?Str.app_nil_l, ?Str.app_cons; eauto.
Qed.

Lemma after_prefix prefix path r :
  path = Str.trim_end_char "/" prefix +:+ r -> r <> EmptyString \/ prefix <> "/" ->
  path_after_prefix path (normalize_prefix prefix) = Some r.
Proof.
  intros Hp Hr. unfold path_after_prefix, normalize_prefix. destruct (decide (prefix = "/")) as [->|H1].
  - simpl in Hp. rewrite Str.app_nil_l in Hp. subst r.
    rewrite !(bool_decide_eq_true_2 ("/" = "/")) by done. done.
  - rewrite (bool_decide_eq_false_2 (prefix = "/")) by done.
    rewrite bool_decide_eq_false_2 by apply trim_end_single. case_bool_decide as H2.
    + f_equal. apply (Str.app_inj_length (Str.trim_end_char "/" prefix) (Str.trim_end_char "/" prefix));
        [done|]. rewrite Str.append_nil_r. congruence.
    + by apply Str.strip_prefix_Some.
Qed.

Lemma elements_after prefix path r : Str.starts_with "/" prefix = true ->
  path = Str.trim_end_char "/" prefix +:+ r -> at_boundary r ->
  Str.trim_end_char "/" prefix <> EmptyString \/ r <> EmptyString ->
  slashed (drop (length (prefix_elements prefix)) (elements path)) = r.
Proof.
  intros Hs Hp Hr Hn. unfold prefix_elements.
  destruct (trim_end_split "/" prefix) as (q & Hq & _).
  destruct (Str.trim_end_char "/" prefix) as [|a p] eqn:E; simpl.
  - rewrite Str.app_nil_l in Hp. subst path. destruct Hr as [->|[u ->]]; [by destruct Hn|].
    simpl. apply slashed_elements.
  - assert (a = "/"%char) as ->.
    { apply Str.starts_with_iff in Hs as [u Hu]. rewrite Hu, !Str.app_cons in Hq. by simplify_eq. }
    rewrite elements_slash. subst path. rewrite Str.app_cons, elements_slash.
    destruct Hr as [->|[u ->]].
    + rewrite Str.append_nil_r, drop_all. done.
    + rewrite Str.split_app, drop_app_length. apply slashed_split.
Qed.

(** The text of a replacement that is not empty. *)
Lemma normalized_elements replacement : replacement <> EmptyString ->
  normalize_replacement replacement = if_empty (slashed (prefix_elements replacement)) "/"
  /\ (slashed (prefix_elements replacement) <> EmptyString ->
      slashed (prefix_elements replacement) <> "/").
Proof.
  intros Hne. unfold normalize_replacement, prefix_elements.
  destruct (trim_end_split "/" replacement) as (q & Hq & Hb).
  pose proof (trim_end_single "/" replacement) as H1.
  destruct replacement as [|b rest]; [done|]. cbn [Str.is_empty].
  revert Hq H1. generalize (Str.trim_end_char "/" (String b rest)) as t. intros t Hq H1.
  destruct t as [|a t].
  - simpl. split; [|done]. rewrite Str.app_nil_l in Hq. subst q.
    destruct Hb as [?|[u [= -> ->]]]; [done|]. done.
  - rewrite Str.app_cons in Hq. simplify_eq. cbn [Str.is_empty].
    destruct (decide (a = "/"%char)) as [->|Ha].
    + assert (forall x, Str.starts_with "/" (String "/" x) = true) as Hs by done.
      rewrite !Hs, slashed_elements. by split.
    + assert (forall x, Str.starts_with "/" (String a x) = false) as Hs.
      { intros x. unfold Str.starts_with. simpl. by rewrite bool_decide_eq_false_2. }
      rewrite !Hs, slashed_split. split; [|done]. by rewrite Str.app_cons, Str.app_nil_l.
Qed.

Lemma if_empty_app s t : if_empty s "/" <> "/" -> if_empty (s +:+ t) "/" = s +:+ t.
Proof. by destruct s. Qed.

(** [rewrite_prefix_path] replaces whole path elements.  For a path that the
    prefix match accepts, the rewritten path has the elements of the replacement
    followed by the elements of the request path after those of the matched
    prefix; slashes at the end of the prefix or of the replacement make no
    difference, and a path without elements is the root. *)
Theorem prefix_rewrite_elements prefix path replacement t :
  path = String "/" t -> Str.starts_with "/" prefix = true ->
  matches_path_prefix prefix path = true ->
  rewrite_prefix_path path prefix replacement
  = path_of (prefix_elements replacement ++ drop (length (prefix_elements prefix)) (elements path)).
Proof.
  intros Hp Hs Hm. destruct (matched_boundary _ _ _ Hp Hm) as (r & Hr & Hb).
  assert (Hn : Str.trim_end_char "/" prefix <> EmptyString \/ r <> EmptyString).
  { destruct (decide (r = EmptyString)) as [->|]; [|auto]. left. intros E.
    rewrite E in Hr. subst path. done. }
  unfold rewrite_prefix_path. rewrite (after_prefix prefix path r Hr).
  2: { destruct Hn as [Hn|]; [right; intros ->; by destruct Hn|auto]. }
  unfold path_of. rewrite slashed_app, (elements_after _ _ _ Hs Hr Hb Hn).
  destruct (decide (replacement = EmptyString)) as [->|Hne].
  { destruct Hb as [->|[u ->]]; done. }
  destruct (normalized_elements replacement Hne) as [-> H1].
  destruct replacement as [|b rest]; [done|]. cbn [Str.is_empty].
  generalize dependent (slashed (prefix_elements (String b rest))). intros R H1.
  destruct Hb as [->|[u ->]]; cbn [Str.is_empty]; [by rewrite Str.append_nil_r|].
  destruct R as [|a R]; [done|]. cbn [if_empty Str.is_empty].
  rewrite bool_decide_eq_false_2 by (by apply H1). by case_bool_decide as E; [rewrite E|].
Qed.

Lemma prefix_rewrite_elements_witness :
  rewrite_prefix_path "/api/v1/users" "/api/" "/internal/"
  = path_of (prefix_elements "/internal/"
             ++ drop (length (prefix_elements "/api/")) (elements "/api/v1/users"))
  /\ rewrite_prefix_path "/api/v1/users" "/api/" "/internal/" = "/internal/v1/users".
Proof.
  split; [|vm_compute; reflexivity].
  apply (prefix_rewrite_elements "/api/" "/api/v1/users" "/internal/" "api/v1/users");
    [reflexivity|vm_compute; reflexivity|vm_compute; reflexivity].
Defined.

(** ** Cross-origin headers *)

Section cors.
Context `{HttpLibLaws}.

Definition values (name : string) (r : ResponseHeader) : list string := get_all name (rsp_headers r).

Lemma rsp_insert_values name value r r' other : rsp_insert name value r = inl r' ->
  values other r' = if Str.eq_ignore_ascii_case name other then [value] else values other r.
Proof.
  unfold rsp_insert, insert_header, values. destruct (hm_insert _ _ _) as [h|] eqn:E; simpl; [|done].
  intros [= <-]. simpl. by apply insert_get_all.
Qed.

Lemma rsp_append_values name value r r' other : rsp_append name value r = inl r' ->
  values other r'
  = if Str.eq_ignore_ascii_case name other then values other r ++ [value] else values other r.
Proof.
  unfold rsp_append, append_header, values. destruct (hm_append _ _ _) as [h|] eqn:E; simpl; [|done].
  intros [= <-]. simpl. by apply append_get_all.
Qed.

Lemma rsp_remove_values name r other :
  values other (rsp_remove name r)
  = if Str.eq_ignore_ascii_case name other then [] else values other r.
Proof. apply remove_get_all. Qed.

Lemma insert_or_remove_values name value r r' other : insert_or_remove name value r = inl r' ->
  values other r' = if Str.eq_ignore_ascii_case name other then option_list value else values other r.
Proof.
  destruct value as [value|]; simpl; [apply rsp_insert_values|].
  intros [= <-]. apply rsp_remove_values.
Qed.

(** What the filter says about the origin of a request. *)
Lemma cors_allow_origin_cases cors origin headers allow :
  cors_allow_origin cors origin headers = Some allow ->
  (allow = origin
   /\ ("*" ∈ cors_allow_origins cors
       \/ exists allowed, allowed ∈ cors_allow_origins cors /\ origin_matches allowed origin = true))
  \/ (allow = "*" /\ "*" ∈ cors_allow_origins cors /\ cors_allow_credentials cors = false
      /\ request_has_credentials headers = false).
Proof.
  unfold cors_allow_origin. case_bool_decide as Hw.
  - destruct (cors_allow_credentials cors), (request_has_credentials headers); simpl;
      intros [= <-]; auto 10.
  - destruct (existsb _ _) eqn:E; [|done]. intros [= <-]. left. split; [done|]. right.
    apply existsb_exists in E as (allowed & Hin & Hm). exists allowed.
    by split; [apply list_elem_of_In|].
Qed.

Definition request_origin (headers : RequestHeaders) : option string := headers !! "origin" ≫= head.

Definition preflight_values (method : option string) (headers : RequestHeaders)
    (value : option string) : list string :=
  if is_cors_preflight_request method headers then option_list value else [].

(** Every lookup in the result of the filter, by the last write that reaches it. *)
Lemma cors_filter_values response cors method headers origin allow response' other :
  headers !! "origin" ≫= head = Some origin -> cors_allow_origin cors origin headers = Some allow ->
  apply_cors_filter response cors method (Some headers) = inl response' ->
  let named name := Str.eq_ignore_ascii_case name other in
  values other response'
  = if named "access-control-max-age"
    then preflight_values method headers (Str.to_string <$> cors_max_age cors)
    else if named "access-control-allow-headers"
    then preflight_values method headers (cors_allowed_headers cors headers)
    else if named "access-control-allow-methods"
    then preflight_values method headers (cors_allowed_methods cors headers)
    else if named "access-control-expose-headers"
    then option_list (if bool_decide (cors_expose_headers cors = []) then None
                      else Some (join_header_values (cors_expose_headers cors)))
    else if named "access-control-allow-credentials"
    then option_list (if cors_allow_credentials cors then Some "true" else None)
    else
      let base := if named "access-control-allow-origin" then [allow] else values other response in
      if named "vary" && negb (bool_decide (allow = "*")) then base ++ ["Origin"] else base.
Proof.
  intros Ho Ha Hf. unfold apply_cors_filter in Hf. rewrite Ho, Ha in Hf.
  apply res_bind_inl in Hf as (r1 & E1 & Hf). apply res_bind_inl in Hf as (r2 & E2 & Hf).
  apply res_bind_inl in Hf as (r3 & E3 & Hf). apply res_bind_inl in Hf as (r4 & E4 & Hf).
  assert (H2 : values other r2
    = if Str.eq_ignore_ascii_case "vary" other && negb (bool_decide (allow = "*"))
      then values other r1 ++ ["Origin"] else values other r1).
  { destruct (bool_decide (allow = "*")); cbn [negb] in *.
    - rewrite andb_false_r. injection E2 as ->. done.
    - rewrite andb_true_r. by apply rsp_append_values. }
  rewrite (rsp_insert_values _ _ _ _ other E1) in H2. cbv beta zeta. rewrite <- H2.
  rewrite <- (insert_or_remove_values _ _ _ _ other E3).
  rewrite <- (insert_or_remove_values _ _ _ _ other E4). unfold preflight_values.
  destruct (is_cors_preflight_request method headers).
  - apply res_bind_inl in Hf as (r5 & E5 & Hf). apply res_bind_inl in Hf as (r6 & E6 & Hf).
    rewrite (insert_or_remove_values _ _ _ _ other Hf), (insert_or_remove_values _ _ _ _ other E6),
      (insert_or_remove_values _ _ _ _ other E5). done.
  - injection Hf as <-. by rewrite !rsp_remove_values.
Qed.

(** [apply_cors_filter].  A response to a request without an origin, or from
    an origin that is not allowed, is left as it is.  Otherwise the response
    names exactly one origin: the origin of the request, or the wildcard, which is
    sent only when it is configured and neither the filter nor the request carries
    credentials; credentials are allowed exactly when the filter says so; what
    may be asked for is listed for preflight requests only; and every other
    header but [vary] keeps its values. *)
Theorem cors_response_headers response cors method headers response' :
  apply_cors_filter response cors method (Some headers) = inl response' ->
  match request_origin headers ≫= fun origin => cors_allow_origin cors origin headers with
  | None => response' = response
  | Some allow =>
    values "access-control-allow-origin" response' = [allow]
    /\ (request_origin headers = Some allow
        \/ (allow = "*" /\ "*" ∈ cors_allow_origins cors /\ cors_allow_credentials cors = false
            /\ request_has_credentials headers = false))
    /\ values "access-control-allow-credentials" response'
       = (if cors_allow_credentials cors then ["true"] else [])
    /\ values "access-control-allow-methods" response'
       = preflight_values method headers (cors_allowed_methods cors headers)
    /\ values "access-control-allow-headers" response'
       = preflight_values method headers (cors_allowed_headers cors headers)
    /\ (forall name, existsb (fun own => Str.eq_ignore_ascii_case own name)
                  ["access-control-max-age"; "access-control-allow-headers";
                   "access-control-allow-methods"; "access-control-expose-headers";
                   "access-control-allow-credentials"; "access-control-allow-origin"; "vary"] = false ->
        values name response' = values name response)
  end.
Proof.
  intros Hf. destruct (request_origin headers) as [origin|] eqn:Ho; cbn [mbind option_bind];
    unfold request_origin in Ho.
  2: { unfold apply_cors_filter in Hf. rewrite Ho in Hf. by injection Hf. }
  destruct (cors_allow_origin cors origin headers) as [allow|] eqn:Ha.
  2: { unfold apply_cors_filter in Hf. rewrite Ho, Ha in Hf. by injection Hf. }
  pose proof (fun other => cors_filter_values _ _ _ _ _ _ _ other Ho Ha Hf) as Hv.
  split_and!.
  - by rewrite Hv.
  - destruct (cors_allow_origin_cases _ _ _ _ Ha) as [[-> _]|?]; auto.
  - rewrite Hv. simpl. by destruct (cors_allow_credentials cors).
  - by rewrite Hv.
  - by rewrite Hv.
  - intros name Hn. rewrite Hv. simpl in *.
    repeat (apply orb_false_iff in Hn as [-> Hn]). done.
Qed.
End cors.

Section cors_example.
#[local] Existing Instance list_http.
#[local] Existing Instance list_http_laws.

Definition demo_cors : CorsFilter :=
  mkCorsFilter ["https://*.example.com"] ["GET"; "PUT"] ["*"] [] true (Some 600).
Definition demo_origin : RequestHeaders :=
  {["origin" := ["https://app.example.com"]; "access-control-request-method" := ["PUT"];
    "access-control-request-headers" := ["x-token"]]}.
Definition demo_response : ResponseHeader :=
  mkResponseHeader 204 [("access-control-allow-origin", "*"); ("server", "backend")].

Definition demo_cors_result : ResponseHeader :=
  match apply_cors_filter demo_response demo_cors (Some "OPTIONS") (Some demo_origin) with
  | inl r => r
  | inr _ => demo_response
  end.

Lemma cors_response_headers_witness :
  values "access-control-allow-origin" demo_cors_result = ["https://app.example.com"]
  /\ values "access-control-allow-credentials" demo_cors_result = ["true"]
  /\ values "access-control-allow-headers" demo_cors_result = ["x-token"]
  /\ values "server" demo_cors_result = ["backend"].
Proof.
  assert (Hf : apply_cors_filter demo_response demo_cors (Some "OPTIONS") (Some demo_origin)
               = inl demo_cors_result) by (vm_compute; reflexivity).
  pose proof (cors_response_headers _ _ _ _ _ Hf) as Hr.
  destruct Hr as (H1 & _ & H3 & _ & H5 & H6).
  split_and!; [exact H1|exact H3| |].
  - rewrite H5. vm_compute. reflexivity.
  - rewrite H6 by (vm_compute; reflexivity). vm_compute. reflexivity.
Defined.
End cors_example.

End HttpFiltersFacts.
