(* ===== verification/JwtAuth.v ===== *)
(** * JWT validators

    [ntgw-http/src/filters/jwt.rs] and the table of validators of
    [proxy/filters/jwt.rs]: the keys of a JWKS endpoint, their cache, and the
    validation of a token.  The [jsonwebtoken] crate and the requests to the
    endpoint are the class [JwtLib].

    [JWT_VALIDATORS] is one table for the process, and a validator is shared by
    everyone that found it there; the state holds the table, the number of clock
    readings and the number of requests to endpoints. *)

From Stdlib Require Import ZArith Lia Ascii.
From stdpp Require Import base gmap strings numbers list.
From S2P Require Import Prelude Strs IrTypes Records.

Local Open Scope string_scope.
Local Open Scope list_scope.
Local Open Scope Z_scope.
Local Open Scope record_scope.

Module JwtAuth.

Inductive JwtError :=
| MissingToken
| InvalidToken (msg : string)
| NoMatchingKey (kid : string)
| Expired
| JwksFetchFailed (msg : string).

Definition JwtError_fmt (self : JwtError) : string :=
  match self with
  | MissingToken => "missing JWT token"
  | InvalidToken msg => "invalid JWT token: " +:+ msg
  | NoMatchingKey kid => "no matching JWK for kid: " +:+ kid
  | Expired => "JWT token expired"
  | JwksFetchFailed msg => "JWKS fetch failed: " +:+ msg
  end.

Record JwkKey := mkJwkKey { jwk_kid : string; jwk_kty : string; jwk_n : string; jwk_e : string }.

(** A claim that is a string, or the text of another value. *)
Inductive ClaimValue := ClaimString (s : string) | ClaimOther (text : string).

(** The result of [decode]; the claims may be something else than an object. *)
Inductive Decoded := DecodedClaims (claims : option (StringMap ClaimValue)) | ExpiredSignature
                   | DecodeFailed (msg : string).

Class JwtLib := {
  DecodingKey : Type;
  from_rsa_components : string -> string -> option DecodingKey;
  (** [decode_header]: the [kid] of the header, or the text of the error. *)
  decode_header : string -> option string + string;
  (** [decode] with RS256, expiry, and the given issuer and audience. *)
  decode : string -> DecodingKey -> option string -> option string -> Decoded;
  (** The keys that the n-th request to an endpoint brings, or why it fails. *)
  request_jwks : string -> nat -> list JwkKey + string;
}.

Section with_lib.
Context `{JwtLib, Clock}.

Record JwtValidator := mkJwtValidator {
  jv_jwks_url : string;
  jv_issuer : option string;
  jv_audience : option string;
  jv_keys : StringMap DecodingKey;
  jv_fetched_at : Instant;
  jv_cache_ttl : Duration;
}.

Record JwtState := mkJwtState {
  js_validators : StringMap JwtValidator;
  js_ticks : nat;
  js_requests : nat;
}.

Definition JM (A : Type) : Type := JwtState -> A * JwtState.
#[global] Instance JM_ret : MRet JM := fun A x s => (x, s).
#[global] Instance JM_bind : MBind JM := fun A B f m s => let '(x, s) := m s in f x s.

Definition jwt_now : JM Instant := fun s =>
  (instant_at (js_ticks s), mkJwtState (js_validators s) (S (js_ticks s)) (js_requests s)).
Definition put_validator (url : string) (v : JwtValidator) : JM unit := fun s =>
  (tt, mkJwtState (<[url := v]> (js_validators s)) (js_ticks s) (js_requests s)).

Definition secs (n : Z) : Duration := n * 1000000000.

(** Building the HTTP client is taken to succeed. *)
Definition JwtValidator_new (filter : JwtAuthFilter) : JM JwtValidator :=
  let cache_ttl := secs (default 3600 (jwf_cache_ttl_secs filter)) in
  now ← jwt_now;
  mret {| jv_jwks_url := jwf_jwks_url filter;
          jv_issuer := jwf_issuer filter;
          jv_audience := jwf_audience filter;
          jv_keys := ∅;
          jv_fetched_at := now - cache_ttl;
          jv_cache_ttl := cache_ttl |}.

Definition get_or_create_validator (jwt_auth : JwtAuthFilter) : JM JwtValidator := fun s =>
  match js_validators s !! jwf_jwks_url jwt_auth with
  | Some validator => (validator, s)
  | None =>
    (validator ← JwtValidator_new jwt_auth;
     _ ← put_validator (jwf_jwks_url jwt_auth) validator;
     mret validator) s
  end.

(** The RSA keys of a response; a later key replaces one of the same [kid]. *)
Definition rsa_keys (keys : list JwkKey) : StringMap DecodingKey :=
  foldl (fun m key =>
    if bool_decide (jwk_kty key = "RSA") then
      match from_rsa_components (jwk_n key) (jwk_e key) with
      | Some decoding_key => <[jwk_kid key := decoding_key]> m
      | None => m
      end
    else m) ∅ keys.

(** [fetch_and_cache_jwks] of the validator stored under [url]. *)
Definition fetch_and_cache_jwks (url : string) (v : JwtValidator) :
    JM (JwtValidator + JwtError) := fun s =>
  let response := request_jwks (jv_jwks_url v) (js_requests s) in
  let s := mkJwtState (js_validators s) (js_ticks s) (S (js_requests s)) in
  match response with
  | inr msg => (inr (JwksFetchFailed msg), s)
  | inl jwks =>
    let keys := rsa_keys jwks in
    if bool_decide (keys = ∅)
    then (inr (JwksFetchFailed "no valid RSA keys in JWKS response"), s)
    else
      (now ← jwt_now;
       let v := mkJwtValidator (jv_jwks_url v) (jv_issuer v) (jv_audience v) keys now
                  (jv_cache_ttl v) in
       _ ← put_validator url v;
       mret (inl v)) s
  end.

Definition needs_refresh (v : JwtValidator) : JM bool :=
  now ← jwt_now; mret (jv_cache_ttl v <=? Z.max 0 (now - jv_fetched_at v)).

Definition refresh_if_needed (url : string) (v : JwtValidator) : JM (JwtValidator + JwtError) :=
  refresh ← needs_refresh v;
  if refresh : bool then fetch_and_cache_jwks url v else mret (inl v).

Definition get_key_with_refresh (url : string) (v : JwtValidator) (kid : string) :
    JM (DecodingKey + JwtError) :=
  match jv_keys v !! kid with
  | Some key => mret (inl key)
  | None =>
    r ← fetch_and_cache_jwks url v;
    mret (match r with
          | inl v => match jv_keys v !! kid with Some key => inl key | None => inr (NoMatchingKey kid) end
          | inr e => inr e
          end)
  end.

Definition claim_headers (claims : StringMap ClaimValue) (mappings : list ClaimToHeader) :
    StringMap string :=
  foldl (fun headers mapping =>
    match claims !! cth_claim mapping with
    | Some (ClaimString s) => <[cth_header mapping := s]> headers
    | Some (ClaimOther text) => <[cth_header mapping := text]> headers
    | None => headers
    end) ∅ mappings.

(** [validate] of the validator stored under [url]. *)
Definition validate (url : string) (v : JwtValidator) (token : string)
    (claims_to_headers : list ClaimToHeader) : JM (StringMap string + JwtError) :=
  if Str.is_empty token then mret (inr MissingToken)
  else
    r ← refresh_if_needed url v;
    match r with
    | inr e => mret (inr e)
    | inl v =>
      match decode_header token with
      | inr e => mret (inr (InvalidToken ("failed to decode header: " +:+ e)))
      | inl None => mret (inr (InvalidToken "token header missing 'kid' claim"))
      | inl (Some kid) =>
        r ← get_key_with_refresh url v kid;
        mret (match r with
              | inr e => inr e
              | inl key =>
                match decode token key (jv_issuer v) (jv_audience v) with
                | ExpiredSignature => inr Expired
                | DecodeFailed e => inr (InvalidToken e)
                | DecodedClaims claims =>
                  inl (match claims with
                       | Some claims => claim_headers claims claims_to_headers
                       | None => ∅
                       end)
                end
              end)
      end
    end.

(** What a route does with a token: find its validator and ask it. *)
Definition check_token (jwt_auth : JwtAuthFilter) (token : string) :
    JM (StringMap string + JwtError) :=
  validator ← get_or_create_validator jwt_auth;
  validate (jwf_jwks_url jwt_auth) validator token (jwf_claims_to_headers jwt_auth).

(** ** What an accepted token is *)

(** The validator of the URL, if there is one, was made for this issuer and
    audience. *)
Definition validator_agrees (s : JwtState) (filter : JwtAuthFilter) : Prop :=
  forall v, js_validators s !! jwf_jwks_url filter = Some v ->
    jv_issuer v = jwf_issuer filter /\ jv_audience v = jwf_audience filter.

Lemma fetch_keeps_claims url v s v' s' : fetch_and_cache_jwks url v s = (inl v', s') ->
  jv_issuer v' = jv_issuer v /\ jv_audience v' = jv_audience v.
Proof.
  unfold fetch_and_cache_jwks. destruct (request_jwks _ _) as [jwks|msg]; [|done].
  case_bool_decide; [done|]. cbn. by intros [= <- _].
Qed.

Lemma validate_accepts url v token mappings s headers s' :
  validate url v token mappings s = (inl headers, s') ->
  exists key claims, decode token key (jv_issuer v) (jv_audience v) = DecodedClaims claims
  /\ headers = match claims with Some claims => claim_headers claims mappings | None => ∅ end.
Proof.
  unfold validate, mbind, JM_bind. destruct (Str.is_empty token); [done|].
  destruct (refresh_if_needed url v s) as [[v'|e] s2] eqn:E; [|done].
  assert (Hv : jv_issuer v' = jv_issuer v /\ jv_audience v' = jv_audience v).
  { unfold refresh_if_needed, mbind, JM_bind in E. destruct (needs_refresh v s) as [[] s1];
      [by eapply fetch_keeps_claims|by injection E as <- _]. }
  destruct (decode_header token) as [[kid|]|msg]; [|done..].
  destruct (get_key_with_refresh url v' kid s2) as [[key|e] s3]; [|done].
  destruct Hv as [-> ->].
  destruct (decode token key _ _) as [claims| |msg] eqn:Ed; [|done..].
  intros [= <- _]. eauto.
Qed.


(** A later filter with the same endpoint uses the validator of the first,
    whatever its issuer and audience are. *)
Lemma validator_is_reused first second s : jwf_jwks_url first = jwf_jwks_url second ->
  js_validators s !! jwf_jwks_url first = None ->
  let '(v, s1) := get_or_create_validator first s in
  get_or_create_validator second s1 = (v, s1) /\ jv_audience v = jwf_audience first.
Proof.
  intros Hu Hn. unfold get_or_create_validator. rewrite Hn.
  unfold JwtValidator_new, put_validator, jwt_now, mbind, mret, JM_bind, JM_ret.
  cbn [js_validators jv_audience]. rewrite <- Hu, lookup_insert_eq. done.
Qed.
End with_lib.

(** ** Examples *)
Section example.

(** Tokens of the form [kid:issuer:audience], and one key. *)
#[local] Instance demo_jwt : JwtLib := {|
  DecodingKey := unit;
  from_rsa_components _ _ := Some tt;
  decode_header token := inl (fst <$> Str.split_once ":"%char token);
  decode token _ issuer audience :=
    match Str.split_once ":"%char token with
    | Some (_, rest) =>
      match Str.split_once ":"%char rest with
      | Some (iss, aud) =>
        if bool_decide (default iss issuer = iss) && bool_decide (default aud audience = aud)
        then DecodedClaims (Some {[ "aud" := ClaimString aud ]}) else DecodeFailed "InvalidAudience"
      | None => DecodeFailed "InvalidToken"
      end
    | None => DecodeFailed "InvalidToken"
    end;
  request_jwks _ _ := inl [mkJwkKey "k1" "RSA" "n" "e"];
|}.
#[local] Instance demo_clock : Clock := fun t => Z.of_nat t * 1000000000.

Definition demo_filter (audience : string) : JwtAuthFilter :=
  mkJwtAuthFilter "https://idp/jwks" (Some "idp") (Some audience) "authorization" "Bearer "
    [mkClaimToHeader "aud" "x-audience"] None.

Definition demo_state : JwtState := mkJwtState ∅ 0 0.


(** The table of validators is indexed by the JWKS endpoint only.  Two routes
    that use the same endpoint with different audiences share the validator of
    the route that was used first, so the second route accepts a token that was
    issued for the first one and rejects one that was issued for itself. *)
Theorem jwt_audience_of_first_route :
  let s := (check_token (demo_filter "orders") "k1:idp:orders" demo_state).2 in
  (exists headers, (check_token (demo_filter "admin") "k1:idp:orders" s).1 = inl headers)
  /\ (check_token (demo_filter "admin") "k1:idp:admin" s).1 = inr (InvalidToken "InvalidAudience")
  /\ (check_token (demo_filter "admin") "k1:idp:orders" demo_state).1 = inr (InvalidToken "InvalidAudience").
Proof. split_and!; [eexists; vm_compute; reflexivity|vm_compute; reflexivity..]. Qed.
End example.

End JwtAuth.
