(* ===== verification/HttpBackend.v ===== *)
(** * Connections to backends

    [ntgw-http/src/proxy/selection.rs], [backend.rs], [backend/tls_validation.rs],
    [backend/client_cert.rs] and the caches of [proxy/cache.rs]: how a selected
    backend becomes the settings of a connection, and the peer that is connected
    to.  Certificates, keys and hashes are the class [TlsLib]; the options that a
    new peer starts with are [PeerDefaults].

    Three caches are shared by requests: the parsed client certificates and TLS
    validations of the process, and the settings of the thread that serves the
    request, which hold for one snapshot. *)

From Stdlib Require Import ZArith Lia Ascii.
From stdpp Require Import base gmap strings numbers list.
From S2P Require Import Prelude Strs IrTypes Records Matching HostIndex EndpointRuntime Spread RouteIndex RuntimeIds Snapshot Resolution StreamSelection HttpFastPath IpAddr HttpTypes.

Local Open Scope string_scope.
Local Open Scope list_scope.
Local Open Scope Z_scope.
Local Open Scope record_scope.

Class TlsLib := {
  X509 : Type;
  PKey : Type;
  (** [X509::stack_from_pem], [PKey::private_key_from_pem]; [None] is an error. *)
  stack_from_pem : string -> option (list X509);
  private_key_from_pem : string -> option PKey;
  (** The DNS names and URIs among the subject alternative names. *)
  x509_dns_names : X509 -> list string;
  x509_uris : X509 -> list string;
  sha256_digest : string -> string;
  (** [DefaultHasher] on the key of a TLS validation. *)
  validation_hash : string * bool * string * string * string * string -> Z;
}.

Module HttpBackend.
Import EndpointRuntime RuntimeIds Snapshots IpAddr HttpTypes HttpFastPath.

(** ** Protocols and timeouts *)

Definition protocol_in (protocol : option string) (names : list string) : bool :=
  bool_decide (Str.to_ascii_uppercase (default "" protocol) ∈ names).

Definition is_http2_backend_protocol (protocol : option string) : bool :=
  protocol_in protocol ["GRPC"; "GRPCS"; "H2C"; "HTTP2"; "HTTP/2"].

Definition is_tls_backend_protocol (protocol : option string) : bool :=
  protocol_in protocol ["HTTPS"; "GRPCS"].

Definition route_request_timeout (timeouts : RouteTimeouts) : option Duration :=
  match rt_backend_request timeouts with Some d => Some d | None => rt_request timeouts end.

Definition nonzero (timeout : Duration) : option Duration :=
  if bool_decide (timeout = 0) then None else Some timeout.

Definition effective_request_timeout (policy : option BackendPolicy)
    (route_timeouts : option RouteTimeouts) : option Duration :=
  match route_timeouts ≫= route_request_timeout with
  | Some route_timeout => nonzero route_timeout
  | None => timeout ← policy ≫= bp_request_timeout; nonzero timeout
  end.

Definition from_millis (ms : Z) : Duration := ms * 1000000.

Definition policy_timeout (route_policy : option RoutePolicyConfig)
    (field : RoutePolicyTimeoutConfig -> option Z) : option Z :=
  rp ← route_policy; t ← rpo_timeout rp; field t.

Definition effective_request_timeout_with_route_policy (route_policy : option RoutePolicyConfig)
    (policy : option BackendPolicy) (route_timeouts : option RouteTimeouts) : option Duration :=
  match policy_timeout route_policy rpt_backend_request with
  | Some ms => if 0 <? ms then Some (from_millis ms)
               else effective_request_timeout policy route_timeouts
  | None => effective_request_timeout policy route_timeouts
  end.

(** [selected_backend_from_http_route] *)
Definition selected_backend_from_http_route (route : SelectedHttpRoute) (access_log_enabled : bool) :
    option SelectedBackend + BackendSelectionError :=
  match shr_backend route, shr_backend_name route, shr_backend_error route with
  | Some backend, Some backend_name, _ =>
    inl (Some {| sb_route_kind := KindHttp;
                 sb_route_name := shr_route_name route;
                 sb_route_namespace := shr_route_namespace route;
                 sb_rule_index := shr_rule_index route;
                 sb_route_annotations := if access_log_enabled then shr_route_annotations route else ∅;
                 sb_listener_name := shr_listener_name route;
                 sb_listener_protocol := shr_listener_protocol route;
                 sb_backend := backend;
                 sb_backend_name := backend_name;
                 sb_filters := shr_filters route;
                 sb_matched_http_path := Some (shr_matched_http_path route);
                 sb_timeouts := shr_timeouts route;
                 sb_retry := shr_retry route;
                 sb_session_persistence := shr_session_persistence route;
                 sb_backend_tls := shr_backend_tls route;
                 sb_route_policy := shr_route_policy route |})
  | _, _, Some err => inr err
  | _, _, None => inl None
  end.

Definition error_for_backend_selection (error : BackendSelectionError) : Error :=
  match error with
  | InvalidBackendRefs => Error_new (Named "InvalidBackendRefs")
  | NoHealthyBackends => Error_new (Named "NoHealthyBackend")
  end.

(** ** Names of a TLS backend *)

Definition backend_tls_service_name (backend_name : string) : option string :=
  '(namespace, cluster_name) ← Str.split_once "/" backend_name;
  '(service_name, _) ← Str.rsplit_once ":" cluster_name;
  if Str.is_empty namespace || Str.is_empty service_name then None
  else Some (service_name +:+ "." +:+ namespace +:+ ".svc").

Definition backend_tls_sni_name_for_backend (backend_name : string)
    (validation : option BackendTlsValidation) : option string :=
  match validation with
  | Some validation =>
    if Str.is_empty (btv_hostname validation) then backend_tls_service_name backend_name
    else Some (btv_hostname validation)
  | None => backend_tls_service_name backend_name
  end.

Definition normalize_backend_tls_hostname (value : string) : string :=
  Str.to_ascii_lowercase (Str.trim_end_char "." (Str.trim value)).

(** [host[len - suffix_len - 1]] is a dot. *)
Definition wildcard_backend_tls_hostname_matches (pattern host : string) : bool :=
  match Str.strip_prefix "*." pattern with
  | None => false
  | Some suffix =>
    negb (bool_decide (host = suffix)) && Str.ends_with suffix host
    && bool_decide (Str.byte_at (String.length host - (String.length suffix + 1)) host
                    = Some "."%char)
  end.

Definition hostname_subject_alt_name_matches (pattern expected : string) : bool :=
  bool_decide (pattern = expected) || wildcard_backend_tls_hostname_matches pattern expected.

Section tls.
Context `{TlsLib}.

Definition presented_hostnames (certificate : X509) : list string :=
  List.filter (fun name => negb (Str.is_empty name))
    (normalize_backend_tls_hostname <$> x509_dns_names certificate).

(** The scan of the configured names: it ends at the first name that the
    certificate has, or at the first entry that is invalid. *)
Fixpoint any_subject_alt_name (certificate : X509) (items : list BackendSubjectAltName) :
    bool + string :=
  match items with
  | [] => inl false
  | item :: items =>
    if Str.is_empty (san_value item)
    then inr "backend TLS subjectAltNames entries must not be empty"
    else if bool_decide (san_kind item = "Hostname") then
      let expected := normalize_backend_tls_hostname (san_value item) in
      if Str.is_empty expected
      then inr "backend TLS Hostname subjectAltName entries must not be empty"
      else if existsb (fun presented => hostname_subject_alt_name_matches presented expected)
                (presented_hostnames certificate)
      then inl true else any_subject_alt_name certificate items
    else if bool_decide (san_kind item = "URI") then
      if existsb (fun presented => bool_decide (presented = san_value item)) (x509_uris certificate)
      then inl true else any_subject_alt_name certificate items
    else inr ("unsupported backend TLS subjectAltName type: " +:+ san_kind item)
  end.

Definition backend_certificate_matches_subject_alt_names (certificate : X509)
    (subject_alt_names : list BackendSubjectAltName) : bool + string :=
  if bool_decide (length subject_alt_names = 0%nat) then inl true
  else any_subject_alt_name certificate subject_alt_names.

(** The hook that runs when a handshake is complete: the failure that it leaves
    in the connection. *)
Definition subject_alt_name_failure (expected : list BackendSubjectAltName)
    (peer_certificate : option X509) : option string :=
  match peer_certificate with
  | None => Some "backend TLS handshake did not present a peer certificate"
  | Some certificate =>
    match backend_certificate_matches_subject_alt_names certificate expected with
    | inl true => None
    | inl false =>
      Some "backend certificate subjectAltName entries did not match any configured BackendTLSPolicy subjectAltNames"
    | inr message => Some message
    end
  end.

(** ** Caches *)

Definition CertKey : Type := list X509 * PKey.

Record CachedBackendTlsValidation := mkCachedBackendTlsValidation {
  cbv_ca_certificates : option (list X509);
  cbv_verify_hostname : bool;
  cbv_alternative_cn : option string;
  cbv_group_key : Z;
  (** The names that the hook expects. *)
  cbv_subject_alt_name_validation_hook : option (list BackendSubjectAltName);
}.

Inductive UpstreamPeerAddress := PeerIp (ip : IpAddr) | PeerHost (host : string).

Definition from_backend_address (address : string) : UpstreamPeerAddress :=
  match IpAddr_from_str address with Some ip => PeerIp ip | None => PeerHost address end.

Record SelectedBackendConfig := mkSelectedBackendConfig {
  sbc_runtime : EndpointRuntimeKey;
  sbc_runtime_ids : SelectedBackendRuntimeIds;
  sbc_peer_address : UpstreamPeerAddress;
  sbc_peer_port : Z;
  sbc_tls_enabled : bool;
  sbc_sni : string;
  sbc_use_http2 : bool;
  sbc_connect_timeout : option Duration;
  sbc_request_timeout : option Duration;
  sbc_backend_tls_validation : option CachedBackendTlsValidation;
  sbc_client_cert_key : option CertKey;
}.

(** The keys of the caches. *)
Definition ClientCertCacheKey : Type := string * string * string * string.
Definition BackendTlsValidationCacheKey : Type := string * bool * string * string * string * string.
Definition SelectedBackendConfigCacheKey : Type := Z * Z * Z * Z * Z * Z.

Record BackendState := mkBackendState {
  bst_client_certs : gmap ClientCertCacheKey (option CertKey);
  bst_tls_validations : gmap BackendTlsValidationCacheKey (option CachedBackendTlsValidation);
  bst_snapshot_id : string;
  bst_configs : gmap SelectedBackendConfigCacheKey SelectedBackendConfig;
}.

Definition BackendState_default : BackendState := mkBackendState ∅ ∅ "" ∅.

Definition BM (A : Type) : Type := BackendState -> Res A * BackendState.
#[global] Instance BM_ret : MRet BM := fun A x s => (inl x, s).
#[global] Instance BM_bind : MBind BM := fun A B f m s =>
  let '(r, s) := m s in
  match r with inl x => f x s | inr e => (inr e, s) end.
Definition bfail {A} (e : Error) : BM A := fun s => (inr e, s).

Lemma bm_bind_inl {A B} (m : BM A) (f : A -> BM B) s y s' :
  (m ≫= f) s = (inl y, s') <-> exists x s1, m s = (inl x, s1) /\ f x s1 = (inl y, s').
Proof.
  unfold mbind, BM_bind. destruct (m s) as [[x|e] s1]; split; [naive_solver| |done|naive_solver].
  by intros (x' & s1' & [= <- <-] & ?).
Qed.

(** *** TLS validation *)

Definition le_bytes64 (n : Z) : string :=
  String.string_of_list_ascii
    ((fun i => ascii_of_N (Z.to_N (Z.land (Z.shiftr n (8 * Z.of_nat i)) 255))) <$> seq 0 8).

Definition segment (s : string) : string := le_bytes64 (Z.of_nat (String.length s)) +:+ s.

Definition digest_text_segments (segments : list string) : string :=
  sha256_digest (foldr (fun s acc => segment s +:+ acc) "" segments).

Definition digest_subject_alt_names (items : list BackendSubjectAltName) : string :=
  sha256_digest
    (foldr (fun item acc => segment (san_kind item) +:+ segment (san_value item) +:+ acc) "" items).

Definition BackendTlsValidationCacheKey_new (validation : BackendTlsValidation) :
    BackendTlsValidationCacheKey :=
  (btv_hostname validation, btv_use_system_ca_certificates validation,
   digest_text_segments (btv_ca_pems validation),
   digest_subject_alt_names (btv_subject_alt_names validation),
   btv_min_version validation, btv_max_version validation).

Definition unsupported_backend_tls_validation : Error :=
  Error_new (Named "UnsupportedBackendTlsValidation").
Definition invalid_backend_tls_subject_alt_name : Error :=
  Error_new (Named "InvalidBackendTlsSubjectAltName").
Definition invalid_backend_client_certificate : Error :=
  Error_new (Named "InvalidBackendClientCertificate").

Definition parse_backend_ca_certificates (ca_pems : list string) : option (list X509) :=
  bundles ← mapM (fun pem =>
    items ← stack_from_pem pem;
    if bool_decide (length items = 0%nat) then None else Some items) ca_pems;
  let certificates := List.concat bundles in
  if bool_decide (length certificates = 0%nat) then None else Some certificates.

(** The certificates of the bundle, [None] inside for those of the system. *)
Definition ca_certificates_of (validation : BackendTlsValidation) : option (option (list X509)) :=
  if btv_use_system_ca_certificates validation then Some None
  else if bool_decide (btv_ca_pems validation = []) then None
  else Some <$> parse_backend_ca_certificates (btv_ca_pems validation).

Definition backend_tls_validation_group_key (validation : BackendTlsValidation) : Z :=
  let value := validation_hash (BackendTlsValidationCacheKey_new validation) in
  if value =? 0 then 1 else value.

Definition build_cached_backend_tls_validation (validation : BackendTlsValidation) :
    option CachedBackendTlsValidation :=
  ca_certificates ← ca_certificates_of validation;
  if negb (Str.is_empty (btv_min_version validation))
     || negb (Str.is_empty (btv_max_version validation))
  then None
  else
    let names := btv_subject_alt_names validation in
    let no_names := bool_decide (length names = 0%nat) in
    Some {| cbv_ca_certificates := ca_certificates;
            cbv_verify_hostname := no_names;
            cbv_alternative_cn := None;
            cbv_group_key := backend_tls_validation_group_key validation;
            cbv_subject_alt_name_validation_hook := if no_names then None else Some names |}.

(** A result is kept, errors included. *)
Definition cached_backend_tls_validation (validation : BackendTlsValidation) :
    BM CachedBackendTlsValidation := fun s =>
  let key := BackendTlsValidationCacheKey_new validation in
  match bst_tls_validations s !! key with
  | Some parsed => (ok_or parsed unsupported_backend_tls_validation, s)
  | None =>
    let parsed := build_cached_backend_tls_validation validation in
    (ok_or parsed unsupported_backend_tls_validation,
     mkBackendState (bst_client_certs s) (<[key := parsed]> (bst_tls_validations s))
       (bst_snapshot_id s) (bst_configs s))
  end.

Definition resolve_backend_tls_validation (validation : option BackendTlsValidation) :
    BM (option CachedBackendTlsValidation) :=
  match validation with
  | None => mret None
  | Some validation =>
    if Str.is_empty (btv_hostname validation) then bfail unsupported_backend_tls_validation
    else cached ← cached_backend_tls_validation validation; mret (Some cached)
  end.

(** *** Client certificates *)

Definition ClientCertCacheKey_new (secret : SecretMaterial) : ClientCertCacheKey :=
  (sec_namespace secret, sec_name secret, sha256_digest (sec_cert_pem secret),
   sha256_digest (sec_key_pem secret)).

Definition parse_client_cert_key (secret : SecretMaterial) : option CertKey :=
  if Str.is_empty (sec_cert_pem secret) || Str.is_empty (sec_key_pem secret) then None
  else
    certificates ← stack_from_pem (sec_cert_pem secret);
    if bool_decide (length certificates = 0%nat) then None
    else private_key ← private_key_from_pem (sec_key_pem secret); Some (certificates, private_key).

Definition cached_client_cert_key (secret : SecretMaterial) : BM CertKey := fun s =>
  let key := ClientCertCacheKey_new secret in
  match bst_client_certs s !! key with
  | Some parsed => (ok_or parsed invalid_backend_client_certificate, s)
  | None =>
    let parsed := parse_client_cert_key secret in
    (ok_or parsed invalid_backend_client_certificate,
     mkBackendState (<[key := parsed]> (bst_client_certs s)) (bst_tls_validations s)
       (bst_snapshot_id s) (bst_configs s))
  end.

Definition resolve_backend_client_cert_key (snapshot : Snapshot)
    (backend_tls : option BackendTlsConfig) : BM (option CertKey) :=
  match backend_tls with
  | None => mret None
  | Some backend_tls =>
    match Str.split_once "/" (btc_client_certificate_ref backend_tls) with
    | None => bfail invalid_backend_client_certificate
    | Some (namespace, name) =>
      match secret_material snapshot namespace name with
      | None => bfail invalid_backend_client_certificate
      | Some secret => key ← cached_client_cert_key secret; mret (Some key)
      end
    end
  end.

(** ** Settings of a connection *)

Definition sni_for (tls_enabled : bool) (backend_name : string)
    (tls_validation : option BackendTlsValidation) : string :=
  if tls_enabled then default "" (backend_tls_sni_name_for_backend backend_name tls_validation)
  else "".

Definition selected_backend_config_from_parts (current : Snapshot) (selected : SelectedBackend)
    (protocol : option string) (policy : option BackendPolicy)
    (runtime_ids : SelectedBackendRuntimeIds) : BM SelectedBackendConfig :=
  let tls_validation := policy ≫= bp_tls_validation in
  let tls_enabled :=
    is_tls_backend_protocol protocol || bool_decide (is_Some tls_validation)
    || bool_decide (is_Some (sb_backend_tls selected)) in
  let connect_timeout :=
    match policy_timeout (sb_route_policy selected) rpt_connect with
    | Some ms => Some (from_millis ms)
    | None => policy ≫= bp_connect_timeout
    end in
  validation ← resolve_backend_tls_validation tls_validation;
  client_cert_key ← resolve_backend_client_cert_key current (sb_backend_tls selected);
  mret {| sbc_runtime := EndpointRuntimeKey_new (sb_backend_name selected) (sb_backend selected);
          sbc_runtime_ids := runtime_ids;
          sbc_peer_address := from_backend_address (be_address (sb_backend selected));
          sbc_peer_port := be_port (sb_backend selected) mod 65536;
          sbc_tls_enabled := tls_enabled;
          sbc_sni := sni_for tls_enabled (sb_backend_name selected) tls_validation;
          sbc_use_http2 :=
            bool_decide (sb_route_kind selected = KindGrpc) || is_http2_backend_protocol protocol;
          sbc_connect_timeout := connect_timeout;
          sbc_request_timeout :=
            effective_request_timeout_with_route_policy (sb_route_policy selected) policy
              (sb_timeouts selected);
          sbc_backend_tls_validation := validation;
          sbc_client_cert_key := client_cert_key |}.

Definition selected_backend_config_for_compiled_http_fast_path (current : Snapshot)
    (selected : CompiledSelectedHttpBackend) : BM SelectedBackendConfig :=
  let backend_name := csb_backend_name selected in
  let protocol := backend_protocol current backend_name in
  let policy := backend_policy current backend_name in
  let tls_validation := policy ≫= bp_tls_validation in
  let tls_enabled := is_tls_backend_protocol protocol || bool_decide (is_Some tls_validation) in
  validation ← resolve_backend_tls_validation tls_validation;
  mret {| sbc_runtime := EndpointRuntimeKey_new backend_name (csb_backend selected);
          sbc_runtime_ids := csb_runtime_ids selected;
          sbc_peer_address := from_backend_address (be_address (csb_backend selected));
          sbc_peer_port := be_port (csb_backend selected) mod 65536;
          sbc_tls_enabled := tls_enabled;
          sbc_sni := sni_for tls_enabled backend_name tls_validation;
          sbc_use_http2 := is_http2_backend_protocol protocol;
          sbc_connect_timeout := policy ≫= bp_connect_timeout;
          sbc_request_timeout := effective_request_timeout_with_route_policy None policy None;
          sbc_backend_tls_validation := validation;
          sbc_client_cert_key := None |}.

(** *** The cache of settings *)

Definition route_kind_cache_key (route_kind : RouteKind) : Z :=
  match route_kind with
  | KindHttp => 1 | KindGrpc => 2 | KindTcp => 3 | KindUdp => 4 | KindTls => 5
  end.

Definition selected_backend_config_cache_key (route_kind : RouteKind)
    (runtime_ids : SelectedBackendRuntimeIds) : option SelectedBackendConfigCacheKey :=
  listener ← sri_listener runtime_ids;
  route ← sri_route runtime_ids;
  backend ← sri_backend runtime_ids;
  endpoint ← sri_endpoint runtime_ids;
  Some (route_kind_cache_key route_kind, listener, route, default 0 (sri_rule runtime_ids),
        backend, endpoint).

Definition cache_get (snapshot_id : string) (key : SelectedBackendConfigCacheKey)
    (s : BackendState) : option SelectedBackendConfig :=
  if Str.is_empty snapshot_id then None
  else if bool_decide (bst_snapshot_id s = snapshot_id) then bst_configs s !! key else None.

Definition cache_insert_or_get (snapshot_id : string) (key : SelectedBackendConfigCacheKey)
    (config : SelectedBackendConfig) : BM SelectedBackendConfig := fun s =>
  if Str.is_empty snapshot_id then (inl config, s)
  else
    let entries := if bool_decide (bst_snapshot_id s = snapshot_id) then bst_configs s else ∅ in
    match entries !! key with
    | Some existing =>
      (inl existing, mkBackendState (bst_client_certs s) (bst_tls_validations s) snapshot_id entries)
    | None =>
      (inl config, mkBackendState (bst_client_certs s) (bst_tls_validations s) snapshot_id
                     (<[key := config]> entries))
    end.

(** The part that the two lookups share. *)
Definition config_cached (snapshot_id : string) (key : option SelectedBackendConfigCacheKey)
    (compute : BM SelectedBackendConfig) : BM SelectedBackendConfig := fun s =>
  match key with
  | None => compute s
  | Some key =>
    match cache_get snapshot_id key s with
    | Some config => (inl config, s)
    | None => (config ← compute; cache_insert_or_get snapshot_id key config) s
    end
  end.

Definition selected_backend_config_cached (current : Snapshot) (selected : SelectedBackend) :
    BM SelectedBackendConfig :=
  let runtime_ids := id_selected_backend (ix_runtime_ids (sn_indexes current)) selected in
  config_cached (sn_id current)
    (selected_backend_config_cache_key (sb_route_kind selected) runtime_ids)
    (selected_backend_config_from_parts current selected
       (backend_protocol current (sb_backend_name selected))
       (backend_policy current (sb_backend_name selected)) runtime_ids).

Definition selected_backend_config_cached_for_fast_path (current : Snapshot)
    (selected : CompiledSelectedHttpBackend) : BM SelectedBackendConfig :=
  config_cached (sn_id current)
    (selected_backend_config_cache_key (csb_route_kind selected) (csb_runtime_ids selected))
    (selected_backend_config_for_compiled_http_fast_path current selected).

(** ** Peers *)

Record PeerOptions := mkPeerOptions {
  po_ca : option (list X509);
  po_alternative_cn : option string;
  po_handshake_hook : option (list BackendSubjectAltName);
  po_verify_hostname : bool;
  po_verify_cert : bool;
  po_http_version : Z * Z;
  po_max_h2_streams : Z;
  po_connection_timeout : option Duration;
  po_total_connection_timeout : option Duration;
  po_read_timeout : option Duration;
  po_write_timeout : option Duration;
  po_idle_timeout : option Duration;
  po_tcp_keepalive : option Duration;
  po_tcp_fast_open : bool;
  po_tcp_recv_buf : option Z;
  po_dscp : option Z;
}.

#[export, refine] Instance PeerOptions_rebuild : Rebuild PeerOptions := {
  rebuild o :=
    mkPeerOptions (po_ca o) (po_alternative_cn o) (po_handshake_hook o) (po_verify_hostname o)
      (po_verify_cert o) (po_http_version o) (po_max_h2_streams o) (po_connection_timeout o)
      (po_total_connection_timeout o) (po_read_timeout o) (po_write_timeout o) (po_idle_timeout o)
      (po_tcp_keepalive o) (po_tcp_fast_open o) (po_tcp_recv_buf o) (po_dscp o)
}.
Proof. abstract by intros []. Defined.

Record HttpPeer := mkHttpPeer {
  hp_address : UpstreamPeerAddress;
  hp_port : Z;
  hp_tls : bool;
  hp_sni : string;
  hp_client_cert_key : option CertKey;
  hp_group_key : Z;
  hp_options : PeerOptions;
}.

(** The options and the group of a new [HttpPeer]. *)
Class PeerDefaults := { peer_options_new : PeerOptions; peer_group_key_new : Z }.

Record UpstreamTuningOptions := mkUpstreamTuningOptions {
  ut_tcp_fast_open : bool;
  ut_tcp_recv_buf : option Z;
  ut_connection_timeout : option Duration;
  ut_read_timeout : option Duration;
  ut_idle_timeout : option Duration;
  ut_dscp : option Z;
}.

Definition DEFAULT_MAX_H2_UPSTREAM_STREAMS : Z := 128.

Definition or_else {A} (x y : option A) : option A :=
  match x with Some _ => x | None => y end.

Section peer.
Context `{PeerDefaults}.

Definition apply_backend_protocol_config (use_http2 : bool) (o : PeerOptions) : PeerOptions :=
  if use_http2
  then o <| po_http_version := (2, 2) |> <| po_max_h2_streams := DEFAULT_MAX_H2_UPSTREAM_STREAMS |>
  else o.

Definition apply_cached_backend_tls_validation (cached : option CachedBackendTlsValidation)
    (o : PeerOptions) : PeerOptions :=
  match cached with
  | None => o
  | Some cached =>
    o <| po_ca := cbv_ca_certificates cached |>
      <| po_alternative_cn := cbv_alternative_cn cached |>
      <| po_handshake_hook := cbv_subject_alt_name_validation_hook cached |>
      <| po_verify_hostname := cbv_verify_hostname cached |>
      <| po_verify_cert := true |>
  end.

Definition apply_precomputed_backend_policy (config : SelectedBackendConfig) (o : PeerOptions) :
    PeerOptions :=
  o <| po_connection_timeout := sbc_connect_timeout config |>
    <| po_total_connection_timeout := sbc_connect_timeout config |>
    <| po_read_timeout := sbc_request_timeout config |>
    <| po_write_timeout := sbc_request_timeout config |>.

(** What the tuning of the process adds where nothing is set. *)
Definition apply_tuning (tcp_keepalive : option Duration) (tuning : UpstreamTuningOptions)
    (o : PeerOptions) : PeerOptions :=
  o <| po_tcp_keepalive := tcp_keepalive |>
    <| po_tcp_fast_open := po_tcp_fast_open o || ut_tcp_fast_open tuning |>
    <| po_tcp_recv_buf := or_else (po_tcp_recv_buf o) (ut_tcp_recv_buf tuning) |>
    <| po_connection_timeout := or_else (po_connection_timeout o) (ut_connection_timeout tuning) |>
    <| po_read_timeout := or_else (po_read_timeout o) (ut_read_timeout tuning) |>
    <| po_idle_timeout := or_else (po_idle_timeout o) (ut_idle_timeout tuning) |>
    <| po_dscp := or_else (po_dscp o) (ut_dscp tuning) |>.

Definition build_upstream_peer_from_cached_parts (config : SelectedBackendConfig)
    (tcp_keepalive : option Duration) (tuning : UpstreamTuningOptions) : HttpPeer :=
  let tls := sbc_tls_enabled config in
  let options :=
    apply_tuning tcp_keepalive tuning
      (apply_precomputed_backend_policy config
         (apply_cached_backend_tls_validation (sbc_backend_tls_validation config)
            (apply_backend_protocol_config (sbc_use_http2 config) peer_options_new))) in
  {| hp_address := sbc_peer_address config;
     hp_port := sbc_peer_port config;
     hp_tls := tls;
     hp_sni := if tls then sbc_sni config else "";
     hp_client_cert_key := if tls then sbc_client_cert_key config else None;
     hp_group_key := default peer_group_key_new (cbv_group_key <$> sbc_backend_tls_validation config);
     hp_options := options |}.
End peer.

(** [validate_backend_tls_subject_alt_name_result]; the digest of a connection is
    [None] without TLS, and holds the failure that the hook left. *)
Definition validate_backend_tls_subject_alt_name_result (peer : HttpPeer)
    (ssl_digest : option (option string)) : Res unit :=
  match po_handshake_hook (hp_options peer) with
  | None => mret tt
  | Some _ =>
    match ssl_digest with
    | None => inr invalid_backend_tls_subject_alt_name
    | Some (Some _) => inr invalid_backend_tls_subject_alt_name
    | Some None => mret tt
    end
  end.

End tls.

End HttpBackend.
