(* ===== verification/HttpSession.v ===== *)
(** * Session persistence

    [ntgw-http/src/session.rs] and [SessionResolutionCache] of [proxy/cache.rs]:
    the signed token that names the endpoint of a session, how it is read from a
    request and written to a response, and the path of its cookie.  Encoding and
    signing are the class [TokenLib], the JSON of a token is [SessionLib]; times
    are seconds since the epoch, given where the code reads the clock. *)

From Stdlib Require Import ZArith Lia Ascii.
From stdpp Require Import base gmap strings numbers list.
From S2P Require Import Prelude Strs IrTypes Matching Resolution IpAddr HttpTypes HttpFilters.

Local Open Scope string_scope.
Local Open Scope list_scope.
Local Open Scope Z_scope.

Class TokenLib := {
  (** [URL_SAFE_NO_PAD] *)
  url_safe_encode : string -> string;
  url_safe_decode : string -> option string;
  (** The HMAC-SHA256 of a message under a key of any length; [verify_slice]
      compares with it. *)
  hmac_sha256 : string -> string -> string;
}.

Class TokenLibLaws `{TokenLib} := {
  url_safe_roundtrip s : url_safe_decode (url_safe_encode s) = Some s;
  url_safe_no_dot s : Str.contains_char "." (url_safe_encode s) = false;
}.

(** The seconds since the epoch that a phase of a request reads; none before the
    epoch. *)
Class UnixTime := unix_now : option Z.

Module HttpSession.
Import HttpTypes HttpFilters.

Record ResolvedSession := mkResolvedSession {
  rs_target : PersistentSessionTarget;
  rs_absolute_expires_at : option Z;
}.

Record SessionToken := mkSessionToken {
  tk_v : Z;
  tk_sn : string;
  tk_st : string;
  tk_bn : string;
  tk_a : string;
  tk_p : Z;
  tk_ax : option Z;
  tk_ix : option Z;
}.

(** [serde_json] on tokens. *)
Class SessionLib := {
  token_to_json : SessionToken -> string;
  token_from_json : string -> option SessionToken;
}.
Class SessionLibLaws `{SessionLib} :=
  token_json_roundtrip t : token_from_json (token_to_json t) = Some t.

(** Where the secret comes from; that of a file is what the file holds now, if it
    can be read. *)
Inductive SecretSource :=
| Inline (secret : string)
| File (current : option string)
| Generated (secret : string).

Definition shared_secret (self : SecretSource) : option string :=
  match self with
  | Inline secret | Generated secret => Some secret
  | File current => current
  end.

Definition uses_ephemeral_secret (self : SecretSource) : bool :=
  match self with Generated _ => true | _ => false end.

Definition parse_session_secret_file (bytes : string) : option string :=
  if Str.is_empty bytes then None else Some bytes.

(** [SessionPersistenceOptions::build], with what the named file holds and the
    bytes of the random generator. *)
Definition SessionPersistenceOptions_build (shared_secret shared_secret_file : option string)
    (read_file : string -> option string) (generated : option string) : option SecretSource :=
  let inline_or_generated :=
    match shared_secret with
    | Some secret =>
      if Str.is_empty secret then Generated <$> generated else Some (Inline secret)
    | None => Generated <$> generated
    end in
  match shared_secret_file with
  | Some path =>
    let path := Str.trim path in
    if Str.is_empty path then inline_or_generated
    else secret ← read_file path; secret ← parse_session_secret_file secret; Some (File (Some secret))
  | None => inline_or_generated
  end.

Definition is_cookie (policy : SessionPersistence) : bool :=
  negb (bool_decide (sp_session_type policy = "Header")).

Definition transport (policy : SessionPersistence) : string :=
  if is_cookie policy then "Cookie" else "Header".

(** ** Reading a token *)

Definition request_header_value_headers (headers : StringMap (list string)) (name : string) :
    option string :=
  values ← headers !! Str.to_ascii_lowercase name; head values.

(** The value of a cookie in one header. *)
Definition cookie_in (cookie_name cookie : string) : option string :=
  find_map (fun item =>
    '(name, val) ← Str.split_once "=" (Str.trim item);
    if bool_decide (name = cookie_name) then Some val else None) (Str.split ";" cookie).

Definition request_cookie_headers (headers : StringMap (list string)) (name : string) :
    option string :=
  cookies ← headers !! "cookie"; find_map (cookie_in name) cookies.

Section with_lib.
Context `{TokenLib, SessionLib}.

Definition sign (self : SecretSource) (body : string) : option string :=
  secret ← shared_secret self; Some (hmac_sha256 secret body).

Definition verify (self : SecretSource) (body signature : string) : option unit :=
  secret ← shared_secret self;
  if bool_decide (signature = hmac_sha256 secret body) then Some tt else None.

Definition expired (now : Z) (expiry : option Z) : bool :=
  match expiry with Some expiry => expiry <? now | None => false end.

Definition decode_token (self : SecretSource) (now : Z) (policy : SessionPersistence)
    (raw : string) : option ResolvedSession :=
  '(encoded_body, encoded_signature) ← Str.split_once "." raw;
  body ← url_safe_decode encoded_body;
  signature ← url_safe_decode encoded_signature;
  _ ← verify self body signature;
  payload ← token_from_json body;
  if negb (tk_v payload =? 1) then None
  else if negb (bool_decide (tk_sn payload = sp_session_name policy)) then None
  else if negb (bool_decide (tk_st payload = transport policy)) then None
  else if expired now (tk_ax payload) || expired now (tk_ix payload) then None
  else Some (mkResolvedSession
               (mkPersistentSessionTarget (tk_bn payload)
                  (mkBackendEndpoint (tk_a payload) (tk_p payload) true)) (tk_ax payload)).

Definition resolve_request_session_headers (self : SecretSource) (now : Z)
    (headers : StringMap (list string)) (policy : SessionPersistence) : option ResolvedSession :=
  raw_token ← (if is_cookie policy then request_cookie_headers headers (sp_session_name policy)
               else request_header_value_headers headers (sp_session_name policy));
  decode_token self now policy raw_token.

(** *** The sessions of one request

    A lookup is kept under the name and the transport of the policy. *)

Definition SessionCache : Type := gmap (string * bool) (option ResolvedSession).

Definition SessionCacheKey_from_policy (policy : SessionPersistence) : string * bool :=
  (sp_session_name policy, is_cookie policy).

Definition session_resolve (self : SecretSource) (now : Z) (headers : StringMap (list string))
    (policy : SessionPersistence) (entries : SessionCache) : option ResolvedSession * SessionCache :=
  let key := SessionCacheKey_from_policy policy in
  match entries !! key with
  | Some cached => (cached, entries)
  | None =>
    let resolved := resolve_request_session_headers self now headers policy in
    (resolved, <[key := resolved]> entries)
  end.

(** ** Writing a token *)

Definition as_secs (d : Duration) : Z := d / 1000000000.

Definition build_token_payload (now : Z) (policy : SessionPersistence) (selected : SelectedBackend)
    (previous : option ResolvedSession) : SessionToken :=
  let absolute_expires_at :=
    (fun timeout =>
       default (U.saturating_add64 now (as_secs timeout)) (previous ≫= rs_absolute_expires_at))
      <$> sp_absolute_timeout policy in
  let idle_expires_at :=
    (fun timeout => U.saturating_add64 now (as_secs timeout)) <$> sp_idle_timeout policy in
  {| tk_v := 1;
     tk_sn := sp_session_name policy;
     tk_st := transport policy;
     tk_bn := sb_backend_name selected;
     tk_a := be_address (sb_backend selected);
     tk_p := be_port (sb_backend selected);
     tk_ax := absolute_expires_at;
     tk_ix := idle_expires_at |}.

Definition encode_payload (self : SecretSource) (payload : SessionToken) : option string :=
  let body := token_to_json payload in
  signature ← sign self body;
  Some (url_safe_encode body +:+ "." +:+ url_safe_encode signature).

(** ** The cookie *)

Definition normalize_cookie_path (path : string) : string :=
  if Str.is_empty path || bool_decide (path = "/") then "/"
  else
    let trimmed := Str.trim_end_char "/" path in
    if Str.is_empty trimmed then "/"
    else if Str.starts_with "/" trimmed then trimmed
    else "/" +:+ trimmed.

Definition ends_literal (c : ascii) : bool :=
  bool_decide (c ∈ ["."; "*"; "+"; "?"; "("; "["; "{"; "|"; "^"; "$"]%char).

(** The loop of [longest_literal_cookie_path]: the index of the last slash before
    the first metacharacter. *)
Fixpoint last_literal_slash (index : nat) (escaped : bool) (last_slash : nat) (pattern : string) :
    nat :=
  match pattern with
  | EmptyString => last_slash
  | String ch rest =>
    if escaped then last_literal_slash (S index) false last_slash rest
    else if bool_decide (ch = ascii_of_nat 92)
    then last_literal_slash (S index) true last_slash rest
    else if ends_literal ch then last_slash
    else if bool_decide (ch = "/"%char) && (0 <? index)%nat
    then last_literal_slash (S index) false index rest
    else last_literal_slash (S index) false last_slash rest
  end.

Definition longest_literal_cookie_path (pattern : string) : string :=
  if Str.is_empty pattern then "/"
  else
    match last_literal_slash 0 false 0 pattern with
    | O => "/"
    | last_slash => normalize_cookie_path (String.substring 0 last_slash pattern)
    end.

Definition cookie_path (selected : SelectedBackend) : string :=
  match sb_matched_http_path selected with
  | None => "/"
  | Some matched_path =>
    if bool_decide (mhp_path_type matched_path = "RegularExpression")
    then longest_literal_cookie_path (mhp_path matched_path)
    else normalize_cookie_path (mhp_path matched_path)
  end.

Definition max_age (now : Z) (absolute_expires_at : option Z) : option Z :=
  (fun expiry => Z.max (U.saturating_sub expiry now) 1) <$> absolute_expires_at.

Definition cookie_lifetime_type (policy : SessionPersistence) : string :=
  match sp_cookie policy with
  | Some cookie =>
    if Str.is_empty (cookie_lifetime_type_field cookie) then "Session"
    else cookie_lifetime_type_field cookie
  | None => "Session"
  end.

Definition build_set_cookie (now : Z) (policy : SessionPersistence) (selected : SelectedBackend)
    (token : string) (absolute_expires_at : option Z) : string :=
  sp_session_name policy +:+ "=" +:+ token +:+ "; Path=" +:+ cookie_path selected +:+ "; HttpOnly"
    +:+ (if bool_decide (cookie_lifetime_type policy = "Permanent") then
           match max_age now absolute_expires_at with
           | Some age => "; Max-Age=" +:+ Str.to_string age
           | None => ""
           end
         else "").

Definition write_response_session `{HttpLib} (self : SecretSource) (now : Z)
    (policy : SessionPersistence) (selected : SelectedBackend) (previous : option ResolvedSession)
    (response : ResponseHeader) : Res ResponseHeader :=
  let payload := build_token_payload now policy selected previous in
  token ← ok_or (encode_payload self payload) (Error_new (Named "InternalError"));
  if is_cookie policy
  then rsp_append "set-cookie" (build_set_cookie now policy selected token (tk_ax payload)) response
  else rsp_insert (sp_session_name policy) token response.
End with_lib.

End HttpSession.
