(* ===== verification/HttpContext.v ===== *)
(** * The request context

    [ntgw-http/src/proxy/context.rs] and the parts of [GatewayProxy] that a
    request uses: the context that the phases of a request share, the fields that
    a selection fills in, and the state that requests share, which is the
    admission, rate-limit, circuit-breaker and retry controllers and the selection
    cursors, and the caches of connection settings.

    A phase of a request is a state transformer that can fail ([HM]).  Fields
    that only the access log and the traces read are left out, as are the times
    and the counters of upstream connections.  Dropping a permit that the context
    holds is part of the assignment that replaces it. *)

From Stdlib Require Import ZArith Lia Ascii.
From stdpp Require Import base gmap strings numbers list.
From S2P Require Import Prelude Strs IrTypes Records Matching Scoring HostIndex EndpointRuntime Spread RouteIndex Decimal RuntimeIds Snapshot Resolution Selection IndexedSelection Precedence StreamSelection HttpFastPath Semaphores CircuitBreaker Overload RetryBudget RateLimit IpAddr HttpTypes HttpFilters JwtAuth HttpBackend HttpSession.

Local Open Scope string_scope.
Local Open Scope list_scope.
Local Open Scope Z_scope.
Local Open Scope record_scope.

Module HttpContext.
Import IpAddr HttpTypes HttpFilters JwtAuth HttpBackend HttpSession.

(** ** Records *)

Record TransportRetryExcludedEndpoint := mkTransportRetryExcludedEndpoint {
  tre_backend_name : string;
  tre_address : string;
  tre_port : Z;
}.
#[global] Instance TransportRetryExcludedEndpoint_eq_dec :
  EqDecision TransportRetryExcludedEndpoint.
Proof. solve_decision. Defined.

Definition TransportRetryExcludedEndpoint_new (backend_name : string) (endpoint : BackendEndpoint) :
    TransportRetryExcludedEndpoint :=
  mkTransportRetryExcludedEndpoint backend_name (be_address endpoint) (be_port endpoint).

Definition matches_selected (self : TransportRetryExcludedEndpoint) (selected : SelectedBackend) :
    bool :=
  bool_decide (tre_backend_name self = sb_backend_name selected)
  && bool_decide (tre_address self = be_address (sb_backend selected))
  && bool_decide (tre_port self = be_port (sb_backend selected)).

(** The names that the context shows of the selected route. *)
Record Labels := mkLabels {
  lb_route_kind : string;
  lb_route_name : string;
  lb_route_namespace : string;
  lb_listener_name : string;
  lb_listener_protocol : string;
  lb_backend : string;
}.
Definition no_labels : Labels := mkLabels "" "" "" "" "" "".

(** The key of a cached response: the route and the URL. *)
Record CacheKey := mkCacheKey { ck_namespace : string; ck_primary : string }.
#[global] Instance CacheKey_eq_dec : EqDecision CacheKey.
Proof. solve_decision. Defined.

(** A mirrored request: its backend, and whether it is sent the body. *)
Record MirrorRequestSession := mkMirrorRequestSession {
  mrs_backend_name : string;
  mrs_forwards_body : bool;
}.

(** The state of the AI gateway for a request, which is not modelled. *)
Class HttpParts := AIContext : Type.

(** [WasmPluginFilter]: the plugins of each hook. *)
Record WasmPluginFilter := mkWasmPluginFilter {
  on_request_plugin_names : list string;
  on_response_plugin_names : list string;
}.

Create HintDb http_stops.

(** The [pingora_cache] crate: which messages may be stored, and the storage with
    its eviction. *)
Class CacheLib `{HttpLib} := {
  CacheStore : Type;
  cache_lookup : CacheKey -> CacheStore -> option (ResponseHeader * list string);
  cache_store : CacheKey -> ResponseHeader -> list string -> CacheStore -> CacheStore;
  request_cacheable : RequestHeader -> bool;
  (** [resp_cacheable] with the cache control of the response. *)
  resp_cacheable : ResponseHeader -> bool -> bool;
}.

Section with_parts.
Context `{HttpLib, HttpParts, Semaphore, JwtLib, TlsLib, !CacheLib}.

(** The cache of a request: its key, and the head that is stored with the body
    once the response turned out to be cacheable. *)
Record HttpCache := mkHttpCache { hc_key : CacheKey; hc_miss : option ResponseHeader }.

Record RequestContext := mkRequestContext {
  host : string;
  method : string;
  path : string;
  request_headers : option RequestHeaders;
  status : Z;
  labels : Labels;
  route_annotations : StringMap string;
  response_flags : string;
  bytes_received : Z;
  declared_request_body_bytes : Z;
  selected_backend : option SelectedBackend;
  fast_selected_backend : option HttpFastPath.CompiledSelectedHttpBackend;
  selected_backend_config : option SelectedBackendConfig;
  external_auth_response_headers : StringMap (list string);
  wasm_response_headers : StringMap string;
  transport_retry_excluded_endpoints : list TransportRetryExcludedEndpoint;
  retry_backoff_field : option Duration;
  retry_attempts : Z;
  resolved_session : option ResolvedSession;
  request_mirrors : list MirrorRequestSession;
  is_mirror_subrequest : bool;
  admission_permit : option Overload.AdmissionPermit;
  circuit_breaker_permit : option CircuitBreaker.HttpCircuitBreakerPermit;
  rate_limit_applied : bool;
  retry_budget_seeded : bool;
  backend_observation_recorded : bool;
  request_body_bytes_seen : Z;
  route_policy : option RoutePolicyConfig;
  request_span : bool;
  http_cache : option HttpCache;
  cached_response_body : list string;
  cached_response_body_bytes : Z;
  ai_context : option AIContext;
}.

#[export, refine] Instance RequestContext_rebuild : Rebuild RequestContext := {
  rebuild c :=
    mkRequestContext (host c) (method c) (path c) (request_headers c) (status c) (labels c)
      (route_annotations c) (response_flags c) (bytes_received c) (declared_request_body_bytes c)
      (selected_backend c) (fast_selected_backend c) (selected_backend_config c)
      (external_auth_response_headers c) (wasm_response_headers c)
      (transport_retry_excluded_endpoints c) (retry_backoff_field c) (retry_attempts c)
      (resolved_session c) (request_mirrors c) (is_mirror_subrequest c) (admission_permit c)
      (circuit_breaker_permit c) (rate_limit_applied c) (retry_budget_seeded c)
      (backend_observation_recorded c) (request_body_bytes_seen c) (route_policy c)
      (request_span c) (http_cache c) (cached_response_body c) (cached_response_body_bytes c)
      (ai_context c)
}.
Proof. abstract by intros []. Defined.

Definition RequestContext_default : RequestContext :=
  {| host := ""; method := ""; path := ""; request_headers := None; status := 0;
     labels := no_labels; route_annotations := ∅; response_flags := ""; bytes_received := 0;
     declared_request_body_bytes := 0; selected_backend := None; fast_selected_backend := None;
     selected_backend_config := None; external_auth_response_headers := ∅;
     wasm_response_headers := ∅; transport_retry_excluded_endpoints := [];
     retry_backoff_field := None; retry_attempts := 0; resolved_session := None;
     request_mirrors := []; is_mirror_subrequest := false; admission_permit := None;
     circuit_breaker_permit := None; rate_limit_applied := false; retry_budget_seeded := false;
     backend_observation_recorded := false; request_body_bytes_seen := 0; route_policy := None;
     request_span := false; http_cache := None; cached_response_body := [];
     cached_response_body_bytes := 0; ai_context := None |}.

(** [clear_request_context]: everything but the response headers of the Wasm
    plugins and the state of the AI gateway. *)
Definition clear_request_context (ctx : RequestContext) : RequestContext :=
  RequestContext_default <| wasm_response_headers := wasm_response_headers ctx |>
                         <| ai_context := ai_context ctx |>.

(** The settings of a [GatewayProxy] and the snapshot that a request sees. *)
Record GatewayProxy := mkGatewayProxy {
  gp_snapshot : Snapshots.Snapshot;
  gp_access_log_enabled : bool;
  gp_request_tracing_enabled : bool;
  gp_max_request_body_bytes : Z;
  gp_max_request_header_bytes : Z;
  gp_ai_gateway_max_request_body_bytes : Z;
  gp_listener_name_hint : option string;
  gp_listener_port_hint : option Z;
  gp_cache_enabled : bool;
  gp_cache_max_entry_size_bytes : Z;
  gp_wasm_filter : option WasmPluginFilter;
  gp_ai_filter : bool;
  gp_downstream_max_connection_age : option Duration;
  gp_session_secret : SecretSource;
  gp_upstream_tcp_keepalive : option Duration;
  gp_upstream_tuning : UpstreamTuningOptions;
}.

(** What the requests share. *)
Record Shared := mkShared {
  sh_admission : Overload.World;
  sh_circuit_breaker : CircuitBreaker.HttpCircuitBreakerController;
  sh_rate_limit : RateLimit.HttpRateLimitController;
  sh_retry_budget : RetryBudget.RetryBudgetController;
  sh_selection : Resolution.World;
  sh_jwt : JwtState;
  sh_backend : BackendState;
  sh_cache : CacheStore;
  sh_mirror_permits : Z;
}.

Record HttpState := mkHttpState {
  hs_ctx : RequestContext;
  hs_session : Session;
  hs_shared : Shared;
}.

(** ** Phases *)

Definition HM (A : Type) : Type := HttpState -> Res A * HttpState.
#[global] Instance HM_ret : MRet HM := fun A x s => (inl x, s).
#[global] Instance HM_bind : MBind HM := fun A B f m s =>
  let '(r, s) := m s in
  match r with inl x => f x s | inr e => (inr e, s) end.

Definition fail {A} (e : Error) : HM A := fun s => (inr e, s).
Definition lift {A} (r : Res A) : HM A := fun s => (r, s).
Definition get_ctx : HM RequestContext := fun s => (inl (hs_ctx s), s).
Definition modify_ctx (f : RequestContext -> RequestContext) : HM unit := fun s =>
  (inl tt, mkHttpState (f (hs_ctx s)) (hs_session s) (hs_shared s)).
Definition get_session : HM Session := fun s => (inl (hs_session s), s).
Definition get_shared : HM Shared := fun s => (inl (hs_shared s), s).
Definition set_shared (shared : Shared) : HM unit := fun s =>
  (inl tt, mkHttpState (hs_ctx s) (hs_session s) shared).

(** A sequence returns when both of its parts do. *)
Lemma hm_bind_inl {A B} (m : HM A) (f : A -> HM B) s y s' :
  (m ≫= f) s = (inl y, s') <-> exists x s1, m s = (inl x, s1) /\ f x s1 = (inl y, s').
Proof.
  unfold mbind, HM_bind. destruct (m s) as [[x|e] s1]; split; [naive_solver| |done|naive_solver].
  by intros (x' & s1' & [= <- <-] & ?).
Qed.

(** A phase that does not let a request go on. *)
Definition stops (m : HM bool) : Prop := forall s s', m s <> (inl false, s').

Lemma stops_true : stops (mret true).
Proof. intros s s'. unfold mret, HM_ret. congruence. Qed.

Lemma stops_fail (e : Error) : stops (fun s => (inr e, s)).
Proof. intros s s'. congruence. Qed.

Lemma stops_bind {A} (m : HM A) (f : A -> HM bool) : (forall x, stops (f x)) -> stops (m ≫= f).
Proof. intros Hf s s' (x & s1 & _ & E)%hm_bind_inl. by eapply Hf. Qed.

(** The controllers. *)
Definition on_admission {A} (m : Overload.AM A) : HM A := fun s =>
  let sh := hs_shared s in
  let '(x, w) := m (sh_admission sh) in
  (inl x, mkHttpState (hs_ctx s) (hs_session s)
            (mkShared w (sh_circuit_breaker sh) (sh_rate_limit sh) (sh_retry_budget sh)
               (sh_selection sh) (sh_jwt sh) (sh_backend sh) (sh_cache sh)
               (sh_mirror_permits sh))).
Definition on_rate_limit {A} (m : RateLimit.RL A) : HM A := fun s =>
  let sh := hs_shared s in
  let '(x, c) := m (sh_rate_limit sh) in
  (inl x, mkHttpState (hs_ctx s) (hs_session s)
            (mkShared (sh_admission sh) (sh_circuit_breaker sh) c (sh_retry_budget sh)
               (sh_selection sh) (sh_jwt sh) (sh_backend sh) (sh_cache sh)
               (sh_mirror_permits sh))).
Definition on_retry_budget {A}
    (m : RetryBudget.RetryBudgetController -> A * RetryBudget.RetryBudgetController) : HM A :=
  fun s =>
  let sh := hs_shared s in
  let '(x, c) := m (sh_retry_budget sh) in
  (inl x, mkHttpState (hs_ctx s) (hs_session s)
            (mkShared (sh_admission sh) (sh_circuit_breaker sh) (sh_rate_limit sh) c
               (sh_selection sh) (sh_jwt sh) (sh_backend sh) (sh_cache sh)
               (sh_mirror_permits sh))).
Definition on_circuit_breaker {A}
    (m : CircuitBreaker.HttpCircuitBreakerController ->
         A * CircuitBreaker.HttpCircuitBreakerController) : HM A := fun s =>
  let sh := hs_shared s in
  let '(x, c) := m (sh_circuit_breaker sh) in
  (inl x, mkHttpState (hs_ctx s) (hs_session s)
            (mkShared (sh_admission sh) c (sh_rate_limit sh) (sh_retry_budget sh)
               (sh_selection sh) (sh_jwt sh) (sh_backend sh) (sh_cache sh)
               (sh_mirror_permits sh))).
Definition on_selection {A} (m : Resolution.M A) : HM A := fun s =>
  let sh := hs_shared s in
  let '(x, w) := m (sh_selection sh) in
  (inl x, mkHttpState (hs_ctx s) (hs_session s)
            (mkShared (sh_admission sh) (sh_circuit_breaker sh) (sh_rate_limit sh)
               (sh_retry_budget sh) w (sh_jwt sh) (sh_backend sh) (sh_cache sh)
               (sh_mirror_permits sh))).
Definition on_jwt {A} (m : JM A) : HM A := fun s =>
  let sh := hs_shared s in
  let '(x, w) := m (sh_jwt sh) in
  (inl x, mkHttpState (hs_ctx s) (hs_session s)
            (mkShared (sh_admission sh) (sh_circuit_breaker sh) (sh_rate_limit sh)
               (sh_retry_budget sh) (sh_selection sh) w (sh_backend sh) (sh_cache sh) (sh_mirror_permits sh))).

Definition on_backend {A} (m : BM A) : HM A := fun s =>
  let sh := hs_shared s in
  let '(r, w) := m (sh_backend sh) in
  (r, mkHttpState (hs_ctx s) (hs_session s)
        (mkShared (sh_admission sh) (sh_circuit_breaker sh) (sh_rate_limit sh)
           (sh_retry_budget sh) (sh_selection sh) (sh_jwt sh) w (sh_cache sh)
           (sh_mirror_permits sh))).

Definition on_shared (f : Shared -> Shared) : HM unit := fun s =>
  (inl tt, mkHttpState (hs_ctx s) (hs_session s) (f (hs_shared s))).

Definition modify_session (f : Session -> Session) : HM unit := fun s =>
  (inl tt, mkHttpState (hs_ctx s) (f (hs_session s)) (hs_shared s)).

(** ** Context operations *)

Definition set_status (code : Z) (flags : string) : HM unit :=
  modify_ctx (fun ctx => ctx <| status := code |> <| response_flags := flags |>).

Definition set_listener_name (name : string) : HM unit :=
  modify_ctx (fun ctx =>
    let l := labels ctx in
    ctx <| labels := mkLabels (lb_route_kind l) (lb_route_name l) (lb_route_namespace l) name
                       (lb_listener_protocol l) (lb_backend l) |>).

Definition route_kind_name (route_kind : RouteKind) : string :=
  match route_kind with
  | KindHttp => "Http" | KindGrpc => "Grpc" | KindTcp => "Tcp" | KindUdp => "Udp" | KindTls => "Tls"
  end.

Definition route_budget_key (route_kind namespace name : string) : string :=
  route_kind +:+ "/" +:+ namespace +:+ "/" +:+ name.

Definition store_admission_permit (permit : Overload.AdmissionPermit) : HM unit :=
  modify_ctx (fun ctx =>
    ctx <| admission_permit :=
             Some (match admission_permit ctx with
                   | Some existing => Overload.merge existing permit
                   | None => permit
                   end) |>).

Definition drop_admission_permit (permit : option Overload.AdmissionPermit) : HM unit :=
  match permit with
  | Some permit => on_admission (Overload.drop_permits permit)
  | None => mret tt
  end.

Definition drop_circuit_breaker_permit
    (permit : option CircuitBreaker.HttpCircuitBreakerPermit) : HM unit :=
  match permit with
  | Some permit =>
    on_circuit_breaker (fun c => (tt, CircuitBreaker.HttpCircuitBreakerPermit_drop c permit))
  | None => mret tt
  end.

Definition reset_request_context : HM unit :=
  ctx ← get_ctx;
  _ ← modify_ctx clear_request_context;
  _ ← drop_admission_permit (admission_permit ctx);
  drop_circuit_breaker_permit (circuit_breaker_permit ctx).

Definition selected_labels (selected : SelectedBackend) : Labels :=
  mkLabels (route_kind_name (sb_route_kind selected)) (sb_route_name selected)
    (sb_route_namespace selected) (sb_listener_name selected) (sb_listener_protocol selected)
    (sb_backend_name selected).

Definition cache_selected_backend_fields (selected : SelectedBackend) (access_log_enabled : bool)
    (ctx : RequestContext) : RequestContext :=
  let display_fields_needed := access_log_enabled || request_span ctx in
  ctx <| labels := if display_fields_needed then selected_labels selected else no_labels |>
      <| route_annotations := ∅ |>.

Definition cache_selected_backend_state (selected : SelectedBackend) (config : SelectedBackendConfig)
    (access_log_enabled : bool) (ctx : RequestContext) : RequestContext :=
  cache_selected_backend_fields selected access_log_enabled ctx
    <| selected_backend := Some selected |> <| fast_selected_backend := None |>
    <| selected_backend_config := Some config |> <| backend_observation_recorded := false |>.

Definition cache_selected_backend_ref (selected : SelectedBackend) (access_log_enabled : bool)
    (ctx : RequestContext) : RequestContext :=
  cache_selected_backend_fields selected access_log_enabled ctx
    <| selected_backend := Some selected |> <| fast_selected_backend := None |>
    <| selected_backend_config := None |> <| backend_observation_recorded := false |>.

Definition cache_fast_selected_backend_state (selected : HttpFastPath.CompiledSelectedHttpBackend)
    (display_fields_needed : bool) (ctx : RequestContext) : RequestContext :=
  ctx <| labels := if display_fields_needed
                   then mkLabels (route_kind_name (HttpFastPath.csb_route_kind selected))
                          (HttpFastPath.csb_route_name selected)
                          (HttpFastPath.csb_route_namespace selected)
                          (HttpFastPath.csb_listener_name selected)
                          (HttpFastPath.csb_listener_protocol selected)
                          (HttpFastPath.csb_backend_name selected)
                   else no_labels |>
      <| route_annotations := ∅ |>
      <| selected_backend := None |> <| fast_selected_backend := Some selected |>
      <| selected_backend_config := None |> <| backend_observation_recorded := false |>.

Definition cache_route_annotations (access_log_enabled : bool) (annotations : StringMap string)
    (ctx : RequestContext) : RequestContext :=
  ctx <| route_annotations := if access_log_enabled then annotations else ∅ |>.

Definition cache_http_route_context (route : SelectedHttpRoute) (access_log_enabled : bool)
    (ctx : RequestContext) : RequestContext :=
  cache_route_annotations access_log_enabled (shr_route_annotations route) ctx
    <| labels := mkLabels "Http" (shr_route_name route) (shr_route_namespace route)
                   (shr_listener_name route) (shr_listener_protocol route)
                   (default "" (shr_backend_name route)) |>.

(** [cache_selected_http_route_context] of [free_fns.rs] *)
Definition cache_selected_http_route_context (proxy : GatewayProxy) (route : SelectedHttpRoute) :
    HM unit :=
  modify_ctx (fun ctx =>
    cache_http_route_context route (gp_access_log_enabled proxy) ctx
      <| route_policy := shr_route_policy route |>).

Definition selected_display_fields_needed (proxy : GatewayProxy) (ctx : RequestContext) : bool :=
  gp_access_log_enabled proxy || request_span ctx.

Definition remember_transport_retry_excluded_endpoint (ctx : RequestContext) : RequestContext :=
  let excluded :=
    match selected_backend ctx with
    | Some selected =>
      Some (TransportRetryExcludedEndpoint_new (sb_backend_name selected) (sb_backend selected))
    | None =>
      (fun fast => TransportRetryExcludedEndpoint_new (HttpFastPath.csb_backend_name fast)
                     (HttpFastPath.csb_backend fast)) <$> fast_selected_backend ctx
    end in
  match excluded with
  | Some excluded =>
    if bool_decide (excluded ∈ transport_retry_excluded_endpoints ctx) then ctx
    else ctx <| transport_retry_excluded_endpoints :=
                  transport_retry_excluded_endpoints ctx ++ [excluded] |>
  | None => ctx
  end.

Definition selected_backend_is_transport_retry_excluded (ctx : RequestContext)
    (selected : SelectedBackend) : bool :=
  existsb (fun excluded => matches_selected excluded selected)
    (transport_retry_excluded_endpoints ctx).

Section with_downstream.
Context {HD : Downstream}.

(** A write to the client. *)
Definition write (w : Written) : HM unit := fun s =>
  let ss := hs_session s in
  match write_error (ss_written ss) w with
  | Some e => (inr e, s)
  | None =>
    (inl tt, mkHttpState (hs_ctx s) (ss <| ss_written := w :: ss_written ss |>) (hs_shared s))
  end.

Definition respond_error (code : Z) : HM unit := write (WroteError code).
End with_downstream.
End with_parts.

#[export] Hint Resolve stops_true stops_fail stops_bind : http_stops.
#[export] Hint Extern 2 (stops (match ?x with _ => _ end)) => destruct x : http_stops.

End HttpContext.
