(* ===== verification/HttpMeta.v ===== *)
(** * What a request says

    [ntgw-http/src/proxy/request/extract.rs], [view.rs], [meta.rs], [context.rs],
    [proxy/downstream_tls.rs] and [server_port] of [request/tracing.rs]: the host,
    path, headers, sizes and addresses that selection and the limits read from a
    request, and the fields of the context that they fill in. *)

From Stdlib Require Import ZArith Lia Ascii.
From stdpp Require Import base gmap strings numbers list.
From S2P Require Import Prelude Strs IrTypes Records Matching Scoring HostIndex EndpointRuntime Spread RouteIndex Decimal RuntimeIds Snapshot Resolution Selection IndexedSelection Precedence StreamSelection HttpFastPath Semaphores CircuitBreaker Overload RetryBudget RateLimit Sni IpAddr HttpTypes HttpFilters JwtAuth HttpBackend HttpSession HttpContext.

Local Open Scope string_scope.
Local Open Scope list_scope.
Local Open Scope Z_scope.
Local Open Scope record_scope.

Module HttpMeta.
Import Matching IpAddr HttpTypes HttpFilters JwtAuth HttpBackend HttpSession HttpContext HttpFastPath.

Definition parse_usize : string -> option Z := Str.parse_uint U.u64_modulus.

(** ** Addresses *)

Definition normalize_ip (ip : IpAddr) : string :=
  match ip with
  | V4 ipv4 => Ipv4Addr_fmt ipv4
  | V6 ipv6 =>
    match to_ipv4_mapped ipv6 with
    | Some ipv4 => Ipv4Addr_fmt ipv4
    | None => Ipv6Addr_fmt ipv6
    end
  end.

Definition socket_ip (addr : SocketAddr) : IpAddr :=
  match addr with
  | SocketAddrV4 octets _ => V4 octets
  | SocketAddrV6 segments _ _ => V6 segments
  end.

Section with_http.
Context `{HttpLib}.

Definition client_ip (session : Session) : option string :=
  (fun addr =>
     match addr with
     | Inet inet => normalize_ip (socket_ip inet)
     | UnixAddr _ => PeerAddr_fmt addr
     end)
    <$> or_else (ss_client_addr session) (ss_peer_addr session).

Definition server_port (session : Session) : Z :=
  default 0 (ss_server_addr session ≫= inet_port).

Definition downstream_tls_server_name (session : Session) : option string :=
  ssl ← ss_ssl session;
  info ← ssl;
  if Str.is_empty (dti_server_name info) then None else Some (dti_server_name info).

Definition downstream_tls_client_certificate_present (session : Session) : bool :=
  match ss_ssl session with
  | Some (Some info) => dti_client_certificate_present info
  | _ => false
  end.

(** ** Headers *)

Definition request_host_value (req : RequestHeader) : option string :=
  or_else (get_str "host" (rh_headers req)) (uri_authority (rh_uri req)).

(** The headers that are text, by name in lower case. *)
Definition request_headers_of (req : RequestHeader) : RequestHeaders :=
  foldl (fun acc item =>
           if value_is_text item.2
           then push_param acc (Str.to_ascii_lowercase item.1) item.2
           else acc) ∅ (hm_iter (rh_headers req)).

Definition text_values (name : string) (h : HeaderMap) : list string :=
  List.filter value_is_text (get_all name h).

Definition grpc_content_type_headers (req : RequestHeader) : RequestHeaders :=
  let values :=
    List.filter (Str.starts_with "application/grpc") (text_values "content-type" (rh_headers req)) in
  if bool_decide (values = []) then ∅ else {["content-type" := values]}.

(** Headers that are no text are not counted. *)
Definition request_header_bytes_from_header (req : RequestHeader) : Z :=
  foldr (fun item total =>
           (if value_is_text item.2
            then U.saturating_add64 (Z.of_nat (String.length item.1)) (Z.of_nat (String.length item.2))
            else 0) + total) 0 (hm_iter (rh_headers req)).

Definition request_content_length (headers : RequestHeaders) : Z :=
  default 0 (values ← headers !! "content-length"; value ← head values; parse_usize value).

Definition request_content_length_from_header (req : RequestHeader) : Z :=
  default 0 (value ← get_str "content-length" (rh_headers req); parse_usize value).

(** ** Views *)

Definition normalize_authority_host_ref (host : string) : string :=
  match Str.strip_prefix "[" host with
  | Some host => match Str.split_once "]" host with Some (value, _) => value | None => host end
  | None => Str.split_first ":" host
  end.

Definition view_host (req : RequestHeader) : option string :=
  normalize_authority_host_ref <$> request_host_value req.

Definition path_and_query (req : RequestHeader) : string :=
  default (uri_path (rh_uri req)) (uri_path_and_query (rh_uri req)).

Definition request_header_bytes_for_limit (req : RequestHeader) (max_request_header_bytes : Z) : Z :=
  if bool_decide (max_request_header_bytes = 0) then 0 else request_header_bytes_from_header req.

Definition fast_path_request_from_view (req : RequestHeader) (port : Z) : HttpFastPathRequest :=
  {| fpr_host := request_host_value req;
     fpr_port := port;
     fpr_path := uri_path (rh_uri req);
     fpr_method := rh_method req;
     fpr_is_grpc :=
       existsb (Str.starts_with "application/grpc") (text_values "content-type" (rh_headers req)) |}.

Context `{FormUrlencoded}.

(** [materialize] and [routing_key]: no headers. *)
Definition materialize (req : RequestHeader) (port : Z) : RequestMeta :=
  RequestMeta_with_port (request_host_value req) port (path_and_query req) (rh_method req) ∅.

Definition with_headers (meta : RequestMeta) (headers : RequestHeaders) : RequestMeta :=
  mkRequestMeta (rq_host meta) (rq_port meta) (rq_path meta) (rq_method meta) (rq_source_ip meta)
    headers (rq_query_params meta).
Definition with_source_ip (meta : RequestMeta) (source_ip : option string) : RequestMeta :=
  mkRequestMeta (rq_host meta) (rq_port meta) (rq_path meta) (rq_method meta) source_ip
    (rq_headers meta) (rq_query_params meta).

Definition selection_meta (req : RequestHeader) (port : Z) (materialize_headers : bool) :
    RequestMeta :=
  with_headers (materialize req port)
    (if materialize_headers then request_headers_of req else grpc_content_type_headers req).

Definition build_request_meta (session : Session) : RequestMeta :=
  with_source_ip (materialize (ss_request session) (server_port session)) (client_ip session).

Definition build_request_meta_with_headers (session : Session) : RequestMeta :=
  with_headers (build_request_meta session) (request_headers_of (ss_request session)).

Definition build_selection_request_meta (session : Session) (source_ip : option string) (port : Z)
    (materialize_headers : bool) : RequestMeta :=
  with_source_ip (selection_meta (ss_request session) port materialize_headers) source_ip.

(** ** The context *)

Context `{HttpParts, Semaphore, JwtLib, TlsLib, !CacheLib}.

Definition capture_request_context (request : RequestMeta) (ctx : RequestContext) :
    RequestContext :=
  ctx <| host := default "-" (rq_host request) |>
      <| method := rq_method request |>
      <| path := rq_path request |>
      <| bytes_received := 0 |>
      <| declared_request_body_bytes := request_content_length (rq_headers request) |>.

Definition capture_request_context_from_view_for_limits (req : RequestHeader)
    (capture_observability_fields capture_declared_request_body_bytes : bool)
    (ctx : RequestContext) : RequestContext :=
  ctx <| host := if capture_observability_fields then default "-" (view_host req) else "" |>
      <| path := if capture_observability_fields then uri_path (rh_uri req) else "" |>
      <| method := rh_method req |>
      <| bytes_received := 0 |>
      <| declared_request_body_bytes :=
           if capture_declared_request_body_bytes then request_content_length_from_header req else 0 |>.

Definition cache_request_headers_if_needed : HM unit :=
  session ← get_session;
  modify_ctx (fun ctx =>
    match request_headers ctx with
    | Some _ => ctx
    | None => ctx <| request_headers := Some (request_headers_of (ss_request session)) |>
    end).

Definition response_filters_need_request_headers (filters : list Filter) : bool :=
  existsb (fun filter => bool_decide (f_filter_type filter = "CORS")) filters.
End with_http.

End HttpMeta.
