(* ===== verification/HttpGuards.v ===== *)
(** * Admission and rate limits of a request

    [ntgw-http/src/proxy/guards.rs]: when a listener, a selected HTTP or gRPC
    route and a fast-path route ask the admission controller and the rate limits,
    and how a request is answered that they reject.  The controllers are those of
    the files Overload, RateLimit and RetryBudget. *)

From Stdlib Require Import ZArith Lia Ascii.
From stdpp Require Import base gmap strings numbers list.
From S2P Require Import Prelude Strs IrTypes Records Matching Scoring HostIndex EndpointRuntime Spread RouteIndex Decimal RuntimeIds Snapshot Resolution Selection IndexedSelection Precedence StreamSelection HttpFastPath Semaphores CircuitBreaker Overload RetryBudget RateLimit IpAddr HttpTypes HttpFilters JwtAuth HttpBackend HttpSession HttpContext.

Local Open Scope string_scope.
Local Open Scope list_scope.
Local Open Scope Z_scope.
Local Open Scope record_scope.

Module HttpGuards.
Import IpAddr HttpTypes HttpFilters JwtAuth HttpBackend HttpSession HttpContext.

Definition route_budget_key_if_enabled (enabled : bool) (route_kind namespace name : string) :
    option string :=
  if enabled then Some (route_budget_key route_kind namespace name) else None.

Section guards.
Context `{HttpLib, HttpParts, Semaphore, JwtLib, TlsLib, !CacheLib, Clock} {HD : Downstream}.

(** ** Retries *)

Definition REPLAYABLE_METHODS : list string := ["GET"; "HEAD"; "OPTIONS"; "TRACE"; "PUT"; "DELETE"].

Definition request_is_retry_replayable (ctx : RequestContext) : bool :=
  existsb (fun m => Str.eq_ignore_ascii_case (method ctx) m) REPLAYABLE_METHODS.

Definition selected_retry_policy (ctx : RequestContext) : option RetryPolicy :=
  selected_backend ctx ≫= sb_retry.

Definition observe_retryable_request : HM unit :=
  on_retry_budget (fun c => (tt, RetryBudget.observe_retryable_request c)).

Definition seed_retry_budget : HM unit :=
  ctx ← get_ctx;
  if retry_budget_seeded ctx || negb (is_some (selected_retry_policy ctx))
     || negb (request_is_retry_replayable ctx)
  then mret tt
  else
    _ ← observe_retryable_request;
    modify_ctx (fun ctx => ctx <| retry_budget_seeded := true |>).

(** ** Rejections *)

Definition respond_overloaded : HM unit :=
  _ ← set_status 503 "OL"; respond_error 503.

Definition respond_rate_limited : HM unit :=
  _ ← set_status 429 "RL"; respond_error 429.

(** The labels that a rejected HTTP route leaves in the context. *)
Definition label_rejected_route (proxy : GatewayProxy) (route : SelectedHttpRoute) : HM unit :=
  modify_ctx (fun ctx =>
    cache_route_annotations (gp_access_log_enabled proxy) (shr_route_annotations route) ctx
      <| labels := mkLabels "Http" (shr_route_name route) (shr_route_namespace route)
                     (shr_listener_name route) (shr_listener_protocol route)
                     (default (lb_backend (labels ctx)) (shr_backend_name route)) |>).

Definition label_fast_route (proxy : GatewayProxy)
    (selected : HttpFastPath.CompiledSelectedHttpBackend) : HM unit :=
  modify_ctx (fun ctx =>
    cache_fast_selected_backend_state selected (selected_display_fields_needed proxy ctx) ctx).

(** ** Admission *)

Definition try_admit_listener (proxy : GatewayProxy) : HM bool :=
  match gp_listener_name_hint proxy with
  | None => mret true
  | Some listener_name =>
    r ← on_admission (Overload.http_try_acquire_listener listener_name);
    match r with
    | inl permit =>
      _ ← set_listener_name listener_name;
      _ ← store_admission_permit permit;
      mret true
    | inr _ =>
      _ ← set_listener_name listener_name;
      _ ← respond_overloaded;
      mret false
    end
  end.

(** The part that the three route guards share: a listener that was admitted
    before the route was known is not asked again. *)
Definition try_admit_route (route_kind namespace name listener_name : string)
    (on_reject : HM unit) : HM bool :=
  shared ← get_shared;
  ctx ← get_ctx;
  let route_key :=
    route_budget_key_if_enabled
      (Overload.http_route_scope_enabled (Overload.w_http (sh_admission shared)))
      route_kind namespace name in
  let permit :=
    match route_key, admission_permit ctx with
    | Some route_key, Some _ => Some (Overload.http_try_acquire_route route_key)
    | Some route_key, None => Some (Overload.http_try_acquire listener_name route_key)
    | None, Some _ => None
    | None, None => Some (Overload.http_try_acquire_listener listener_name)
    end in
  match permit with
  | None => mret true
  | Some attempt =>
    r ← on_admission attempt;
    match r with
    | inl permit => _ ← store_admission_permit permit; mret true
    | inr _ => _ ← on_reject; _ ← respond_overloaded; mret false
    end
  end.

Definition try_admit_grpc_request (proxy : GatewayProxy) (selected : SelectedBackend) : HM bool :=
  try_admit_route (route_kind_name (sb_route_kind selected)) (sb_route_namespace selected)
    (sb_route_name selected) (sb_listener_name selected)
    (modify_ctx (cache_selected_backend_ref selected (gp_access_log_enabled proxy))).

Definition try_admit_http_route (proxy : GatewayProxy) (route : SelectedHttpRoute) : HM bool :=
  try_admit_route "Http" (shr_route_namespace route) (shr_route_name route)
    (shr_listener_name route) (label_rejected_route proxy route).

Definition try_admit_fast_http_route (proxy : GatewayProxy)
    (selected : HttpFastPath.CompiledSelectedHttpBackend) : HM bool :=
  try_admit_route "Http" (HttpFastPath.csb_route_namespace selected)
    (HttpFastPath.csb_route_name selected) (HttpFastPath.csb_listener_name selected)
    (label_fast_route proxy selected).

(** ** Rate limits *)

Definition rate_limit_seen (applied : bool) : HM unit :=
  modify_ctx (fun ctx => ctx <| rate_limit_applied := rate_limit_applied ctx || applied |>).

Definition try_rate_limit_listener (proxy : GatewayProxy) : HM bool :=
  match gp_listener_name_hint proxy with
  | None => mret true
  | Some listener_name =>
    r ← on_rate_limit (RateLimit.try_acquire_listener listener_name);
    match r with
    | inl applied =>
      _ ← set_listener_name listener_name;
      _ ← rate_limit_seen applied;
      mret true
    | inr _ =>
      _ ← set_listener_name listener_name;
      _ ← respond_rate_limited;
      mret false
    end
  end.

(** [route_scope_enabled] and [backend_scope_enabled] of the controller. *)
Definition scope_enabled (c : RateLimit.HttpRateLimitController) (scope : RateLimit.Scope) : bool :=
  RateLimit.enabled (RateLimit.ks_options (RateLimit.keyed c scope)).

(** The part that the three route guards share; [backend_key] is the backend of
    the selection, if it has one. *)
Definition try_rate_limit_route (proxy : GatewayProxy)
    (route_kind namespace name listener_name : string) (backend_key : option string)
    (on_reject : HM unit) : HM bool :=
  shared ← get_shared;
  let route_key :=
    route_budget_key_if_enabled
      (scope_enabled (sh_rate_limit shared) RateLimit.ScopeRoute) route_kind namespace name in
  let limited :=
    match route_key, gp_listener_name_hint proxy with
    | Some route_key, None => Some (RateLimit.try_acquire listener_name route_key)
    | Some route_key, Some _ => Some (RateLimit.try_acquire_route route_key)
    | None, None => Some (RateLimit.try_acquire_listener listener_name)
    | None, Some _ => None
    end in
  match limited with
  | None => mret true
  | Some attempt =>
    r ← on_rate_limit attempt;
    match r with
    | inl applied =>
      _ ← rate_limit_seen applied;
      match scope_enabled (sh_rate_limit shared) RateLimit.ScopeBackend, backend_key with
      | true, Some backend_key =>
        r ← on_rate_limit (RateLimit.try_acquire_backend backend_key);
        match r with
        | inl backend_applied => _ ← rate_limit_seen backend_applied; mret true
        | inr _ => _ ← on_reject; _ ← respond_rate_limited; mret false
        end
      | _, _ => mret true
      end
    | inr _ => _ ← on_reject; _ ← respond_rate_limited; mret false
    end
  end.

Definition try_rate_limit_grpc_request (proxy : GatewayProxy) (selected : SelectedBackend) :
    HM bool :=
  try_rate_limit_route proxy (route_kind_name (sb_route_kind selected))
    (sb_route_namespace selected) (sb_route_name selected) (sb_listener_name selected)
    (Some (sb_backend_name selected))
    (modify_ctx (cache_selected_backend_ref selected (gp_access_log_enabled proxy))).

Definition try_rate_limit_http_route (proxy : GatewayProxy) (route : SelectedHttpRoute) : HM bool :=
  try_rate_limit_route proxy "Http" (shr_route_namespace route) (shr_route_name route)
    (shr_listener_name route) (shr_backend_name route) (label_rejected_route proxy route).

Definition try_rate_limit_fast_http_route (proxy : GatewayProxy)
    (selected : HttpFastPath.CompiledSelectedHttpBackend) : HM bool :=
  try_rate_limit_route proxy "Http" (HttpFastPath.csb_route_namespace selected)
    (HttpFastPath.csb_route_name selected) (HttpFastPath.csb_listener_name selected)
    (Some (HttpFastPath.csb_backend_name selected)) (label_fast_route proxy selected).

End guards.

End HttpGuards.
