(* ===== verification/HttpAccess.v ===== *)
(** * Access control of a route

    [ntgw-http/src/proxy/filters/ip_filter.rs], [basic_auth.rs] and [jwt.rs]: the
    address lists of a security policy, HTTP basic authentication against the
    password file of a secret, and the token of a JWT filter.  Address ranges and
    the decoding and hashing of credentials are the classes [IpNets] and
    [Credentials]; JWT validators are those of the file JwtAuth. *)

From Stdlib Require Import ZArith Lia Ascii.
From stdpp Require Import base gmap strings numbers list.
From S2P Require Import Prelude Strs IrTypes Records Matching Scoring HostIndex EndpointRuntime Spread RouteIndex Decimal RuntimeIds Snapshot Resolution Selection IndexedSelection Precedence StreamSelection HttpFastPath Semaphores CircuitBreaker Overload RetryBudget RateLimit Sni IpAddr HttpTypes HttpFilters JwtAuth HttpBackend HttpSession HttpContext.

Local Open Scope string_scope.
Local Open Scope list_scope.
Local Open Scope Z_scope.
Local Open Scope record_scope.

(** The [ipnet] crate. *)
Class IpNets := {
  IpNet : Type;
  ipnet_from_str : string -> option IpNet;
  ipnet_contains : IpNet -> IpAddr.IpAddr -> bool;
}.

(** The [base64] and [bcrypt] crates. *)
Class Credentials := {
  base64_decode : string -> option string;
  (** [bcrypt::verify]: an error counts as a mismatch. *)
  bcrypt_verify : string -> string -> bool;
}.

Module HttpAccess.
Import IpAddr HttpTypes HttpFilters JwtAuth HttpBackend HttpSession HttpContext.

(** ** Text *)

Definition newline : ascii := ascii_of_nat 10.
Definition carriage_return : ascii := ascii_of_nat 13.

Definition strip_suffix_char (c : ascii) (s : string) : string :=
  match Str.rsplit_once c s with Some (l, EmptyString) => l | _ => s end.

(** [str::lines] *)
Definition lines (s : string) : list string :=
  let fields := Str.split newline s in
  let last := List.last fields EmptyString in
  (strip_suffix_char carriage_return <$> removelast fields)
    ++ (if Str.is_empty last then [] else [last]).

Definition bytes_of (s : string) : list Z := (fun a => Z.of_nat (nat_of_ascii a)) <$> String.list_ascii_of_string s.

(** ** Address lists *)

Section ip.
Context `{IpNets}.

Definition listed (cidrs : list string) (client_ip : IpAddr) : bool :=
  existsb (fun cidr_str =>
    match ipnet_from_str cidr_str with
    | Some cidr => ipnet_contains cidr client_ip
    | None => false
    end) cidrs.

(** The text of an address without its port. *)
Definition without_port (addr : string) : string :=
  match Str.rsplit_once ":" addr with Some (ip, _) => ip | None => addr end.

(** Whether the lists let a client pass. *)
Definition ip_allowed (config : SecurityIpConfig) (client_addr : option PeerAddr) : bool :=
  match client_addr with
  | None => false
  | Some addr =>
    match IpAddr_from_str (without_port (PeerAddr_fmt addr)) with
    | None => false
    | Some client_ip =>
      (bool_decide (ip_allow_cidrs config = []) || listed (ip_allow_cidrs config) client_ip)
      && negb (listed (ip_deny_cidrs config) client_ip)
    end
  end.
End ip.

(** ** Handlers *)

Section handlers.
Context `{HttpLib, HttpParts, Semaphore, JwtLib, TlsLib, !CacheLib, Clock, IpNets, Credentials} {HD : Downstream}.

Definition plain_text_response (code : Z) (message : string) : Res ResponseHeader :=
  response ← ResponseHeader_build code;
  response ← rsp_insert "content-type" "text/plain" response;
  rsp_insert "content-length" (Str.to_string (Z.of_nat (String.length message))) response.

Definition send_403 (message : string) : HM unit :=
  response ← lift (plain_text_response 403 message);
  _ ← write (WroteHeader response false);
  write (WroteBody (Some message) true).

Definition ip_config (route : SelectedHttpRoute) : option SecurityIpConfig :=
  shr_security_policy route ≫= sec_ip.

(** The order of the checks of [handle_ip_filter]; each failure is the same
    answer. *)
Definition handle_ip_filter (route : SelectedHttpRoute) : HM bool :=
  match ip_config route with
  | None => mret false
  | Some config =>
    if bool_decide (ip_allow_cidrs config = []) && bool_decide (ip_deny_cidrs config = [])
    then mret false
    else
      session ← get_session;
      if ip_allowed config (ss_client_addr session) then mret false
      else _ ← send_403 "IP not allowed"; mret true
  end.

Definition send_401 (realm : string) : HM unit :=
  response ← lift (ResponseHeader_build 401);
  response ← lift (rsp_insert "www-authenticate"
                     ("Basic realm=" +:+ String (ascii_of_nat 34) (realm +:+ String (ascii_of_nat 34) ""))
                     response);
  response ← lift (rsp_insert "content-length" "0" response);
  _ ← write (WroteHeader response false);
  write (WroteBody None true).

Definition basic_auth_config (route : SelectedHttpRoute) : option BasicAuthConfig :=
  policy ← shr_security_policy route; authn ← sec_authn policy; an_basic_auth authn.

(** [find(|s| s.name == name)] on the secrets of the snapshot. *)
Definition secret_named (secrets : list SecretMaterial) (name : string) : option SecretMaterial :=
  head (List.filter (fun s => bool_decide (sec_name s = name)) secrets).

(** The user and password of an authorization header. *)
Definition basic_credentials (header_value : string) : option (string * string) :=
  encoded ← Str.strip_prefix "Basic " header_value;
  decoded ← base64_decode encoded;
  if Sni.from_utf8 (bytes_of decoded) then Str.split_once ":" decoded else None.

(** Whether a line of the password file lets the user in. *)
Definition line_accepts (user password line : string) : bool :=
  let line := Str.trim line in
  if Str.is_empty line || Str.starts_with "#" line then false
  else
    match Str.split_once ":" line with
    | Some (stored_user, stored_hash) =>
      bool_decide (stored_user = user) && bcrypt_verify password stored_hash
    | None => false
    end.

Definition basic_auth_accepts (secrets : list SecretMaterial) (config : BasicAuthConfig)
    (header : option string) : bool :=
  match header ≫= basic_credentials with
  | None => false
  | Some (user, password) =>
    let htpasswd_content := default "" (sec_htpasswd <$> secret_named secrets (ba_htpasswd_ref config)) in
    existsb (line_accepts user password) (lines htpasswd_content)
  end.

(** [headers.get("authorization")]; a value that is no text counts as empty. *)
Definition authorization_value (request : RequestHeader) : option string :=
  (fun v => if value_is_text v then v else "") <$> get "authorization" (rh_headers request).

Definition handle_basic_auth (proxy : GatewayProxy) (route : SelectedHttpRoute) : HM bool :=
  match basic_auth_config route with
  | None => mret false
  | Some config =>
    let realm := if Str.is_empty (ba_realm config) then "Restricted" else ba_realm config in
    session ← get_session;
    if basic_auth_accepts (Snapshots.sn_secrets (gp_snapshot proxy)) config
         (authorization_value (ss_request session))
    then mret false
    else _ ← send_401 realm; mret true
  end.

Definition extract_bearer_token (request : RequestHeader) (jwt_auth : JwtAuthFilter) :
    option string :=
  header_value ← get_str (jwf_header_name jwt_auth) (rh_headers request);
  Str.strip_prefix (jwf_token_prefix jwt_auth) header_value.

(** [let _ = req_header.insert_header(..)] for each claim. *)
Definition insert_claims (claims : StringMap string) (request : RequestHeader) : RequestHeader :=
  mkRequestHeader (rh_method request) (rh_uri request) (rh_http2 request)
    (foldr (fun item h => default h (hm_insert item.1 item.2 h)) (rh_headers request)
       (map_to_list claims)).

Definition modify_request (f : RequestHeader -> RequestHeader) : HM unit :=
  modify_session (fun ss => ss <| ss_request := f (ss_request ss) |>).

(** A rejected token: the body is written without a response header. *)
Definition reject_token (proxy : GatewayProxy) (route : SelectedHttpRoute) (message : string) :
    HM bool :=
  _ ← cache_selected_http_route_context proxy route;
  _ ← set_status 401 "JWT";
  _ ← write (WroteBody (Some message) false);
  mret true.

(** The lock of the table of validators is not poisoned, and building a validator
    succeeds. *)
Definition handle_jwt_auth (proxy : GatewayProxy) (route : SelectedHttpRoute) : HM bool :=
  match jwt_auth_filter (shr_filters route) with
  | None => mret false
  | Some jwt_auth =>
    session ← get_session;
    match extract_bearer_token (ss_request session) jwt_auth with
    | None => reject_token proxy route "missing JWT token"
    | Some token =>
      r ← on_jwt (check_token jwt_auth token);
      match r with
      | inl claims => _ ← modify_request (insert_claims claims); mret false
      | inr Expired => reject_token proxy route "JWT token expired"
      | inr e => reject_token proxy route ("JWT validation failed: " +:+ JwtError_fmt e)
      end
    end
  end.
End handlers.

(** ** Address lists decide by the address *)

Section ip_facts.
Context `{IpNets}.

Lemma no_colon_in_port port : 0 <= port -> Str.contains_char ":" (Str.to_string port) = false.
Proof. intros Hp. unfold Str.to_string. by rewrite Decimal.dec_digits_chars. Qed.

#[local] Opaque Str.to_string.

Lemma without_port_bracket s : exists t, without_port (String "[" s) = String "[" t.
Proof.
  unfold without_port. cbn [Str.rsplit_once].
  destruct (Str.rsplit_once ":" s) as [[l r]|]; [by eexists|].
  rewrite bool_decide_eq_false_2 by done. by eexists.
Qed.

(** [handle_ip_filter] for a client with an IPv4 address.  The client passes
    exactly when the allow list is empty or has a range that contains the
    address, and no range of the deny list contains it: the deny list overrides
    the allow list. *)
Theorem ipv4_filter_decision config a b c d port :
  is_octets [a; b; c; d] -> 0 <= port ->
  ip_allowed config (Some (Inet (SocketAddrV4 [a; b; c; d] port)))
  = (bool_decide (ip_allow_cidrs config = []) || listed (ip_allow_cidrs config) (V4 [a; b; c; d]))
    && negb (listed (ip_deny_cidrs config) (V4 [a; b; c; d])).
Proof.
  intros Ho Hp. unfold ip_allowed. cbn [PeerAddr_fmt SocketAddr_fmt]. unfold without_port.
  change (":" +:+ Str.to_string port) with (String ":" (Str.to_string port)).
  rewrite Decimal.rsplit_once_app by (by apply no_colon_in_port).
  by rewrite read_ipv4_fmt.
Qed.

(** A client with an IPv6 address never passes an address filter: the text
    that is left of its address after the port is cut keeps the brackets, which
    no address has, so the request is answered with 403 whatever the lists are. *)
Theorem ipv6_filter_denies config segments scope_id port :
  ip_allowed config (Some (Inet (SocketAddrV6 segments scope_id port))) = false.
Proof.
  unfold ip_allowed. destruct (bracket_fmt_V6 segments scope_id port) as [s Hs].
  cbn [PeerAddr_fmt]. rewrite Hs. destruct (without_port_bracket s) as [t ->].
  by rewrite bracket_not_read.
Qed.
End ip_facts.

(** Networks of one address. *)
Definition single_nets : IpNets :=
  {| IpNet := IpAddr; ipnet_from_str := IpAddr_from_str;
     ipnet_contains net ip := bool_decide (net = ip) |}.

(** An address on both lists is denied. *)
Lemma ipv4_filter_decision_witness :
  @ip_allowed single_nets (mkSecurityIpConfig ["10.0.0.9"; "10.0.0.8"] ["10.0.0.8"])
    (Some (Inet (SocketAddrV4 [10; 0; 0; 8] 4000))) = false.
Proof.
  rewrite (@ipv4_filter_decision single_nets
             (mkSecurityIpConfig ["10.0.0.9"; "10.0.0.8"] ["10.0.0.8"]) 10 0 0 8 4000).
  - vm_compute. reflexivity.
  - unfold is_octets. repeat constructor; lia.
  - lia.
Defined.

End HttpAccess.
