(* ===== verification/HttpOidc.v ===== *)
(** * OpenID Connect sessions

    [ntgw-http/src/proxy/filters/oidc.rs]: the redirect to the provider, the
    callback that exchanges the code for a token, and the signed session cookie
    that lets later requests pass.  Hashing, the JSON of the payloads and the
    request to the provider are the class [OidcLib]; what is relied on is
    [OidcLibLaws].  A request reads the time at most once, which is [unix_now]. *)

From Stdlib Require Import ZArith Lia Ascii.
From stdpp Require Import base gmap strings numbers list.
From S2P Require Import Prelude Strs IrTypes Records Matching Scoring HostIndex EndpointRuntime Spread RouteIndex Decimal RuntimeIds Snapshot Resolution Selection IndexedSelection Precedence StreamSelection HttpFastPath Semaphores CircuitBreaker Overload RetryBudget RateLimit Sni IpAddr HttpTypes HttpFilters JwtAuth HttpBackend HttpSession HttpContext HttpAccess.

Local Open Scope string_scope.
Local Open Scope list_scope.
Local Open Scope Z_scope.
Local Open Scope record_scope.

Module HttpOidc.
Import IpAddr HttpTypes HttpFilters JwtAuth HttpBackend HttpSession HttpContext HttpAccess.

Record OidcSessionPayload := mkOidcSessionPayload {
  osp_sub : string;
  osp_exp : Z;
  osp_access_token_hash : string;
}.

Record TokenData := mkTokenData { td_access_token : string; td_sub : string; td_exp : Z }.
Record JwtClaims := mkJwtClaims { jc_sub : string; jc_exp : option Z }.

Class OidcLib := {
  sha256 : string -> string;
  payload_to_json : OidcSessionPayload -> string;
  payload_from_json : string -> option OidcSessionPayload;
  claims_from_json : string -> option JwtClaims;
  (** The access token that the token endpoint answers to a form, or an error. *)
  request_token : string -> list (string * string) -> string + string;
}.

Class OidcLibLaws `{OidcLib} :=
  payload_roundtrip p : payload_from_json (payload_to_json p) = Some p.

(** ** URL encoding *)

Definition upper_hex (d : Z) : ascii :=
  if d <? 10 then ascii_of_nat (48 + Z.to_nat d) else ascii_of_nat (55 + Z.to_nat d).

Definition is_unreserved (a : ascii) : bool :=
  Str.is_upper a || Str.is_lower a || Str.is_digit a
  || bool_decide (a ∈ ["-"; "_"; "."; "~"]%char).

Definition encode_byte (a : ascii) : string :=
  if is_unreserved a then String a ""
  else
    let b := Z.of_nat (nat_of_ascii a) in
    String "%" (String (upper_hex (b / 16)) (String (upper_hex (b mod 16)) "")).

Fixpoint url_encode (s : string) : string :=
  match s with
  | EmptyString => EmptyString
  | String a s => encode_byte a +:+ url_encode s
  end.

Definition is_continuation (a : ascii) : bool :=
  (128 <=? nat_of_ascii a)%nat && (nat_of_ascii a <? 192)%nat.

(** [str::chars], each as its bytes. *)
Fixpoint chars (s : string) : list string :=
  match s with
  | EmptyString => []
  | String a s =>
    match chars s with
    | String b c :: cs =>
      if is_continuation b then String a (String b c) :: cs
      else String a "" :: String b c :: cs
    | cs => String a "" :: cs
    end
  end.

Definition hex_value (a : ascii) : option Z := to_digit 16 a.

Fixpoint parse_hex_digits (acc : Z) (s : string) : option Z :=
  match s with
  | EmptyString => Some acc
  | String a s =>
    d ← hex_value a;
    let acc := acc * 16 + d in
    if acc <? 256 then parse_hex_digits acc s else None
  end.

(** [u8::from_str_radix(s, 16)]: one sign is allowed before at least one digit. *)
Definition u8_from_hex (s : string) : option Z :=
  match s with
  | EmptyString => None
  | String a t =>
    if bool_decide (a = "+"%char) then (if Str.is_empty t then None else parse_hex_digits 0 t)
    else parse_hex_digits 0 s
  end.

(** [byte as char] *)
Definition char_of_byte (b : Z) : string :=
  if b <? 128 then String (ascii_of_nat (Z.to_nat b)) ""
  else String (ascii_of_nat (Z.to_nat (192 + b / 64))) (String (ascii_of_nat (Z.to_nat (128 + b mod 64))) "").

Definition push_hex (hex rest : string) : string :=
  match u8_from_hex hex with
  | Some byte => char_of_byte byte +:+ rest
  | None => "%" +:+ hex +:+ rest
  end.

Fixpoint decode_chars (cs : list string) : string :=
  match cs with
  | [] => EmptyString
  | c :: cs =>
    if bool_decide (c = "%") then
      match cs with
      | x :: y :: cs => push_hex (x +:+ y) (decode_chars cs)
      | [x] => push_hex x EmptyString
      | [] => push_hex EmptyString EmptyString
      end
    else if bool_decide (c = "+") then " " +:+ decode_chars cs
    else c +:+ decode_chars cs
  end.
Definition url_decode (s : string) : string := decode_chars (chars s).

Definition extract_query_param (query param_name : string) : option string :=
  find_map (fun pair =>
    '(key, value) ← Str.split_once "=" pair;
    if bool_decide (key = param_name) then Some (url_decode value) else None)
    (Str.split "&" query).

Fixpoint join_scopes (scopes : list string) : string :=
  match scopes with
  | [] => EmptyString
  | [s] => s
  | s :: scopes => s +:+ " " +:+ join_scopes scopes
  end.

Definition effective_cookie_name (oidc_config : OidcAuthConfig) : string :=
  if Str.is_empty (oidc_session_cookie_name oidc_config) then "_ntgw_oidc_session"
  else oidc_session_cookie_name oidc_config.

Section oidc.
Context `{HttpLib, HttpParts, Semaphore, JwtLib, TlsLib, !CacheLib, Clock, TokenLib, OidcLib, UnixTime} {HD : Downstream}.

Definition hash_token (token : string) : string := url_safe_encode (sha256 token).

(** A cookie header that is no text ends the search. *)
Fixpoint extract_cookie_from (entries : list (string * string)) (cookie_name : string) :
    option string :=
  match entries with
  | [] => None
  | (header_name, value) :: entries =>
    if negb (Str.eq_ignore_ascii_case header_name "cookie")
    then extract_cookie_from entries cookie_name
    else if negb (value_is_text value) then None
    else
      match cookie_in cookie_name value with
      | Some val => Some val
      | None => extract_cookie_from entries cookie_name
      end
  end.
Definition extract_cookie (request : RequestHeader) (cookie_name : string) : option string :=
  extract_cookie_from (hm_iter (rh_headers request)) cookie_name.

Definition verify_session (cookie_value signing_key : string) : bool :=
  match Str.split_once "." cookie_value with
  | None => false
  | Some (payload_b64, signature_b64) =>
    match url_safe_decode payload_b64, url_safe_decode signature_b64 with
    | Some payload, Some signature =>
      if bool_decide (signature = hmac_sha256 signing_key payload) then
        match payload_from_json payload with
        | Some session => default 0 unix_now <? osp_exp session
        | None => false
        end
      else false
    | _, _ => false
    end
  end.

(** The two texts of a cookie, for a key. *)
Definition signed_cookie (payload : OidcSessionPayload) (signing_key : string) : string :=
  let payload_json := payload_to_json payload in
  url_safe_encode payload_json +:+ "." +:+ url_safe_encode (hmac_sha256 signing_key payload_json).

Definition create_session_cookie (payload : OidcSessionPayload) (signing_key : string) :
    option string :=
  if Str.is_empty signing_key then None else Some (signed_cookie payload signing_key).

Definition decode_jwt_claims (token : string) : option JwtClaims :=
  match Str.split "." token with
  | _ :: part :: _ => payload ← url_safe_decode part; claims_from_json payload
  | _ => None
  end.

(** [exp_or_default]: an hour from now, when the token does not say. *)
Definition exp_or_default (claims : JwtClaims) : Z :=
  default (default 0 ((fun now => now + 3600) <$> unix_now)) (jc_exp claims).

Definition exchange_code_for_tokens (oidc_config : OidcAuthConfig)
    (client_secret code redirect_uri : string) : option TokenData :=
  match request_token (oidc_provider_token_url oidc_config)
          [("grant_type", "authorization_code"); ("code", code); ("redirect_uri", redirect_uri);
           ("client_id", oidc_client_id oidc_config); ("client_secret", client_secret)] with
  | inr _ => None
  | inl access_token =>
    claims ← decode_jwt_claims access_token;
    Some (mkTokenData access_token (jc_sub claims) (exp_or_default claims))
  end.

Definition cache_oidc_context (proxy : GatewayProxy) (route : SelectedHttpRoute) (code : Z) :
    HM unit :=
  _ ← cache_selected_http_route_context proxy route; set_status code "OC".

Definition send_oidc_error (proxy : GatewayProxy) (route : SelectedHttpRoute) (code : Z)
    (message : string) : HM unit :=
  let body := "OIDC error: " +:+ message in
  response ← lift (plain_text_response code body);
  _ ← cache_oidc_context proxy route code;
  _ ← write (WroteHeader response false);
  write (WroteBody (Some body) true).

Definition secret_field (proxy : GatewayProxy) (name : string) (field : SecretMaterial -> string) :
    string :=
  default "" (field <$> secret_named (Snapshots.sn_secrets (gp_snapshot proxy)) name).

Definition handle_oidc_callback (proxy : GatewayProxy) (route : SelectedHttpRoute)
    (oidc_config : OidcAuthConfig) : HM bool :=
  session ← get_session;
  let query := default "" (uri_query (rh_uri (ss_request session))) in
  match extract_query_param query "code" with
  | None => _ ← send_oidc_error proxy route 400 "missing authorization code"; mret true
  | Some code =>
    let client_secret :=
      secret_field proxy (oidc_client_secret_ref oidc_config) sec_oidc_client_secret in
    match exchange_code_for_tokens oidc_config client_secret code
            (oidc_redirect_url oidc_config) with
    | None => _ ← send_oidc_error proxy route 500 "token exchange failed"; mret true
    | Some token_data =>
      let signing_key :=
        secret_field proxy (oidc_session_signing_key_ref oidc_config) sec_key_pem in
      let session_payload :=
        mkOidcSessionPayload (td_sub token_data) (td_exp token_data)
          (hash_token (td_access_token token_data)) in
      match create_session_cookie session_payload signing_key with
      | None => _ ← send_oidc_error proxy route 500 "session creation failed"; mret true
      | Some cookie =>
        let redirect_target :=
          default (oidc_redirect_url oidc_config) (extract_query_param query "state") in
        response ← lift (ResponseHeader_build 302);
        response ← lift (rsp_insert "location" redirect_target response);
        response ← lift (rsp_insert "set-cookie"
                           (effective_cookie_name oidc_config +:+ "=" +:+ cookie
                              +:+ "; Path=/; HttpOnly; SameSite=Lax") response);
        response ← lift (rsp_insert "content-length" "0" response);
        _ ← write (WroteHeader response true);
        _ ← cache_oidc_context proxy route 302;
        mret true
      end
    end
  end.

Definition authorization_url (oidc_config : OidcAuthConfig) (request : RequestHeader) : string :=
  let host := default "localhost" (get_str "host" (rh_headers request)) in
  let scheme := if bool_decide (uri_scheme (rh_uri request) = Some "https") then "https" else "http" in
  let original_url := scheme +:+ "://" +:+ host +:+ uri_text (rh_uri request) in
  let scopes :=
    if bool_decide (oidc_scopes oidc_config = []) then "openid"
    else join_scopes (oidc_scopes oidc_config) in
  oidc_provider_authorization_url oidc_config
    +:+ "?client_id=" +:+ url_encode (oidc_client_id oidc_config)
    +:+ "&response_type=code&scope=" +:+ url_encode scopes
    +:+ "&redirect_uri=" +:+ url_encode (oidc_redirect_url oidc_config)
    +:+ "&state=" +:+ url_encode original_url.

Definition redirect_to_authorization (proxy : GatewayProxy) (route : SelectedHttpRoute)
    (oidc_config : OidcAuthConfig) : HM bool :=
  session ← get_session;
  response ← lift (build_redirect_response 302 (authorization_url oidc_config (ss_request session)));
  _ ← write (WroteHeader response true);
  _ ← cache_oidc_context proxy route 302;
  mret true.

Definition oidc_config_of (route : SelectedHttpRoute) : option OidcAuthConfig :=
  policy ← shr_security_policy route; authn ← sec_authn policy; an_oidc authn.

(** Whether the request carries a session cookie that the signing key verifies. *)
Definition has_session (proxy : GatewayProxy) (oidc_config : OidcAuthConfig)
    (request : RequestHeader) : bool :=
  let signing_key := secret_field proxy (oidc_session_signing_key_ref oidc_config) sec_key_pem in
  match extract_cookie request (effective_cookie_name oidc_config) with
  | Some cookie_value => verify_session cookie_value signing_key
  | None => false
  end.

Definition handle_oidc (proxy : GatewayProxy) (route : SelectedHttpRoute) : HM bool :=
  match oidc_config_of route with
  | None => mret false
  | Some oidc_config =>
    session ← get_session;
    if bool_decide (uri_path (rh_uri (ss_request session)) = oidc_callback_path oidc_config)
    then handle_oidc_callback proxy route oidc_config
    else if has_session proxy oidc_config (ss_request session) then mret false
    else redirect_to_authorization proxy route oidc_config
  end.
End oidc.

End HttpOidc.
