(* ===== verification/HttpExternalAuth.v ===== *)
(** * External authorization

    [ntgw-http/src/proxy/external_auth.rs]: the request that an authorization
    service is asked with, over HTTP or gRPC, the reading of its answer, and the
    decision.  What a service answers is the class [AuthNet]: the bytes that come
    back on the connection, or the message of a gRPC check. *)

From Stdlib Require Import ZArith Lia Ascii.
From stdpp Require Import base gmap strings numbers list.
From S2P Require Import Prelude Strs IrTypes Records Matching HostIndex EndpointRuntime Spread RouteIndex Decimal RuntimeIds Snapshot Resolution Sni IpAddr HttpTypes HttpFilters.

Local Open Scope string_scope.
Local Open Scope list_scope.
Local Open Scope Z_scope.

Module HttpExternalAuth.
Import HttpTypes HttpFilters.

Inductive ExternalAuthDecision `{HttpLib} :=
| Allow (headers : StringMap (list string))
| Deny (response : ResponseHeader) (body : string).

Record AttributeContext := mkAttributeContext {
  at_method : string;
  at_path : string;
  at_host : string;
  at_headers : StringMap string;
  at_body : string;
}.

Record DeniedHttpResponse := mkDeniedHttpResponse {
  dn_status : option Z;
  dn_headers : list (option (string * string));
  dn_body : string;
}.

Inductive CheckHttpResponse := OkResponse | DeniedResponse (denied : DeniedHttpResponse).

Record CheckResponse := mkCheckResponse {
  cr_status_code : option Z;
  cr_http_response : option CheckHttpResponse;
}.

Class AuthNet := {
  (** The bytes that come back for a request, until the end or an error of the
      connection; [None] when the service cannot be reached. *)
  auth_exchange : string -> string -> option string;
  (** A check that succeeds. *)
  grpc_check : string -> AttributeContext -> option CheckResponse;
}.

Record AuthResponse := mkAuthResponse {
  ar_status : Z;
  ar_headers : list (string * string);
  ar_body : string;
}.

Definition CR : ascii := ascii_of_nat 13.
Definition LF : ascii := ascii_of_nat 10.
Definition CRLF : string := String CR (String LF "").

Definition is_forbidden_backend_request_header (name : string) : bool :=
  Str.eq_ignore_ascii_case name "host" || Str.eq_ignore_ascii_case name "authority"
  || Str.eq_ignore_ascii_case name ":authority".

(** ** Reading an answer *)

(** [str::split] at each occurrence of a string. *)
Fixpoint split_str (fuel : nat) (p s : string) : list string :=
  match fuel with
  | O => [s]
  | S fuel =>
    match Str.split_once_str p s with
    | Some (l, r) => l :: split_str fuel p r
    | None => [s]
    end
  end.

(** [split_whitespace]: the pieces that are not empty. *)
Fixpoint split_whitespace_from (fuel : nat) (current s : string) : list string :=
  let flush := if Str.is_empty current then [] else [current] in
  match fuel with
  | O => flush
  | S fuel =>
    match Str.strip_any Str.ws_strings s with
    | Some rest => flush ++ split_whitespace_from fuel "" rest
    | None =>
      match s with
      | EmptyString => flush
      | String a s => split_whitespace_from fuel (current +:+ String a "") s
      end
    end
  end.
Definition split_whitespace (s : string) : list string :=
  split_whitespace_from (S (String.length s)) "" s.

Definition bytes_of (s : string) : list Z :=
  (fun a => Z.of_nat (nat_of_ascii a)) <$> String.list_ascii_of_string s.

(** The name and the value of a header line. *)
Definition header_line (line : string) : option (string * string) :=
  '(name, value) ← Str.split_once ":" line; Some (name, Str.trim value).

Definition header_lines (lines : list string) : list (string * string) := omap header_line lines.

(** The length that the last such header gives. *)
Definition content_length_of (headers : list (string * string)) : Z :=
  foldl (fun length item =>
           if Str.eq_ignore_ascii_case item.1 "content-length"
           then default 0 (Str.parse_uint U.u64_modulus item.2) else length) 0 headers.

Definition bad_gateway : Error := Error_new (HTTPStatus 502).

(** The bytes up to and with the blank line, and the rest. *)
Definition read_head (received : string) : option (string * string) :=
  '(head, rest) ← Str.split_once_str (CRLF +:+ CRLF) received;
  Some (head +:+ CRLF +:+ CRLF, rest).

Definition read_auth_response (received : string) : Res AuthResponse :=
  '(raw, rest) ← ok_or (read_head received) bad_gateway;
  if negb (Sni.from_utf8 (bytes_of raw)) then inr bad_gateway
  else
    match split_str (String.length raw) CRLF raw with
    | [] => inr bad_gateway
    | first :: lines =>
      status ← ok_or (field ← nth_error (split_whitespace first) 1; Str.parse_u16 field)
                 bad_gateway;
      let headers := header_lines lines in
      let content_length := content_length_of headers in
      if Z.of_nat (String.length rest) <? content_length then inr bad_gateway
      else mret (mkAuthResponse status headers (String.substring 0 (Z.to_nat content_length) rest))
    end.

Section with_http.
Context `{HttpLib, AuthNet}.

(** ** The request *)

Definition write_request_header_values (request : RequestHeader) (header_name : string) : string :=
  foldr (fun value out =>
           if value_is_text value && negb (Str.contains_char CR value) && negb (Str.contains_char LF value)
           then header_name +:+ ": " +:+ value +:+ CRLF +:+ out else out) ""
    (get_all header_name (rh_headers request)).

Definition build_auth_request (request : RequestHeader) (auth : ExternalAuthFilter)
    (body : option string) : string :=
  let body := default "" body in
  let path := if Str.is_empty (eha_path (ea_http auth)) then "/" else eha_path (ea_http auth) in
  rh_method request +:+ " " +:+ path +:+ " HTTP/1.1" +:+ CRLF
  +:+ "Host: external-auth" +:+ CRLF +:+ "Connection: close" +:+ CRLF
  +:+ "Content-Length: " +:+ Str.to_string (Z.of_nat (String.length body)) +:+ CRLF
  +:+ write_request_header_values request "authorization"
  +:+ foldr (fun name out =>
               let name := Str.to_ascii_lowercase name in
               if negb (name_is_valid name) || bool_decide (name = "authorization") then out
               else write_request_header_values request name +:+ out) ""
        (eha_allowed_headers (ea_http auth))
  +:+ CRLF +:+ body.

(** ** The decision *)

Definition allowed_response_headers (headers : list (string * string)) (allowed : list string) :
    StringMap (list string) :=
  foldl (fun out item =>
           let normalized := Str.to_ascii_lowercase item.1 in
           if negb (bool_decide (normalized ∈ (Str.to_ascii_lowercase <$> allowed)))
              || is_forbidden_backend_request_header normalized then out
           else Matching.push_param out item.1 item.2) ∅ headers.

Definition grpc_request_headers (request : RequestHeader) (allowed : list string) :
    StringMap string :=
  let allowed := Str.to_ascii_lowercase <$> allowed in
  foldl (fun out item =>
           let name := Str.to_ascii_lowercase item.1 in
           if negb (bool_decide (allowed = [])) && negb (bool_decide (name ∈ allowed)) then out
           else if negb (value_is_text item.2) then out
           else
             match out !! name with
             | Some existing => <[name := existing +:+ "," +:+ item.2]> out
             | None => <[name := item.2]> out
             end) ∅ (hm_iter (rh_headers request)).

Definition request_host (request : RequestHeader) : string :=
  match get_str "host" (rh_headers request) with
  | Some host => host
  | None => default "" (uri_host (rh_uri request))
  end.

Definition build_grpc_attribute_context (request : RequestHeader) (auth : ExternalAuthFilter)
    (body : option string) : AttributeContext :=
  {| at_method := rh_method request;
     at_path := default (uri_path (rh_uri request)) (uri_path_and_query (rh_uri request));
     at_host := request_host request;
     at_headers := grpc_request_headers request (ega_allowed_headers (ea_grpc auth));
     at_body := default "" body |}.

Fixpoint append_denied_headers (headers : list (option (string * string))) (r : ResponseHeader) :
    Res ResponseHeader :=
  match headers with
  | [] => mret r
  | None :: headers => append_denied_headers headers r
  | Some (key, value) :: headers =>
    if Str.eq_ignore_ascii_case key "content-length" || negb (name_is_valid key)
    then append_denied_headers headers r
    else r ← rsp_append key value r; append_denied_headers headers r
  end.

Definition denied_status (status : option Z) : Z :=
  match status with
  | Some code => if (100 <=? code) && (code <=? 599) then code else 403
  | None => 403
  end.

Definition grpc_denied_response (denied : DeniedHttpResponse) : Res ExternalAuthDecision :=
  response ← ResponseHeader_build (denied_status (dn_status denied));
  response ← rsp_insert "content-length"
    (Str.to_string (Z.of_nat (String.length (dn_body denied)))) response;
  response ← append_denied_headers (dn_headers denied) response;
  mret (Deny response (dn_body denied)).

Definition grpc_error : Error := Error_new (HTTPStatus 500).

Definition run_grpc_external_auth (request : RequestHeader) (auth : ExternalAuthFilter)
    (endpoint : BackendEndpoint) (body : option string) : Res ExternalAuthDecision :=
  let address := "http://" +:+ be_address endpoint +:+ ":" +:+ Str.to_string (be_port endpoint) in
  response ← ok_or (grpc_check address (build_grpc_attribute_context request auth body)) grpc_error;
  match cr_http_response response, cr_status_code response with
  | Some OkResponse, Some code => if bool_decide (code = 0) then mret (Allow ∅) else inr grpc_error
  | Some OkResponse, None => mret (Allow ∅)
  | Some (DeniedResponse denied), _ => grpc_denied_response denied
  | None, Some code => if bool_decide (code = 0) then mret (Allow ∅) else inr grpc_error
  | None, None => inr grpc_error
  end.

Definition run_external_auth (request : RequestHeader) (auth : ExternalAuthFilter)
    (endpoint : BackendEndpoint) (body : option string) : Res ExternalAuthDecision :=
  if Str.eq_ignore_ascii_case (ea_protocol auth) "GRPC"
  then run_grpc_external_auth request auth endpoint body
  else
    let address := be_address endpoint +:+ ":" +:+ Str.to_string (be_port endpoint) in
    received ← ok_or (auth_exchange address (build_auth_request request auth body)) bad_gateway;
    response ← read_auth_response received;
    if (200 <=? ar_status response) && (ar_status response <=? 299)
    then mret (Allow (allowed_response_headers (ar_headers response)
                        (eha_allowed_response_headers (ea_http auth))))
    else
      header ← ResponseHeader_build (ar_status response);
      header ← rsp_insert "content-length"
        (Str.to_string (Z.of_nat (String.length (ar_body response)))) header;
      mret (Deny header (ar_body response)).

(** ** What the backend is told *)

Fixpoint append_values (name : string) (values : list string) (h : HeaderMap) : Res HeaderMap :=
  match values with
  | [] => mret h
  | value :: values => h ← append_header name value h; append_values name values h
  end.

Fixpoint apply_auth_headers (headers : list (string * list string)) (h : HeaderMap) :
    Res HeaderMap :=
  match headers with
  | [] => mret h
  | (name, values) :: headers =>
    if is_forbidden_backend_request_header name || negb (name_is_valid name)
    then apply_auth_headers headers h
    else
      match values with
      | [] => apply_auth_headers headers h
      | first :: values =>
        h ← insert_header (Str.to_ascii_lowercase name) first h;
        h ← append_values (Str.to_ascii_lowercase name) values h;
        apply_auth_headers headers h
      end
  end.

Definition apply_external_auth_response_headers (request : RequestHeader)
    (headers : StringMap (list string)) : Res RequestHeader :=
  h ← apply_auth_headers (Resolution.btree_iter headers) (rh_headers request);
  mret (mkRequestHeader (rh_method request) (rh_uri request) (rh_http2 request) h).
End with_http.

End HttpExternalAuth.
