(* ===== verification/HttpRetry.v ===== *)
(** * Retries and the choice of an upstream

    [ntgw-http/src/proxy/retry.rs] and [upstream.rs], with
    [select_backend_with_transport_retry_exclusions] of [proxy/mod.rs] and the
    observations of [context.rs]: when a failed attempt is tried again, which
    endpoint the next attempt goes to, and the permit of the circuit breaker that
    it holds.  An attempt that waits for its backoff only delays the phase, so the
    wait is left out. *)

From Stdlib Require Import ZArith Lia Ascii.
From stdpp Require Import base gmap strings numbers list.
From S2P Require Import Prelude Strs IrTypes Records Matching Scoring HostIndex EndpointRuntime Spread RouteIndex Decimal RuntimeIds Snapshot Resolution Selection IndexedSelection Precedence StreamSelection HttpFastPath Semaphores CircuitBreaker Overload RetryBudget RateLimit Sni IpAddr HttpTypes HttpFilters JwtAuth HttpBackend HttpSession HttpContext HttpMeta HttpGuards.

Local Open Scope string_scope.
Local Open Scope list_scope.
Local Open Scope Z_scope.
Local Open Scope record_scope.

Module HttpRetry.
Import Snapshots EndpointRuntime Resolution StreamSelection IpAddr HttpTypes HttpFilters JwtAuth
       HttpBackend HttpSession HttpContext HttpMeta HttpGuards.

Definition DEFAULT_HTTP_ROUTE_RETRIES : Z := 1.
Definition DEFAULT_TRANSPORT_CONNECT_RETRIES : Z := 1.
Definition TRANSPORT_RETRY_ENDPOINT_SELECTION_ATTEMPTS : nat := 8.

(** ** Errors *)

Definition is_timeout_error_name (value : string) : bool :=
  Str.ends_with "Timedout" value || Str.ends_with "Timeout" value.

Definition proxy_error_status (error_type : string) : Z :=
  if bool_decide (error_type = "NoRouteMatched") then 404
  else if bool_decide (error_type = "NoHealthyBackend") then 503
  else if bool_decide (error_type = "CircuitBreakerOpen") then 503
  else if bool_decide (error_type = "UnsupportedRouteFilter") then 500
  else if is_timeout_error_name error_type then 504
  else 500.

Definition proxy_error_flag (error_type : string) : string :=
  if bool_decide (error_type = "NoRouteMatched") then "NR"
  else if bool_decide (error_type = "NoHealthyBackend") then "UH"
  else if bool_decide (error_type = "CircuitBreakerOpen") then "CB"
  else if bool_decide (error_type = "InvalidBackendRefs") then "IB"
  else if bool_decide (error_type = "UnsupportedRouteFilter") then "UF"
  else if is_timeout_error_name error_type then "UT"
  else "UF".

Definition is_downstream_connection_closed (error : Error) : bool :=
  bool_decide (er_esource error = SourceDownstream) && bool_decide (er_etype error = ConnectionClosed).

Definition proxy_error_flag_for (error : Error) : string :=
  match er_esource error, er_etype error with
  | SourceDownstream, ConnectionClosed => "DC"
  | SourceUpstream, ConnectionClosed => "UC"
  | SourceDownstream, item =>
    if is_timeout_error_name (ErrorType_as_str item) then "IT"
    else proxy_error_flag (ErrorType_as_str item)
  | _, item => proxy_error_flag (ErrorType_as_str item)
  end.

Definition proxy_error_code (error : Error) : Z :=
  let otherwise :=
    match er_etype error with
    | HTTPStatus code => code
    | CustomCode _ code => code
    | item => proxy_error_status (ErrorType_as_str item)
    end in
  match er_esource error, er_etype error with
  | SourceDownstream, ConnectionClosed => 499
  | SourceDownstream, item =>
    if is_timeout_error_name (ErrorType_as_str item) then 408 else otherwise
  | _, _ => otherwise
  end.

Definition should_suppress_proxy_error_log (error : Error) (response_started : bool) : bool :=
  is_downstream_connection_closed error
  || bool_decide (ErrorType_as_str (er_etype error) = "NoRouteMatched")
  || (response_started && bool_decide (er_esource error = SourceUpstream)
      && bool_decide (er_etype error = ConnectionClosed)).

Definition default_transport_retryable_error (error : Error) : bool :=
  bool_decide (er_etype error ∈ [ConnectRefused; ConnectNoRoute; ConnectTimedout]).

Definition retry_limit (policy : RetryPolicy) : Z :=
  if bool_decide (rp_attempts policy = 0) then DEFAULT_HTTP_ROUTE_RETRIES else rp_attempts policy.

Definition retry_status_error (retry : bool) : Error :=
  set_retry retry (Error_new (HTTPStatus 502)).

Section with_env.
Context `{HttpLib, HttpParts, Semaphore, JwtLib, TlsLib, !CacheLib, !PeerDefaults, Clock, KeyHasher, Libm,
          RegexEngine, FormUrlencoded, TokenLib, SessionLib, UnixTime} {HD : Downstream}.

Definition retry_backoff (ctx : RequestContext) : option Duration :=
  if 0 <? retry_attempts ctx then retry_backoff_field ctx else None.

Definition response_is_retryable (ctx : RequestContext) (status : Z) : bool :=
  match selected_retry_policy ctx with
  | Some policy => bool_decide (status ∈ rp_codes policy) && request_is_retry_replayable ctx
  | None => false
  end.

Definition retry_completed_successfully (ctx : RequestContext) : bool :=
  (0 <? retry_attempts ctx) && (100 <=? status ctx) && (status ctx <=? 499).

(** What is left of the failed attempt: the permit of the circuit breaker is
    returned. *)
Definition forget_attempt (retry_backoff : option Duration) : HM unit :=
  ctx ← get_ctx;
  _ ← modify_ctx (fun ctx =>
        let l := labels ctx in
        ctx <| retry_attempts := retry_attempts ctx + 1 |>
            <| retry_backoff_field := retry_backoff |>
            <| labels := mkLabels (lb_route_kind l) (lb_route_name l) (lb_route_namespace l)
                           (lb_listener_name l) (lb_listener_protocol l) "" |>
            <| selected_backend := None |>
            <| fast_selected_backend := None |>
            <| selected_backend_config := None |>
            <| circuit_breaker_permit := None |>);
  drop_circuit_breaker_permit (circuit_breaker_permit ctx).

Definition try_prepare_retry_with_limit (retry_limit : Z) (retry_backoff : option Duration)
    (seed_retry_budget remember_transport_failure : bool) : HM bool :=
  ctx ← get_ctx;
  session ← get_session;
  if negb (request_is_retry_replayable ctx) then mret false
  else if ss_retry_buffer_truncated session then mret false
  else if retry_limit <=? retry_attempts ctx then mret false
  else
    _ ← (if seed_retry_budget && negb (retry_budget_seeded ctx) then
           _ ← observe_retryable_request;
           modify_ctx (fun ctx => ctx <| retry_budget_seeded := true |>)
         else mret tt);
    acquired ← on_retry_budget RetryBudget.try_acquire_retry;
    if negb acquired then mret false
    else
      _ ← (if remember_transport_failure
           then modify_ctx remember_transport_retry_excluded_endpoint else mret tt);
      _ ← forget_attempt retry_backoff;
      mret true.

Definition try_prepare_retry : HM bool :=
  ctx ← get_ctx;
  match selected_retry_policy ctx with
  | None => mret false
  | Some policy =>
    try_prepare_retry_with_limit (retry_limit policy) (rp_backoff policy) false false
  end.

Definition try_prepare_transport_retry (error : Error) : HM bool :=
  ctx ← get_ctx;
  match selected_retry_policy ctx with
  | Some policy =>
    try_prepare_retry_with_limit (retry_limit policy) (rp_backoff policy) false true
  | None =>
    if negb (default_transport_retryable_error error) then mret false
    else try_prepare_retry_with_limit DEFAULT_TRANSPORT_CONNECT_RETRIES None true true
  end.

(** ** Observations *)

Definition record_endpoint (key : EndpointRuntimeKey) (failed : bool) : Resolution.M unit := fun w =>
  let '(now, w) := instant_now w in
  let store := w_endpoint_runtime w in
  let store :=
    if failed then EndpointRuntime.update store key (fun state => (record_failure state now, None))
    else inner_record_success store key now in
  (tt, Resolution.mkWorld (w_backend_cursor w) (w_endpoint_cursor w) (w_mirror_cursor w) store (w_ticks w)).

Definition observe_selected_backend_result (failed : bool) : HM unit :=
  ctx ← get_ctx;
  if backend_observation_recorded ctx then mret tt
  else
    let key :=
      match selected_backend_config ctx with
      | Some config => Some (sbc_runtime config)
      | None =>
        (fun selected => EndpointRuntimeKey_new (sb_backend_name selected) (sb_backend selected))
          <$> selected_backend ctx
      end in
    match key with
    | None => mret tt
    | Some key =>
      _ ← on_selection (record_endpoint key failed);
      modify_ctx (fun ctx => ctx <| backend_observation_recorded := true |>)
    end.

Definition response_started (session : Session) : bool :=
  existsb (fun w => match w with WroteBody _ _ => false | _ => true end) (ss_written session).

Definition transport_retry_if (allowed : bool) (e : Error) : HM bool :=
  if allowed then try_prepare_transport_retry e else mret false.

(** [do_error_while_proxy] *)
Definition do_error_while_proxy (e : Error) (client_reused : bool) : HM Error :=
  session ← get_session;
  let response_started := response_started session in
  let downstream_error := bool_decide (er_esource e = SourceDownstream) in
  let e := if downstream_error then set_retry false e else e in
  _ ← (if downstream_error then mret tt else observe_selected_backend_result true);
  retried ← transport_retry_if (negb response_started && negb downstream_error) e;
  mret (match retried with
        | true => set_retry true e
        | false => decide_reuse (negb response_started && negb downstream_error && client_reused
                                 && negb (ss_retry_buffer_truncated session)) e
        end).

(** [do_fail_to_connect] *)
Definition do_fail_to_connect (e : Error) : HM Error :=
  _ ← observe_selected_backend_result true;
  retried ← try_prepare_transport_retry e;
  mret (match retried with true => set_retry true e | false => e end).

(** ** The upstream of an attempt *)

Definition session_now : Z := default 0 unix_now.

Definition resolved_session_for (proxy : GatewayProxy) (headers : RequestHeaders)
    (policy : SessionPersistence) : option ResolvedSession :=
  resolve_request_session_headers (gp_session_secret proxy) session_now headers policy.

Definition session_resolver (proxy : GatewayProxy) (headers : RequestHeaders) : SessionResolver :=
  fun policy => rs_target <$> resolved_session_for proxy headers policy.

Fixpoint select_not_excluded (current : Snapshot) (request : RequestMeta)
    (resolver : SessionResolver) (ctx : RequestContext) (attempts : nat)
    (last_resort : option SelectedBackend) : Resolution.M (option SelectedBackend) := fun w =>
  match attempts with
  | O => (last_resort, w)
  | S attempts =>
    let '(selected, w) := select_backend_with_session_resolver current request resolver w in
    match selected with
    | None => (None, w)
    | Some selected =>
      if negb (selected_backend_is_transport_retry_excluded ctx selected) then (Some selected, w)
      else select_not_excluded current request resolver ctx attempts
             (Some (default selected last_resort)) w
    end
  end.

Definition select_backend_with_transport_retry_exclusions (current : Snapshot)
    (request : RequestMeta) (resolver : SessionResolver) (ctx : RequestContext) :
    Resolution.M (option SelectedBackend) :=
  let excluded := transport_retry_excluded_endpoints ctx in
  if bool_decide (excluded = []) then select_backend_with_session_resolver current request resolver
  else
    select_not_excluded current request resolver ctx
      (Nat.max TRANSPORT_RETRY_ENDPOINT_SELECTION_ATTEMPTS (length excluded + 1)) None.

(** The limit of a backend that its cluster configures. *)
Definition sync_per_backend_cb_limit (snap : Snapshot) (backend_name : string) : HM unit :=
  match List.find (fun b => bool_decide (bc_name b = backend_name)) (sn_backends snap) with
  | Some backend =>
    match bc_circuit_breaker backend with
    | Some cb =>
      if 0 <? cbc_max_inflight_requests cb
      then on_circuit_breaker (fun c =>
             (tt, CircuitBreaker.set_backend_limit c backend_name (cbc_max_inflight_requests cb)))
      else mret tt
    | None => mret tt
    end
  | None => mret tt
  end.

(** The permit of the circuit breaker that an attempt holds. *)
Definition acquire_circuit_breaker (proxy : GatewayProxy) (backend_name : string) : HM unit :=
  ctx ← get_ctx;
  match circuit_breaker_permit ctx with
  | Some _ => mret tt
  | None =>
    _ ← sync_per_backend_cb_limit (gp_snapshot proxy) backend_name;
    r ← on_circuit_breaker (fun c => CircuitBreaker.try_acquire_backend c backend_name);
    match r with
    | inl permit => modify_ctx (fun ctx => ctx <| circuit_breaker_permit := Some permit |>)
    | inr _ => fail (Error_new (Named "CircuitBreakerOpen"))
    end
  end.

Definition apply_route_policy_to_peer (ctx : RequestContext) (peer : HttpPeer) : HttpPeer :=
  let o := hp_options peer in
  let o :=
    match policy_timeout (route_policy ctx) rpt_connect with
    | Some connect_ms =>
      o <| po_connection_timeout := Some (from_millis connect_ms) |>
        <| po_total_connection_timeout := Some (from_millis connect_ms) |>
    | None => o
    end in
  let o :=
    match policy_timeout (route_policy ctx) rpt_backend_request with
    | Some ms =>
      if bool_decide (from_millis ms = 0) then o
      else o <| po_read_timeout := Some (from_millis ms) |>
             <| po_write_timeout := Some (from_millis ms) |>
    | None => o
    end in
  let o :=
    match (rp ← route_policy ctx; conn ← rpo_connection rp; rpc_upstream_keepalive_idle conn) with
    | Some idle_secs => o <| po_idle_timeout := Some (idle_secs * 1000000000) |>
    | None => o
    end in
  mkHttpPeer (hp_address peer) (hp_port peer) (hp_tls peer) (hp_sni peer) (hp_client_cert_key peer)
    (hp_group_key peer) o.

Definition build_peer (proxy : GatewayProxy) (config : SelectedBackendConfig) : HttpPeer :=
  build_upstream_peer_from_cached_parts config (gp_upstream_tcp_keepalive proxy)
    (gp_upstream_tuning proxy).

Definition InternalError : Error := Error_new (Named "InternalError").

(** The selection of an attempt that has none: the first one after a retry, or a
    request whose route had no backend. *)
Definition reselect_backend (proxy : GatewayProxy) : HM SelectedBackend :=
  session ← get_session;
  let request := build_request_meta session in
  _ ← modify_ctx (capture_request_context request);
  _ ← modify_ctx (fun ctx =>
        ctx <| request_span := request_span ctx || gp_request_tracing_enabled proxy |>);
  ctx ← get_ctx;
  let current := gp_snapshot proxy in
  selected ← on_selection
    (select_backend_with_transport_retry_exclusions current request
       (session_resolver proxy (rq_headers request)) ctx);
  selected ← lift (ok_or selected
    (Error_new (Named (if bool_decide (sn_http_routes current = [])
                          && bool_decide (sn_grpc_routes current = [])
                       then "NoHealthyBackend" else "NoRouteMatched"))));
  config ← on_backend (selected_backend_config_cached current selected);
  _ ← lift (ensure_supported_filters (sb_filters selected));
  _ ← cache_request_headers_if_needed;
  _ ← modify_ctx (fun ctx =>
        ctx <| resolved_session :=
                 sb_session_persistence selected
                   ≫= resolved_session_for proxy (rq_headers request) |>);
  _ ← modify_ctx (cache_selected_backend_state selected config (gp_access_log_enabled proxy));
  _ ← seed_retry_budget;
  mret selected.

Definition selected_or_reselect (proxy : GatewayProxy) (ctx : RequestContext) : HM SelectedBackend :=
  match selected_backend ctx with
  | Some selected => mret selected
  | None => reselect_backend proxy
  end.

(** The settings of the connection, which a mirrored request does not have yet. *)
Definition ensure_backend_config (proxy : GatewayProxy) (endpoint : SelectedBackend) :
    HM SelectedBackendConfig :=
  ctx ← get_ctx;
  match selected_backend_config ctx with
  | Some config => mret config
  | None =>
    config ← on_backend (selected_backend_config_cached (gp_snapshot proxy) endpoint);
    _ ← modify_ctx (fun ctx => ctx <| selected_backend_config := Some config |>);
    mret config
  end.

(** [do_upstream_peer] *)
Definition do_upstream_peer (proxy : GatewayProxy) : HM HttpPeer :=
  ctx ← get_ctx;
  match fast_selected_backend ctx with
  | Some fast =>
    config ← lift (ok_or (selected_backend_config ctx) InternalError);
    _ ← acquire_circuit_breaker proxy (HttpFastPath.csb_backend_name fast);
    mret (apply_route_policy_to_peer ctx (build_peer proxy config))
  | None =>
    endpoint ← selected_or_reselect proxy ctx;
    config ← ensure_backend_config proxy endpoint;
    _ ← acquire_circuit_breaker proxy (sb_backend_name endpoint);
    ctx ← get_ctx;
    mret (apply_route_policy_to_peer ctx (build_peer proxy config))
  end.
End with_env.

End HttpRetry.
