(* ===== verification/HttpCaching.v ===== *)
(** * Cached responses and mirrored requests

    [ntgw-http/src/cache/mod.rs], [proxy/filters/cache.rs], the cache steps of
    [response_filter], [response_body_filter] and [logging] of [proxy/mod.rs], and
    [mirror.rs]: the key of a response, the answer from the cache, the collection
    of a response body, and the mirrors of a request with their budget.

    Storage, eviction and the rules of HTTP caching are the class [CacheLib], the
    AI gateway and the channels to mirrored requests are [AiFilter] and
    [MirrorNet]. *)

From Stdlib Require Import ZArith Lia Ascii.
From stdpp Require Import base gmap strings numbers list.
From S2P Require Import Prelude Strs IrTypes Records Matching Scoring HostIndex EndpointRuntime Spread RouteIndex Decimal RuntimeIds Snapshot Resolution Selection IndexedSelection Precedence StreamSelection HttpFastPath Semaphores CircuitBreaker Overload RetryBudget RateLimit Sni IpAddr HttpTypes HttpFilters JwtAuth HttpBackend HttpSession HttpContext HttpMeta.

Local Open Scope string_scope.
Local Open Scope list_scope.
Local Open Scope Z_scope.
Local Open Scope record_scope.

Module HttpCaching.
Import IpAddr HttpTypes HttpFilters JwtAuth HttpBackend HttpSession HttpContext HttpMeta.

(** ** Keys and limits *)

Record CacheOptions := mkCacheOptions {
  co_enabled : bool;
  co_max_size_bytes : Z;
  co_max_entry_size_bytes : Z;
  co_default_ttl_secs : Z;
}.

(** [CacheOptions::from] an [HttpCacheConfig]. *)
Definition CacheOptions_from (enabled : bool) (max_size_mb max_entry_size_mb default_ttl_seconds : Z) :
    CacheOptions :=
  let max_size_bytes := U.saturating_mul64 max_size_mb (1024 * 1024) in
  let max_entry_size_bytes := U.saturating_mul64 max_entry_size_mb (1024 * 1024) in
  mkCacheOptions enabled max_size_bytes (Z.min max_entry_size_bytes max_size_bytes)
    default_ttl_seconds.

(** The default lifetime of a response by its status, in seconds. *)
Definition fresh_duration_for_status (default_ttl_secs status : Z) : option Z :=
  if bool_decide (default_ttl_secs = 0) then None
  else if ((200 <=? status) && (status <? 300)) || bool_decide (status = 404)
  then Some default_ttl_secs else None.

Definition generate_key (route_namespace route_name host path : string) : CacheKey :=
  mkCacheKey (route_namespace +:+ "/" +:+ route_name) ("https://" +:+ host +:+ path).

Definition cache_lookup_method_allowed (method : string) : bool :=
  Str.eq_ignore_ascii_case method "GET" || Str.eq_ignore_ascii_case method "HEAD".

(** [cache_response_body_limit_exceeded] and [ai_request_body_limit_exceeded] *)
Definition body_limit_exceeded (current_len chunk_len limit : Z) : bool :=
  (0 <? limit) && (limit <? U.saturating_add64 current_len chunk_len).

Definition len (bytes : string) : Z := Z.of_nat (String.length bytes).

(** The result of [post_process] for a response. *)
Class AiFilter `{HttpParts} := {
  ai_pre_process : string -> string -> option string -> AIContext + bool;
  ai_post_process : AIContext -> string -> Z -> option string;
}.

Inductive MirrorTask := MirrorBody (bytes : string) | MirrorDone.

(** Whether the queue of a mirrored request takes a task. *)
Class MirrorNet := mirror_try_send : MirrorRequestSession -> MirrorTask -> bool.

Section with_env.
Context `{HttpLib, HttpParts, Semaphore, JwtLib, TlsLib, !CacheLib, !AiFilter, MirrorNet}
        {HD : Downstream}.

(** ** Answers from the cache *)

Fixpoint write_chunks (chunks : list string) : HM unit :=
  match chunks with
  | [] => write (WroteBody None true)
  | chunk :: chunks => _ ← write (WroteBody (Some chunk) false); write_chunks chunks
  end.

Definition try_cache_hit (proxy : GatewayProxy) (route_namespace route_name host path : string) :
    HM bool :=
  ctx ← get_ctx;
  session ← get_session;
  shared ← get_shared;
  if negb (gp_cache_enabled proxy) then mret false
  else if negb (cache_lookup_method_allowed (method ctx)) then mret false
  else if negb (request_cacheable (ss_request session)) then mret false
  else
    let key := generate_key route_namespace route_name host path in
    match cache_lookup key (sh_cache shared) with
    | Some (cached_header, body) =>
      _ ← write (WroteHeader cached_header false);
      _ ← write_chunks body;
      _ ← modify_ctx (fun ctx => ctx <| status := rsp_status cached_header |>);
      mret true
    | None =>
      _ ← modify_ctx (fun ctx => ctx <| http_cache := Some (mkHttpCache key None) |>);
      mret false
    end.

(** ** Collection of a response *)

(** The last step of [response_filter]: whether the response is stored. *)
Definition cache_response_head (response : ResponseHeader) (ctx : RequestContext) :
    RequestContext :=
  match http_cache ctx with
  | None => ctx
  | Some cache =>
    let status := rsp_status response in
    let has_auth :=
      bool_decide (is_Some (headers ← request_headers ctx; headers !! "authorization")) in
    if (status <? 500) && ((status <? 300) || bool_decide (status = 404))
       && resp_cacheable response has_auth
    then ctx <| http_cache := Some (mkHttpCache (hc_key cache) (Some response)) |>
    else ctx <| http_cache := None |>
  end.

Definition ai_post_process_active (proxy : GatewayProxy) (ctx : RequestContext) : bool :=
  gp_ai_filter proxy && bool_decide (is_Some (ai_context ctx)).

(** A chunk of the response is kept for the cache and for the AI gateway; what is
    sent on is the second component. *)
Definition buffer_chunk (proxy : GatewayProxy) (chunk : string) (ctx : RequestContext) :
    RequestContext * option string :=
  let active := ai_post_process_active proxy ctx in
  if bool_decide (is_Some (http_cache ctx)) || active then
    let ctx :=
      if body_limit_exceeded (cached_response_body_bytes ctx) (len chunk)
           (gp_cache_max_entry_size_bytes proxy)
      then ctx <| http_cache := None |> <| cached_response_body := [] |>
               <| cached_response_body_bytes := 0 |>
      else ctx <| cached_response_body_bytes :=
                    U.saturating_add64 (cached_response_body_bytes ctx) (len chunk) |>
               <| cached_response_body := cached_response_body ctx ++ [chunk] |> in
    (ctx, if active then None else Some chunk)
  else (ctx, Some chunk).

(** At the end the AI gateway gets what was kept; on an error that is sent as it is. *)
Definition finish_ai_body (proxy : GatewayProxy) (ctx : RequestContext) (body : option string) :
    RequestContext * option string :=
  match gp_ai_filter proxy, ai_context ctx with
  | true, Some ai_ctx =>
    let response_body := foldr String.append "" (cached_response_body ctx) in
    (ctx <| ai_context := None |> <| cached_response_body := [] |>
         <| cached_response_body_bytes := 0 |>,
     Some (default response_body (ai_post_process ai_ctx response_body (status ctx))))
  | _, _ => (ctx, body)
  end.

Definition response_body_filter (proxy : GatewayProxy) (body : option string)
    (end_of_stream : bool) (ctx : RequestContext) : RequestContext * option string :=
  let '(ctx, body) :=
    match body with
    | Some chunk => buffer_chunk proxy chunk ctx
    | None => (ctx, None)
    end in
  if end_of_stream then finish_ai_body proxy ctx body else (ctx, body).

(** A whole response: what reaches the client of the given chunks. *)
Fixpoint filter_response_body (proxy : GatewayProxy) (chunks : list string) (ctx : RequestContext) :
    RequestContext * list string :=
  match chunks with
  | [] =>
    let '(ctx, out) := response_body_filter proxy None true ctx in (ctx, option_list out)
  | chunk :: chunks =>
    let '(ctx, out) := response_body_filter proxy (Some chunk) false ctx in
    let '(ctx, outs) := filter_response_body proxy chunks ctx in
    (ctx, option_list out ++ outs)
  end.

(** The step of [logging] that writes the entry, whatever ended the request. *)
Definition store_cached_response : HM unit :=
  ctx ← get_ctx;
  match http_cache ctx with
  | Some cache =>
    match hc_miss cache with
    | Some head =>
      _ ← on_shared (fun sh =>
            mkShared (sh_admission sh) (sh_circuit_breaker sh) (sh_rate_limit sh)
              (sh_retry_budget sh) (sh_selection sh) (sh_jwt sh) (sh_backend sh)
              (cache_store (hc_key cache) head (cached_response_body ctx) (sh_cache sh))
              (sh_mirror_permits sh));
      modify_ctx (fun ctx => ctx <| cached_response_body := [] |>)
    | None => mret tt
    end
  | None => mret tt
  end.

(** ** Mirrors *)

Definition MAX_ACTIVE_REQUEST_MIRRORS : Z := 1024.

(** [configure_request_mirror_budget]: the first call sets the limit; the second
    component is the limit, the first the permits that are left. *)
Definition configure_request_mirror_budget (limit : Z) (state : option Z * option Z) :
    option Z * option Z :=
  match state with
  | (_, Some _) => state
  | (permits, None) => (const (Z.max limit 1) <$> permits, Some (Z.max limit 1))
  end.

(** [spawn_request_mirror]: a mirror that cannot be spawned is skipped. *)
Definition spawn_request_mirror (selected : SelectedBackend) (request_has_body : bool) :
    HM (option MirrorRequestSession) :=
  session ← get_session;
  shared ← get_shared;
  if negb (ss_subrequest_spawner session) then mret None
  else if sh_mirror_permits shared <=? 0 then mret None
  else
    _ ← on_shared (fun sh =>
          mkShared (sh_admission sh) (sh_circuit_breaker sh) (sh_rate_limit sh)
            (sh_retry_budget sh) (sh_selection sh) (sh_jwt sh) (sh_backend sh) (sh_cache sh)
            (sh_mirror_permits sh - 1));
    mret (Some (mkMirrorRequestSession (sb_backend_name selected) request_has_body)).

Fixpoint spawn_request_mirrors (selected : list SelectedBackend) (request_has_body : bool) :
    HM (list MirrorRequestSession) :=
  match selected with
  | [] => mret []
  | backend :: selected =>
    mirror ← spawn_request_mirror backend request_has_body;
    mirrors ← spawn_request_mirrors selected request_has_body;
    mret (option_list mirror ++ mirrors)
  end.

(** [forward_body_chunk]: whether the mirror goes on. *)
Definition forward_body_chunk (mirror : MirrorRequestSession) (body : option string)
    (end_of_stream : bool) : bool :=
  if negb (mrs_forwards_body mirror) then true
  else
    match body with
    | Some bytes =>
      (Str.is_empty bytes || mirror_try_send mirror (MirrorBody bytes))
      && (negb end_of_stream || mirror_try_send mirror MirrorDone)
    | None => negb end_of_stream || mirror_try_send mirror MirrorDone
    end.

Definition forward_to_mirrors (body : option string) (end_of_stream : bool) (ctx : RequestContext) :
    RequestContext :=
  ctx <| request_mirrors :=
           List.filter (fun mirror => forward_body_chunk mirror body end_of_stream)
             (request_mirrors ctx) |>.

(** [effective_max_request_body_bytes] *)
Definition effective_max_request_body_bytes (proxy : GatewayProxy) (ctx : RequestContext) : Z :=
  match (rp ← route_policy ctx; bl ← rpo_body_limit rp; rpb_max_request_body_bytes bl) with
  | Some limit => limit
  | None => gp_max_request_body_bytes proxy
  end.

Definition request_body_filter (proxy : GatewayProxy) (body : option string) (end_of_stream : bool) :
    HM unit :=
  ctx ← get_ctx;
  let counted :=
    if is_mirror_subrequest ctx then ctx
    else
      let chunk_len := default 0 (len <$> body) in
      ctx <| bytes_received := U.saturating_add64 (bytes_received ctx) chunk_len |>
          <| request_body_bytes_seen := U.saturating_add64 (request_body_bytes_seen ctx) chunk_len |> in
  let limit := effective_max_request_body_bytes proxy ctx in
  if negb (is_mirror_subrequest ctx) && (0 <? limit) && (limit <? request_body_bytes_seen counted)
  then
    _ ← modify_ctx (fun _ => counted <| response_flags := "RB" |>);
    fail (Error_new (HTTPStatus 413))
  else modify_ctx (fun _ => forward_to_mirrors body end_of_stream counted).
End with_env.

End HttpCaching.
