(* ===== verification/HttpRequest.v ===== *)
(** * The request filter

    [do_request_filter] of [ntgw-http/src/proxy/filters/mod.rs], with
    [prepare_initial_request_state] and the selection of mirrors of
    [proxy/mod.rs], [filters/cors.rs], [filters/redirect.rs], [responses.rs] and
    the checks of [free_fns.rs]: everything that happens to a request before an
    upstream is chosen.

    A step returns whether it has answered the request.  Steps that follow each
    other with early returns are joined by [and_then] and [when_admitted].

    [pre_process] of [ntgw-ai/src/wasm_filter.rs] is translated; the plugin manager
    that runs a hook, and whether one of its permits is free, are the class
    [WasmPlugins].  [RetryBuffer] tells when the buffer of [pingora] that keeps a
    body read by a filter is truncated.  Left out: the fields that only the access
    log and the spans read (version, query, connection, snapshot version, captured
    headers, traffic topology). *)

From Stdlib Require Import ZArith Lia Ascii.
From stdpp Require Import base gmap strings numbers list.
From S2P Require Import Prelude Strs IrTypes Records Matching Scoring HostIndex EndpointRuntime Spread RouteIndex Decimal RuntimeIds Snapshot Resolution Selection IndexedSelection Precedence StreamSelection HttpFastPath Semaphores CircuitBreaker Overload RetryBudget RateLimit Sni IpAddr HttpTypes HttpFilters JwtAuth HttpBackend HttpSession HttpContext HttpMeta HttpGuards HttpAccess HttpOidc HttpExternalAuth HttpRetry HttpCaching.

Local Open Scope string_scope.
Local Open Scope list_scope.
Local Open Scope Z_scope.
Local Open Scope record_scope.

Inductive WasmHook := OnRequest | OnResponse.
Inductive HookResult := HookContinue (response_headers : StringMap string) | HookReject (code : Z).

(** [PluginRejected], and every other error. *)
Inductive WasmError := PluginRejected (name : string) (code : Z) | OtherWasmError.

Class WasmPlugins := {
  invoke_hook : string -> WasmHook -> StringMap string -> string -> HookResult + WasmError;
  wasm_permit_free : bool;
}.

(** Whether a body of this length does not fit the retry buffer. *)
Class RetryBuffer := retry_buffer_overflows : Z -> bool.

Module HttpRequest.
Import Snapshots EndpointRuntime Resolution Selection StreamSelection IpAddr HttpTypes HttpFilters JwtAuth
       HttpBackend HttpSession HttpContext HttpMeta HttpGuards HttpAccess HttpOidc
       HttpExternalAuth HttpRetry HttpCaching HttpFastPath.

(** ** Formats of the AI gateway *)

(** [detect_format] of [ntgw-ai]: two segments of the path that follow each other. *)
Definition format_of_segments (a b : string) : option string :=
  if bool_decide ((a, b) ∈ [("v1", "chat\_completions"); ("v1", "completions"); ("chat", "completions")])
  then Some "openai"
  else if bool_decide ((a, b) = ("v1", "messages")) then Some "anthropic"
  else if bool_decide ((a, b) ∈ [("api", "chat"); ("api", "generate")]) then Some "ollama"
  else None.

Fixpoint detect_windows (segments : list string) : option string :=
  match segments with
  | a :: (b :: _) as rest =>
    match format_of_segments a b with Some format => Some format | None => detect_windows rest end
  | _ => None
  end.

Definition detect_format (path : string) : option string :=
  detect_windows (List.filter (fun s => negb (Str.is_empty s)) (Str.split "/" path)).

Definition request_is_grpc (request : RequestMeta) : bool :=
  match rq_headers request !! "content-type" with
  | Some values => existsb (Str.starts_with "application/grpc") values
  | None => false
  end.

Definition route_filters_have_request_mirror (filters : list Filter) : bool :=
  existsb (fun filter => is_some (f_request_mirror filter)) filters.

(** ** Reading a body *)

Inductive BodyResult := BodyRead_done (body : string) | BodyTooLarge | BodyRead_failed (e : Error).

(** The loop that both readers of a request body have; the rest is what stays
    unread. *)
Fixpoint read_chunks (exceeds : Z -> Z -> bool) (body : string) (chunks : list BodyRead) :
    BodyResult * list BodyRead :=
  match chunks with
  | [] => (BodyRead_done body, [])
  | BodyFailed e :: chunks => (BodyRead_failed e, chunks)
  | BodyChunk chunk :: chunks =>
    if exceeds (len body) (len chunk) then (BodyTooLarge, chunks)
    else read_chunks exceeds (body +:+ chunk) chunks
  end.

Definition chunks_len (chunks : list BodyRead) : Z :=
  foldr (fun chunk n => match chunk with BodyChunk c => len c + n | BodyFailed _ => n end) 0 chunks.

Section with_env.
Context `{HttpLib, HttpParts, Semaphore, JwtLib, TlsLib, !CacheLib, !AiFilter, MirrorNet,
          !PeerDefaults, Clock, KeyHasher, Libm, RegexEngine, FormUrlencoded, TokenLib, SessionLib,
          UnixTime, OidcLib, IpNets, Credentials, AuthNet, WasmPlugins, RetryBuffer} {HD : Downstream}.

(** ** Early returns *)

Definition and_then (step rest : HM bool) : HM bool :=
  handled ← step; match handled with true => mret true | false => rest end.

(** A guard returns whether the request is let through. *)
Definition when_admitted (guard rest : HM bool) : HM bool :=
  admitted ← guard; match admitted with true => rest | false => mret true end.

Definition answer_error (code : Z) (flags : string) : HM bool :=
  _ ← set_status code flags; _ ← respond_error code; mret true.

Definition read_body (exceeds : Z -> Z -> bool) : HM BodyResult :=
  session ← get_session;
  let '(result, rest) := read_chunks exceeds "" (ss_body session) in
  let read := take (length (ss_body session) - length rest) (ss_body session) in
  _ ← modify_session (fun ss =>
        ss <| ss_body := rest |>
           <| ss_retry_buffer_truncated :=
                ss_retry_buffer_truncated ss || retry_buffer_overflows (chunks_len read) |>);
  mret result.

(** ** The first checks *)

Record InitialFastPathSelection := mkInitialFastPathSelection {
  ifs_selected : CompiledSelectedHttpBackend;
  ifs_config : SelectedBackendConfig;
  ifs_frontend_client_certificate_requirement : FrontendClientCertificateRequirement;
}.

Record InitialRequestState := mkInitialRequestState {
  irs_request_header_bytes : Z;
  irs_misdirected_request : bool;
  irs_request_source_ip : option string;
  irs_fast_path_selected : option InitialFastPathSelection;
}.

Definition https_request_is_misdirected_in_snapshot (current : Snapshot) (req : RequestHeader)
    (port : Z) (downstream_tls_server_name : option string) : bool :=
  match downstream_tls_server_name with
  | None => false
  | Some server_name =>
    https_request_is_misdirected current (materialize req port) (Some server_name)
  end.

Definition fast_path_request_features_are_safe (request_headers_required
    request_source_ip_required : bool) : bool :=
  negb request_headers_required && negb request_source_ip_required.

Definition select_initial_fast_path (current : Snapshot) (req : RequestHeader) (port : Z) :
    HM (option InitialFastPathSelection) :=
  selected ← on_selection (select_http_fast_path current (fast_path_request_from_view req port));
  match selected with
  | None => mret None
  | Some selected =>
    config ← on_backend (selected_backend_config_cached_for_fast_path current selected);
    mret (Some (mkInitialFastPathSelection selected config
                  (frontend_client_certificate_requirement current (csb_listener_name selected))))
  end.

Definition prepare_initial_request_state (proxy : GatewayProxy) (req : RequestHeader) (port : Z)
    (request_source_ip server_name : option string) : HM InitialRequestState :=
  let current := gp_snapshot proxy in
  let hints := ix_request_materialization (sn_indexes current) in
  let observed := gp_access_log_enabled proxy || gp_request_tracing_enabled proxy in
  _ ← modify_ctx (capture_request_context_from_view_for_limits req observed
                    (0 <? gp_max_request_body_bytes proxy));
  _ ← modify_ctx (fun ctx =>
        ctx <| request_span := request_span ctx || gp_request_tracing_enabled proxy |>);
  let misdirected := https_request_is_misdirected_in_snapshot current req port server_name in
  fast_path_selected ←
    (if negb misdirected
        && fast_path_request_features_are_safe (requires_full_headers hints) (rmh_source_ip hints)
     then select_initial_fast_path current req port else mret None);
  mret (mkInitialRequestState
          (request_header_bytes_for_limit req (gp_max_request_header_bytes proxy))
          misdirected request_source_ip fast_path_selected).

(** [mark_downstream_max_connection_age_if_needed] *)
Definition mark_downstream_max_connection_age_if_needed (proxy : GatewayProxy) : HM unit :=
  session ← get_session;
  match gp_downstream_max_connection_age proxy, ss_connection_age session with
  | Some max_connection_age, Some connection_age =>
    if rh_http2 (ss_request session) || (connection_age <? max_connection_age) then mret tt
    else
      _ ← modify_session (fun ss => ss <| ss_keepalive := false |>);
      modify_ctx (fun ctx =>
        if Str.is_empty (response_flags ctx) then ctx <| response_flags := "MA" |> else ctx)
  | _, _ => mret tt
  end.

(** [missing_frontend_client_certificate_error] *)
Definition missing_frontend_client_certificate_error : HM bool :=
  _ ← set_status 499 "DC";
  fail (mkError ConnectionClosed SourceDownstream (Decided false)).

Definition observe_allowed : HM unit :=
  ctx ← get_ctx;
  if rate_limit_applied ctx then on_rate_limit RateLimit.observe_allow else mret tt.

(** ** Answers that need no upstream *)

Definition write_direct_response (filter : DirectResponseFilter) (filters : list Filter)
    (request : RequestMeta) : HM unit :=
  '(response, body) ← lift (build_direct_response filter);
  response ← lift (apply_response_filters response filters (Some (rq_method request))
                     (Some (rq_headers request)));
  _ ← (match body with
       | Some body => _ ← write (WroteHeader response false); write (WroteBody (Some body) true)
       | None => write (WroteHeader response true)
       end);
  modify_ctx (fun ctx => ctx <| status := rsp_status response |>).

Definition write_grpc_no_route_response : HM unit :=
  response ← lift (ResponseHeader_build 200);
  response ← lift (rsp_insert "content-type" "application/grpc" response);
  _ ← write (WroteTasks response [("grpc-status", "12")]);
  modify_ctx (fun ctx => ctx <| status := 200 |>).

Definition write_http_no_route_response : HM unit :=
  let body := "route not found" in
  response ← lift (ResponseHeader_build 404);
  response ← lift (rsp_insert "content-length" (Str.to_string (len body)) response);
  _ ← write (WroteHeader response false);
  _ ← write (WroteBody (Some body) true);
  modify_ctx (fun ctx => ctx <| status := 404 |>).

(** A preflight request is answered; [on_answer] records the selection. *)
Definition answer_cors_preflight (filters : list Filter) (request : RequestMeta)
    (on_answer : HM unit) : HM bool :=
  match build_cors_preflight_response filters (rq_method request) (rq_headers request) with
  | inr err => _ ← on_answer; fail err
  | inl None => mret false
  | inl (Some response) =>
    _ ← on_answer;
    _ ← modify_ctx (fun ctx => ctx <| status := rsp_status response |>);
    _ ← write (WroteHeader response true);
    mret true
  end.

Definition handle_redirect (proxy : GatewayProxy) (route : SelectedHttpRoute)
    (request filter_request : RequestMeta) : HM bool :=
  match request_redirect_filter (shr_filters route) with
  | None => mret false
  | Some redirect =>
    _ ← cache_selected_http_route_context proxy route;
    session ← get_session;
    let location := build_redirect_location session request (shr_matched_http_path route) redirect in
    response ← lift (build_redirect_response (rr_status_code redirect) location);
    response ← lift (apply_response_filters response (shr_filters route)
                       (Some (rq_method filter_request)) (Some (rq_headers filter_request)));
    _ ← write (WroteHeader response true);
    _ ← modify_ctx (fun ctx => ctx <| status := rr_status_code redirect |>);
    mret true
  end.

Definition handle_direct_response (proxy : GatewayProxy) (route : SelectedHttpRoute)
    (filter_request : RequestMeta) : HM bool :=
  match direct_response_filter (shr_filters route) with
  | None => mret false
  | Some filter =>
    _ ← cache_selected_http_route_context proxy route;
    _ ← write_direct_response filter (shr_filters route) filter_request;
    mret true
  end.

(** [request_for_response_filters] *)
Definition request_for_response_filters (session : Session) (request : RequestMeta)
    (request_headers_complete : bool) (filters : list Filter) : RequestMeta :=
  if request_headers_complete || negb (response_filters_need_request_headers filters) then request
  else build_request_meta_with_headers session.

(** ** Mirrors *)

Definition select_request_mirrors_for_selected_backend (current : Snapshot)
    (selected : SelectedBackend) : Resolution.M (list SelectedBackend) :=
  if negb (route_filters_have_request_mirror (sb_filters selected)) then mret []
  else
    select_request_mirrors current
      (mkRequestMirrorContext (sb_route_kind selected) (sb_route_name selected)
         (sb_route_namespace selected) (sb_rule_index selected) (sb_filters selected)
         (sb_matched_http_path selected) (sb_timeouts selected) (sb_backend_tls selected) None).

Definition select_request_mirrors_for_http_route (current : Snapshot) (route : SelectedHttpRoute) :
    Resolution.M (list SelectedBackend) :=
  if negb (is_some (shr_backend route)) || negb (is_some (shr_backend_name route))
     || negb (route_filters_have_request_mirror (shr_filters route))
  then mret []
  else
    select_request_mirrors current
      (mkRequestMirrorContext KindHttp (shr_route_name route) (shr_route_namespace route)
         (shr_rule_index route) (shr_filters route) (Some (shr_matched_http_path route))
         (shr_timeouts route) (shr_backend_tls route) None).

(** ** The fast path *)

Definition request_filter_fast (proxy : GatewayProxy) (fast : InitialFastPathSelection) : HM bool :=
  let selected := ifs_selected fast in
  session ← get_session;
  let show := modify_ctx (fun ctx =>
    cache_fast_selected_backend_state selected (selected_display_fields_needed proxy ctx) ctx) in
  if closes_connection_without_valid_client_certificate
       (ifs_frontend_client_certificate_requirement fast)
       (downstream_tls_client_certificate_present session)
  then _ ← show; missing_frontend_client_certificate_error
  else
    when_admitted (try_admit_fast_http_route proxy selected)
      (when_admitted (try_rate_limit_fast_http_route proxy selected)
        (_ ← observe_allowed;
         _ ← show;
         _ ← modify_ctx (fun ctx => ctx <| selected_backend_config := Some (ifs_config fast) |>);
         ctx ← get_ctx;
         try_cache_hit proxy (csb_route_namespace selected) (csb_route_name selected)
           (host ctx) (path ctx))).

(** ** A gRPC route *)

Definition keep_resolved_session (proxy : GatewayProxy) (request : RequestMeta)
    (selected : SelectedBackend) : HM unit :=
  modify_ctx (fun ctx =>
    ctx <| resolved_session :=
             sb_session_persistence selected ≫= resolved_session_for proxy (rq_headers request) |>).

Definition request_filter_grpc (proxy : GatewayProxy) (request : RequestMeta)
    (request_headers_complete request_has_body : bool) (selected : SelectedBackend)
    (mirrors : list SelectedBackend) (config : SelectedBackendConfig)
    (requirement : FrontendClientCertificateRequirement) : HM bool :=
  let show := modify_ctx (cache_selected_backend_ref selected (gp_access_log_enabled proxy)) in
  session ← get_session;
  if closes_connection_without_valid_client_certificate requirement
       (downstream_tls_client_certificate_present session)
  then _ ← show; missing_frontend_client_certificate_error
  else
    when_admitted (try_admit_grpc_request proxy selected)
      (when_admitted (try_rate_limit_grpc_request proxy selected)
        (_ ← observe_allowed;
         _ ← lift (ensure_supported_filters (sb_filters selected));
         let filter_request :=
           request_for_response_filters session request request_headers_complete
             (sb_filters selected) in
         match direct_response_filter (sb_filters selected) with
         | Some filter =>
           _ ← cache_request_headers_if_needed;
           _ ← show;
           _ ← write_direct_response filter (sb_filters selected) filter_request;
           mret true
         | None =>
           spawned ← spawn_request_mirrors mirrors request_has_body;
           _ ← modify_ctx (fun ctx => ctx <| request_mirrors := spawned |>);
           _ ← cache_request_headers_if_needed;
           and_then (answer_cors_preflight (sb_filters selected) filter_request show)
             (_ ← keep_resolved_session proxy request selected;
              _ ← modify_ctx (cache_selected_backend_state selected config
                                (gp_access_log_enabled proxy));
              mret false)
         end)).

(** ** A default backend *)

(** The lookup of the cache with the host and the path of the context. *)
Definition try_cache_for_selected (proxy : GatewayProxy) : HM bool :=
  ctx ← get_ctx;
  match selected_backend ctx with
  | Some selected =>
    try_cache_hit proxy (sb_route_namespace selected) (sb_route_name selected) (host ctx) (path ctx)
  | None => mret false
  end.

Definition request_filter_fallback (proxy : GatewayProxy) (request : RequestMeta)
    (request_headers_complete : bool) (selected : SelectedBackend) (config : SelectedBackendConfig)
    (requirement : FrontendClientCertificateRequirement) : HM bool :=
  let show := modify_ctx (cache_selected_backend_ref selected (gp_access_log_enabled proxy)) in
  session ← get_session;
  if closes_connection_without_valid_client_certificate requirement
       (downstream_tls_client_certificate_present session)
  then _ ← show; missing_frontend_client_certificate_error
  else
    _ ← observe_allowed;
    _ ← lift (ensure_supported_filters (sb_filters selected));
    let filter_request :=
      request_for_response_filters session request request_headers_complete (sb_filters selected) in
    _ ← cache_request_headers_if_needed;
    and_then (answer_cors_preflight (sb_filters selected) filter_request show)
      (_ ← keep_resolved_session proxy request selected;
       _ ← modify_ctx (cache_selected_backend_state selected config (gp_access_log_enabled proxy));
       _ ← seed_retry_budget;
       try_cache_for_selected proxy).

Definition request_filter_no_route (request : RequestMeta) : HM bool :=
  _ ← observe_allowed;
  _ ← modify_ctx (fun ctx => ctx <| response_flags := "NR" |>);
  _ ← (if request_is_grpc request then write_grpc_no_route_response
       else write_http_no_route_response);
  mret true.

(** ** An HTTP route *)

(** A failure of external authorization. *)
Definition external_auth_error (proxy : GatewayProxy) (route : SelectedHttpRoute) (code : Z) :
    HM bool :=
  _ ← cache_selected_http_route_context proxy route; answer_error code "EA".

Definition external_auth_exceeds (max_size current chunk : Z) : bool := max_size <? current + chunk.

Definition read_external_auth_body (auth : ExternalAuthFilter) : HM BodyResult :=
  match ea_forward_body_max_size auth with
  | Some max_size =>
    if 0 <? max_size then read_body (external_auth_exceeds max_size)
    else mret (BodyRead_done "")
  | None => mret (BodyRead_done "")
  end.

Definition apply_external_auth (proxy : GatewayProxy) (route : SelectedHttpRoute)
    (filter_request : RequestMeta) (decision : Res ExternalAuthDecision) : HM bool :=
  match decision with
  | inl (Allow headers) =>
    _ ← modify_ctx (fun ctx => ctx <| external_auth_response_headers := headers |>); mret false
  | inl (Deny response body) =>
    _ ← cache_selected_http_route_context proxy route;
    response ← lift (apply_response_filters response (shr_filters route)
                       (Some (rq_method filter_request)) (Some (rq_headers filter_request)));
    _ ← set_status (rsp_status response) "EA";
    if Str.is_empty body then _ ← write (WroteHeader response true); mret true
    else
      _ ← write (WroteHeader response false);
      _ ← write (WroteBody (Some body) true);
      mret true
  | inr _ => external_auth_error proxy route 500
  end.

Definition handle_external_auth (proxy : GatewayProxy) (route : SelectedHttpRoute)
    (filter_request : RequestMeta) : HM bool :=
  match external_auth_filter (shr_filters route) with
  | None => mret false
  | Some auth =>
    endpoint ← on_selection (select_backend_ref (gp_snapshot proxy) (ea_backend_ref auth));
    match endpoint with
    | None => external_auth_error proxy route 500
    | Some (endpoint, _) =>
      body ← read_external_auth_body auth;
      match body with
      | BodyTooLarge => external_auth_error proxy route 413
      | BodyRead_failed e =>
        _ ← cache_selected_http_route_context proxy route;
        _ ← set_status 500 "EA";
        fail e
      | BodyRead_done body =>
        session ← get_session;
        apply_external_auth proxy route filter_request
          (run_external_auth (ss_request session) auth endpoint
             (if Str.is_empty body then None else Some body))
      end
    end
  end.

(** The backend of the route: its settings, its mirrors and the cache. *)
Definition use_route_backend (proxy : GatewayProxy) (request : RequestMeta)
    (request_has_body : bool) (route : SelectedHttpRoute) (mirrors : list SelectedBackend) :
    HM bool :=
  _ ← (if is_some (shr_backend_error route) || negb (is_some (shr_backend route))
          || negb (is_some (shr_backend_name route))
       then cache_selected_http_route_context proxy route else mret tt);
  match selected_backend_from_http_route route (gp_access_log_enabled proxy) with
  | inr err => fail (error_for_backend_selection err)
  | inl None => mret false
  | inl (Some selected) =>
    config ← on_backend (selected_backend_config_cached (gp_snapshot proxy) selected);
    spawned ← spawn_request_mirrors mirrors request_has_body;
    _ ← modify_ctx (fun ctx => ctx <| request_mirrors := spawned |>);
    _ ← keep_resolved_session proxy request selected;
    _ ← modify_ctx (cache_selected_backend_state selected config (gp_access_log_enabled proxy));
    _ ← seed_retry_budget;
    try_cache_for_selected proxy
  end.

(** The headers that a plugin sees: the last of each name. *)
Definition wasm_request_headers (req : RequestHeader) : StringMap string :=
  foldl (fun acc item => <[item.1 := if value_is_text item.2 then item.2 else ""]> acc) ∅
    (hm_iter (rh_headers req)).

(** [HashMap::extend] *)
Definition extend (headers more : StringMap string) : StringMap string := more ∪ headers.

Fixpoint invoke_hooks (hook : WasmHook) (names : list string) (request_headers : StringMap string)
    (body : string) (all_response_headers : StringMap string) : StringMap string + WasmError :=
  match names with
  | [] => inl all_response_headers
  | name :: names =>
    match invoke_hook name hook request_headers body with
    | inr e => inr e
    | inl (HookReject code) => inr (PluginRejected name code)
    | inl (HookContinue response_headers) =>
      invoke_hooks hook names request_headers body (extend all_response_headers response_headers)
    end
  end.

Definition has_on_request (wasm : WasmPluginFilter) : bool :=
  match on_request_plugin_names wasm with [] => false | _ :: _ => true end.

Definition pre_process (wasm : WasmPluginFilter) (request_headers : StringMap string)
    (body : string) : StringMap string + WasmError :=
  if negb (has_on_request wasm) then inl ∅
  else if negb wasm_permit_free then inr OtherWasmError
  else invoke_hooks OnRequest (on_request_plugin_names wasm) request_headers body ∅.

Definition run_wasm (proxy : GatewayProxy) : HM bool :=
  match gp_wasm_filter proxy with
  | None => mret false
  | Some wasm =>
    if negb (has_on_request wasm) then mret false
    else
      session ← get_session;
      match pre_process wasm (wasm_request_headers (ss_request session)) "" with
      | inl headers =>
        _ ← modify_ctx (fun ctx =>
              if bool_decide (headers = ∅) then ctx
              else ctx <| wasm_response_headers := headers |>);
        mret false
      | inr (PluginRejected _ code) => answer_error (Z.min (Z.max code 400) 599) "WR"
      | inr OtherWasmError => mret false
      end
  end.

Definition ai_api_key (req : RequestHeader) : option string :=
  or_else (value ← get_str "authorization" (rh_headers req); Str.strip_prefix "Bearer " value)
    (get_str "x-api-key" (rh_headers req)).

Definition run_ai (proxy : GatewayProxy) : HM bool :=
  session ← get_session;
  let ai_path := uri_path (rh_uri (ss_request session)) in
  if negb (gp_ai_filter proxy) || negb (is_some (detect_format ai_path)) then mret false
  else
    body ← read_body (fun current chunk =>
      body_limit_exceeded current chunk (gp_ai_gateway_max_request_body_bytes proxy));
    match body with
    | BodyTooLarge => answer_error 413 "RB"
    | BodyRead_failed _ => answer_error 500 "AR"
    | BodyRead_done body =>
      _ ← modify_ctx (fun ctx => ctx <| path := ai_path |>);
      match ai_pre_process ai_path body (ai_api_key (ss_request session)) with
      | inl ai_ctx => _ ← modify_ctx (fun ctx => ctx <| ai_context := Some ai_ctx |>); mret false
      | inr true => mret false
      | inr false => _ ← answer_error 500 "AR"; mret false
      end
    end.

(** The checks of an HTTP route, in their order. *)
Definition check_http_route (proxy : GatewayProxy) (route : SelectedHttpRoute)
    (request filter_request : RequestMeta) : HM bool :=
  and_then (answer_cors_preflight (shr_filters route) filter_request
              (cache_selected_http_route_context proxy route))
  (and_then (handle_direct_response proxy route filter_request)
  (and_then (handle_redirect proxy route request filter_request)
  (and_then (handle_ip_filter route)
  (and_then (handle_oidc proxy route)
  (and_then (handle_basic_auth proxy route)
  (and_then (handle_jwt_auth proxy route)
            (handle_external_auth proxy route filter_request))))))).

Definition supported_or_fail (proxy : GatewayProxy) (route : SelectedHttpRoute) : HM unit :=
  match ensure_supported_filters (shr_filters route) with
  | inl _ => mret tt
  | inr err => _ ← cache_selected_http_route_context proxy route; fail err
  end.

Definition request_filter_http (proxy : GatewayProxy) (request : RequestMeta)
    (request_headers_complete request_has_body : bool) (route : SelectedHttpRoute)
    (mirrors : list SelectedBackend) (requirement : FrontendClientCertificateRequirement) :
    HM bool :=
  session ← get_session;
  if closes_connection_without_valid_client_certificate requirement
       (downstream_tls_client_certificate_present session)
  then
    _ ← cache_selected_http_route_context proxy route; missing_frontend_client_certificate_error
  else
    when_admitted (try_admit_http_route proxy route)
      (when_admitted (try_rate_limit_http_route proxy route)
        (_ ← observe_allowed;
         _ ← supported_or_fail proxy route;
         let filter_request :=
           request_for_response_filters session request request_headers_complete
             (shr_filters route) in
         _ ← cache_request_headers_if_needed;
         and_then (check_http_route proxy route request filter_request)
           (and_then (use_route_backend proxy request request_has_body route mirrors)
             (and_then (run_wasm proxy) (run_ai proxy))))).

(** ** The selections of the general path *)

Inductive RouteSelection :=
| GrpcSelection (selected : SelectedBackend) (mirrors : list SelectedBackend)
    (config : SelectedBackendConfig)
| HttpSelection (route : SelectedHttpRoute) (mirrors : list SelectedBackend)
| FallbackSelection (selected : SelectedBackend) (config : SelectedBackendConfig)
| NoSelection.

(** [select_backend_after_http_route_miss] *)
Definition select_backend_after_http_route_miss (current : Snapshot) (request : RequestMeta)
    (resolver : SessionResolver) : HM RouteSelection :=
  selected ← on_selection (select_backend_with_session_resolver current request resolver);
  match selected with
  | None => mret NoSelection
  | Some selected =>
    config ← on_backend (selected_backend_config_cached current selected);
    mret (FallbackSelection selected config)
  end.

Definition select_route (proxy : GatewayProxy) (request : RequestMeta) : HM RouteSelection :=
  let current := gp_snapshot proxy in
  let resolver := session_resolver proxy (rq_headers request) in
  grpc ← on_selection (select_grpc_backend current request resolver);
  match grpc with
  | Some selected =>
    config ← on_backend (selected_backend_config_cached current selected);
    mirrors ← on_selection (select_request_mirrors_for_selected_backend current selected);
    mret (GrpcSelection selected mirrors config)
  | None =>
    http ← on_selection (select_http_route current request resolver);
    match http with
    | Some route =>
      mirrors ← on_selection (select_request_mirrors_for_http_route current route);
      mret (HttpSelection route mirrors)
    | None => select_backend_after_http_route_miss current request resolver
    end
  end.

Definition request_filter_general (proxy : GatewayProxy) (request_source_ip : option string)
    (port : Z) (request_has_body : bool) : HM bool :=
  session ← get_session;
  let current := gp_snapshot proxy in
  let hints := ix_request_materialization (sn_indexes current) in
  let source_ip :=
    match request_source_ip with
    | None => if rmh_source_ip hints then client_ip session else None
    | Some ip => Some ip
    end in
  let complete := requires_full_headers hints in
  let request := build_selection_request_meta session source_ip port complete in
  let requirement := frontend_client_certificate_requirement current in
  selection ← select_route proxy request;
  match selection with
  | GrpcSelection selected mirrors config =>
    request_filter_grpc proxy request complete request_has_body selected mirrors config
      (requirement (sb_listener_name selected))
  | HttpSelection route mirrors =>
    request_filter_http proxy request complete request_has_body route mirrors
      (requirement (shr_listener_name route))
  | FallbackSelection selected config =>
    request_filter_fallback proxy request complete selected config
      (requirement (sb_listener_name selected))
  | NoSelection => request_filter_no_route request
  end.

(** ** The filter *)

Definition do_request_filter (proxy : GatewayProxy) : HM bool :=
  _ ← reset_request_context;
  session ← get_session;
  let request_has_body := negb (ss_body_empty session) in
  let port := default (server_port session) (gp_listener_port_hint proxy) in
  let hints := ix_request_materialization (sn_indexes (gp_snapshot proxy)) in
  let source_ip :=
    if rmh_source_ip hints || gp_access_log_enabled proxy || gp_request_tracing_enabled proxy
    then client_ip session else None in
  initial ← prepare_initial_request_state proxy (ss_request session) port source_ip
              (downstream_tls_server_name session);
  _ ← mark_downstream_max_connection_age_if_needed proxy;
  ctx ← get_ctx;
  if irs_misdirected_request initial then answer_error 421 "MR"
  else
    match ss_mirror_subrequest session with
    | Some selected =>
      _ ← modify_ctx (fun ctx =>
            cache_selected_backend_ref selected (gp_access_log_enabled proxy)
              (ctx <| is_mirror_subrequest := true |>));
      mret false
    | None =>
      if (0 <? gp_max_request_header_bytes proxy)
         && (gp_max_request_header_bytes proxy <? irs_request_header_bytes initial)
      then answer_error 431 "RH"
      else if (0 <? gp_max_request_body_bytes proxy)
              && (gp_max_request_body_bytes proxy <? declared_request_body_bytes ctx)
              && request_has_body
      then answer_error 413 "RB"
      else
        when_admitted (try_admit_listener proxy)
          (when_admitted (try_rate_limit_listener proxy)
             (match irs_fast_path_selected initial with
              | Some fast => request_filter_fast proxy fast
              | None =>
                request_filter_general proxy (irs_request_source_ip initial) port request_has_body
              end))
    end.
End with_env.

End HttpRequest.
