(* ===== verification/HttpResponse.v ===== *)
(** * The phases after the choice of an upstream

    [upstream_request_filter], [response_filter], [logging] and [fail_to_proxy] of
    [ntgw-http/src/proxy/mod.rs], with [remove_downstream_close_connection_token]
    and [post_process] of [ntgw-ai/src/wasm_filter.rs].

    The propagation of a trace context into a request is the class [TraceContext].
    The headers that plugins set are inserted in the order of [map_to_list]; the
    source iterates over a hash map.  Left out: what only the access log and the
    spans read, and the wait for mirrored requests, which only delays the phase. *)

From Stdlib Require Import ZArith Lia Ascii.
From stdpp Require Import base gmap strings numbers list.
From S2P Require Import Prelude Strs IrTypes Records Matching Scoring HostIndex EndpointRuntime Spread RouteIndex Decimal RuntimeIds Snapshot Resolution Selection IndexedSelection Precedence StreamSelection HttpFastPath Semaphores CircuitBreaker Overload RetryBudget RateLimit Sni IpAddr HttpTypes HttpFilters JwtAuth HttpBackend HttpSession HttpContext HttpMeta HttpGuards HttpExternalAuth HttpRetry HttpCaching HttpRequest.

Local Open Scope string_scope.
Local Open Scope list_scope.
Local Open Scope Z_scope.
Local Open Scope record_scope.

Module HttpResponse.
Import Snapshots EndpointRuntime Resolution IpAddr HttpTypes HttpFilters JwtAuth HttpBackend
       HttpSession HttpContext HttpMeta HttpGuards HttpExternalAuth HttpRetry HttpCaching HttpRequest.

Section tokens.
Context `{HttpLib}.

(** The tokens of all connection headers. *)
Definition connection_tokens (request : RequestHeader) : list string :=
  Str.trim <$> (text_values "connection" (rh_headers request) ≫= Str.split ",").

Definition is_close (token : string) : bool := Str.eq_ignore_ascii_case token "close".

Fixpoint join_tokens (tokens : list string) : string :=
  match tokens with
  | [] => ""
  | [token] => token
  | token :: tokens => token +:+ ", " +:+ join_tokens tokens
  end.

Definition with_header_map (request : RequestHeader) (h : HeaderMap) : RequestHeader :=
  mkRequestHeader (rh_method request) (rh_uri request) (rh_http2 request) h.

Definition remove_downstream_close_connection_token (request : RequestHeader) :
    Res RequestHeader :=
  let tokens := connection_tokens request in
  if negb (existsb is_close tokens) then inl request
  else
    let retained :=
      List.filter (fun token => negb (Str.is_empty token) && negb (is_close token)) tokens in
    let h := hm_remove "connection" (rh_headers request) in
    match retained with
    | [] => inl (with_header_map request h)
    | _ :: _ =>
      h ← insert_header "connection" (join_tokens retained) h;
      mret (with_header_map request h)
    end.

(** The class of the [opentelemetry] propagator. *)
Class TraceContext := inject_context : RequestHeader -> RequestHeader.
End tokens.

Section phases.
Context `{HttpLib, HttpParts, Semaphore, JwtLib, TlsLib, !CacheLib, Clock, KeyHasher, TokenLib,
          SessionLib, UnixTime, WasmPlugins, !TraceContext} {HD : Downstream}.

Definition upstream_request_filter (upstream_request : RequestHeader) : HM RequestHeader :=
  ctx ← get_ctx;
  request ← lift (remove_downstream_close_connection_token upstream_request);
  request ← lift (apply_external_auth_response_headers request
                    (external_auth_response_headers ctx));
  request ← lift (match selected_backend ctx with
                  | Some selected =>
                    apply_request_filters request (sb_filters selected)
                      (sb_matched_http_path selected)
                  | None => inl request
                  end);
  mret (if request_span ctx then inject_context request else request).

(** ** Plugins *)

(** [HeaderName::from_bytes] fails: the header is skipped. *)
Fixpoint insert_plugin_headers (headers : list (string * string)) (response : ResponseHeader) :
    Res ResponseHeader :=
  match headers with
  | [] => inl response
  | (name, value) :: headers =>
    response ← (if name_is_valid name
                then rsp_insert (Str.to_ascii_lowercase name) value response else inl response);
    insert_plugin_headers headers response
  end.

Definition has_on_response (wasm : WasmPluginFilter) : bool :=
  match on_response_plugin_names wasm with [] => false | _ :: _ => true end.

Definition post_process (wasm : WasmPluginFilter) (request_headers : StringMap string)
    (response_body : string) : StringMap string + WasmError :=
  if negb (has_on_response wasm) then inl ∅
  else if negb wasm_permit_free then inr OtherWasmError
  else invoke_hooks OnResponse (on_response_plugin_names wasm) request_headers response_body ∅.

Definition run_wasm_response (proxy : GatewayProxy) (ctx : RequestContext)
    (response : ResponseHeader) : Res ResponseHeader :=
  match gp_wasm_filter proxy with
  | None => inl response
  | Some wasm =>
    if negb (has_on_response wasm) then inl response
    else
      let joined : StringMap string :=
        match request_headers ctx with Some h => Str.join "," <$> h | None => ∅ end in
      match post_process wasm joined "" with
      | inl headers => insert_plugin_headers (map_to_list headers) response
      | inr _ => inl response
      end
  end.

(** ** The response *)

Definition write_session (proxy : GatewayProxy) (ctx : RequestContext) (response : ResponseHeader) :
    Res ResponseHeader :=
  match selected_backend ctx with
  | None => inl response
  | Some selected =>
    match sb_session_persistence selected with
    | None => inl response
    | Some policy =>
      write_response_session (gp_session_secret proxy) session_now policy selected
        (resolved_session ctx) response
    end
  end.

Definition filter_response (ctx : RequestContext) (response : ResponseHeader) :
    Res ResponseHeader :=
  match selected_backend ctx with
  | None => inl response
  | Some selected =>
    apply_response_filters response (sb_filters selected) (Some (method ctx)) (request_headers ctx)
  end.

(** A response whose status the retry policy lists never reaches the client. *)
Definition intercept_response : HM ResponseHeader :=
  retried ← try_prepare_retry; fail (retry_status_error retried).

Definition response_filter (proxy : GatewayProxy) (upstream_response : ResponseHeader) :
    HM ResponseHeader :=
  let status := rsp_status upstream_response in
  _ ← observe_selected_backend_result (500 <=? status);
  ctx ← get_ctx;
  if response_is_retryable ctx status then intercept_response
  else
    response ← lift (filter_response ctx upstream_response);
    response ← lift (write_session proxy ctx response);
    _ ← modify_ctx (fun ctx =>
          ctx <| request_mirrors := [] |> <| wasm_response_headers := ∅ |>);
    response ← lift (insert_plugin_headers (map_to_list (wasm_response_headers ctx)) response);
    response ← lift (run_wasm_response proxy ctx response);
    _ ← modify_ctx (cache_response_head response);
    mret response.

(** ** The end of a request *)

(** [response_written]: the last response header that was written. *)
Definition response_written (session : Session) : option Z :=
  head (omap (fun w => match w with
                       | WroteError code => Some code
                       | WroteHeader response _ | WroteTasks response _ => Some (rsp_status response)
                       | WroteBody _ _ => None
                       end) (ss_written session)).

Definition logging : HM unit :=
  session ← get_session;
  _ ← modify_ctx (fun ctx => ctx <| status := default (status ctx) (response_written session) |>);
  store_cached_response.

(** An error of the last write is only logged. *)
Definition try_write (w : Written) : HM unit := fun s =>
  match write w s with (inl _, s) => (inl tt, s) | (inr _, s) => (inl tt, s) end.

(** The code of the answer; the downstream connection is not reused. *)
Definition fail_to_proxy (e : Error) : HM Z :=
  let code := proxy_error_code e in
  _ ← modify_ctx (fun ctx =>
        let ctx := ctx <| status := code |> in
        if Str.is_empty (response_flags ctx)
        then ctx <| response_flags := proxy_error_flag_for e |> else ctx);
  _ ← (if (0 <? code) && negb (is_downstream_connection_closed e)
       then try_write (WroteError code) else mret tt);
  mret code.
End phases.

End HttpResponse.
