(* ===== verification/HttpDemo.v ===== *)
(** * A concrete HTTP gateway

    Concrete functions for the libraries that the HTTP files take as parameters,
    and a proxy, a route and a request on which their theorems are applied: the
    route has a security policy with an address list and basic authentication. *)

From Stdlib Require Import ZArith Lia Ascii.
From stdpp Require Import base gmap strings numbers list.
From S2P Require Import Prelude Strs IrTypes Records Matching Scoring HostIndex EndpointRuntime Spread RouteIndex Decimal RuntimeIds Snapshot Resolution Demo Semaphores CircuitBreaker Overload OverloadFacts RetryBudget RateLimit Sni IpAddr HttpTypes HttpFilters JwtAuth HttpBackend HttpSession HttpContext HttpMeta HttpAccess HttpOidc HttpExternalAuth HttpCaching HttpRequest.

Local Open Scope string_scope.
Local Open Scope list_scope.
Local Open Scope Z_scope.

Module HttpDemo.
Import Snapshots EndpointRuntime Resolution IpAddr HttpTypes JwtAuth HttpBackend HttpSession
       HttpContext HttpAccess HttpOidc HttpExternalAuth HttpCaching HttpRequest.

Definition demo_http : HttpLib := list_http.
Definition demo_parts : HttpParts := unit.
Definition demo_semaphore : Semaphore := Semaphores.counting.

Definition demo_tls : TlsLib :=
  {| X509 := string; PKey := string; stack_from_pem s := Some [s]; private_key_from_pem := Some;
     x509_dns_names c := [c]; x509_uris _ := []; sha256_digest s := s; validation_hash _ := 0 |}.

Definition demo_cache : @CacheLib demo_http :=
  {| CacheStore := list (CacheKey * (@ResponseHeader demo_http * list string));
     cache_lookup key store :=
       snd <$> head (List.filter (fun entry => bool_decide (entry.1 = key)) store);
     cache_store key head body store := (key, (head, body)) :: store;
     request_cacheable _ := true; resp_cacheable _ has_auth := negb has_auth |}.

(** A gateway that rejects every prompt. *)
Definition demo_ai : @AiFilter demo_parts :=
  {| ai_pre_process _ _ _ := inr false; ai_post_process _ _ _ := None |}.

Definition demo_clock : Clock := fun t => Z.of_nat t * 1000000000.
Definition demo_form : FormUrlencoded := fun _ => [].
Definition demo_token : TokenLib :=
  {| url_safe_encode s := s; url_safe_decode := Some; hmac_sha256 key message := key +:+ message |}.
Definition demo_session_lib : SessionLib :=
  {| token_to_json t := tk_sn t; token_from_json _ := None |}.
Definition demo_time : UnixTime := Some 1000.
Definition demo_oidc : OidcLib :=
  {| sha256 s := s; payload_to_json _ := ""; payload_from_json _ := None;
     claims_from_json _ := None; request_token _ _ := inr "unreachable" |}.

(** Networks of one address. *)
Definition demo_nets : IpNets :=
  {| IpNet := IpAddr; ipnet_from_str := IpAddr_from_str;
     ipnet_contains net ip := bool_decide (net = ip) |}.
Definition demo_credentials : Credentials :=
  {| base64_decode := Some; bcrypt_verify password hash := bool_decide (password = hash) |}.
Definition demo_auth : AuthNet :=
  {| auth_exchange _ _ := None; grpc_check _ _ := None |}.
Definition demo_wasm : WasmPlugins :=
  {| invoke_hook _ _ _ _ := inl (HookContinue ∅); wasm_permit_free := true |}.
Definition demo_buffer : RetryBuffer := fun n => 65536 <? n.
Definition demo_downstream : @Downstream demo_http := fun _ _ => None.

(** ** The proxy *)

Definition demo_secret : SecretMaterial := mkSecretMaterial "default" "users" "" "" "alice:pw" "".

(** One listener with one route to one backend. *)
Definition demo_http_snapshot : Snapshot :=
  @rebuild_runtime_indexes Demo.demo_regex
    (mkSnapshot "demo"
       [mkListener "web" "0.0.0.0" [] 80 "HTTP" [] ["default/shop"] None None ∅]
       [Demo.demo_http_route "shop" ["shop.example.com"]
          [Demo.demo_rule [Demo.demo_match "/" "PathPrefix" ""] [witness_ref "a" 1]]]
       [] [] [witness_backend "a:80" "10.0.0.1"] ∅ [demo_secret] [] SnapshotIndexes_default).

Definition demo_proxy (ai cache : bool) : GatewayProxy :=
  {| gp_snapshot := demo_http_snapshot; gp_access_log_enabled := false;
     gp_request_tracing_enabled := false; gp_max_request_body_bytes := 0;
     gp_max_request_header_bytes := 0; gp_ai_gateway_max_request_body_bytes := 1024;
     gp_listener_name_hint := None; gp_listener_port_hint := Some 80; gp_cache_enabled := cache;
     gp_cache_max_entry_size_bytes := 1024; gp_wasm_filter := None; gp_ai_filter := ai;
     gp_downstream_max_connection_age := None; gp_session_secret := Inline "secret";
     gp_upstream_tcp_keepalive := None;
     gp_upstream_tuning := mkUpstreamTuningOptions false None None None None None |}.

Definition demo_policy : SecurityPolicyConfig :=
  mkSecurityPolicyConfig
    (Some (mkSecurityAuthNConfig None None (Some (mkBasicAuthConfig "users" true ""))))
    None None [] (Some (mkSecurityIpConfig ["10.0.0.9"] [])).

Definition demo_route : SelectedHttpRoute :=
  mkSelectedHttpRoute "shop" "default" (Some 0%nat) ∅ "web" "HTTP" []
    (mkMatchedHttpPath "/" "PathPrefix") (Some (mkBackendEndpoint "10.0.0.1" 80 true))
    (Some "default/a:80") None None None None None None (Some demo_policy).

Definition demo_header (path : string) : @RequestHeader demo_http :=
  @mkRequestHeader demo_http "GET" (mkUri path None (Some path) None None None path) false
    [("host", "shop.example.com"); ("authorization", "Basic alice:pw")].

Definition demo_session (path : string) : @Session demo_http :=
  @mkSession demo_http (demo_header path) (Some (Inet (SocketAddrV4 [10; 0; 0; 9] 4000))) None None
    None false [BodyChunk "{}"] None false false None true [].

Definition demo_shared : @Shared demo_http demo_semaphore demo_jwt demo_tls demo_cache :=
  @mkShared demo_http demo_semaphore demo_jwt demo_tls demo_cache
    (@OverloadFacts.World_new demo_semaphore OverloadFacts.witness_options)
    (@CircuitBreaker.HttpCircuitBreakerController_new demo_semaphore
       (CircuitBreaker.mkHttpCircuitBreakerOptions 0))
    (@RateLimit.HttpRateLimitController_new demo_clock
       (RateLimit.mkHttpRateLimitOptions 0 0 0 0 0 0 0 0) 0)
    (RetryBudget.RetryBudgetController_new RetryBudget.RetryBudgetOptions_default)
    witness_world (mkJwtState ∅ 0 0) BackendState_default [] 0.

Definition demo_state (path : string) :
    @HttpState demo_http demo_parts demo_semaphore demo_jwt demo_tls demo_cache :=
  @mkHttpState demo_http demo_parts demo_semaphore demo_jwt demo_tls demo_cache
    RequestContext_default (demo_session path) demo_shared.

End HttpDemo.
