(* ===== verification/HttpRequestFacts.v ===== *)
(** * What a forwarded request has passed

    Facts about the request filter of [HttpRequest]: a request of an HTTP route is
    forwarded only after every check of the route let it pass, and a request that
    the AI gateway rejects is answered and forwarded all the same.  The frame
    predicate [keeps] says that a step changes neither the request nor the
    connection that the checks read. *)

From Stdlib Require Import ZArith Lia Ascii.
From stdpp Require Import base gmap strings numbers list.
From S2P Require Import Prelude Strs IrTypes Records Matching Scoring HostIndex EndpointRuntime Spread RouteIndex Decimal RuntimeIds Snapshot Resolution Selection IndexedSelection Precedence StreamSelection HttpFastPath Semaphores CircuitBreaker Overload RetryBudget RateLimit Sni IpAddr HttpTypes HttpFilters JwtAuth HttpBackend HttpSession HttpContext HttpMeta HttpGuards HttpAccess HttpOidc HttpExternalAuth HttpRetry HttpCaching HttpRequest Demo HttpDemo.

Local Open Scope string_scope.
Local Open Scope list_scope.
Local Open Scope Z_scope.
Local Open Scope record_scope.

Module HttpRequestFacts.
Import Snapshots EndpointRuntime Resolution Selection StreamSelection IpAddr HttpTypes HttpFilters
       JwtAuth HttpBackend HttpSession HttpContext HttpMeta HttpGuards HttpAccess HttpOidc
       HttpExternalAuth HttpRetry HttpCaching HttpFastPath HttpRequest.

Create HintDb http_keeps.

Section facts.
Context `{HttpLib, HttpParts, Semaphore, JwtLib, TlsLib, !CacheLib, !AiFilter, Clock, KeyHasher,
          Libm, RegexEngine, FormUrlencoded, TokenLib, SessionLib, UnixTime, OidcLib, IpNets,
          Credentials, AuthNet, WasmPlugins, RetryBuffer} {HD : Downstream}.

(** ** Steps that keep the request *)

Definition same_request (a b : Session) : Prop :=
  ss_request a = ss_request b /\ ss_client_addr a = ss_client_addr b /\ ss_ssl a = ss_ssl b.

Definition keeps {A} (m : HM A) : Prop := forall s r s',
  m s = (r, s') -> same_request (hs_session s') (hs_session s).

Lemma keeps_session {A} (m : HM A) :
  (forall s r s', m s = (r, s') -> hs_session s' = hs_session s) -> keeps m.
Proof. intros Hm s r s' ->%Hm. by repeat split. Qed.

Lemma keeps_ret {A} (x : A) : keeps (mret x).
Proof. apply keeps_session. by intros s r s' [= _ <-]. Qed.

Lemma keeps_bind {A B} (m : HM A) (f : A -> HM B) :
  keeps m -> (forall x, keeps (f x)) -> keeps (m ≫= f).
Proof.
  intros Hm Hf s r s'. unfold mbind, HM_bind. destruct (m s) as [[x|e] s1] eqn:E.
  - intros (? & ? & ?)%Hf. apply Hm in E as (? & ? & ?). repeat split; congruence.
  - intros [= _ <-]. by apply Hm in E.
Qed.

Lemma keeps_get_ctx : keeps get_ctx.
Proof. apply keeps_session. by intros s r s' [= _ <-]. Qed.
Lemma keeps_get_session : keeps get_session.
Proof. apply keeps_session. by intros s r s' [= _ <-]. Qed.
Lemma keeps_get_shared : keeps get_shared.
Proof. apply keeps_session. by intros s r s' [= _ <-]. Qed.
Lemma keeps_modify_ctx f : keeps (modify_ctx f).
Proof. apply keeps_session. by intros s r s' [= _ <-]. Qed.
Lemma keeps_lift {A} (x : Res A) : keeps (lift x).
Proof. apply keeps_session. by intros s r s' [= _ <-]. Qed.
Lemma keeps_fail {A} e : keeps (fail (A := A) e).
Proof. apply keeps_session. by intros s r s' [= _ <-]. Qed.

Lemma keeps_on_admission {A} (m : Overload.AM A) : keeps (on_admission m).
Proof. apply keeps_session. intros s r s'. unfold on_admission. case_match. by intros [= _ <-]. Qed.
Lemma keeps_on_rate_limit {A} (m : RateLimit.RL A) : keeps (on_rate_limit m).
Proof. apply keeps_session. intros s r s'. unfold on_rate_limit. case_match. by intros [= _ <-]. Qed.

Lemma keeps_write w : keeps (write w).
Proof.
  intros s r s'. unfold write. case_match; intros [= _ <-]; by repeat split.
Qed.
End facts.

#[export] Hint Resolve keeps_ret keeps_bind keeps_get_ctx keeps_get_session keeps_get_shared
  keeps_modify_ctx keeps_lift keeps_fail keeps_on_admission keeps_on_rate_limit keeps_write
  : http_keeps.
#[export] Hint Extern 2 (keeps (match ?x with _ => _ end)) => destruct x : http_keeps.

Section route.
Context `{HttpLib, HttpParts, Semaphore, JwtLib, TlsLib, !CacheLib, !AiFilter, Clock, KeyHasher,
          Libm, RegexEngine, FormUrlencoded, TokenLib, SessionLib, UnixTime, OidcLib, IpNets,
          Credentials, AuthNet, WasmPlugins, RetryBuffer} {HD : Downstream}.

Ltac keeps_tac :=
  repeat (first [ apply keeps_bind; [|intros] | solve [auto with http_keeps]
                | match goal with |- keeps (match ?x with _ => _ end) => destruct x end ]).

Lemma keeps_try_admit_http_route proxy route : keeps (try_admit_http_route proxy route).
Proof.
  unfold try_admit_http_route, try_admit_route, label_rejected_route, respond_overloaded,
    set_status, respond_error, store_admission_permit. keeps_tac.
Qed.

Lemma keeps_try_rate_limit_http_route proxy route : keeps (try_rate_limit_http_route proxy route).
Proof.
  unfold try_rate_limit_http_route, try_rate_limit_route, label_rejected_route,
    respond_rate_limited, set_status, respond_error, rate_limit_seen. keeps_tac.
Qed.

Lemma keeps_route_context proxy route : keeps (cache_selected_http_route_context proxy route).
Proof. unfold cache_selected_http_route_context. keeps_tac. Qed.

Lemma keeps_observe_allowed : keeps observe_allowed.
Proof. unfold observe_allowed. keeps_tac. Qed.

Lemma keeps_supported proxy route : keeps (supported_or_fail proxy route).
Proof.
  unfold supported_or_fail. case_match; [apply keeps_ret|].
  apply keeps_bind; [apply keeps_route_context|intros]. apply keeps_fail.
Qed.

Lemma keeps_cache_request_headers : keeps cache_request_headers_if_needed.
Proof. unfold cache_request_headers_if_needed. keeps_tac. Qed.

(** ** Early returns *)

Lemma and_then_forwards step rest s s' : and_then step rest s = (inl false, s') ->
  exists s1, step s = (inl false, s1) /\ rest s1 = (inl false, s').
Proof. intros ([|] & s1 & E & E')%hm_bind_inl; [done|eauto]. Qed.

Lemma when_admitted_forwards guard rest s s' : when_admitted guard rest s = (inl false, s') ->
  exists s1, guard s = (inl true, s1) /\ rest s1 = (inl false, s').
Proof. intros ([|] & s1 & E & E')%hm_bind_inl; [eauto|done]. Qed.

(** ** Each check *)

Lemma preflight_forwards proxy route filters request s s' :
  answer_cors_preflight filters request (cache_selected_http_route_context proxy route) s
    = (inl false, s') -> s' = s.
Proof.
  unfold answer_cors_preflight. case_match eqn:E1; [case_match eqn:E2|].
  - intros (? & ? & _ & (? & ? & _ & (? & ? & _ & [=])%hm_bind_inl)%hm_bind_inl)%hm_bind_inl.
  - by intros [= <-].
  - intros (? & ? & _ & [=])%hm_bind_inl.
Qed.

Lemma direct_response_forwards proxy route request s s' :
  handle_direct_response proxy route request s = (inl false, s') ->
  direct_response_filter (shr_filters route) = None /\ s' = s.
Proof.
  unfold handle_direct_response. case_match; [|by intros [= <-]].
  intros (? & ? & _ & (? & ? & _ & [=])%hm_bind_inl)%hm_bind_inl.
Qed.

Lemma redirect_forwards proxy route request filter_request s s' :
  handle_redirect proxy route request filter_request s = (inl false, s') ->
  request_redirect_filter (shr_filters route) = None /\ s' = s.
Proof.
  unfold handle_redirect. case_match; [|by intros [= <-]].
  intros E. exfalso. revert E. apply stops_bind; intros ?. repeat (apply stops_bind; intros ?).
  apply stops_true.
Qed.

(** What the address filter of a route asks for. *)
Definition ip_passes (route : SelectedHttpRoute) (session : Session) : Prop :=
  forall config, ip_config route = Some config ->
    (ip_allow_cidrs config = [] /\ ip_deny_cidrs config = [])
    \/ ip_allowed config (ss_client_addr session) = true.

Lemma ip_filter_forwards route s s' : handle_ip_filter route s = (inl false, s') ->
  ip_passes route (hs_session s) /\ s' = s.
Proof.
  unfold handle_ip_filter, ip_passes. case_match eqn:E; [|intros [= <-]; naive_solver].
  destruct (bool_decide _ && bool_decide _) eqn:B.
  - intros [= <-]. apply andb_true_iff in B as [?%bool_decide_eq_true ?%bool_decide_eq_true].
    naive_solver.
  - intros (x & s1 & [= <- <-] & E')%hm_bind_inl. destruct (ip_allowed _ _) eqn:Ea.
    + injection E' as <-. naive_solver.
    + apply hm_bind_inl in E' as (? & ? & _ & [=]).
Qed.

Definition oidc_passes (proxy : GatewayProxy) (route : SelectedHttpRoute) (session : Session) :
    Prop :=
  forall config, oidc_config_of route = Some config ->
    uri_path (rh_uri (ss_request session)) <> oidc_callback_path config
    /\ has_session proxy config (ss_request session) = true.

Lemma callback_stops proxy route config : stops (handle_oidc_callback proxy route config).
Proof.
  unfold handle_oidc_callback. apply stops_bind; intros ?.
  repeat case_match; repeat (apply stops_bind; intros ?); apply stops_true.
Qed.

Lemma oidc_forwards proxy route s s' : handle_oidc proxy route s = (inl false, s') ->
  oidc_passes proxy route (hs_session s) /\ s' = s.
Proof.
  unfold handle_oidc, oidc_passes. case_match eqn:E; [|intros [= <-]; naive_solver].
  intros (x & s1 & [= <- <-] & E')%hm_bind_inl. case_bool_decide as B.
  - by apply callback_stops in E'.
  - destruct (has_session _ _ _) eqn:Es; [injection E' as <-; naive_solver|].
    exfalso. revert E'. unfold redirect_to_authorization.
    repeat (apply stops_bind; intros ?). apply stops_true.
Qed.

Definition basic_auth_passes (proxy : GatewayProxy) (route : SelectedHttpRoute)
    (session : Session) : Prop :=
  forall config, basic_auth_config route = Some config ->
    basic_auth_accepts (sn_secrets (gp_snapshot proxy)) config
      (authorization_value (ss_request session)) = true.

Lemma basic_auth_forwards proxy route s s' : handle_basic_auth proxy route s = (inl false, s') ->
  basic_auth_passes proxy route (hs_session s) /\ s' = s.
Proof.
  unfold handle_basic_auth, basic_auth_passes. case_match eqn:E; [|intros [= <-]; naive_solver].
  intros (x & s1 & [= <- <-] & E')%hm_bind_inl. destruct (basic_auth_accepts _ _ _) eqn:Ea.
  - injection E' as <-. naive_solver.
  - apply hm_bind_inl in E' as (? & ? & _ & [=]).
Qed.

Definition jwt_passes (route : SelectedHttpRoute) (session : Session) : Prop :=
  forall filter, jwt_auth_filter (shr_filters route) = Some filter ->
    exists token w claims w', extract_bearer_token (ss_request session) filter = Some token
      /\ check_token filter token w = (inl claims, w').

Lemma reject_stops proxy route message : stops (reject_token proxy route message).
Proof. unfold reject_token. repeat (apply stops_bind; intros ?). apply stops_true. Qed.

Lemma jwt_forwards proxy route s s' : handle_jwt_auth proxy route s = (inl false, s') ->
  jwt_passes route (hs_session s).
Proof.
  unfold handle_jwt_auth, jwt_passes. case_match eqn:E; [|naive_solver].
  intros (x & s1 & [= <- <-] & E')%hm_bind_inl.
  destruct (extract_bearer_token _ _) as [token|] eqn:Et; [|by apply reject_stops in E'].
  apply hm_bind_inl in E' as (r & s2 & Er & E'). unfold on_jwt in Er.
  destruct (check_token _ _ _) as [r' w'] eqn:Ec. injection Er as -> _.
  destruct r as [claims|[]]; try by apply reject_stops in E'.
  intros ? [= <-]. eauto 10.
Qed.

(** The service was reached and said yes. *)
Definition external_auth_passes (route : SelectedHttpRoute) : Prop :=
  forall auth, external_auth_filter (shr_filters route) = Some auth ->
    exists request endpoint body headers,
      run_external_auth request auth endpoint body = inl (Allow headers).

Lemma external_error_stops proxy route code : stops (external_auth_error proxy route code).
Proof.
  unfold external_auth_error, answer_error. repeat (apply stops_bind; intros ?). apply stops_true.
Qed.

Lemma apply_external_forwards proxy route request decision s s' :
  apply_external_auth proxy route request decision s = (inl false, s') ->
  exists headers, decision = inl (Allow headers).
Proof.
  unfold apply_external_auth. destruct decision as [[headers|response body]|e];
    [eauto|intros E; exfalso; revert E..].
  - repeat (apply stops_bind; intros ?). destruct (Str.is_empty _);
      repeat (apply stops_bind; intros ?); apply stops_true.
  - apply external_error_stops.
Qed.

Lemma external_auth_forwards proxy route request s s' :
  handle_external_auth proxy route request s = (inl false, s') -> external_auth_passes route.
Proof.
  unfold handle_external_auth, external_auth_passes. case_match eqn:E; [|naive_solver].
  intros (r & s1 & _ & E')%hm_bind_inl.
  destruct r as [[endpoint ?]|]; [|by apply external_error_stops in E'].
  apply hm_bind_inl in E' as (body & s2 & _ & E').
  destruct body; [|by apply external_error_stops in E'|].
  - apply hm_bind_inl in E' as (session & s3 & _ & (headers & ?)%apply_external_forwards).
    intros ? [= <-]. eauto 10.
  - by apply hm_bind_inl in E' as (? & ? & _ & (? & ? & _ & [=])%hm_bind_inl).
Qed.

(** ** The route *)

Record RouteChecksPassed (proxy : GatewayProxy) (route : SelectedHttpRoute) (session : Session) :
    Prop := {
  passed_no_direct_response : direct_response_filter (shr_filters route) = None;
  passed_no_redirect : request_redirect_filter (shr_filters route) = None;
  passed_ip : ip_passes route session;
  passed_oidc : oidc_passes proxy route session;
  passed_basic_auth : basic_auth_passes proxy route session;
  passed_jwt : jwt_passes route session;
  passed_external_auth : external_auth_passes route;
}.

Lemma check_http_route_forwards proxy route request filter_request s s' :
  check_http_route proxy route request filter_request s = (inl false, s') ->
  RouteChecksPassed proxy route (hs_session s).
Proof.
  unfold check_http_route.
  intros (? & ->%preflight_forwards & E)%and_then_forwards.
  apply and_then_forwards in E as (? & [? ->]%direct_response_forwards & E).
  apply and_then_forwards in E as (? & [? ->]%redirect_forwards & E).
  apply and_then_forwards in E as (? & [? ->]%ip_filter_forwards & E).
  apply and_then_forwards in E as (? & [? ->]%oidc_forwards & E).
  apply and_then_forwards in E as (? & [? ->]%basic_auth_forwards & E).
  apply and_then_forwards in E as (? & ?%jwt_forwards & ?%external_auth_forwards).
  by constructor.
Qed.

Lemma same_request_passed proxy route a b : same_request a b ->
  RouteChecksPassed proxy route a -> RouteChecksPassed proxy route b.
Proof.
  intros (E1 & E2 & _) [? ? Hip Hoidc Hbasic Hjwt ?].
  unfold ip_passes, oidc_passes, basic_auth_passes, jwt_passes in *.
  rewrite E2 in Hip. rewrite E1 in Hoidc, Hbasic, Hjwt. by constructor.
Qed.


(** The AI gateway.  A request whose path names a format of a model provider
    and that the gateway rejects, be it for a tenant, a prompt or a rate limit, is
    answered with an error and forwarded to the backend all the same. *)
Theorem rejected_ai_request_forwarded proxy s body rest :
  gp_ai_filter proxy = true ->
  is_some (detect_format (uri_path (rh_uri (ss_request (hs_session s))))) = true ->
  read_chunks (fun current chunk =>
      body_limit_exceeded current chunk (gp_ai_gateway_max_request_body_bytes proxy)) ""
    (ss_body (hs_session s)) = (BodyRead_done body, rest) ->
  ai_pre_process (uri_path (rh_uri (ss_request (hs_session s)))) body
    (ai_api_key (ss_request (hs_session s))) = inr false ->
  write_error (ss_written (hs_session s)) (WroteError 500) = None ->
  exists s', run_ai proxy s = (inl false, s')
    /\ ss_written (hs_session s') = WroteError 500 :: ss_written (hs_session s)
    /\ status (hs_ctx s') = 500.
Proof.
  intros Hai Hf Hr Hp Hw. unfold run_ai, read_body, answer_error, set_status, respond_error, write.
  unfold mbind, HM_bind, mret, HM_ret, get_session, modify_session, modify_ctx.
  cbn [hs_session hs_ctx hs_shared]. rewrite Hai, Hf. cbn [negb orb].
  cbv beta iota. cbn [hs_session]. rewrite Hr.
  cbn -[write_error]. rewrite Hp. cbn -[write_error]. rewrite Hw. eexists. by repeat split.
Qed.
End route.

(** ** Applications *)

Import HttpDemo.

#[local] Existing Instances demo_http demo_parts demo_semaphore demo_jwt demo_tls demo_cache demo_ai
  demo_clock witness_hasher witness_libm Demo.demo_regex demo_form demo_token demo_session_lib
  demo_time demo_oidc demo_nets demo_credentials demo_auth demo_wasm demo_buffer demo_downstream.

Lemma run_result {A B} (x : A * B) r : x.1 = r -> x = (r, x.2).
Proof. by intros <-; destruct x. Qed.


Lemma rejected_ai_request_forwarded_witness :
  exists s', run_ai (demo_proxy true false) (demo_state "/v1/messages") = (inl false, s')
  /\ ss_written (hs_session s') = [WroteError 500] /\ status (hs_ctx s') = 500.
Proof.
  apply (rejected_ai_request_forwarded (demo_proxy true false) (demo_state "/v1/messages") "{}" []);
    vm_compute; reflexivity.
Defined.

End HttpRequestFacts.
