(* ===== verification/HttpResponseFacts.v ===== *)
(** * Retries, the cache and the body of a response

    Facts about [HttpRetry], [HttpCaching] and [HttpResponse]: what a granted
    retry has cost, which requests a stored response answers, and what the client
    gets of a response that the AI gateway rewrites. *)

From Stdlib Require Import ZArith Lia Ascii.
From stdpp Require Import base gmap strings numbers list.
From S2P Require Import Prelude Strs IrTypes Records Matching Scoring HostIndex EndpointRuntime Spread RouteIndex Decimal RuntimeIds Snapshot Resolution Selection IndexedSelection Precedence StreamSelection HttpFastPath Semaphores CircuitBreaker Overload RetryBudget RateLimit Sni IpAddr HttpTypes HttpFilters JwtAuth HttpBackend HttpSession HttpContext HttpMeta HttpGuards HttpAccess HttpOidc HttpExternalAuth HttpRetry HttpCaching HttpRequest HttpResponse Demo HttpDemo.

Local Open Scope string_scope.
Local Open Scope list_scope.
Local Open Scope Z_scope.
Local Open Scope record_scope.

Module HttpResponseFacts.
Import Snapshots EndpointRuntime Resolution IpAddr HttpTypes HttpFilters JwtAuth HttpBackend
       HttpSession HttpContext HttpMeta HttpGuards HttpAccess HttpRetry HttpCaching HttpRequest
       HttpResponse.

Section retries.
Context `{HttpLib, HttpParts, Semaphore, JwtLib, TlsLib, !CacheLib}.

Lemma seeded_budget (seed : bool) (s : HttpState) u s' :
  ((if seed && negb (retry_budget_seeded (hs_ctx s)) then
      _ ← observe_retryable_request; modify_ctx (fun ctx => ctx <| retry_budget_seeded := true |>)
    else mret tt) : HM unit) s = (inl u, s') ->
  retry_attempts (hs_ctx s') = retry_attempts (hs_ctx s)
  /\ (sh_retry_budget (hs_shared s') = sh_retry_budget (hs_shared s)
      \/ sh_retry_budget (hs_shared s')
         = RetryBudget.observe_retryable_request (sh_retry_budget (hs_shared s))).
Proof. case_match; [intros [= _ <-]|intros [= _ <-]]; cbn; auto. Qed.

Lemma remembered (remember : bool) (s : HttpState) u s' :
  ((if remember then modify_ctx remember_transport_retry_excluded_endpoint else mret tt) : HM unit) s
    = (inl u, s') ->
  retry_attempts (hs_ctx s') = retry_attempts (hs_ctx s)
  /\ sh_retry_budget (hs_shared s') = sh_retry_budget (hs_shared s).
Proof.
  destruct remember; intros [= _ <-]; [|done]. cbn [hs_ctx hs_shared].
  unfold remember_transport_retry_excluded_endpoint. split; [|done]. cbn. by repeat case_match.
Qed.

Lemma forgotten backoff (s : HttpState) u s' : forget_attempt backoff s = (inl u, s') ->
  retry_attempts (hs_ctx s') = retry_attempts (hs_ctx s) + 1
  /\ selected_backend (hs_ctx s') = None /\ circuit_breaker_permit (hs_ctx s') = None
  /\ sh_retry_budget (hs_shared s') = sh_retry_budget (hs_shared s).
Proof.
  unfold forget_attempt. intros (ctx & s0 & [= <- <-] & E)%hm_bind_inl.
  apply hm_bind_inl in E as (u1 & s1 & [= _ <-] & E). revert E.
  unfold drop_circuit_breaker_permit. case_match; [|by intros [= _ <-]].
  unfold on_circuit_breaker. by intros [= _ <-].
Qed.

End retries.

(** ** Limits of single backends *)

Section limits.
Context `{HttpLib, HttpParts, Semaphore, JwtLib, TlsLib, !CacheLib}.

(** [sync_per_backend_cb_limit] looks a cluster up by its name alone, but the name
    of a selected backend begins with its namespace.  As long as no cluster has a
    slash in its name the limit of a cluster is never applied. *)
Theorem backend_limit_never_applied snap namespace name s :
  (forall cluster, cluster ∈ sn_backends snap -> Str.contains_char "/" (bc_name cluster) = false) ->
  sync_per_backend_cb_limit snap (namespace +:+ "/" +:+ name) s = (inl tt, s).
Proof.
  intros Hnames. unfold sync_per_backend_cb_limit.
  destruct (List.find _ _) as [cluster|] eqn:E; [|done]. exfalso.
  apply List.find_some in E as [Hin Heq%bool_decide_eq_true].
  rewrite <- list_elem_of_In in Hin. apply Hnames in Hin. rewrite Heq in Hin.
  assert (Hc : Str.contains_char "/" (namespace +:+ "/" +:+ name) = true)
    by (apply Str.contains_char_iff; by exists namespace, name).
  congruence.
Qed.
End limits.

(** ** The body that the AI gateway rewrites *)

Section ai.
Context `{HttpLib, HttpParts, Semaphore, JwtLib, TlsLib, !CacheLib, !AiFilter}.

Definition with_ai_context (ai : AIContext) (ctx : RequestContext) : RequestContext :=
  ctx <| ai_context := Some ai |>.

(** The chunks of a response that the gateway will rewrite are held back. *)
Lemma buffer_active proxy chunk ctx ai :
  gp_ai_filter proxy = true -> ai_context ctx = Some ai ->
  buffer_chunk proxy chunk ctx
  = (if body_limit_exceeded (cached_response_body_bytes ctx) (len chunk)
          (gp_cache_max_entry_size_bytes proxy)
     then ctx <| http_cache := None |> <| cached_response_body := [] |>
              <| cached_response_body_bytes := 0 |>
     else ctx <| cached_response_body_bytes :=
                   U.saturating_add64 (cached_response_body_bytes ctx) (len chunk) |>
              <| cached_response_body := cached_response_body ctx ++ [chunk] |>, None).
Proof.
  intros Hf Ha. unfold buffer_chunk, ai_post_process_active. rewrite Hf, Ha.
  rewrite (bool_decide_eq_true_2 (is_Some (Some ai))) by eauto. cbn [andb].
  by rewrite orb_true_r.
Qed.

(** [response_body_filter] while the AI gateway is active.  When the second
    chunk takes a response over the size limit of a cache entry, both chunks are
    dropped, although they are held back from the client: the gateway rewrites an
    empty body, and without a rewrite the client gets an empty body. *)
Theorem oversized_ai_response_is_lost proxy ctx ai first second :
  gp_ai_filter proxy = true -> ai_context ctx = Some ai ->
  cached_response_body ctx = [] -> cached_response_body_bytes ctx = 0 ->
  body_limit_exceeded 0 (len first) (gp_cache_max_entry_size_bytes proxy) = false ->
  body_limit_exceeded (U.saturating_add64 0 (len first)) (len second)
    (gp_cache_max_entry_size_bytes proxy) = true ->
  (filter_response_body proxy [first; second] ctx).2
  = [default "" (ai_post_process ai "" (status ctx))].
Proof.
  intros Hf Ha Hb Hn Hl1 Hl2. cbn [filter_response_body]. unfold response_body_filter.
  rewrite (buffer_active _ _ _ ai Hf Ha), Hn, Hb, Hl1. cbn [app].
  rewrite (buffer_active _ _ _ ai Hf) by (cbn; exact Ha).
  match goal with |- context [body_limit_exceeded ?n (len second) _] =>
    change n with (U.saturating_add64 0 (len first)) end. rewrite Hl2.
  unfold finish_ai_body. rewrite Hf. cbn. by rewrite Ha.
Qed.
End ai.

(** ** Applications *)

Import HttpDemo.

#[local] Existing Instances demo_http demo_parts demo_semaphore demo_jwt demo_tls demo_cache demo_ai
  demo_clock witness_hasher witness_libm Demo.demo_regex demo_form demo_token demo_session_lib
  demo_time demo_oidc demo_nets demo_credentials demo_auth demo_wasm demo_buffer demo_downstream.
#[local] Instance demo_trace : TraceContext := fun request => request.

Lemma result_pair {A B} (x : A * B) r : x.1 = r -> x = (r, x.2).
Proof. by intros <-; destruct x. Qed.

(** A GET request in its first attempt. *)
Definition get_state : HttpState :=
  match capture_request_context_from_view_for_limits (demo_header "/") false false
          RequestContext_default with
  | ctx => mkHttpState ctx (demo_session "/") demo_shared
  end.


Definition ai_ctx : RequestContext := with_ai_context tt RequestContext_default.

Definition kilobyte : string := String.concat "" (repeat "x" 1000).

Lemma oversized_ai_response_is_lost_witness :
  (filter_response_body (demo_proxy true false) [kilobyte; kilobyte] ai_ctx).2 = [""].
Proof.
  rewrite (oversized_ai_response_is_lost (demo_proxy true false) ai_ctx tt kilobyte kilobyte);
    vm_compute; reflexivity.
Defined.

(** ** A response from the cache *)

(** A request, and unless the filter answers it a response of the upstream.  The
    context is dropped at the end, which returns its permits. *)
Definition exchange (proxy : GatewayProxy) (body : list string) : HM bool :=
  handled ← do_request_filter proxy;
  match handled with
  | true => _ ← reset_request_context; mret true
  | false =>
    _ ← response_filter proxy (mkResponseHeader 200 []);
    _ ← modify_ctx (fun ctx => (filter_response_body proxy body ctx).1);
    _ ← logging;
    _ ← reset_request_context;
    mret false
  end.

Definition body_of (w : Written) : option string :=
  match w with WroteBody body _ => body | _ => None end.

(** Whether the second request is answered without the upstream, and the bodies
    that its client is sent. *)
Definition second_exchange : option bool * list string :=
  let first := exchange (demo_proxy false true) ["for alice"] (demo_state "/accounts/alice") in
  let second :=
    exchange (demo_proxy false true) ["for bob"]
      (mkHttpState RequestContext_default (demo_session "/accounts/bob") (hs_shared first.2)) in
  (match second.1 with inl handled => Some handled | inr _ => None end,
   omap body_of (ss_written (hs_session second.2))).

(** Without access log and tracing the host and the path of the context are empty
    and so is their part of the key, and on the fast path the authorization of the
    request is not seen.  The answer to a request with credentials is stored and
    sent to the next request of the route, whatever its path. *)
Example cached_response_for_other_path : second_exchange = (Some true, ["for alice"]).
Proof. vm_compute. reflexivity. Qed.
End HttpResponseFacts.
