(* ===== verification/HttpSessionFacts.v ===== *)
(** * Session tokens

    The token that a response carries is read back from the next request of the
    client.  The laws of base64 and JSON that this needs hold of a concrete
    encoding, on which the theorem is applied. *)

From Stdlib Require Import ZArith Lia Ascii.
From stdpp Require Import base gmap strings numbers list countable.
From S2P Require Import Prelude Strs IrTypes HttpTypes HttpFilters HttpSession.

Local Open Scope string_scope.
Local Open Scope list_scope.
Local Open Scope Z_scope.

Module HttpSessionFacts.
Import HttpTypes HttpFilters HttpSession.

Section facts.
Context `{TokenLibLaws, SessionLibLaws}.

(** The target that a token names. *)
Definition session_target (selected : SelectedBackend) : PersistentSessionTarget :=
  mkPersistentSessionTarget (sb_backend_name selected)
    (mkBackendEndpoint (be_address (sb_backend selected)) (be_port (sb_backend selected)) true).

Lemma split_token body signature :
  Str.split_once "." (url_safe_encode body +:+ "." +:+ url_safe_encode signature)
  = Some (url_safe_encode body, url_safe_encode signature).
Proof. apply Str.split_once_Some. split; [done|apply url_safe_no_dot]. Qed.

(** C40: Session persistence.  The token that [encode_payload] writes for a backend
    is decoded under the same secret and policy, until one of its deadlines has
    passed and not after, to that backend with the absolute deadline of the token.
    When the session is written again the absolute deadline stays: requests
    extend the idle deadline only. *)
Theorem session_token_roundtrip self policy selected previous written now raw :
  let payload := build_token_payload written policy selected previous in
  encode_payload self payload = Some raw ->
  decode_token self now policy raw
  = (if expired now (tk_ax payload) || expired now (tk_ix payload) then None
     else Some (mkResolvedSession (session_target selected) (tk_ax payload)))
  /\ forall session later, decode_token self now policy raw = Some session ->
       tk_ax (build_token_payload later policy selected (Some session)) = tk_ax payload.
Proof.
  intros payload Hraw.
  assert (Hd : decode_token self now policy raw
    = (if expired now (tk_ax payload) || expired now (tk_ix payload) then None
       else Some (mkResolvedSession (session_target selected) (tk_ax payload)))).
  { unfold encode_payload, sign in Hraw. destruct (shared_secret self) as [secret|] eqn:Es; [|done].
    injection Hraw as <-. unfold decode_token. rewrite split_token. cbn [mbind option_bind].
    rewrite !url_safe_roundtrip. cbn [mbind option_bind]. unfold verify. rewrite Es.
    cbn [mbind option_bind]. rewrite bool_decide_eq_true_2 by done. cbn [mbind option_bind].
    rewrite token_json_roundtrip. cbn [mbind option_bind].
    rewrite !bool_decide_eq_true_2 by done. done. }
  split; [done|]. intros session later. rewrite Hd. case_match; [done|]. intros [= <-].
  unfold payload, build_token_payload. cbn. by destruct (sp_absolute_timeout policy).
Qed.
End facts.

(** ** An encoding with the laws *)

Definition nibble (n : nat) : ascii := ascii_of_nat (97 + n).

Fixpoint letters (s : string) : string :=
  match s with
  | EmptyString => EmptyString
  | String a s =>
    let n := nat_of_ascii a in
    String (nibble (n / 16)) (String (nibble (n mod 16)) (letters s))
  end.

Fixpoint of_letters (s : string) : option string :=
  match s with
  | EmptyString => Some EmptyString
  | String a (String b s) =>
    t ← of_letters s;
    Some (String (ascii_of_nat ((nat_of_ascii a - 97) * 16 + (nat_of_ascii b - 97))) t)
  | String _ EmptyString => None
  end.

Definition letters_ok (a : ascii) : bool :=
  let n := nat_of_ascii a in
  let x := nibble (n / 16) in
  let y := nibble (n mod 16) in
  bool_decide (ascii_of_nat ((nat_of_ascii x - 97) * 16 + (nat_of_ascii y - 97)) = a)
  && negb (bool_decide (x = "."%char)) && negb (bool_decide (y = "."%char)).

Lemma letters_byte a : letters_ok a = true.
Proof. destruct a as [[] [] [] [] [] [] [] []]; vm_compute; reflexivity. Qed.

Definition letters_lib : TokenLib :=
  {| url_safe_encode := letters; url_safe_decode := of_letters;
     hmac_sha256 key message := key +:+ message |}.

#[local] Existing Instance letters_lib.

Lemma letters_laws : @TokenLibLaws letters_lib.
Proof.
  split; intros s; induction s as [|a s IH]; [done| |done|].
  - cbn [url_safe_decode url_safe_encode letters_lib] in *. cbn [letters of_letters].
    rewrite IH. cbn [mbind option_bind]. pose proof (letters_byte a) as Ha. unfold letters_ok in Ha.
    apply andb_true_iff in Ha as [[Ha%bool_decide_eq_true _]%andb_true_iff _]. by rewrite Ha.
  - cbn [url_safe_encode letters_lib] in *. cbn [letters Str.contains_char].
    pose proof (letters_byte a) as Ha. unfold letters_ok in Ha.
    apply andb_true_iff in Ha as [[_ Hx]%andb_true_iff Hy].
    apply negb_true_iff in Hx, Hy. by rewrite Hx, Hy, IH.
Qed.
#[local] Existing Instance letters_laws.

(** The bits of a positive number, least first. *)
Fixpoint bits (p : positive) : string :=
  match p with
  | xH => EmptyString
  | xO p => String "0" (bits p)
  | xI p => String "1" (bits p)
  end.

Fixpoint of_bits (s : string) : positive :=
  match s with
  | EmptyString => xH
  | String a s => if bool_decide (a = "1"%char) then xI (of_bits s) else xO (of_bits s)
  end.

Lemma of_bits_bits p : of_bits (bits p) = p.
Proof. by induction p as [p IH|p IH|]; cbn; rewrite ?IH. Qed.

Definition token_tuple (t : SessionToken) :=
  (tk_v t, tk_sn t, tk_st t, tk_bn t, tk_a t, tk_p t, tk_ax t, tk_ix t).

Definition tuple_token (x : Z * string * string * string * string * Z * option Z * option Z) :
    SessionToken :=
  let '(v, sn, st, bn, a, p, ax, ix) := x in mkSessionToken v sn st bn a p ax ix.

Definition bits_lib : SessionLib :=
  {| token_to_json t := bits (encode (token_tuple t));
     token_from_json s := tuple_token <$> decode (of_bits s) |}.
#[local] Existing Instance bits_lib.

Lemma bits_laws : @SessionLibLaws bits_lib.
Proof.
  intros []. cbn [token_from_json token_to_json bits_lib].
  by rewrite of_bits_bits, decode_encode.
Qed.
#[local] Existing Instance bits_laws.

Definition witness_policy : SessionPersistence :=
  mkSessionPersistence "sid" "Cookie" (Some 60000000000) (Some 10000000000) None.

Definition witness_selected : SelectedBackend :=
  {| sb_route_kind := KindHttp; sb_route_name := "shop"; sb_route_namespace := "default";
     sb_rule_index := None; sb_route_annotations := ∅; sb_listener_name := "web";
     sb_listener_protocol := "HTTP"; sb_backend := mkBackendEndpoint "10.0.0.1" 80 true;
     sb_backend_name := "default/a:80"; sb_filters := []; sb_matched_http_path := None;
     sb_timeouts := None; sb_retry := None; sb_session_persistence := Some witness_policy;
     sb_backend_tls := None; sb_route_policy := None |}.

(** A token written at second 100 is good at second 105. *)
Lemma session_token_roundtrip_witness :
  match encode_payload (Inline "k") (build_token_payload 100 witness_policy witness_selected None) with
  | Some raw =>
    decode_token (Inline "k") 105 witness_policy raw
    = Some (mkResolvedSession (session_target witness_selected) (Some 160))
  | None => False
  end.
Proof.
  destruct (encode_payload (Inline "k") _) as [raw|] eqn:E; [|discriminate E].
  rewrite (proj1 (session_token_roundtrip (Inline "k") witness_policy witness_selected None 100 105
                    raw E)).
  reflexivity.
Defined.
End HttpSessionFacts.
