(* ===== verification/AiTypes.v ===== *)
(** * Requests and responses of the AI gateway

    [ntgw-ai/src/format/ir.rs] and [error.rs]: the representation of chat
    completions that the formats are converted to and that the filters of the
    gateway read, and the errors of the gateway.

    A [serde_json::Value] that the gateway only carries around is its text.  An
    [f32] is its bits.  The [regex] crate, the case mapping of Unicode and the
    decoding of UTF-8 are the class [TextLib]. *)

From Stdlib Require Import ZArith Lia Ascii.
From Corelib Require Import SpecFloat.
From stdpp Require Import base gmap strings numbers list.
From S2P Require Import Prelude Strs IrTypes Records.

Local Open Scope string_scope.
Local Open Scope list_scope.
Local Open Scope Z_scope.
Local Open Scope record_scope.

(** A match of a pattern: where it starts and ends, in bytes. *)
Record TextMatch := mkTextMatch { tm_start : nat; tm_end : nat }.

Class TextLib := {
  (** [Regex::new]: whether a pattern compiles. *)
  pattern_valid : string -> bool;
  (** [Regex::find_iter] of a pattern on a text. *)
  find_iter : string -> string -> list TextMatch;
  (** [str::to_lowercase] *)
  to_lowercase : string -> string;
  (** [std::str::from_utf8] accepts the bytes. *)
  is_utf8 : string -> bool;
  (** [str::chars().count()] *)
  char_count : string -> Z;
}.

Module AiTypes.

(** ** Requests *)

Inductive AIRole := System | User | Assistant | Tool.
#[global] Instance AIRole_eq_dec : EqDecision AIRole.
Proof. solve_decision. Defined.

Record AIImageUrl := mkAIImageUrl { img_url : string; img_detail : option string }.
#[global] Instance AIImageUrl_eq_dec : EqDecision AIImageUrl.
Proof. solve_decision. Defined.

Record AIContentPart := mkAIContentPart {
  part_content_type : string;
  part_text : option string;
  part_image_url : option AIImageUrl;
}.
#[global] Instance AIContentPart_eq_dec : EqDecision AIContentPart.
Proof. solve_decision. Defined.

Inductive AIContent := Text (s : string) | MultiPart (parts : list AIContentPart) | NoContent.
#[global] Instance AIContent_eq_dec : EqDecision AIContent.
Proof. solve_decision. Defined.

Record AIToolCall := mkAIToolCall {
  tc_id : string;
  tc_call_type : string;
  tc_function_name : string;
  tc_function_arguments : string;
}.
#[global] Instance AIToolCall_eq_dec : EqDecision AIToolCall.
Proof. solve_decision. Defined.

Record AIMessage := mkAIMessage {
  msg_role : AIRole;
  msg_content : AIContent;
  msg_name : option string;
  msg_tool_calls : list AIToolCall;
  msg_tool_call_id : option string;
}.
#[global] Instance AIMessage_eq_dec : EqDecision AIMessage.
Proof. solve_decision. Defined.

Record AIRequest := mkAIRequest {
  air_messages : list AIMessage;
  air_model : string;
  air_temperature : option Z;
  air_max_tokens : option Z;
  air_top_p : option Z;
  air_stop : list string;
  air_stream : bool;
  air_user : option string;
  (** The members in the order of their names, each with the text of its value. *)
  air_extra : list (string * string);
}.

#[export, refine] Instance AIRequest_rebuild : Rebuild AIRequest := {
  rebuild r :=
    mkAIRequest (air_messages r) (air_model r) (air_temperature r) (air_max_tokens r)
      (air_top_p r) (air_stop r) (air_stream r) (air_user r) (air_extra r)
}.
Proof. abstract by intros []. Defined.

(** ** Responses *)

Record AIUsage := mkAIUsage {
  us_prompt_tokens : Z;
  us_completion_tokens : Z;
  us_total_tokens : Z;
}.
Definition AIUsage_default : AIUsage := mkAIUsage 0 0 0.

Record AIChoice := mkAIChoice {
  cho_index : Z;
  cho_message : AIMessage;
  cho_finish_reason : option string;
}.

Record AIResponse := mkAIResponse {
  ars_id : string;
  ars_model : string;
  ars_choices : list AIChoice;
  ars_usage : option AIUsage;
  ars_created : option Z;
  ars_extra : list (string * string);
}.

Record AIStreamDelta := mkAIStreamDelta {
  sd_role : option AIRole;
  sd_content : option string;
  sd_tool_calls : list AIToolCall;
}.

Record AIStreamChoice := mkAIStreamChoice {
  sc_index : Z;
  sc_delta : AIStreamDelta;
  sc_finish_reason : option string;
}.

Record AIStreamChunk := mkAIStreamChunk {
  chk_id : string;
  chk_model : string;
  chk_choices : list AIStreamChoice;
  chk_usage : option AIUsage;
  chk_created : option Z;
}.

(** ** Errors *)

Inductive AIError :=
| FormatDetection (msg : string)
| FormatParse (format message : string)
| FormatSerialize (format message : string)
| UnsupportedFormat (path : string)
| AdapterNotFound (format : string)
| TokenCounterError (msg : string)
| Observability (msg : string)
| Backend (status : Z) (body : string)
| RateLimitExceeded (retry_after_secs : Z)
| Internal (msg : string)
| PromptGuardBlocked (reason matched : string)
| ContentSafetyBlocked (category matched : string)
| CacheHit (response : AIResponse)
| FallbackExhausted (model reason : string)
| TenantDenied (msg : string).

(** ** Text of a message *)

(** [texts.join(" ")] *)
Fixpoint join_spaces (texts : list string) : string :=
  match texts with
  | [] => ""
  | [text] => text
  | text :: texts => text +:+ " " +:+ join_spaces texts
  end.

Definition message_text (content : AIContent) : option string :=
  match content with
  | Text s => Some s
  | MultiPart parts =>
    match omap part_text parts with
    | [] => None
    | texts => Some (join_spaces texts)
    end
  | NoContent => None
  end.

(** ** Floating-point numbers *)

Definition f64_one : spec_float := binary_normalize 53 1024 1 0 false.

(** [f64::max]: the other operand when one is not a number. *)
Definition f64_max (x y : spec_float) : spec_float :=
  match SFcompare x y with
  | Some Lt => y
  | Some _ => x
  | None => match x with S754_nan => y | _ => x end
  end.

(** [x as u64]: truncated towards zero, saturated, and 0 for what is no number. *)
Definition f64_to_u64 (x : spec_float) : Z :=
  match x with
  | S754_finite false m e => Z.min (Z.shiftl (Z.pos m) e) U.u64_max
  | S754_infinity false => U.u64_max
  | _ => 0
  end.

End AiTypes.
