(* ===== verification/AiRateLimit.v ===== *)
(** * Token rate limits of the AI gateway

    [ntgw-ai/src/ratelimit.rs]: a sliding window for each key, with the requests
    of the last minute and the tokens of the last minute and hour.

    The methods of a window take the clock reading that they make; the limiter
    ([LM]) is a state transformer that makes the readings and holds the table of
    windows. *)

From Stdlib Require Import ZArith Lia Ascii.
From Corelib Require Import SpecFloat.
From stdpp Require Import base gmap strings numbers list.
From S2P Require Import Prelude Strs IrTypes Records Resolution AiTypes.

Local Open Scope string_scope.
Local Open Scope list_scope.
Local Open Scope Z_scope.
Local Open Scope record_scope.

Module AiRateLimit.
Import Resolution AiTypes.

(** ** Types *)

Inductive RateLimitResult := Allowed (remaining : Z) | Limited (retry_after_secs : Z).

Record RateLimitConfig := mkRateLimitConfig {
  rlc_tokens_per_minute : Z;
  rlc_tokens_per_hour : Z;
  rlc_requests_per_minute : Z;
  rlc_scope : string;
  rlc_burst : spec_float;
  rlc_on_limit : string;
}.

Definition RateLimitConfig_default : RateLimitConfig :=
  mkRateLimitConfig 0 0 0 "apiKey" f64_one "reject".

Record SlidingWindow := mkSlidingWindow {
  minute_req_limit : Z;
  minute_token_limit : Z;
  hour_token_limit : Z;
  requests : list Instant;
  minute_tokens : list (Instant * Z);
  hour_tokens : list (Instant * Z);
  minute_token_total : Z;
  hour_token_total : Z;
}.

#[export, refine] Instance SlidingWindow_rebuild : Rebuild SlidingWindow := {
  rebuild w :=
    mkSlidingWindow (minute_req_limit w) (minute_token_limit w) (hour_token_limit w) (requests w)
      (minute_tokens w) (hour_tokens w) (minute_token_total w) (hour_token_total w)
}.
Proof. abstract by intros []. Defined.

Definition from_secs (n : Z) : Duration := n * 1000000000.
Definition as_secs (d : Duration) : Z := d / 1000000000.
Definition duration_since (now earlier : Instant) : Duration := Z.max 0 (now - earlier).

Definition min_enabled_remaining (values : list (option Z)) : Z :=
  match omap id values with
  | [] => U.u64_max
  | value :: values => foldl Z.min value values
  end.

(** [condition.then(|| value)] *)
Definition then_some (condition : bool) (value : Z) : option Z :=
  if condition then Some value else None.

(** [(limit as f64 * burst) as u64] *)
Definition scaled_limit (limit : Z) (burst : spec_float) : Z :=
  f64_to_u64 (SFmul 53 1024 (f64_of_int limit) burst).

Definition SlidingWindow_new (config : RateLimitConfig) : SlidingWindow :=
  let burst := f64_max (rlc_burst config) f64_one in
  {| minute_req_limit := scaled_limit (rlc_requests_per_minute config) burst;
     minute_token_limit := scaled_limit (rlc_tokens_per_minute config) burst;
     hour_token_limit := scaled_limit (rlc_tokens_per_hour config) burst;
     requests := []; minute_tokens := []; hour_tokens := [];
     minute_token_total := 0; hour_token_total := 0 |}.

(** ** Windows *)

Definition expired (now : Instant) (window : Duration) (t : Instant) : bool :=
  window <? duration_since now t.

Fixpoint prune_requests (now : Instant) (requests : list Instant) : list Instant :=
  match requests with
  | [] => []
  | t :: rest => if expired now (from_secs 60) t then prune_requests now rest else requests
  end.

Fixpoint prune_token_window (now : Instant) (window : Duration) (tokens : list (Instant * Z))
    (total : Z) : list (Instant * Z) * Z :=
  match tokens with
  | [] => ([], total)
  | (t, expired_tokens) :: rest =>
    if expired now window t
    then prune_token_window now window rest (U.saturating_sub total expired_tokens)
    else (tokens, total)
  end.

Definition prune (now : Instant) (self : SlidingWindow) : SlidingWindow :=
  let '(minute, minute_total) :=
    prune_token_window now (from_secs 60) (minute_tokens self) (minute_token_total self) in
  let '(hour, hour_total) :=
    prune_token_window now (from_secs 3600) (hour_tokens self) (hour_token_total self) in
  self <| requests := prune_requests now (requests self) |>
       <| minute_tokens := minute |> <| minute_token_total := minute_total |>
       <| hour_tokens := hour |> <| hour_token_total := hour_total |>.

Definition SlidingWindow_check (now : Instant) (self : SlidingWindow) :
    RateLimitResult * SlidingWindow :=
  let self := prune now self in
  let minute_used := minute_token_total self in
  let hour_used := hour_token_total self in
  if (0 <? minute_token_limit self) && (minute_token_limit self <=? minute_used)
  then (Limited 1, self)
  else if (0 <? hour_token_limit self) && (hour_token_limit self <=? hour_used)
  then (Limited 1, self)
  else if (0 <? minute_req_limit self)
          && (minute_req_limit self <=? Z.of_nat (length (requests self)))
  then
    let oldest := default now (head (requests self)) in
    let secs := U.saturating_sub (from_secs 60) (duration_since now oldest) in
    (Limited (Z.max (as_secs secs) 1), self)
  else
    let self := self <| requests := requests self ++ [now] |> in
    (Allowed (min_enabled_remaining
       [then_some (0 <? minute_token_limit self)
          (U.saturating_sub (minute_token_limit self) minute_used);
        then_some (0 <? hour_token_limit self) (U.saturating_sub (hour_token_limit self) hour_used);
        then_some (0 <? minute_req_limit self)
          (U.saturating_sub (minute_req_limit self) (Z.of_nat (length (requests self))))]), self).

Definition record_tokens (now : Instant) (tokens : Z) (self : SlidingWindow) :
    RateLimitResult * SlidingWindow :=
  let self := prune now self in
  let projected_minute_total := U.saturating_add64 (minute_token_total self) tokens in
  let projected_hour_total := U.saturating_add64 (hour_token_total self) tokens in
  if (0 <? hour_token_limit self) && (hour_token_limit self <? projected_hour_total)
  then (Limited 1, self)
  else if (0 <? minute_token_limit self) && (minute_token_limit self <? projected_minute_total)
  then (Limited 1, self)
  else
    let self :=
      if 0 <? minute_token_limit self
      then self <| minute_tokens := minute_tokens self ++ [(now, tokens)] |>
                <| minute_token_total := projected_minute_total |>
      else self in
    let self :=
      if 0 <? hour_token_limit self
      then self <| hour_tokens := hour_tokens self ++ [(now, tokens)] |>
                <| hour_token_total := projected_hour_total |>
      else self in
    (Allowed (min_enabled_remaining
       [then_some (0 <? minute_token_limit self)
          (U.saturating_sub (minute_token_limit self) (minute_token_total self));
        then_some (0 <? hour_token_limit self)
          (U.saturating_sub (hour_token_limit self) (hour_token_total self))]), self).

(** ** The limiter *)

Record LimiterState := mkLimiterState {
  ls_windows : StringMap SlidingWindow;
  ls_ticks : nat;
}.

Section with_clock.
Context `{Clock}.

(** A method of the window of [key], which is made when there is none. *)
Definition on_window (config : RateLimitConfig) (key : string)
    (method : Instant -> SlidingWindow -> RateLimitResult * SlidingWindow) (s : LimiterState) :
    RateLimitResult * LimiterState :=
  let entry := default (SlidingWindow_new config) (ls_windows s !! key) in
  let '(result, entry) := method (instant_at (ls_ticks s)) entry in
  (result, mkLimiterState (<[key := entry]> (ls_windows s)) (S (ls_ticks s))).

Definition TokenRateLimiter_check (config : RateLimitConfig) (key : string) (s : LimiterState) :
    RateLimitResult * LimiterState :=
  if (rlc_tokens_per_minute config =? 0) && (rlc_tokens_per_hour config =? 0)
     && (rlc_requests_per_minute config =? 0)
  then (Allowed U.u64_max, s)
  else on_window config key SlidingWindow_check s.

Definition record_usage (config : RateLimitConfig) (key : string) (total_tokens : Z)
    (s : LimiterState) : RateLimitResult * LimiterState :=
  if (rlc_tokens_per_minute config =? 0) && (rlc_tokens_per_hour config =? 0)
  then (Allowed U.u64_max, s)
  else on_window config key (fun now => record_tokens now total_tokens) s.
End with_clock.

End AiRateLimit.
