(* ===== verification/AiRateLimitFacts.v ===== *)
(** * What the token rate limits guarantee

    A sliding window never lets more through, in any minute or hour, than its
    limit: the requests that it allows and the tokens that it records.  Tokens
    that would exceed the limit are not recorded, so they are never held against
    later requests. *)

From Stdlib Require Import ZArith Lia Ascii Sorted.
From Corelib Require Import SpecFloat.
From stdpp Require Import base gmap strings numbers list sorting.
From S2P Require Import Prelude Strs IrTypes Records Resolution AiTypes AiRateLimit.

Local Open Scope string_scope.
Local Open Scope list_scope.
Local Open Scope Z_scope.
Local Open Scope record_scope.

Module AiRateLimitFacts.
Import AiTypes AiRateLimit.

(** ** Logs of a window *)

(** Entries carry a time and a number of tokens; a request counts one. *)
Definition entry_le (e f : Instant * Z) : Prop := e.1 <= f.1.

Definition weight (l : list (Instant * Z)) : Z := foldr (fun e acc => e.2 + acc) 0 l.

(** The weight of the entries of the last [window], seen at [now]. *)
Definition within (now : Instant) (window : Duration) (log : list (Instant * Z)) : Z :=
  weight (filter (fun e => now - e.1 <= window) log).

(** The weight of the entries of the [window] that starts at [start]. *)
Definition in_interval (start : Instant) (window : Duration) (log : list (Instant * Z)) : Z :=
  weight (filter (fun e => start <= e.1 <= start + window) log).

Lemma weight_app l k : weight (l ++ k) = weight l + weight k.
Proof. induction l as [|e l IH]; [done|]. unfold weight in *. cbn [app foldr]. lia. Qed.

Lemma weight_nonneg l : Forall (fun e => 0 <= e.2) l -> 0 <= weight l.
Proof. induction 1 as [|e l He _ IH]; [done|]. unfold weight in *. cbn [foldr]. lia. Qed.

(** Each entry was added when it fit into the window that ended with it. *)
Inductive paced (window : Duration) (limit : Z) : list (Instant * Z) -> Prop :=
| paced_nil : paced window limit []
| paced_snoc log t n :
  paced window limit log -> within t window log + n <= limit ->
  paced window limit (log ++ [(t, n)]).

Lemma weight_filter_mono (P Q : Instant * Z -> Prop) `{forall e, Decision (P e), forall e, Decision (Q e)} l :
  Forall (fun e => 0 <= e.2) l -> (forall e, e ∈ l -> P e -> Q e) ->
  weight (filter P l) <= weight (filter Q l).
Proof.
  intros Hn. induction Hn as [|e l He Hn IH]; intros Hpq; [done|].
  assert (weight (filter P l) <= weight (filter Q l)).
  { apply IH. intros f Hf. apply Hpq. by right. }
  rewrite !filter_cons. specialize (Hpq e ltac:(by left)).
  repeat case_decide; unfold weight in *; cbn [foldr]; try lia. tauto.
Qed.

(** What is paced holds for every window, not only for those that end with an
    entry. *)
Lemma paced_interval window limit log start :
  0 <= limit -> Forall (fun e => 0 <= e.2) log -> paced window limit log ->
  in_interval start window log <= limit.
Proof.
  intros Hl Hn Hp. induction Hp as [|log t n Hp IH Hw]; [done|].
  apply Forall_app in Hn as [Hn Ht]. specialize (IH Hn).
  unfold in_interval in *. rewrite filter_app, weight_app, filter_cons, filter_nil.
  cbn [fst]. case_decide; unfold weight at 2; cbn [foldr snd]; [|lia].
  assert (weight (filter (fun e => start <= e.1 <= start + window) log) <= within t window log);
    [|lia].
  apply weight_filter_mono; [done|]. intros e _. lia.
Qed.

(** ** The entries that a window keeps *)

(** [log] is what was added, [kept] the entries that are still in the queue. *)
Record kept_of (window last : Z) (log kept : list (Instant * Z)) (total : Z) : Prop := {
  kept_suffix : exists old, log = old ++ kept /\ Forall (fun e => window < last - e.1) old;
  kept_sorted : StronglySorted entry_le kept;
  kept_past : Forall (fun e => e.1 <= last /\ 0 <= e.2) log;
  kept_total : total = weight kept;
}.

Lemma kept_empty window last : kept_of window last [] [] 0.
Proof.
  split; [exists []; split; [done|constructor]|constructor..|done].
Qed.

Lemma expired_iff now window t : 0 <= window ->
  expired now window t = true <-> window < now - t.
Proof. intros Hw. unfold expired, duration_since. rewrite Z.ltb_lt. lia. Qed.

Lemma prune_sorted now window kept total :
  0 <= window -> StronglySorted entry_le kept -> Forall (fun e => 0 <= e.2) kept ->
  total = weight kept ->
  exists gone rest, kept = gone ++ rest /\ Forall (fun e => window < now - e.1) gone
  /\ Forall (fun e => now - e.1 <= window) rest
  /\ prune_token_window now window kept total = (rest, weight rest).
Proof.
  intros Hw Hs. revert total. induction Hs as [|[t n] kept Hs IH Ht]; intros total Hn ->.
  { exists [], []. by repeat constructor. }
  apply Forall_cons in Hn as [Ht0 Hn]. cbn [prune_token_window].
  destruct (expired now window t) eqn:E.
  - apply expired_iff in E; [|done].
    destruct (IH (weight kept) Hn eq_refl) as (gone & rest & -> & Hg & Hr & Hp).
    exists ((t, n) :: gone), rest. repeat split; [by constructor|done|].
    rewrite <- Hp. f_equal. unfold U.saturating_sub. cbn [weight foldr snd] in *.
    unfold weight in *. cbn [foldr snd].
    pose proof (weight_nonneg _ Hn) as Hx. unfold weight in Hx. lia.
  - exists [], ((t, n) :: kept). repeat split; [constructor|].
    assert (now - t <= window).
    { destruct (Z.leb_spec (now - t) window) as [|Hx]; [done|].
      apply expired_iff in Hx; [congruence|done]. }
    constructor; [done|]. eapply Forall_impl; [exact Ht|]. unfold entry_le. cbn. lia.
Qed.

Lemma filter_all {A} (P : A -> Prop) `{forall x, Decision (P x)} l : Forall P l -> filter P l = l.
Proof. induction 1 as [|x l Hx _ IH]; [done|]. by rewrite filter_cons_True, IH. Qed.

Lemma filter_none {A} (P : A -> Prop) `{forall x, Decision (P x)} l :
  Forall (fun x => ~ P x) l -> filter P l = [].
Proof. induction 1 as [|x l Hx _ IH]; [done|]. by rewrite filter_cons_False. Qed.

(** Pruning leaves exactly the entries of the window. *)
Lemma kept_prune window last now log kept total :
  0 <= window -> last <= now -> kept_of window last log kept total ->
  let '(kept', total') := prune_token_window now window kept total in
  kept_of window now log kept' total' /\ total' = within now window log.
Proof.
  intros Hw Hl [(old & -> & Ho) Hs Hp Ht]. apply Forall_app in Hp as [Hpo Hpk].
  destruct (prune_sorted now window kept total Hw Hs) as (gone & rest & -> & Hg & Hr & ->);
    [eapply Forall_impl; [exact Hpk|cbn; tauto]|done|].
  apply Forall_app in Hpk as [Hpg Hpr].
  assert (Hold : Forall (fun e => window < now - e.1) (old ++ gone)).
  { apply Forall_app. split; [|done]. eapply Forall_impl; [exact Ho|]. cbn. lia. }
  split.
  - split; [exists (old ++ gone); by rewrite <- app_assoc|by apply StronglySorted_app_1_r in Hs| |done].
    rewrite !Forall_app.
    split_and!; (eapply Forall_impl; [first [exact Hpo|exact Hpg|exact Hpr]|cbn; lia]).
  - unfold within. rewrite app_assoc, filter_app, filter_none, filter_all; [done|done|].
    eapply Forall_impl; [exact Hold|]. cbn. lia.
Qed.

Lemma kept_snoc window now log kept total n :
  0 <= n -> kept_of window now log kept total ->
  kept_of window now (log ++ [(now, n)]) (kept ++ [(now, n)]) (total + n).
Proof.
  intros Hn [(old & -> & Ho) Hs Hp ->].
  assert (Hk : Forall (fun e => e.1 <= now) kept).
  { apply Forall_app in Hp as [_ Hp]. eapply Forall_impl; [exact Hp|]. cbn. tauto. }
  split.
  - exists old. by rewrite app_assoc.
  - apply StronglySorted_app_2; [|done|by repeat constructor].
    intros e f He Hf. apply list_elem_of_singleton in Hf as ->. unfold entry_le.
    by eapply (proj1 (Forall_forall _ _) Hk).
  - rewrite Forall_app. split; [done|]. by repeat constructor.
  - rewrite weight_app. unfold weight at 3. cbn. lia.
Qed.

(** ** Runs of a window *)

Inductive WindowCall := CallCheck | CallRecord (tokens : Z).

Definition call (now : Instant) (c : WindowCall) (w : SlidingWindow) :
    RateLimitResult * SlidingWindow :=
  match c with
  | CallCheck => SlidingWindow_check now w
  | CallRecord tokens => record_tokens now tokens w
  end.

Fixpoint run (calls : list (Instant * WindowCall)) (w : SlidingWindow) :
    list (Instant * WindowCall * RateLimitResult) :=
  match calls with
  | [] => []
  | (now, c) :: calls => let '(r, w) := call now c w in (now, c, r) :: run calls w
  end.

(** The entries that a call adds when it is allowed. *)
Definition granted_entry (e : Instant * WindowCall * RateLimitResult) : list (Instant * Z) :=
  match e with (now, CallCheck, Allowed _) => [(now, 1)] | _ => [] end.
Definition recorded_entry (e : Instant * WindowCall * RateLimitResult) : list (Instant * Z) :=
  match e with (now, CallRecord tokens, Allowed _) => [(now, tokens)] | _ => [] end.

Definition granted (trace : list (Instant * WindowCall * RateLimitResult)) : list (Instant * Z) :=
  trace ≫= granted_entry.
Definition recorded (trace : list (Instant * WindowCall * RateLimitResult)) : list (Instant * Z) :=
  trace ≫= recorded_entry.

(** A log that is only written when its limit is enabled. *)
Definition log_if (limit : Z) (log : list (Instant * Z)) : list (Instant * Z) :=
  if 0 <? limit then log else [].

Definition same_limits (w w' : SlidingWindow) : Prop :=
  minute_req_limit w' = minute_req_limit w /\ minute_token_limit w' = minute_token_limit w
  /\ hour_token_limit w' = hour_token_limit w.

Definition counted (requests : list Instant) : list (Instant * Z) := (fun t => (t, 1)) <$> requests.

Record window_inv (last : Instant) (reqs toks : list (Instant * Z)) (w : SlidingWindow) : Prop := {
  inv_requests :
    kept_of (from_secs 60) last reqs (counted (requests w)) (Z.of_nat (length (requests w)));
  inv_minute :
    kept_of (from_secs 60) last (log_if (minute_token_limit w) toks) (minute_tokens w)
      (minute_token_total w);
  inv_hour :
    kept_of (from_secs 3600) last (log_if (hour_token_limit w) toks) (hour_tokens w)
      (hour_token_total w);
}.

Lemma prune_requests_counted now l :
  prune_token_window now (from_secs 60) (counted l) (Z.of_nat (length l))
  = (counted (prune_requests now l), Z.of_nat (length (prune_requests now l))).
Proof.
  induction l as [|t l IH]; [done|].
  change (counted (t :: l)) with ((t, 1) :: counted l). cbn [prune_token_window prune_requests].
  destruct (expired _ _ _); [|done].
  replace (U.saturating_sub _ 1) with (Z.of_nat (length l)); [done|].
  unfold U.saturating_sub. cbn [length]. lia.
Qed.

Lemma prune_inv last now reqs toks w :
  last <= now -> window_inv last reqs toks w ->
  window_inv now reqs toks (prune now w) /\ same_limits w (prune now w)
  /\ Z.of_nat (length (requests (prune now w))) = within now (from_secs 60) reqs
  /\ minute_token_total (prune now w)
     = within now (from_secs 60) (log_if (minute_token_limit w) toks)
  /\ hour_token_total (prune now w)
     = within now (from_secs 3600) (log_if (hour_token_limit w) toks).
Proof.
  intros Hl [Hr Hm Hh]. unfold prune.
  apply (kept_prune _ _ now) in Hr; [|done..]. rewrite prune_requests_counted in Hr.
  apply (kept_prune _ _ now) in Hm; [|done..]. apply (kept_prune _ _ now) in Hh; [|done..].
  destruct (prune_token_window now (from_secs 60) (minute_tokens w) _) as [mt mtot].
  destruct (prune_token_window now (from_secs 3600) (hour_tokens w) _) as [ht htot].
  destruct Hr as [Hr Hrt], Hm as [Hm Hmt], Hh as [Hh Hht].
  split; [by split|]. by repeat split.
Qed.

Lemma check_inv last now reqs toks w :
  last <= now -> window_inv last reqs toks w ->
  let '(r, w') := SlidingWindow_check now w in
  window_inv now (reqs ++ granted_entry (now, CallCheck, r)) toks w' /\ same_limits w w'
  /\ forall remaining, r = Allowed remaining -> 0 < minute_req_limit w ->
     within now (from_secs 60) reqs + 1 <= minute_req_limit w.
Proof.
  intros Hl Hi. destruct (prune_inv last now reqs toks w Hl Hi) as (Hi' & Hs & Hr & _ & _).
  unfold SlidingWindow_check. set (p := prune now w) in *. clearbody p.
  destruct Hs as (Hs1 & Hs2 & Hs3).
  cbv zeta. do 2 (destruct (_ && _); [cbn; rewrite app_nil_r; by split_and!|]).
  destruct (_ && _) eqn:E1; [cbn; rewrite app_nil_r; by split_and!|].
  destruct Hi' as [Hq Hm Hh]. cbn. split_and!; [|done..|].
  - split; [|done..]. cbn. unfold counted. rewrite fmap_app, length_app. cbn.
    replace (Z.of_nat (length (requests p) + 1)) with (Z.of_nat (length (requests p)) + 1) by lia.
    by apply kept_snoc.
  - intros remaining _ Hpos. rewrite Hs1, Hr in *. apply andb_false_iff in E1 as [E1|E1]; lia.
Qed.

Lemma log_if_snoc limit log e : log_if limit (log ++ [e]) = log_if limit log ++ log_if limit [e].
Proof. unfold log_if. by destruct (0 <? limit). Qed.

Lemma record_inv last now tokens reqs toks w :
  last <= now -> 0 <= tokens -> window_inv last reqs toks w ->
  minute_token_limit w < U.u64_max -> hour_token_limit w < U.u64_max ->
  let '(r, w') := record_tokens now tokens w in
  window_inv now reqs (toks ++ recorded_entry (now, CallRecord tokens, r)) w' /\ same_limits w w'
  /\ forall remaining, r = Allowed remaining ->
     (0 < minute_token_limit w ->
      within now (from_secs 60) toks + tokens <= minute_token_limit w)
     /\ (0 < hour_token_limit w ->
         within now (from_secs 3600) toks + tokens <= hour_token_limit w).
Proof.
  intros Hl Hn Hi Hmm Hhm. destruct (prune_inv last now reqs toks w Hl Hi) as (Hi' & Hs & _ & Hm & Hh).
  unfold record_tokens. set (p := prune now w) in *. clearbody p. destruct Hs as (Hs1 & Hs2 & Hs3).
  cbv zeta. destruct (_ && _) eqn:Eh; [cbn; rewrite app_nil_r; by split_and!|].
  destruct (_ && _) eqn:Em in |- *; [cbn; rewrite app_nil_r; by split_and!|].
  destruct Hi' as [Hq Hkm Hkh]. rewrite Hs2, Hs3 in *.
  unfold U.saturating_add64, log_if in *. cbn [recorded_entry].
  destruct (0 <? minute_token_limit w) eqn:E1, (0 <? hour_token_limit w) eqn:E2; cbn -[Z.min];
    rewrite ?Hs3, ?E2.
  all: split_and!; [|done..|intros _ _; split; lia].
  all: split; cbn -[Z.min]; rewrite ?Hs2, ?Hs3; unfold log_if; rewrite ?E1, ?E2; try done.
  all: rewrite Z.min_l by lia; by apply kept_snoc.
Qed.

(** The clock does not go back, and tokens are counted with a [u64]. *)
Fixpoint in_order (last : Instant) (calls : list (Instant * WindowCall)) : Prop :=
  match calls with
  | [] => True
  | (now, c) :: calls =>
    last <= now /\ (forall tokens, c = CallRecord tokens -> U.is_u64 tokens) /\ in_order now calls
  end.

Lemma run_nonneg calls : forall last w, in_order last calls ->
  Forall (fun e => 0 <= e.2) (granted (run calls w))
  /\ Forall (fun e => 0 <= e.2) (recorded (run calls w)).
Proof.
  induction calls as [|[now c] calls IH]; intros last w; [by split; constructor|].
  intros (Hl & Hc & Ho). cbn [run]. destruct (call now c w) as [r w'].
  destruct (IH now w' Ho) as [Hg Hr].
  unfold granted, recorded in *. cbn [mbind list_bind]. rewrite !Forall_app.
  split; (split; [|done]); destruct c as [|tokens], r; repeat constructor; cbn; try lia.
  by destruct (Hc tokens eq_refl).
Qed.

Lemma run_paced calls : forall last reqs toks w,
  window_inv last reqs toks w -> in_order last calls ->
  minute_token_limit w < U.u64_max -> hour_token_limit w < U.u64_max ->
  let paced_by window limit log more :=
    0 < limit -> paced (from_secs window) limit log ->
    paced (from_secs window) limit (log ++ more) in
  paced_by 60 (minute_req_limit w) reqs (granted (run calls w))
  /\ paced_by 60 (minute_token_limit w) toks (recorded (run calls w))
  /\ paced_by 3600 (hour_token_limit w) toks (recorded (run calls w)).
Proof.
  induction calls as [|[now c] calls IH]; intros last reqs toks w Hi Ho Hm Hh; cbv beta zeta.
  { change (granted (run [] w)) with (@nil (Instant * Z)).
    change (recorded (run [] w)) with (@nil (Instant * Z)). rewrite !app_nil_r. by split_and!. }
  destruct Ho as (Hl & Hc & Ho). cbn [run]. destruct (call now c w) as [r w'] eqn:Ec.
  unfold granted, recorded. cbn [mbind list_bind]. fold (granted (run calls w')).
  fold (recorded (run calls w')). rewrite !app_assoc.
  destruct c as [|tokens]; cbn [call] in Ec.
  - pose proof (check_inv last now reqs toks w Hl Hi) as Hstep. rewrite Ec in Hstep.
    destruct Hstep as (Hi' & (H1' & H2' & H3') & Hfit).
    destruct (IH now _ _ w' Hi' Ho) as (Hg & Hr1 & Hr2); [congruence..|].
    rewrite H1', H2', H3' in *. cbn [recorded_entry]. rewrite !app_nil_r.
    split_and!; [|done..]. intros Hpos Hp. apply Hg; [done|].
    destruct r; cbn; [|by rewrite app_nil_r]. constructor; [done|]. by eapply Hfit.
  - destruct (Hc tokens eq_refl) as [Ht _].
    pose proof (record_inv last now tokens reqs toks w Hl Ht Hi Hm Hh) as Hstep.
    rewrite Ec in Hstep. destruct Hstep as (Hi' & (H1' & H2' & H3') & Hfit).
    destruct (IH now _ _ w' Hi' Ho) as (Hg & Hr1 & Hr2); [congruence..|].
    rewrite H1', H2', H3' in *. cbn [granted_entry]. rewrite !app_nil_r.
    split_and!; [done|intros Hpos Hp; apply Hr1|intros Hpos Hp; apply Hr2]; try done;
      (destruct r; cbn; [constructor; [done|by eapply Hfit]|by rewrite app_nil_r]).
Qed.

Lemma window_new_inv config last : window_inv last [] [] (SlidingWindow_new config).
Proof. split; cbn; unfold log_if; try case_match; apply kept_empty. Qed.

(** The limits of one window. *)
Lemma sliding_window_limits config last calls start :
  let w := SlidingWindow_new config in
  let trace := run calls w in
  in_order last calls ->
  minute_token_limit w < U.u64_max -> hour_token_limit w < U.u64_max ->
  (0 < minute_req_limit w ->
   in_interval start (from_secs 60) (granted trace) <= minute_req_limit w)
  /\ (0 < minute_token_limit w ->
      in_interval start (from_secs 60) (recorded trace) <= minute_token_limit w)
  /\ (0 < hour_token_limit w ->
      in_interval start (from_secs 3600) (recorded trace) <= hour_token_limit w).
Proof.
  intros w trace Ho Hm Hh.
  destruct (run_paced calls last [] [] w (window_new_inv config last) Ho Hm Hh) as (Hg & Hr1 & Hr2).
  destruct (run_nonneg calls last w Ho) as [Hng Hnr].
  split_and!; intros Hpos; apply paced_interval; try lia; try done.
  - apply Hg; [done|constructor].
  - apply Hr1; [done|constructor].
  - apply Hr2; [done|constructor].
Qed.

(** ** Runs of the limiter *)

Section with_clock.
Context `{Clock}.

Definition limiter_call (config : RateLimitConfig) (key : string) (c : WindowCall) :
    LimiterState -> RateLimitResult * LimiterState :=
  match c with
  | CallCheck => TokenRateLimiter_check config key
  | CallRecord tokens => record_usage config key tokens
  end.

Fixpoint limiter_run (config : RateLimitConfig) (calls : list (string * WindowCall))
    (s : LimiterState) : list (string * (Instant * WindowCall * RateLimitResult)) :=
  match calls with
  | [] => []
  | (key, c) :: calls =>
    let '(r, s') := limiter_call config key c s in
    (key, (instant_at (ls_ticks s), c, r)) :: limiter_run config calls s'
  end.

(** What the calls for one key gave. *)
Definition key_trace (key : string) (trace : list (string * (Instant * WindowCall * RateLimitResult))) :
    list (Instant * WindowCall * RateLimitResult) :=
  (filter (fun e => e.1 = key) trace).*2.

(** The calls for one key, with the readings of the clock from the [tick]-th on. *)
Fixpoint key_calls (key : string) (tick : nat) (calls : list (string * WindowCall)) :
    list (Instant * WindowCall) :=
  match calls with
  | [] => []
  | (k, c) :: calls =>
    if decide (k = key) then (instant_at tick, c) :: key_calls key (S tick) calls
    else key_calls key (S tick) calls
  end.

Lemma limiter_call_window config key c s : rlc_tokens_per_minute config <> 0 ->
  limiter_call config key c s = on_window config key (fun now => call now c) s.
Proof.
  intros Hc. apply Z.eqb_neq in Hc.
  destruct c; cbn; unfold TokenRateLimiter_check, record_usage; by rewrite Hc.
Qed.

(** The calls for a key are served by its window, whatever the other keys do. *)
Lemma limiter_run_key config key calls : rlc_tokens_per_minute config <> 0 -> forall s,
  key_trace key (limiter_run config calls s)
  = run (key_calls key (ls_ticks s) calls)
      (default (SlidingWindow_new config) (ls_windows s !! key)).
Proof.
  intros Hc. induction calls as [|[k c] calls IH]; intros s; [done|].
  cbn [limiter_run key_calls]. rewrite limiter_call_window by done. unfold on_window.
  destruct (call _ c _) as [r w'] eqn:Ec. unfold key_trace in *. rewrite filter_cons. cbn [fst].
  case_decide as Hk; cbn [fmap list_fmap run snd].
  - subst k. rewrite Ec, IH. cbn. by rewrite lookup_insert_eq.
  - rewrite IH. cbn. by rewrite lookup_insert_ne.
Qed.

Lemma key_calls_in_order key calls :
  (forall i j, (i <= j)%nat -> instant_at i <= instant_at j) ->
  (forall k tokens, (k, CallRecord tokens) ∈ calls -> U.is_u64 tokens) ->
  forall tick last, last <= instant_at tick -> in_order last (key_calls key tick calls).
Proof.
  intros Hmono. induction calls as [|[k c] calls IH]; intros Hc tick last Hl; [done|].
  assert (forall k tokens, (k, CallRecord tokens) ∈ calls -> U.is_u64 tokens) as Hc'.
  { intros k' tokens Hin. eapply Hc. by right. }
  cbn [key_calls]. case_decide.
  - split_and!; [done| |apply IH; [done|apply Hmono; lia]].
    intros tokens ->. eapply Hc. by left.
  - apply IH; [done|]. etrans; [exact Hl|]. apply Hmono. lia.
Qed.

(** C15: [TokenRateLimiter] of the AI gateway.  When tokens are limited, then for
    every key, whatever the calls for other keys are, at most the enabled limits
    are let through in every minute and hour: the requests that [check] allows,
    and the tokens that [record_usage] accepts.  The minutes and hours are
    arbitrary intervals, not those of the clock. *)
Theorem token_limits_per_key config key calls start :
  let w := SlidingWindow_new config in
  let trace := key_trace key (limiter_run config calls (mkLimiterState ∅ 0)) in
  (forall i j, (i <= j)%nat -> instant_at i <= instant_at j) ->
  (forall k tokens, (k, CallRecord tokens) ∈ calls -> U.is_u64 tokens) ->
  rlc_tokens_per_minute config <> 0 ->
  minute_token_limit w < U.u64_max -> hour_token_limit w < U.u64_max ->
  (0 < minute_req_limit w ->
   in_interval start (from_secs 60) (granted trace) <= minute_req_limit w)
  /\ (0 < minute_token_limit w ->
      in_interval start (from_secs 60) (recorded trace) <= minute_token_limit w)
  /\ (0 < hour_token_limit w ->
      in_interval start (from_secs 3600) (recorded trace) <= hour_token_limit w).
Proof.
  intros w trace Hmono Hc Htok Hm Hh. subst trace. rewrite limiter_run_key by done.
  change (ls_windows _ !! key) with (None : option SlidingWindow). cbn [default ls_ticks].
  apply (sliding_window_limits config (instant_at 0)); [|done..].
  by apply key_calls_in_order.
Qed.
End with_clock.

(** ** Usage that is never charged *)

(** A window that counted no tokens. *)
Definition uncharged (w : SlidingWindow) : Prop :=
  minute_tokens w = [] /\ hour_tokens w = [] /\ minute_token_total w = 0 /\ hour_token_total w = 0
  /\ minute_req_limit w = 0 /\ 0 < minute_token_limit w.

Lemma prune_uncharged now w : uncharged w ->
  uncharged (prune now w) /\ same_limits w (prune now w).
Proof. intros (Hm & Hh & Hmt & Hht & Hr & Hl). unfold prune. rewrite Hm, Hh. by repeat split. Qed.

Lemma uncharged_call now c w : uncharged w ->
  (forall tokens, c = CallRecord tokens -> minute_token_limit w < tokens < U.u64_modulus) ->
  let '(r, w') := call now c w in
  uncharged w' /\ minute_token_limit w' = minute_token_limit w
  /\ (c = CallCheck -> exists remaining, r = Allowed remaining).
Proof.
  intros Hu Hc. destruct (prune_uncharged now w Hu) as [Hp (_ & Hl & _)].
  destruct c as [|tokens]; cbn [call].
  - unfold SlidingWindow_check. destruct (prune now w) as [rl ml hl rq mt ht mtot htot] eqn:Ep.
    unfold uncharged in Hp. cbn in Hp, Hl |- *. destruct Hp as (-> & -> & -> & -> & -> & Hz).
    rewrite (proj2 (Z.leb_gt ml 0)) by lia. rewrite andb_false_r.
    destruct (0 <? hl) eqn:E; [rewrite (proj2 (Z.leb_gt hl 0)) by lia|]; cbn;
      (split_and!; [by repeat split|done|by eexists]).
  - specialize (Hc tokens eq_refl). unfold record_tokens.
    destruct (prune now w) as [rl ml hl rq mt ht mtot htot] eqn:Ep.
    unfold uncharged in Hp. cbn -[Z.min] in Hp, Hl |- *. destruct Hp as (-> & -> & -> & -> & -> & Hz).
    unfold U.saturating_add64. destruct (_ && _); [by repeat split|].
    unfold U.u64_max, U.u64_modulus in *.
    rewrite (proj2 (Z.ltb_lt 0 ml)), (proj2 (Z.ltb_lt ml _)) by lia. by repeat split.
Qed.

(** The token limit of the AI gateway does not stop large responses.  Tokens
    that do not fit into the limit are not recorded at all, so when every
    response uses more tokens than the limit of a minute and requests are not
    limited, every request is allowed, however many there were. *)
Theorem oversized_usage_is_free config last calls now r :
  let w := SlidingWindow_new config in
  minute_req_limit w = 0 -> 0 < minute_token_limit w ->
  in_order last calls ->
  (forall t tokens, (t, CallRecord tokens) ∈ calls -> minute_token_limit w < tokens) ->
  (now, CallCheck, r) ∈ run calls w -> exists remaining, r = Allowed remaining.
Proof.
  intros w Hr Hl Ho Hc. assert (uncharged w) as Hu by done. revert Hc Ho Hu. clearbody w.
  clear Hr Hl. revert last w. induction calls as [|[t c] calls IH]; intros last w Hc Ho Hu.
  { by intros ?%not_elem_of_nil. }
  destruct Ho as (_ & Ht & Ho). pose proof (uncharged_call t c w Hu) as Hstep. cbn [run].
  destruct (call t c w) as [r' w']. destruct Hstep as (Hu' & Hl & Hr).
  { intros tokens ->. split; [eapply Hc; by left|by destruct (Ht tokens eq_refl)]. }
  intros [Heq|Hin]%elem_of_cons; [simplify_eq; by apply Hr|].
  eapply (IH t w'); [|done..]. rewrite Hl. intros t' tokens Hin'. eapply Hc. by right.
Qed.

(** ** Examples *)
Section example.
#[local] Instance second_clock : Clock := fun t => Z.of_nat t * 1000000000.

(** 100 tokens and 2 requests in a minute, 1000 tokens in an hour. *)
Definition demo_config : RateLimitConfig :=
  mkRateLimitConfig 100 1000 2 "apiKey" f64_one "reject".

Definition demo_calls : list (string * WindowCall) :=
  [("a", CallCheck); ("b", CallCheck); ("a", CallRecord 60); ("a", CallCheck);
   ("a", CallRecord 60); ("a", CallCheck); ("b", CallRecord 7)].

Lemma token_limits_per_key_witness :
  let trace := key_trace "a" (limiter_run demo_config demo_calls (mkLimiterState ∅ 0)) in
  granted trace = [(0, 1); (3000000000, 1)] /\ recorded trace = [(2000000000, 60)]
  /\ in_interval 0 (from_secs 60) (granted trace) <= 2
  /\ in_interval 0 (from_secs 60) (recorded trace) <= 100.
Proof.
  destruct (token_limits_per_key demo_config "a" demo_calls 0) as (Hg & Hr & _).
  - intros i j Hij. unfold instant_at, second_clock. lia.
  - intros k tokens Hin. unfold demo_calls in Hin.
    repeat (apply elem_of_cons in Hin as [Hin|Hin];
            [simplify_eq; unfold U.is_u64, U.u64_modulus; lia|]).
    by apply not_elem_of_nil in Hin.
  - done.
  - vm_compute. done.
  - vm_compute. done.
  - split_and!; [vm_compute; reflexivity..| |].
    + apply Hg. vm_compute. done.
    + apply Hr. vm_compute. done.
Defined.

(** 100 tokens in a minute, and responses of 101 tokens. *)
Definition free_config : RateLimitConfig := mkRateLimitConfig 100 0 0 "apiKey" f64_one "reject".
Definition free_calls : list (Instant * WindowCall) :=
  [(0, CallCheck); (1, CallRecord 101); (2, CallCheck); (3, CallRecord 101); (4, CallCheck)].

Lemma oversized_usage_is_free_witness :
  exists r, (4, CallCheck, r) ∈ run free_calls (SlidingWindow_new free_config)
  /\ exists remaining, r = Allowed remaining.
Proof.
  exists (Allowed 100).
  assert ((4, CallCheck, Allowed 100) ∈ run free_calls (SlidingWindow_new free_config)) as Hin.
  { vm_compute. do 4 right. left. }
  split; [exact Hin|].
  apply (oversized_usage_is_free free_config 0 free_calls 4); try exact Hin; [vm_compute; done..| |].
  - cbn. split_and!; try lia; try done; intros tokens Ht; simplify_eq;
      unfold U.is_u64, U.u64_modulus; lia.
  - intros t tokens Hc. unfold free_calls in Hc.
    repeat (apply elem_of_cons in Hc as [Hc|Hc]; [simplify_eq; vm_compute; done|]).
    by apply not_elem_of_nil in Hc.
Defined.
End example.

(** ** Machine integers *)

Record window_typed (w : SlidingWindow) : Prop := {
  typed_limits : U.is_u64 (minute_req_limit w) /\ U.is_u64 (minute_token_limit w)
    /\ U.is_u64 (hour_token_limit w);
  typed_totals : U.is_u64 (minute_token_total w) /\ U.is_u64 (hour_token_total w);
  typed_tokens : Forall (fun e => U.is_u64 e.2) (minute_tokens w ++ hour_tokens w);
}.

Definition result_typed (r : RateLimitResult) : Prop :=
  match r with Allowed n | Limited n => U.is_u64 n end.

Definition limiter_typed (s : LimiterState) : Prop := map_Forall (fun _ w => window_typed w) (ls_windows s).

Lemma f64_to_u64_typed x : U.is_u64 (f64_to_u64 x).
Proof.
  assert (0 < U.u64_modulus) by done. unfold U.is_u64, f64_to_u64, U.u64_max.
  destruct x as [| | |[] m e]; try case_match; try lia.
  pose proof (proj2 (Z.shiftl_nonneg (Z.pos m) e) ltac:(lia)). lia.
Qed.

Lemma SlidingWindow_new_typed config : window_typed (SlidingWindow_new config).
Proof. split; cbn; [split_and!; apply f64_to_u64_typed|done|constructor]. Qed.

Lemma sub_typed x y : U.is_u64 x -> 0 <= y -> U.is_u64 (U.saturating_sub x y).
Proof. unfold U.is_u64, U.saturating_sub. lia. Qed.

Lemma add_typed x y : U.is_u64 x -> U.is_u64 y -> U.is_u64 (U.saturating_add64 x y).
Proof. unfold U.is_u64, U.saturating_add64, U.u64_max. lia. Qed.

Lemma prune_token_typed now window tokens total :
  Forall (fun e => U.is_u64 e.2) tokens -> U.is_u64 total ->
  let '(rest, total') := prune_token_window now window tokens total in
  Forall (fun e => U.is_u64 e.2) rest /\ U.is_u64 total'.
Proof.
  intros Hf. revert total. induction Hf as [|[t n] rest Hn Hf IH]; intros total Ht; [done|].
  cbn [prune_token_window]. destruct (expired now window t).
  - apply IH, sub_typed; [done|apply Hn].
  - split; [by constructor|done].
Qed.

Lemma prune_typed now w : window_typed w -> window_typed (prune now w).
Proof.
  intros [Hl [Hm Hh] Ht]. apply Forall_app in Ht as [Htm Hth]. unfold prune.
  pose proof (prune_token_typed now (from_secs 60) _ _ Htm Hm) as Pm.
  pose proof (prune_token_typed now (from_secs 3600) _ _ Hth Hh) as Ph.
  destruct (prune_token_window now (from_secs 60) _ _), (prune_token_window now (from_secs 3600) _ _).
  destruct Pm, Ph. split; cbn; [done|done|by apply Forall_app].
Qed.

Lemma min_remaining_typed l : Forall (fun x => forall n, x = Some n -> U.is_u64 n) l ->
  U.is_u64 (min_enabled_remaining l).
Proof.
  intros Hl. unfold min_enabled_remaining.
  assert (Forall U.is_u64 (omap id l)) as Ho.
  { induction Hl as [|[n|] l Hx Hl IH]; cbn; [constructor|constructor; [by apply Hx|done]|done]. }
  destruct Ho as [|v vs Hv Hs]; [done|]. revert v Hv.
  induction Hs as [|x vs Hx Hs IH]; intros v Hv; [done|]. cbn. apply IH.
  unfold U.is_u64 in *. lia.
Qed.

Lemma then_some_typed b n : U.is_u64 n -> forall m, then_some b n = Some m -> U.is_u64 m.
Proof. unfold then_some. destruct b; naive_solver. Qed.

Ltac typed_remaining :=
  apply min_remaining_typed;
  repeat (apply Forall_cons_2; [apply then_some_typed, sub_typed; unfold U.is_u64 in *; tauto || lia|]);
  apply Forall_nil_2.

Lemma check_typed now w : window_typed w ->
  result_typed (SlidingWindow_check now w).1 /\ window_typed (SlidingWindow_check now w).2.
Proof.
  intros Hw. unfold SlidingWindow_check. apply (prune_typed now) in Hw.
  destruct (prune now w) as [mr mt ht rq mk hk mtt htt]. destruct Hw as [(Hr & Hm & Hh) (Hmt & Hht) Ht].
  cbn -[from_secs] in *.
  repeat case_match; cbn -[from_secs] in *; (split; [|by split]); try done.
  - unfold U.is_u64, as_secs, U.saturating_sub, from_secs, duration_since.
    assert (Z.max 0 (60 * 1000000000 - Z.max 0 (now - default now (head rq))) / 1000000000 <= 60).
    { apply Z.div_le_upper_bound; lia. }
    assert (60 < U.u64_modulus) by done. lia.
  - typed_remaining.
Qed.

Lemma record_typed now tokens w : U.is_u64 tokens -> window_typed w ->
  result_typed (record_tokens now tokens w).1 /\ window_typed (record_tokens now tokens w).2.
Proof.
  intros Hk Hw. unfold record_tokens. apply (prune_typed now) in Hw.
  destruct (prune now w) as [mr mt ht rq mk hk mtt htt]. destruct Hw as [(Hr & Hm & Hh) (Hmt & Hht) Ht].
  apply Forall_app in Ht as [Htm Hth]. cbn -[U.saturating_add64] in *.
  pose proof (add_typed _ _ Hmt Hk) as Am. pose proof (add_typed _ _ Hht Hk) as Ah.
  repeat case_match; cbn -[U.saturating_add64] in *; split; try done.
  all: try (apply Build_window_typed; cbn -[U.saturating_add64];
            [by split_and!|by split|repeat apply Forall_app_2; try done;
             (apply Forall_cons_2; [exact Hk|apply Forall_nil_2])]).
  all: typed_remaining.
Qed.

Section typed_limiter.
Context `{Clock}.

Lemma on_window_typed config key method s :
  (forall now w, window_typed w -> result_typed (method now w).1 /\ window_typed (method now w).2) ->
  limiter_typed s ->
  result_typed (on_window config key method s).1 /\ limiter_typed (on_window config key method s).2.
Proof.
  intros Hm Hs. unfold on_window.
  assert (Hw : window_typed (default (SlidingWindow_new config) (ls_windows s !! key))).
  { destruct (ls_windows s !! key) as [w|] eqn:E; [by apply (Hs key)|apply SlidingWindow_new_typed]. }
  destruct (Hm (instant_at (ls_ticks s)) _ Hw) as [H1 H2].
  destruct (method _ _) as [r w]. split; [done|]. by apply map_Forall_insert_2.
Qed.

End typed_limiter.


End AiRateLimitFacts.
