(* ===== verification/AiTenants.v ===== *)
(** * Tenants and keys of the AI gateway

    [ntgw-ai/src/multitenant.rs] and [keyring.rs]: the tenant that an API key
    belongs to, its quotas in fixed windows of a minute and a day, the models
    that it may use, and the backend credentials of gateway keys.

    A [HashMap] or [DashMap] is a [gmap]; the state of the quotas is threaded
    through, with the number of clock readings. *)

From Stdlib Require Import ZArith Lia Ascii.
From Corelib Require Import SpecFloat.
From stdpp Require Import base gmap strings numbers list.
From S2P Require Import Prelude Strs IrTypes Records AiTypes AiRateLimit.

Local Open Scope string_scope.
Local Open Scope list_scope.
Local Open Scope Z_scope.
Local Open Scope record_scope.

Module AiTenants.
Import AiTypes AiRateLimit.

(** ** Quotas *)

Record TenantQuota := mkTenantQuota {
  tq_tokens_per_minute : Z;
  tq_tokens_per_day : Z;
  tq_requests_per_minute : Z;
}.
Definition TenantQuota_default : TenantQuota := mkTenantQuota 0 0 0.

Record Tenant := mkTenant {
  tn_tenant_id : string;
  tn_api_keys : list string;
  tn_quota : TenantQuota;
  tn_allowed_models : list string;
  tn_cost_limit : option spec_float;
}.

Record TenantQuotaState := mkTenantQuotaState {
  tqs_minute_tokens : Z;
  tqs_day_tokens : Z;
  tqs_minute_requests : Z;
  tqs_minute_reset : Instant;
  tqs_day_reset : Instant;
}.

Definition TenantQuotaState_new (now : Instant) : TenantQuotaState :=
  mkTenantQuotaState 0 0 0 (now + from_secs 60) (now + from_secs 86400).

(** The windows that ended are started again. *)
Definition reset_windows (now : Instant) (self : TenantQuotaState) : TenantQuotaState :=
  let self :=
    if tqs_minute_reset self <=? now
    then mkTenantQuotaState 0 (tqs_day_tokens self) 0 (now + from_secs 60) (tqs_day_reset self)
    else self in
  if tqs_day_reset self <=? now
  then mkTenantQuotaState (tqs_minute_tokens self) 0 (tqs_minute_requests self)
         (tqs_minute_reset self) (now + from_secs 86400)
  else self.

Definition consume (quota : TenantQuota) (tokens : Z) (now : Instant) (self : TenantQuotaState) :
    bool * TenantQuotaState :=
  let self := reset_windows now self in
  let new_minute_tokens := U.saturating_add64 (tqs_minute_tokens self) tokens in
  let new_day_tokens := U.saturating_add64 (tqs_day_tokens self) tokens in
  let new_minute_requests := U.saturating_add64 (tqs_minute_requests self) 1 in
  if (0 <? tq_tokens_per_minute quota) && (tq_tokens_per_minute quota <? new_minute_tokens)
  then (false, self)
  else if (0 <? tq_tokens_per_day quota) && (tq_tokens_per_day quota <? new_day_tokens)
  then (false, self)
  else if (0 <? tq_requests_per_minute quota)
          && (tq_requests_per_minute quota <? new_minute_requests)
  then (false, self)
  else (true, mkTenantQuotaState new_minute_tokens new_day_tokens new_minute_requests
                (tqs_minute_reset self) (tqs_day_reset self)).

(** ** The manager *)

Record TenantManager := mkTenantManager {
  tmg_tenants : StringMap Tenant;
  tmg_api_key_index : StringMap string;
}.

Record TenantState := mkTenantState {
  ts_quota_state : StringMap TenantQuotaState;
  ts_check_count : Z;
  ts_ticks : nat;
}.

Definition CLEANUP_INTERVAL : Z := 1000.

Definition index_keys (tenant_id : string) (keys : list string) (index : StringMap string) :
    StringMap string :=
  foldl (fun index key => <[key := tenant_id]> index) index keys.

Definition TenantManager_new (tenants : list Tenant) : TenantManager :=
  foldl (fun m t =>
           mkTenantManager (<[tn_tenant_id t := t]> (tmg_tenants m))
             (index_keys (tn_tenant_id t) (tn_api_keys t) (tmg_api_key_index m)))
    (mkTenantManager ∅ ∅) tenants.

Definition TenantState_new : TenantState := mkTenantState ∅ 0 0.

Definition TenantManager_resolve (self : TenantManager) (api_key : string) : option Tenant :=
  tid ← tmg_api_key_index self !! api_key; tmg_tenants self !! tid.

Definition force_cleanup (self : TenantManager) (s : TenantState) : TenantState :=
  mkTenantState (filter (fun entry => is_Some (tmg_tenants self !! entry.1)) (ts_quota_state s))
    (ts_check_count s) (ts_ticks s).

Definition maybe_cleanup (self : TenantManager) (s : TenantState) : TenantState :=
  let count := ts_check_count s in
  let s := mkTenantState (ts_quota_state s) (U.wrapping_add64 count 1) (ts_ticks s) in
  if count mod CLEANUP_INTERVAL =? 0 then force_cleanup self s else s.

Section with_clock.
Context `{Clock}.

(** The entry of a tenant, which is made, with a reading of the clock, when there
    is none. *)
Definition quota_entry (tenant_id : string) (s : TenantState) : TenantQuotaState * TenantState :=
  match ts_quota_state s !! tenant_id with
  | Some entry => (entry, s)
  | None =>
    let entry := TenantQuotaState_new (instant_at (ts_ticks s)) in
    (entry, mkTenantState (<[tenant_id := entry]> (ts_quota_state s)) (ts_check_count s)
              (S (ts_ticks s)))
  end.

Definition check_quota (self : TenantManager) (tenant_id : string) (tokens : Z) (s : TenantState) :
    bool * TenantState :=
  match tmg_tenants self !! tenant_id with
  | None => (false, s)
  | Some tenant =>
    let quota := tn_quota tenant in
    if (tq_tokens_per_minute quota =? 0) && (tq_tokens_per_day quota =? 0)
       && (tq_requests_per_minute quota =? 0)
    then (true, s)
    else
      let s := maybe_cleanup self s in
      let '(entry, s) := quota_entry tenant_id s in
      let '(ok, entry) := consume quota tokens (instant_at (ts_ticks s)) entry in
      (ok, mkTenantState (<[tenant_id := entry]> (ts_quota_state s)) (ts_check_count s)
             (S (ts_ticks s)))
  end.
End with_clock.

Definition check_model_access (self : TenantManager) (tenant_id model : string) : bool :=
  match tmg_tenants self !! tenant_id with
  | None => false
  | Some tenant =>
    if bool_decide (tn_allowed_models tenant = []) then true
    else bool_decide (model ∈ tn_allowed_models tenant)
  end.

Definition check_cost_limit (self : TenantManager) (tenant_id : string) (current_cost : spec_float) :
    bool :=
  match tmg_tenants self !! tenant_id with
  | None => false
  | Some tenant =>
    match tn_cost_limit tenant with
    | Some limit => SFleb current_cost limit
    | None => true
    end
  end.

(** ** Backend credentials *)

Record BackendCredential := mkBackendCredential {
  cred_api_key : string;
  cred_expires_at : option string;
  cred_priority : Z;
}.
#[global] Instance BackendCredential_eq_dec : EqDecision BackendCredential.
Proof. solve_decision. Defined.

Notation ApiKeyManager := (StringMap (list BackendCredential)) (only parsing).

(** [min_by_key]: the first of the smallest. *)
Definition min_priority (creds : list BackendCredential) : option BackendCredential :=
  match creds with
  | [] => None
  | cred :: creds =>
    Some (foldl (fun best c => if cred_priority c <? cred_priority best then c else best) cred creds)
  end.

Definition ApiKeyManager_resolve (keys : ApiKeyManager) (gateway_key : string) :
    option BackendCredential :=
  creds ← keys !! gateway_key; min_priority creds.

Definition rotate (keys : ApiKeyManager) (gateway_key new_key : string) (priority : Z) :
    ApiKeyManager :=
  let entry := default [] (keys !! gateway_key) in
  let entry := filter (fun c => cred_expires_at c = None) entry in
  <[gateway_key := entry ++ [mkBackendCredential new_key None priority]]> keys.

Definition revoke (keys : ApiKeyManager) (gateway_key api_key : string) : bool * ApiKeyManager :=
  match keys !! gateway_key with
  | Some creds =>
    let left := filter (fun c => cred_api_key c <> api_key) creds in
    (negb (bool_decide (length left = length creds)), <[gateway_key := left]> keys)
  | None => (false, keys)
  end.

Definition reload (_ key_map : ApiKeyManager) : ApiKeyManager := key_map.

End AiTenants.
