(* ===== verification/AiTenantFacts.v ===== *)
(** * What the quotas and the keyring guarantee

    The quotas of a tenant are counted in fixed windows: no interval of the length
    of a window lets more than twice the quota through.  A revoked credential is
    not used again, and a rotated one is used at once when its priority is
    lower. *)

From Stdlib Require Import ZArith Lia Ascii.
From stdpp Require Import base gmap strings numbers list.
From S2P Require Import Prelude Strs IrTypes Records AiTypes AiRateLimit AiRateLimitFacts AiTenants.

Local Open Scope string_scope.
Local Open Scope list_scope.
Local Open Scope Z_scope.
Local Open Scope record_scope.

Module AiTenantFacts.
Import AiTypes AiRateLimit AiRateLimitFacts AiTenants.

(** ** Fixed windows *)

(** [used] of [limit] in the window that ends at [reset]: the entries of the log
    in this window and in the one before, and the older ones. *)
Record fixed_inv (window limit last : Z) (log : list (Instant * Z)) (used reset : Z) : Prop := {
  fixed_parts : exists older prev cur prev_start,
    log = older ++ prev ++ cur
    /\ Forall (fun e => e.1 < prev_start) older
    /\ prev_start + window <= reset - window
    /\ Forall (fun e => e.1 < reset - window) prev
    /\ Forall (fun e => e.1 < reset) cur
    /\ weight prev <= limit /\ weight cur = used /\ used <= limit;
  fixed_bound : forall start, in_interval start window log <= 2 * limit;
  fixed_nonneg : Forall (fun e => 0 <= e.2) log;
  fixed_started : reset - window <= last;
}.

Lemma fixed_new window limit now : 0 < window -> 0 <= limit ->
  fixed_inv window limit now [] 0 (now + window).
Proof.
  intros Hw Hl. split; [|intros start; unfold in_interval, weight; cbn; lia|constructor|lia].
  exists [], [], [], (now - window). repeat split; try constructor; unfold weight; cbn; lia.
Qed.

Lemma fixed_reset window limit last now log used reset :
  0 < window -> 0 <= limit -> fixed_inv window limit last log used reset -> reset <= now ->
  fixed_inv window limit now log 0 (now + window).
Proof.
  intros Hw Hl [(older & prev & cur & st & -> & Ho & Hst & Hp & Hc & Hwp & Hwc & Hu) Hb Hn Hs] Hr.
  split; [|done..|lia]. exists (older ++ prev), cur, [], (reset - window).
  rewrite app_nil_r, app_assoc. repeat split; try done; unfold weight in *; cbn; try lia.
  - apply Forall_app. split; [|done]. eapply Forall_impl; [exact Ho|]. cbn. lia.
  - eapply Forall_impl; [exact Hc|]. cbn. lia.
Qed.

Lemma fixed_keep window limit last now log used reset :
  last <= now -> fixed_inv window limit last log used reset ->
  fixed_inv window limit now log used reset.
Proof. intros Hl [Hp Hb Hn Hs]. split; [done..|lia]. Qed.

Lemma fixed_grant window limit now log used reset n :
  0 < window -> 0 <= n -> fixed_inv window limit now log used reset -> now < reset ->
  used + n <= limit ->
  fixed_inv window limit now (log ++ [(now, n)]) (used + n) reset.
Proof.
  intros Hw Hn [(older & prev & cur & st & -> & Ho & Hst & Hp & Hc & Hwp & Hwc & Hu) Hb Hnn Hs] Hr Hfit.
  assert (Hnew : Forall (fun e => 0 <= e.2) ((older ++ prev ++ cur) ++ [(now, n)])).
  { apply Forall_app. split; [done|]. by repeat constructor. }
  split; [|intros start|done|done].
  - exists older, prev, (cur ++ [(now, n)]), st. rewrite weight_app, <- !app_assoc.
    repeat split; try done; [|unfold weight at 2; cbn; lia].
    apply Forall_app. split; [done|]. by repeat constructor.
  - specialize (Hb start). unfold in_interval in *.
    rewrite filter_app, weight_app, filter_cons, filter_nil. cbn [fst].
    case_decide as Hin; [|unfold weight at 2; cbn; lia].
    rewrite !filter_app, !weight_app. rewrite (filter_none _ older).
    2: { eapply Forall_impl; [exact Ho|]. cbn. lia. }
    apply Forall_app in Hnn as [_ [Hnp Hnc]%Forall_app].
    pose proof (weight_filter_mono (fun e => start <= e.1 <= start + window) (fun _ => True) prev Hnp) as H1.
    pose proof (weight_filter_mono (fun e => start <= e.1 <= start + window) (fun _ => True) cur Hnc) as H2.
    rewrite (filter_all (fun _ => True)) in H1, H2 by (by apply Forall_true).
    specialize (H1 ltac:(done)). specialize (H2 ltac:(done)).
    unfold weight in *. cbn in *. lia.
Qed.

(** ** Quotas of a tenant *)

(** The requests of a log of granted tokens. *)
Definition as_requests (log : list (Instant * Z)) : list (Instant * Z) := counted log.*1.

Lemma as_requests_snoc log now n : as_requests (log ++ [(now, n)]) = as_requests log ++ [(now, 1)].
Proof. unfold as_requests, counted. by rewrite !fmap_app. Qed.

Record quota_inv (quota : TenantQuota) (last : Instant) (log : list (Instant * Z))
    (s : TenantQuotaState) : Prop := {
  quota_minute : 0 < tq_tokens_per_minute quota ->
    fixed_inv (from_secs 60) (tq_tokens_per_minute quota) last log (tqs_minute_tokens s)
      (tqs_minute_reset s);
  quota_day : 0 < tq_tokens_per_day quota ->
    fixed_inv (from_secs 86400) (tq_tokens_per_day quota) last log (tqs_day_tokens s)
      (tqs_day_reset s);
  quota_requests : 0 < tq_requests_per_minute quota ->
    fixed_inv (from_secs 60) (tq_requests_per_minute quota) last (as_requests log)
      (tqs_minute_requests s) (tqs_minute_reset s);
}.

Definition quota_fits (quota : TenantQuota) : Prop :=
  tq_tokens_per_minute quota < U.u64_max /\ tq_tokens_per_day quota < U.u64_max
  /\ tq_requests_per_minute quota < U.u64_max.

Lemma new_quota_inv quota now : quota_inv quota now [] (TenantQuotaState_new now).
Proof. split; intros Hpos; apply fixed_new; unfold from_secs; lia. Qed.

Lemma reset_windows_inv quota last now log s :
  last <= now -> quota_inv quota last log s ->
  quota_inv quota now log (reset_windows now s)
  /\ now < tqs_minute_reset (reset_windows now s) /\ now < tqs_day_reset (reset_windows now s).
Proof.
  intros Hl [Hm Hd Hr]. unfold reset_windows.
  assert (0 < from_secs 60 /\ 0 < from_secs 86400) as [Hw1 Hw2] by done.
  destruct (Z.leb_spec (tqs_minute_reset s) now); cbn -[from_secs];
    destruct (Z.leb_spec (tqs_day_reset s) now); cbn -[from_secs]; (split; [|lia]); split;
    cbn -[from_secs]; intros Hpos.
  all: first [by (eapply fixed_keep; [exact Hl|auto])
             |by (eapply (fixed_reset _ _ last); [..|by auto|]; lia)].
Qed.

Lemma consume_inv quota tokens last now log s :
  last <= now -> 0 <= tokens -> quota_fits quota -> quota_inv quota last log s ->
  let '(ok, s') := consume quota tokens now s in
  quota_inv quota now (log ++ if ok then [(now, tokens)] else []) s'.
Proof.
  intros Hl Ht (Hf1 & Hf2 & Hf3) Hi.
  destruct (reset_windows_inv quota last now log s Hl Hi) as (Hi' & Hm & Hd).
  unfold consume. set (p := reset_windows now s) in *. clearbody p. cbv zeta.
  destruct (_ && _) eqn:E1; [by rewrite app_nil_r|].
  destruct (_ && _) eqn:E2 in |- *; [by rewrite app_nil_r|].
  destruct (_ && _) eqn:E3 in |- *; [by rewrite app_nil_r|].
  unfold U.saturating_add64 in *. destruct Hi' as [Hqm Hqd Hqr].
  split; cbn -[Z.min]; intros Hpos; [specialize (Hqm Hpos)|specialize (Hqd Hpos)|specialize (Hqr Hpos)];
    rewrite Z.min_l by lia; rewrite ?as_requests_snoc; apply fixed_grant; unfold from_secs; try lia; done.
Qed.

(** ** Runs of the manager *)

Section with_clock.
Context `{Clock}.

(** The calls that are granted, with the reading of the clock that a call makes
    last. *)
Fixpoint quota_run (self : TenantManager) (calls : list (string * Z)) (s : TenantState) :
    list (string * (Instant * Z)) :=
  match calls with
  | [] => []
  | (tenant_id, tokens) :: calls =>
    let '(ok, s') := check_quota self tenant_id tokens s in
    (if ok then [(tenant_id, (instant_at (pred (ts_ticks s')), tokens))] else [])
    ++ quota_run self calls s'
  end.

Definition tenant_log (tenant_id : string) (log : list (string * (Instant * Z))) :
    list (Instant * Z) :=
  (filter (fun e => e.1 = tenant_id) log).*2.

(** The windows of a tenant agree with what it was granted so far. *)
Definition tenant_inv (quota : TenantQuota) (log : list (Instant * Z)) (tenant_id : string)
    (s : TenantState) : Prop :=
  match ts_quota_state s !! tenant_id with
  | Some entry => exists last, last <= instant_at (ts_ticks s) /\ quota_inv quota last log entry
  | None => log = []
  end.

Lemma cleanup_keeps self s tenant_id : is_Some (tmg_tenants self !! tenant_id) ->
  ts_quota_state (maybe_cleanup self s) !! tenant_id = ts_quota_state s !! tenant_id
  /\ ts_ticks (maybe_cleanup self s) = ts_ticks s.
Proof.
  intros Ht. unfold maybe_cleanup. destruct (_ =? 0); [|done]. split; [|done]. cbn.
  destruct (ts_quota_state s !! tenant_id) as [entry|] eqn:E.
  - by apply map_lookup_filter_Some.
  - apply map_lookup_filter_None. by left.
Qed.

Section one_tenant.
Context (self : TenantManager) (tenant_id : string) (tenant : Tenant).
Context (Htenant : tmg_tenants self !! tenant_id = Some tenant).
Context (Hclock : forall i j, (i <= j)%nat -> instant_at i <= instant_at j).
Context (Hfits : quota_fits (tn_quota tenant)).

Lemma check_quota_other other tokens log s : other <> tenant_id ->
  tenant_inv (tn_quota tenant) log tenant_id s ->
  tenant_inv (tn_quota tenant) log tenant_id (check_quota self other tokens s).2.
Proof.
  intros Hne Hi. unfold check_quota. destruct (tmg_tenants self !! other) as [t|]; [|done].
  destruct (_ && _); [done|]. destruct (cleanup_keeps self s tenant_id) as [Hk Hticks]; [by eexists|].
  unfold quota_entry. unfold tenant_inv in *.
  destruct (ts_quota_state (maybe_cleanup self s) !! other) as [entry|];
    destruct (consume _ _ _ _) as [ok entry']; cbn; rewrite !lookup_insert_ne, Hk, Hticks by done;
    destruct (ts_quota_state s !! tenant_id); try done;
    (destruct Hi as (last & Hl & Hi); exists last; split; [|done]; etrans; [exact Hl|]; apply Hclock; lia).
Qed.

Lemma check_quota_self tokens log s : 0 <= tokens ->
  tq_tokens_per_minute (tn_quota tenant) <> 0 ->
  tenant_inv (tn_quota tenant) log tenant_id s ->
  let '(ok, s') := check_quota self tenant_id tokens s in
  tenant_inv (tn_quota tenant)
    (log ++ if ok : bool then [(instant_at (pred (ts_ticks s')), tokens)] else []) tenant_id s'.
Proof.
  intros Ht Hq Hi. unfold check_quota. rewrite Htenant. apply Z.eqb_neq in Hq. rewrite Hq. cbv zeta.
  cbn [andb]. destruct (cleanup_keeps self s tenant_id) as [Hk Hticks]; [by eexists|].
  unfold quota_entry, tenant_inv in *. rewrite Hk.
  assert (exists last entry ticks, last <= instant_at ticks /\ quota_inv (tn_quota tenant) last log entry
    /\ match ts_quota_state s !! tenant_id with
       | Some e => entry = e /\ ticks = ts_ticks s
       | None => entry = TenantQuotaState_new (instant_at (ts_ticks s)) /\ ticks = S (ts_ticks s)
       end) as (last & entry & ticks & Hl & Hinv & He).
  { destruct (ts_quota_state s !! tenant_id) as [e|].
    - destruct Hi as (last & Hl & Hi). by exists last, e, (ts_ticks s).
    - subst log. exists (instant_at (ts_ticks s)), (TenantQuotaState_new (instant_at (ts_ticks s))), (S (ts_ticks s)).
      split_and!; [apply Hclock; lia|apply new_quota_inv|done|done]. }
  pose proof (consume_inv (tn_quota tenant) tokens last (instant_at ticks) log entry Hl Ht Hfits Hinv) as Hc.
  destruct (ts_quota_state s !! tenant_id) as [e|]; destruct He as [-> ->]; rewrite Hticks; cbn [ts_ticks];
    destruct (consume _ _ _ _) as [ok entry']; cbn; rewrite lookup_insert_eq;
    (eexists; split; [|exact Hc]; apply Hclock; lia).
Qed.

Lemma quota_run_inv calls : tq_tokens_per_minute (tn_quota tenant) <> 0 ->
  (forall k tokens, (k, tokens) ∈ calls -> 0 <= tokens) ->
  forall log s, tenant_inv (tn_quota tenant) log tenant_id s ->
  exists s', tenant_inv (tn_quota tenant) (log ++ tenant_log tenant_id (quota_run self calls s)) tenant_id s'.
Proof.
  intros Hq. induction calls as [|[k tokens] calls IH]; intros Hc log s Hi.
  { exists s. unfold tenant_log. cbn. by rewrite app_nil_r. }
  assert (Hc' : forall k tokens, (k, tokens) ∈ calls -> 0 <= tokens).
  { intros k' tokens' Hin. eapply Hc. by right. }
  cbn [quota_run]. destruct (decide (k = tenant_id)) as [->|Hne].
  - pose proof (check_quota_self tokens log s (Hc tenant_id tokens ltac:(by left)) Hq Hi) as Hs.
    destruct (check_quota self tenant_id tokens s) as [ok s'].
    destruct (IH Hc' _ s' Hs) as [s2 Hs2]. exists s2. revert Hs2. unfold tenant_log.
    rewrite <- app_assoc, filter_app, fmap_app. destruct ok; cbn; [|done].
    by rewrite decide_True.
  - pose proof (check_quota_other k tokens log s Hne Hi) as Hs.
    destruct (check_quota self k tokens s) as [ok s'].
    destruct (IH Hc' _ s' Hs) as [s2 Hs2]. exists s2. revert Hs2. unfold tenant_log.
    rewrite filter_app, fmap_app. destruct ok; cbn; [|done]. by rewrite decide_False.
Qed.
End one_tenant.

(** C20: [TenantManager::check_quota].  The quotas of a tenant are counted in fixed
    windows, which start with the first request after the last one ended.  In any
    minute a tenant is granted at most twice the tokens and twice the requests of
    its quota of a minute, and in any day at most twice its tokens of a day,
    whatever the other tenants do. *)
Theorem tenant_quota_twice self tenant_id tenant calls start :
  let quota := tn_quota tenant in
  let log := tenant_log tenant_id (quota_run self calls TenantState_new) in
  tmg_tenants self !! tenant_id = Some tenant ->
  (forall i j, (i <= j)%nat -> instant_at i <= instant_at j) ->
  (forall k tokens, (k, tokens) ∈ calls -> 0 <= tokens) ->
  quota_fits quota -> 0 < tq_tokens_per_minute quota ->
  in_interval start (from_secs 60) log <= 2 * tq_tokens_per_minute quota
  /\ (0 < tq_tokens_per_day quota ->
      in_interval start (from_secs 86400) log <= 2 * tq_tokens_per_day quota)
  /\ (0 < tq_requests_per_minute quota ->
      in_interval start (from_secs 60) (as_requests log) <= 2 * tq_requests_per_minute quota).
Proof.
  intros quota log Ht Hclock Hc Hf Hpos.
  assert (tq_tokens_per_minute (tn_quota tenant) <> 0) as Hne by (subst quota; lia).
  destruct (quota_run_inv self tenant_id tenant Ht Hclock Hf calls Hne Hc [] TenantState_new)
    as [s' Hi]; [done|].
  unfold tenant_inv in Hi. destruct (ts_quota_state s' !! tenant_id) as [entry|].
  - destruct Hi as (last & _ & [Hm Hd Hr]).
    split_and!; [by apply (fixed_bound _ _ _ _ _ _ (Hm Hpos))|intros Hp..].
    + by apply (fixed_bound _ _ _ _ _ _ (Hd Hp)).
    + by apply (fixed_bound _ _ _ _ _ _ (Hr Hp)).
  - cbn in Hi. fold log in Hi. rewrite Hi. unfold in_interval, weight. cbn. lia.
Qed.
End with_clock.

(** ** Credentials *)

Lemma min_priority_fold creds : forall best,
  let r := foldl (fun best c => if cred_priority c <? cred_priority best then c else best) best creds in
  r ∈ best :: creds /\ Forall (fun c => cred_priority r <= cred_priority c) (best :: creds).
Proof.
  induction creds as [|c creds IH]; intros best; cbn [foldl].
  { split; [by left|by repeat constructor]. }
  destruct (IH (if cred_priority c <? cred_priority best then c else best)) as [Hin Hall].
  apply Forall_cons in Hall as [Hb Hall]. destruct (Z.ltb_spec (cred_priority c) (cred_priority best)).
  - split; [by right|]. constructor; [lia|by constructor].
  - split; [apply elem_of_cons in Hin as [->|Hin]; [by left|by do 2 right]|].
    constructor; [lia|constructor; [lia|done]].
Qed.

(** The credential that is used is one of the least priority. *)
Lemma min_priority_spec creds c : min_priority creds = Some c ->
  c ∈ creds /\ Forall (fun d => cred_priority c <= cred_priority d) creds.
Proof. destruct creds as [|d creds]; [done|]. intros [= <-]. apply min_priority_fold. Qed.

Lemma min_priority_unique creds c : c ∈ creds ->
  (forall d, d ∈ creds -> d <> c -> cred_priority c < cred_priority d) -> min_priority creds = Some c.
Proof.
  intros Hc Hd. destruct (min_priority creds) as [m|] eqn:E; [|by destruct creds; [apply not_elem_of_nil in Hc|]].
  apply min_priority_spec in E as [Hm Hall]. f_equal. destruct (decide (m = c)) as [|Hne]; [done|].
  specialize (Hd m Hm Hne). eapply Forall_forall in Hall; [|exact Hc]. cbn in Hall. lia.
Qed.

(** A revoked credential is not resolved again. *)
Lemma revoked_not_resolved keys gateway_key api_key c :
  ApiKeyManager_resolve (revoke keys gateway_key api_key).2 gateway_key = Some c ->
  cred_api_key c <> api_key.
Proof.
  unfold ApiKeyManager_resolve, revoke. destruct (keys !! gateway_key) as [creds|] eqn:E; cbn.
  - rewrite lookup_insert_eq. cbn. intros [Hin _]%min_priority_spec.
    by apply list_elem_of_filter in Hin as [? _].
  - by rewrite E.
Qed.

(** The keyring of the AI gateway.  A rotated credential is used for its
    gateway key from then on when its priority is less than that of every
    credential that does not expire; whatever was there before, no credential
    that has an expiry is left, and once it is revoked it is not used again. *)
Theorem rotated_credential keys gateway_key new_key priority :
  (forall c, c ∈ default [] (keys !! gateway_key) -> cred_expires_at c = None ->
   priority < cred_priority c) ->
  let keys' := rotate keys gateway_key new_key priority in
  ApiKeyManager_resolve keys' gateway_key = Some (mkBackendCredential new_key None priority)
  /\ (forall c, c ∈ default [] (keys' !! gateway_key) -> cred_expires_at c = None)
  /\ (forall c, ApiKeyManager_resolve (revoke keys' gateway_key new_key).2 gateway_key = Some c ->
      cred_api_key c <> new_key)
  /\ (forall other, other <> gateway_key ->
      ApiKeyManager_resolve keys' other = ApiKeyManager_resolve keys other).
Proof.
  intros Hp keys'. split_and!.
  - unfold ApiKeyManager_resolve, keys', rotate. rewrite lookup_insert_eq. cbn.
    apply min_priority_unique; [apply elem_of_app; right; by left|].
    intros d [Hd|Hd]%elem_of_app Hne; [|by apply list_elem_of_singleton in Hd].
    apply list_elem_of_filter in Hd as [Hx Hd]. by apply Hp.
  - intros c. unfold keys', rotate. rewrite lookup_insert_eq. cbn.
    intros [[? _]%list_elem_of_filter|Hd]%elem_of_app; [done|].
    by apply list_elem_of_singleton in Hd as ->.
  - intros c. apply revoked_not_resolved.
  - intros other Hne. unfold ApiKeyManager_resolve, keys', rotate. by rewrite lookup_insert_ne.
Qed.

(** ** Examples *)
Section example.

(** 59 seconds between two readings. *)
#[local] Instance slow_clock : Clock := fun t => Z.of_nat t * from_secs 59.

Definition demo_tenant : Tenant :=
  mkTenant "t1" ["key-1"] (mkTenantQuota 100 10000 50) ["gpt-4o"] None.
Definition demo_tenants : TenantManager := TenantManager_new [demo_tenant].

(** Two windows that meet let twice the quota through within a minute. *)
Lemma tenant_quota_twice_witness :
  let log := tenant_log "t1" (quota_run demo_tenants
               [("t1", 100); ("t2", 5); ("t1", 100)] TenantState_new) in
  log = [(from_secs 59, 100); (from_secs 118, 100)]
  /\ in_interval (from_secs 59) (from_secs 60) log = 200
  /\ in_interval (from_secs 59) (from_secs 60) log <= 2 * 100.
Proof.
  destruct (tenant_quota_twice demo_tenants "t1" demo_tenant
    [("t1", 100); ("t2", 5); ("t1", 100)] (from_secs 59)) as [Hm _].
  - vm_compute. reflexivity.
  - intros i j Hij. unfold instant_at, slow_clock, from_secs. lia.
  - intros k tokens Hin.
    repeat (apply elem_of_cons in Hin as [Hin|Hin]; [simplify_eq; lia|]).
    by apply not_elem_of_nil in Hin.
  - vm_compute. done.
  - done.
  - split_and!; [vm_compute; reflexivity..|exact Hm].
Defined.

Definition demo_keys : ApiKeyManager :=
  {[ "gw" := [mkBackendCredential "old" None 5; mkBackendCredential "dated" (Some "2030-01-01") 0] ]}.

Lemma rotated_credential_witness :
  ApiKeyManager_resolve demo_keys "gw" = Some (mkBackendCredential "dated" (Some "2030-01-01") 0)
  /\ ApiKeyManager_resolve (rotate demo_keys "gw" "new" 1) "gw"
     = Some (mkBackendCredential "new" None 1).
Proof.
  split; [vm_compute; reflexivity|].
  apply (rotated_credential demo_keys "gw" "new" 1).
  intros c Hc Hx. vm_compute in Hc.
  repeat (apply elem_of_cons in Hc as [Hc|Hc]; [simplify_eq; cbn in *; lia || done|]).
  by apply not_elem_of_nil in Hc.
Defined.

(** A credential that expires in the future is dropped by a rotation, and one
    whose expiry is past is resolved. *)
Example rotation_ignores_dates :
  let keys : ApiKeyManager := {[ "gw" := [mkBackendCredential "past" (Some "1999-01-01") 0;
                                          mkBackendCredential "future" (Some "2999-01-01") 1] ]} in
  ApiKeyManager_resolve keys "gw" = Some (mkBackendCredential "past" (Some "1999-01-01") 0)
  /\ rotate keys "gw" "new" 9 !! "gw" = Some [mkBackendCredential "new" None 9].
Proof. by vm_compute. Qed.
End example.

End AiTenantFacts.
