(* ===== verification/AiScreening.v ===== *)
(** * Screening of texts

    [ntgw-ai/src/prompt_guard.rs] and [content_safety.rs]: the patterns and
    keywords that block a request.

    Patterns are given by their text; [TextLib] says which compile and what they
    match.  The texts of its errors are left out.  A slice of a text that would
    panic is [None]. *)

From Stdlib Require Import ZArith Lia Ascii.
From stdpp Require Import base gmap strings numbers list.
From S2P Require Import Prelude Strs IrTypes Records AiTypes.

Local Open Scope string_scope.
Local Open Scope list_scope.

Module AiScreening.
Import AiTypes.

(** [haystack.contains(needle)] *)
Definition contains (needle haystack : string) : bool :=
  match Str.split_once_str needle haystack with Some _ => true | None => false end.

(** [&text[start..end]] *)
Definition slice (text : string) (from to : nat) : option string :=
  if (from <=? to)%nat && (to <=? String.length text)%nat
  then Some (String.substring from (to - from) text) else None.

Section with_text.
Context `{TextLib}.

(** The text of the first match of a pattern. *)
Definition find (pattern text : string) : option string :=
  m ← head (find_iter pattern text); slice text (tm_start m) (tm_end m).

(** ** Prompt guard *)

Inductive GuardResult := GuardPass | GuardBlock (reason matched : string).

Record PromptGuardKeyword := mkPromptGuardKeyword { pgk_original : string; pgk_normalized : string }.
Definition PromptGuardKeyword_new (keyword : string) : PromptGuardKeyword :=
  mkPromptGuardKeyword keyword (to_lowercase keyword).

Record PromptGuardFilter := mkPromptGuardFilter {
  pg_patterns : list string;
  pg_keywords : list PromptGuardKeyword;
  pg_enabled : bool;
  pg_mode : string;
}.

(** What a text is blocked for, and by what. *)
Definition guard_matches (self : PromptGuardFilter) (text : string) : list (string * string) :=
  ((fun matched => ("injection_pattern_match", matched)) <$> omap (fun p => find p text) (pg_patterns self))
  ++ ((fun k => ("blocked_keyword: " +:+ pgk_original k, pgk_original k))
        <$> filter (fun k => contains (pgk_normalized k) (to_lowercase text)) (pg_keywords self)).

Fixpoint check_messages (self : PromptGuardFilter) (messages : list AIMessage) : GuardResult :=
  match messages with
  | [] => GuardPass
  | msg :: messages =>
    match message_text (msg_content msg) with
    | None => check_messages self messages
    | Some text =>
      match guard_matches self text with
      | (reason, matched) :: _ => GuardBlock reason matched
      | [] => check_messages self messages
      end
    end
  end.

Definition PromptGuardFilter_check (self : PromptGuardFilter) (request : AIRequest) : GuardResult :=
  if negb (pg_enabled self) then GuardPass else check_messages self (air_messages request).

(** [custom_patterns.iter().map(Regex::new).collect()]: the first that does not
    compile is an error. *)
Definition compile_all (what : string) (patterns : list string) : list string + AIError :=
  if forallb pattern_valid patterns then inl patterns else inr (Internal what).

(** The patterns that are built in. *)
Definition guard_patterns : list string :=
  ["(?i)(ignore|forget|override)\s+(all\s+)?(previous|above|prior)\s+(instructions?|prompts?)";
   "(?i)(you\s+are|act\s+as|pretend\s+to\s+be)\s+(DAN|jailbroken)";
   "(?i)respond\s+in\s+(a\s+)?(different|new)\s+(persona|role|character)";
   "(?i)(do\s+not|don't|never)\s+follow\s+(your|the)\s+(guidelines|rules|instructions)";
   "(?i)system\s*prompt\s*[:=].*you\s+are"].

Definition PromptGuardFilter_new : PromptGuardFilter + AIError :=
  match compile_all "invalid built-in prompt guard regex" guard_patterns with
  | inl patterns => inl (mkPromptGuardFilter patterns [] true "block")
  | inr e => inr e
  end.

Definition PromptGuardFilter_with_config (enabled : bool) (mode : string)
    (custom_patterns keywords : list string) : PromptGuardFilter + AIError :=
  let patterns :=
    match custom_patterns with
    | [] => compile_all "invalid built-in prompt guard regex" guard_patterns
    | _ => compile_all "invalid custom prompt guard regex" custom_patterns
    end in
  match patterns with
  | inl patterns =>
    inl (mkPromptGuardFilter patterns (PromptGuardKeyword_new <$> keywords) enabled mode)
  | inr e => inr e
  end.

(** ** Content safety *)

Inductive SafetyVerdict :=
| SafetyPass
| SafetyFlag (category matched : string)
| SafetyBlock (category matched : string).

Record ContentSafetyKeyword := mkContentSafetyKeyword {
  csk_category : string;
  csk_original : string;
  csk_normalized : string;
}.
Definition ContentSafetyKeyword_new (entry : string * string) : ContentSafetyKeyword :=
  mkContentSafetyKeyword entry.1 entry.2 (to_lowercase entry.2).

Record ContentSafetyFilter := mkContentSafetyFilter {
  cs_patterns : list (string * string);
  cs_keywords : list ContentSafetyKeyword;
  cs_enabled : bool;
  cs_block_mode : bool;
}.

Definition safety_patterns : list (string * string) :=
  [("violence", "(?i)(how\s+to|teach\s+me\s+to|instructions?\s+for)\s+(kill|murder|assassinate|torture|maim|slaughter)");
   ("violence", "(?i)(bomb|explosive|weapon|firearm)\s+(making|instructions|manufacturing|construction)");
   ("hate", "(?i)(ethnic\s+cleansing|racial\s+purity|white\s+supremacy|aryan|pogrom)");
   ("hate", "(?i)(genocide|holocaust)\s+(denial|is\s+a\s+hoax|never\s+happened)");
   ("self_harm", "(?i)(best|easiest|most\s+effective)\s+(way|method)s?\s+to\s+(kill\s+myself|commit\s+suicide|end\s+my\s+life|self[- ]?harm)");
   ("self_harm", "(?i)(suicide|self[- ]?harm)\s+(guide|instructions?|manual|how\s+to)");
   ("exploitation", "(?i)(child\s+(abuse|exploitation|pornography|trafficking)|minor\s+(exploitation|trafficking))");
   ("exploitation", "(?i)(human\s+trafficking|forced\s+labour|modern\s+slavery|sex\s+trafficking)");
   ("illegal", "(?i)(how\s+to|instructions?\s+for)\s+(manufacture|synthesize|produce)\s+(meth|fentanyl|heroin|cocaine|lsd|ecstasy)");
   ("illegal", "(?i)(hacking|phishing)\s+(guide|tutorial|instructions?|how\s+to\s+(hack|break\s+into|infiltrate))");
   ("violence", "(杀人|自杀|爆炸|恐怖袭击|枪支|砍人|炸毁|抢劫|绑架)");
   ("hate", "(歧视|种族主义|纳粹|低等民族|劣等民族|消灭.*民族|驱逐.*民族)");
   ("self_harm", "(自杀|自残|割腕|跳楼|安眠药|不想活|结束生命|伤害自己)");
   ("exploitation", "(儿童.*色情|未成年人.*性|幼女|猥亵.*儿童|儿童.*裸体)");
   ("illegal", "(毒品|贩毒|赌博|诈骗|洗钱|走私|造假|非法交易|作弊|代考)")].

Definition default_keywords : list ContentSafetyKeyword :=
  ContentSafetyKeyword_new <$>
    [("violence", "how to build a bomb"); ("violence", "murder instructions");
     ("hate", "ethnic cleansing"); ("hate", "racial inferiority");
     ("self_harm", "suicide methods"); ("self_harm", "self harm guide");
     ("exploitation", "child exploitation material"); ("exploitation", "human trafficking manual");
     ("illegal", "how to make meth"); ("illegal", "phishing tutorial")].

Definition compile_categories (what : string) (patterns : list (string * string)) :
    list (string * string) + AIError :=
  if forallb (fun entry => pattern_valid entry.2) patterns then inl patterns else inr (Internal what).

Definition ContentSafetyFilter_new : ContentSafetyFilter + AIError :=
  match compile_categories "invalid built-in content safety regex" safety_patterns with
  | inl patterns => inl (mkContentSafetyFilter patterns default_keywords true true)
  | inr e => inr e
  end.

Definition ContentSafetyFilter_with_config (enabled block_mode : bool)
    (custom_patterns custom_keywords : list (string * string)) : ContentSafetyFilter + AIError :=
  let patterns :=
    match custom_patterns with
    | [] => compile_categories "invalid built-in content safety regex" safety_patterns
    | _ => compile_categories "invalid custom content safety regex" custom_patterns
    end in
  let keywords :=
    match custom_keywords with
    | [] => default_keywords
    | _ => ContentSafetyKeyword_new <$> custom_keywords
    end in
  match patterns with
  | inl patterns => inl (mkContentSafetyFilter patterns keywords enabled block_mode)
  | inr e => inr e
  end.

(** The categories that a text falls into, and by what. *)
Definition safety_matches (self : ContentSafetyFilter) (text : string) : list (string * string) :=
  omap (fun entry => (fun matched => (entry.1, matched)) <$> find entry.2 text) (cs_patterns self)
  ++ ((fun k => (csk_category k, csk_original k))
        <$> filter (fun k => contains (csk_normalized k) (to_lowercase text)) (cs_keywords self)).

Fixpoint safety_check_messages (self : ContentSafetyFilter) (messages : list AIMessage) :
    SafetyVerdict :=
  match messages with
  | [] => SafetyPass
  | msg :: messages =>
    match message_text (msg_content msg) with
    | None => safety_check_messages self messages
    | Some text =>
      if Str.is_empty text then safety_check_messages self messages
      else
        match safety_matches self text with
        | (category, matched) :: _ =>
          if cs_block_mode self then SafetyBlock category matched else SafetyFlag category matched
        | [] => safety_check_messages self messages
        end
    end
  end.

Definition ContentSafetyFilter_check (self : ContentSafetyFilter) (request : AIRequest) :
    SafetyVerdict :=
  if negb (cs_enabled self) then SafetyPass else safety_check_messages self (air_messages request).
End with_text.

End AiScreening.
