(* ===== verification/AiPii.v ===== *)
(** * Personal data in texts

    [ntgw-ai/src/pii.rs]: the entities that the patterns find in a text, and the
    text with the entities replaced.

    A slice of a text that would panic is [None].  [FindLaws] is what the [regex]
    crate documents of [find_iter]: its matches lie in the text. *)

From Stdlib Require Import ZArith Lia Ascii Sorted.
From stdpp Require Import base gmap strings numbers list sorting.
From S2P Require Import Prelude Strs IrTypes Records AiTypes AiScreening.

Local Open Scope string_scope.
Local Open Scope list_scope.
Local Open Scope nat_scope.

Module AiPii.
Import AiTypes AiScreening.

Inductive PIIEntityType :=
| Email | Phone | PersonName | CreditCard | SSN | IDCard | Address | URL | IPAddress.

Definition PIIEntityType_as_str (self : PIIEntityType) : string :=
  match self with
  | Email => "email"
  | Phone => "phone"
  | PersonName => "person"
  | CreditCard => "credit_card"
  | SSN => "ssn"
  | IDCard => "id_card"
  | Address => "address"
  | URL => "url"
  | IPAddress => "ip_address"
  end.

Record PIIMatch := mkPIIMatch {
  pm_entity_type : PIIEntityType;
  pm_start : nat;
  pm_end : nat;
}.

Inductive PIIMode := Mask | Redact | Anonymize.

Record PIIMasker := mkPIIMasker {
  pii_patterns : list (PIIEntityType * string);
  pii_mode : PIIMode;
  pii_enabled : bool;
}.

(** The double quote that is one of the characters of no URL. *)
Definition quote : string := String "034" EmptyString.

Definition pii_default_patterns : list (PIIEntityType * string) :=
  [(Email, "[a-zA-Z0-9._%+-]+@[a-zA-Z0-9.-]+\.[a-zA-Z]{2,}");
   (Phone, "(\+?86)?1[3-9]\d{9}");
   (CreditCard, "\b\d{4}[- ]?\d{4}[- ]?\d{4}[- ]?\d{4}\b");
   (IDCard, "\d{17}[\dXx]");
   (URL, "https?://[^\s<>" +:+ quote +:+ "{}|\\^`\[\]]+");
   (IPAddress, "\b(?:\d{1,3}\.){3}\d{1,3}\b");
   (PersonName, "(?:Mr|Mrs|Ms|Dr)\.?\s+[A-Z][a-z]+(?:\s+[A-Z][a-z]+)*");
   (Address, "\d+\s+[A-Z][a-z]+(?:\s+[A-Z][a-z]+)*(?:\s+(?:Street|St|Avenue|Ave|Road|Rd|Boulevard|Blvd|Drive|Dr|Lane|Ln|Way|Court|Ct))");
   (SSN, "\d{3}-\d{2}-\d{4}")].

(** The order of [detect]: by start, and the longer one first. *)
Definition match_before (a b : PIIMatch) : bool :=
  (pm_start a <? pm_start b) || ((pm_start a =? pm_start b) && (pm_end b <=? pm_end a)).

(** [sort_by] is stable. *)
Fixpoint insert_match (m : PIIMatch) (l : list PIIMatch) : list PIIMatch :=
  match l with
  | [] => [m]
  | x :: l => if match_before m x then m :: x :: l else x :: insert_match m l
  end.
Definition sort_matches (l : list PIIMatch) : list PIIMatch := foldr insert_match [] l.

(** [dedup_by(|a, b| a.start < b.end)], after the kept match [b]. *)
Fixpoint dedup_after (b : PIIMatch) (l : list PIIMatch) : list PIIMatch :=
  match l with
  | [] => []
  | a :: l => if pm_start a <? pm_end b then dedup_after b l else a :: dedup_after a l
  end.
Definition dedup_matches (l : list PIIMatch) : list PIIMatch :=
  match l with [] => [] | b :: l => b :: dedup_after b l end.

Definition replacement (mode : PIIMode) (entity_type : PIIEntityType) : string :=
  match mode with
  | Mask => "[" +:+ PIIEntityType_as_str entity_type +:+ "]"
  | Redact => "[REDACTED]"
  | Anonymize => "<" +:+ PIIEntityType_as_str entity_type +:+ ">"
  end.

(** The loop of [mask] from [last_end] on: the text that is pushed, and the
    replaced texts with their replacements. *)
Fixpoint mask_from (mode : PIIMode) (text : string) (last_end : nat) (matches : list PIIMatch) :
    option (string * list (string * string)) :=
  match matches with
  | [] => rest ← slice text last_end (String.length text); Some (rest, [])
  | m :: matches =>
    gap ← slice text last_end (pm_start m);
    original ← slice text (pm_start m) (pm_end m);
    '(rest, details) ← mask_from mode text (pm_end m) matches;
    let r := replacement mode (pm_entity_type m) in
    Some (gap +:+ r +:+ rest, (original, r) :: details)
  end.

Section with_text.
Context `{TextLib}.

Definition PIIMasker_new (mode : PIIMode) : PIIMasker + AIError :=
  if forallb (fun entry => pattern_valid entry.2) pii_default_patterns
  then inl (mkPIIMasker pii_default_patterns mode true)
  else inr (Internal "invalid built-in pii regex").

Definition with_enabled (self : PIIMasker) (enabled : bool) : PIIMasker :=
  mkPIIMasker (pii_patterns self) (pii_mode self) enabled.

Definition detect (self : PIIMasker) (text : string) : list PIIMatch :=
  sort_matches
    (entry ← pii_patterns self;
     (fun m => mkPIIMatch entry.1 (tm_start m) (tm_end m)) <$> find_iter entry.2 text).

Definition mask (self : PIIMasker) (text : string) :
    option (string * nat * list (string * string)) :=
  if negb (pii_enabled self) then Some (text, 0, [])
  else
    match detect self text with
    | [] => Some (text, 0, [])
    | matches =>
      let matches := dedup_matches matches in
      '(masked, details) ← mask_from (pii_mode self) text 0 matches;
      Some (masked, length matches, details)
    end.

Definition mask_bytes (self : PIIMasker) (bytes : string) : option (string + AIError) :=
  if is_utf8 bytes then '(masked, _, _) ← mask self bytes; Some (inl masked)
  else Some (inr (Internal "non-UTF-8 payload")).

Class FindLaws : Prop :=
  find_in_text pattern text m : m ∈ find_iter pattern text ->
    tm_start m <= tm_end m <= String.length text.
End with_text.


(** ** What masking does *)

Lemma drop_slice text : forall from to, from <= to <= String.length text ->
  Str.drop from text = String.substring from (to - from) text +:+ Str.drop to text.
Proof.
  induction text as [|a text IH]; intros from to Hle; cbn [String.length] in Hle.
  { assert (from = 0) as -> by lia. by assert (to = 0) as -> by lia. }
  destruct from as [|from].
  - destruct to as [|to]; [by cbn|]. cbn [Str.drop Nat.sub String.substring].
    change (String a text = String a (String.substring 0 to text +:+ Str.drop to text)).
    f_equal. rewrite <- (Nat.sub_0_r to) at 1. rewrite <- IH by lia. by destruct text.
  - destruct to as [|to]; [lia|]. cbn [Str.drop Nat.sub String.substring]. apply IH. lia.
Qed.

Lemma drop_all text : Str.drop (String.length text) text = EmptyString.
Proof. induction text as [|a text IH]; [done|exact IH]. Qed.

Lemma slice_Some text from to : from <= to <= String.length text ->
  slice text from to = Some (String.substring from (to - from) text).
Proof.
  intros Hle. unfold slice. rewrite (proj2 (Nat.leb_le _ _)), (proj2 (Nat.leb_le _ _)) by lia. done.
Qed.

(** The text before an entity, the entity, and what it is replaced by. *)
Record Piece := mkPiece { pc_gap : string; pc_original : string; pc_replacement : string }.

Definition original_text (pieces : list Piece) (tail : string) : string :=
  foldr (fun p rest => pc_gap p +:+ pc_original p +:+ rest) tail pieces.
Definition masked_text (pieces : list Piece) (tail : string) : string :=
  foldr (fun p rest => pc_gap p +:+ pc_replacement p +:+ rest) tail pieces.

Definition within_text (text : string) (m : PIIMatch) : Prop :=
  pm_start m <= pm_end m <= String.length text.

(** The matches start after [last_end] and do not overlap. *)
Fixpoint disjoint_from (last_end : nat) (l : list PIIMatch) : Prop :=
  match l with
  | [] => True
  | m :: l => last_end <= pm_start m /\ disjoint_from (pm_end m) l
  end.

Lemma mask_from_spec mode text matches : forall last_end,
  Forall (within_text text) matches -> disjoint_from last_end matches ->
  last_end <= String.length text ->
  exists pieces tail,
    Str.drop last_end text = original_text pieces tail
    /\ mask_from mode text last_end matches
       = Some (masked_text pieces tail, (fun p => (pc_original p, pc_replacement p)) <$> pieces)
    /\ Forall2 (fun m p => pc_replacement p = replacement mode (pm_entity_type m)
                           /\ slice text (pm_start m) (pm_end m) = Some (pc_original p)) matches pieces.
Proof.
  induction matches as [|m matches IH]; intros last_end Hin Hd Hl.
  - exists [], (Str.drop last_end text). cbn. rewrite slice_Some by lia. cbn.
    split_and!; [done| |constructor].
    by rewrite (drop_slice text last_end (String.length text)), drop_all, Str.append_nil_r by lia.
  - apply Forall_cons in Hin as [Hm Hin]. destruct Hd as [Hs Hd]. unfold within_text in Hm.
    destruct (IH (pm_end m) Hin Hd ltac:(lia)) as (pieces & tail & Ht & Hk & Hf).
    exists (mkPiece (String.substring last_end (pm_start m - last_end) text)
              (String.substring (pm_start m) (pm_end m - pm_start m) text)
              (replacement mode (pm_entity_type m)) :: pieces), tail.
    cbn [mask_from original_text masked_text foldr pc_gap pc_original pc_replacement].
    fold (original_text pieces tail). fold (masked_text pieces tail).
    rewrite !slice_Some by lia. cbn. rewrite Hk. cbn. split_and!; [|done|].
    + rewrite (drop_slice text last_end (pm_start m)) by lia.
      by rewrite (drop_slice text (pm_start m) (pm_end m)), Ht by lia.
    + constructor; [|done]. by rewrite slice_Some by lia.
Qed.

(** *** Sorting and removing overlaps *)

Definition before (a b : PIIMatch) : Prop := pm_start a <= pm_start b.

Lemma insert_match_perm m l : insert_match m l ≡ₚ m :: l.
Proof.
  induction l as [|x l IH]; [done|]. cbn [insert_match]. destruct (match_before m x); [done|].
  rewrite IH. by apply Permutation_swap.
Qed.

Lemma sort_matches_perm l : sort_matches l ≡ₚ l.
Proof. induction l as [|m l IH]; [done|]. cbn. by rewrite insert_match_perm, IH. Qed.

Lemma insert_match_sorted m l : StronglySorted before l -> StronglySorted before (insert_match m l).
Proof.
  induction 1 as [|x l Hs IH Hx]; cbn [insert_match]; [by repeat constructor|].
  unfold match_before. destruct (_ || _) eqn:E.
  - assert (before m x).
    { unfold before. apply orb_true_iff in E as [E%Nat.ltb_lt|[E%Nat.eqb_eq _]%andb_true_iff]; lia. }
    constructor; [by constructor|]. constructor; [done|].
    eapply Forall_impl; [exact Hx|]. unfold before in *. lia.
  - constructor; [done|]. apply Forall_forall. intros y Hy. rewrite insert_match_perm in Hy.
    apply orb_false_iff in E as [E%Nat.ltb_ge _].
    apply elem_of_cons in Hy as [->|Hy]; [done|].
    by eapply Forall_forall in Hx.
Qed.

Lemma sort_matches_sorted l : StronglySorted before (sort_matches l).
Proof. induction l as [|m l IH]; [constructor|]. by apply insert_match_sorted. Qed.

Lemma dedup_after_spec l : forall b, Forall (before b) l -> StronglySorted before l ->
  disjoint_from (pm_end b) (dedup_after b l)
  /\ (forall m, m ∈ dedup_after b l -> m ∈ l)
  /\ (forall m, m ∈ l -> exists k, k ∈ b :: dedup_after b l
        /\ before k m /\ (m = k \/ pm_start m < pm_end k)).
Proof.
  induction l as [|a l IH]; intros b Hb Hs; cbn [dedup_after].
  { split_and!; [done|done|]. intros m Hm. by apply not_elem_of_nil in Hm. }
  apply Forall_cons in Hb as [Hba Hb]. inversion Hs as [|? ? Hs' Ha]; subst.
  destruct (Nat.ltb_spec (pm_start a) (pm_end b)) as [Hlt|Hge].
  - destruct (IH b Hb Hs') as (Hd & Hsub & Hcov). split_and!; [done|intros m Hm; right; by apply Hsub|].
    intros m [->|Hm]%elem_of_cons; [exists b; split_and!; [by left|done|by right]|by apply Hcov].
  - destruct (IH a Ha Hs') as (Hd & Hsub & Hcov). split_and!; [by split| |].
    + intros m [->|Hm]%elem_of_cons; [by left|right; by apply Hsub].
    + intros m [->|Hm]%elem_of_cons; [exists a; split_and!; [right; by left|unfold before; lia|by left]|].
      destruct (Hcov m Hm) as (k & Hk & Hkm). exists k. split; [by right|done].
Qed.

Lemma dedup_matches_spec l : StronglySorted before l ->
  disjoint_from 0 (dedup_matches l) /\ (forall m, m ∈ dedup_matches l -> m ∈ l)
  /\ (forall m, m ∈ l -> exists k, k ∈ dedup_matches l
        /\ before k m /\ (m = k \/ pm_start m < pm_end k)).
Proof.
  destruct l as [|b l]; intros Hs.
  { split_and!; [done|done|]. intros m Hm. by apply not_elem_of_nil in Hm. }
  inversion Hs as [|? ? Hs' Hb]; subst. destruct (dedup_after_spec l b Hb Hs') as (Hd & Hsub & Hcov).
  cbn [dedup_matches]. split_and!; [split; [lia|done]| |].
  - intros m [->|Hm]%elem_of_cons; [by left|right; by apply Hsub].
  - intros m [->|Hm]%elem_of_cons; [exists b; split_and!; [by left|unfold before; lia|by left]|by apply Hcov].
Qed.

Section facts.
Context `{TextLib, !FindLaws}.

Lemma detect_within self text : Forall (within_text text) (detect self text).
Proof.
  unfold detect. rewrite sort_matches_perm. apply Forall_forall. intros m Hm.
  apply list_elem_of_bind in Hm as ([entity pattern] & Hm & _).
  apply list_elem_of_fmap in Hm as (x & -> & Hx). by eapply find_in_text.
Qed.

End facts.

(** ** Examples *)
Section example.

(** The first occurrence of a literal text. *)
Definition literal_iter (pattern text : string) : list TextMatch :=
  match Str.split_once_str pattern text with
  | Some (before, _) =>
    [mkTextMatch (String.length before) (String.length before + String.length pattern)]
  | None => []
  end.
#[local] Instance literal_text : TextLib := {|
  pattern_valid _ := true;
  find_iter := literal_iter;
  to_lowercase := Str.to_ascii_lowercase;
  is_utf8 _ := true;
  char_count s := Z.of_nat (String.length s);
|}.

Lemma split_once_str_length p s l r : Str.split_once_str p s = Some (l, r) ->
  String.length l + String.length p <= String.length s.
Proof.
  revert l r. induction s as [|a s IH]; intros l r; cbn [Str.split_once_str].
  - destruct (Str.strip_prefix p "") as [t|] eqn:E; [|done]. intros [= <- <-].
    apply Str.strip_prefix_Some, (f_equal String.length) in E.
    rewrite Str.length_app in E. cbn in *. lia.
  - destruct (Str.strip_prefix p (String a s)) as [t|] eqn:E.
    + intros [= <- <-]. apply Str.strip_prefix_Some, (f_equal String.length) in E.
    rewrite Str.length_app in E. cbn in *. lia.
    + destruct (Str.split_once_str p s) as [[l' r']|]; [|done]. intros [= <- <-].
      specialize (IH l' r' eq_refl). cbn. lia.
Qed.

#[local] Instance literal_laws : FindLaws.
Proof.
  intros pattern text m Hm. cbn in Hm. unfold literal_iter in Hm.
  destruct (Str.split_once_str pattern text) as [[l r]|] eqn:E; [|by apply not_elem_of_nil in Hm].
  apply list_elem_of_singleton in Hm as ->. apply split_once_str_length in E. cbn. lia.
Qed.

Definition demo_masker : PIIMasker :=
  mkPIIMasker [(Email, "a@b.com"); (SSN, "123-45-6789"); (Address, "6789 Elm Street")] Mask true.


(** The street of an address that overlaps the number before it is left in the
    text, although the whole address was detected. *)
Example overlapping_entity_leaks :
  detect demo_masker "123-45-6789 Elm Street"
  = [mkPIIMatch SSN 0 11; mkPIIMatch Address 7 22]
  /\ mask demo_masker "123-45-6789 Elm Street" = Some ("[ssn] Elm Street", 1, [("123-45-6789", "[ssn]")]).
Proof. by vm_compute. Qed.
End example.

End AiPii.
