(* ===== verification/AiRouting.v ===== *)
(** * Models, experiments, templates and costs

    [ntgw-ai/src/model_router.rs], [fallback.rs], [ab_test.rs],
    [prompt_template.rs], [cost.rs] and [token.rs]: the model that a request is
    routed to, the models that follow it when it fails, the variants of an
    experiment, the messages of a template, and the price and the number of
    tokens.

    Random numbers are the class [Rand]: the [n]-th draw.  The variables of a
    template are listed in the order in which their map is iterated. *)

From Stdlib Require Import ZArith Lia Ascii.
From Corelib Require Import SpecFloat.
From stdpp Require Import base gmap strings numbers list.
From S2P Require Import Prelude Strs IrTypes Records Resolution AiTypes.

Local Open Scope string_scope.
Local Open Scope list_scope.
Local Open Scope Z_scope.
Local Open Scope record_scope.

Class Rand := {
  (** [choose_weighted]: the index that the draw gives for the weights. *)
  rand_weighted : nat -> list Z -> option nat;
  (** [gen::<f64>()] *)
  rand_unit : nat -> spec_float;
}.

(** An index that is drawn has a positive weight. *)
Class RandLaws `{Rand} : Prop :=
  rand_weighted_positive n weights i : rand_weighted n weights = Some i ->
    exists w, weights !! i = Some w /\ 0 < w.

Module AiRouting.
Import Resolution AiTypes.

(** ** Model router *)

Inductive Complexity := Simple | Medium | Complex.
#[global] Instance Complexity_eq_dec : EqDecision Complexity.
Proof. solve_decision. Defined.

Record ModelRoute := mkModelRoute {
  mr_model : string;
  mr_weight : Z;
  mr_max_tokens : option Z;
}.

(** The routes of a complexity. *)
Definition ModelRouter : Type := Complexity -> option (list ModelRoute).

Definition ModelRouter_new : ModelRouter := fun _ => None.

(** [sort_by_key] with [Reverse]: stable, the greatest weight first. *)
Fixpoint insert_route (r : ModelRoute) (l : list ModelRoute) : list ModelRoute :=
  match l with
  | [] => [r]
  | x :: l => if mr_weight x <=? mr_weight r then r :: x :: l else x :: insert_route r l
  end.
Definition sort_routes (l : list ModelRoute) : list ModelRoute := foldr insert_route [] l.

Definition add_routes (self : ModelRouter) (complexity : Complexity) (routes : list ModelRoute) :
    ModelRouter :=
  fun c => if decide (c = complexity) then Some (sort_routes routes) else self c.

Section with_text.
Context `{TextLib}.

Definition content_char_count (content : AIContent) : Z :=
  match content with
  | Text s => char_count s
  | MultiPart parts => foldr Z.add 0 (char_count <$> omap part_text parts)
  | NoContent => 0
  end.

Definition classify (request : AIRequest) : Complexity :=
  let total_len :=
    foldr Z.add 0 ((fun msg => content_char_count (msg_content msg)) <$> air_messages request) in
  if total_len <? 200 then Simple else if total_len <? 2000 then Medium else Complex.
End with_text.

Section with_rand.
Context `{Rand}.

(** The draw [n]; the sum of the weights is a [u32]. *)
Definition ModelRouter_route (self : ModelRouter) (complexity : Complexity) (n : nat) :
    option ModelRoute :=
  routes ← self complexity;
  let total_weight := foldr Z.add 0 (mr_weight <$> routes) mod U.u32_modulus in
  if total_weight =? 0 then head routes
  else i ← rand_weighted n (mr_weight <$> routes); routes !! i.
End with_rand.

(** ** Fallback *)

Record FallbackEntry := mkFallbackEntry {
  fe_model : string;
  fe_on_status : list Z;
  fe_on_timeout : bool;
  fe_max_retries : Z;
}.

Record FallbackChain := mkFallbackChain {
  fc_primary : string;
  fc_fallbacks : list FallbackEntry;
}.

Notation ModelFallback := (StringMap FallbackChain) (only parsing).

Definition add_chain (self : ModelFallback) (chain : FallbackChain) : ModelFallback :=
  <[fc_primary chain := chain]> self.

Definition resolve_fallback (self : ModelFallback) (current_model : string)
    (status_code : option Z) (is_timeout : bool) (current_attempt : nat) : option string :=
  chain ← self !! current_model;
  entry ← fc_fallbacks chain !! current_attempt;
  let status_triggered :=
    match status_code with
    | Some code =>
      bool_decide (fe_on_status entry = []) || bool_decide (code ∈ fe_on_status entry)
    | None => false
    end in
  let timeout_triggered := is_timeout && fe_on_timeout entry in
  if status_triggered || timeout_triggered then Some (fe_model entry) else None.

Definition fallback_count (self : ModelFallback) (model : string) : nat :=
  match self !! model with Some chain => length (fc_fallbacks chain) | None => 0 end.

(** ** Experiments *)

Record Variant := mkVariant {
  vr_name : string;
  vr_model : string;
  vr_weight : spec_float;
  vr_config : string;
}.

Record ABTest := mkABTest {
  ab_experiment_id : string;
  ab_variants : list Variant;
}.

Notation ABTestEngine := (StringMap ABTest) (only parsing).

Definition ab_register (self : ABTestEngine) (experiment : ABTest) : ABTestEngine :=
  <[ab_experiment_id experiment := experiment]> self.

Fixpoint select_cumulative (variants : list Variant) (cumulative roll : spec_float) :
    option Variant :=
  match variants with
  | [] => None
  | variant :: variants =>
    let cumulative := f64_add cumulative (vr_weight variant) in
    if SFltb roll cumulative then Some variant else select_cumulative variants cumulative roll
  end.

Definition select_variant_for_roll (experiment : ABTest) (roll : spec_float) : option Variant :=
  match ab_variants experiment with
  | [] => None
  | variants =>
    match select_cumulative variants (f64_of_int 0) roll with
    | Some variant => Some variant
    | None => last variants
    end
  end.

Definition select_variant `{Rand} (self : ABTestEngine) (experiment_id : string) (n : nat) :
    option Variant :=
  experiment ← self !! experiment_id; select_variant_for_roll experiment (rand_unit n).

(** ** Templates *)

Record PromptTemplate := mkPromptTemplate {
  pt_name : string;
  pt_system_prompt : string;
  pt_variables : list (string * string);
  pt_few_shot_examples : list AIMessage;
}.

(** [s.replace(from, to)] for a [from] that is not empty; every step takes some of
    the text away. *)
Fixpoint replace_loop (fuel : nat) (from to s : string) : string :=
  match fuel with
  | O => s
  | S fuel =>
    match Str.split_once_str from s with
    | Some (before, after) => before +:+ to +:+ replace_loop fuel from to after
    | None => s
    end
  end.
Definition replace (from to s : string) : string := replace_loop (String.length s) from to s.

Definition template_resolve (self : PromptTemplate) (text : string) : string :=
  foldl (fun resolved '(key, value) => replace ("{" +:+ key +:+ "}") value resolved) text
    (pt_variables self).

Definition plain_message (role : AIRole) (text : string) : AIMessage :=
  mkAIMessage role (Text text) None [] None.

Definition add_example (self : PromptTemplate) (role : AIRole) (content : string) : PromptTemplate :=
  mkPromptTemplate (pt_name self) (pt_system_prompt self) (pt_variables self)
    (pt_few_shot_examples self ++ [plain_message role content]).

Notation PromptInjector := (StringMap PromptTemplate) (only parsing).

Definition inject (self : PromptInjector) (template_name : string) (request : AIRequest) :
    bool * AIRequest :=
  match self !! template_name with
  | None => (false, request)
  | Some template =>
    let resolved_system := template_resolve template (pt_system_prompt template) in
    (true, request <| air_messages :=
       [plain_message System resolved_system] ++ pt_few_shot_examples template
       ++ air_messages request |>)
  end.

(** ** Costs *)

Notation f64_mul := (SFmul 53 1024).

Record ModelPricing := mkModelPricing { input_per_1k : spec_float; output_per_1k : spec_float }.

Definition ModelPricing_estimate (self : ModelPricing) (prompt_tokens completion_tokens : Z) :
    spec_float :=
  let input_cost := f64_mul (f64_div (f64_of_int prompt_tokens) (f64_of_int 1000)) (input_per_1k self) in
  let output_cost :=
    f64_mul (f64_div (f64_of_int completion_tokens) (f64_of_int 1000)) (output_per_1k self) in
  f64_max (f64_add input_cost output_cost) (f64_of_int 0).

Definition calc_cost (pricing : StringMap ModelPricing) (model : string) (usage : AIUsage) :
    spec_float :=
  match pricing !! model with
  | None => f64_of_int 0
  | Some p => ModelPricing_estimate p (us_prompt_tokens usage) (us_completion_tokens usage)
  end.

(** [x.round() as u64]: halves away from zero. *)
Definition f64_round_to_u64 (x : spec_float) : Z :=
  match x with
  | S754_finite false m e =>
    Z.min (if 0 <=? e then Z.shiftl (Z.pos m) e
           else Z.shiftr (Z.pos m + Z.shiftl 1 (- e - 1)) (- e)) U.u64_max
  | S754_infinity false => U.u64_max
  | _ => 0
  end.

(** [CostTracker::record]: the cost, and the new total in units of 0.0001. *)
Definition cost_record (pricing : StringMap ModelPricing) (model : string) (usage : AIUsage)
    (total_cost : Z) : spec_float * Z :=
  let cost := calc_cost pricing model usage in
  let units := f64_round_to_u64 (f64_mul cost (f64_of_int 10000)) in
  (cost, U.wrapping_add64 total_cost units).

(** ** Token counts *)

(** [+=] on [u64]. *)
Definition add_usage (total usage : AIUsage) : AIUsage :=
  mkAIUsage (U.wrapping_add64 (us_prompt_tokens total) (us_prompt_tokens usage))
    (U.wrapping_add64 (us_completion_tokens total) (us_completion_tokens usage))
    (U.wrapping_add64 (us_total_tokens total) (us_total_tokens usage)).

Definition record_stream_chunk (counter : AIUsage) (chunk : AIStreamChunk) : AIUsage :=
  match chk_usage chunk with Some usage => add_usage counter usage | None => counter end.

End AiRouting.
