(* ===== verification/AiCache.v ===== *)
(** * The cache of AI responses

    [ntgw-ai/src/semantic_cache.rs]: the key that a request is cached under, the
    cache in memory with its capacity, and the cache that the gateway uses.

    A [DefaultHasher] is a function of the bytes that are written to it, which
    [DigestLib] gives together with the JSON text of the extra members.  Which
    entry of a full table is evicted is the choice of the table ([EvictionLib]). *)

From Stdlib Require Import ZArith Lia Ascii.
From stdpp Require Import base gmap strings numbers list.
From S2P Require Import Prelude Strs IrTypes Records AiTypes.

Local Open Scope string_scope.
Local Open Scope list_scope.
Local Open Scope Z_scope.
Local Open Scope record_scope.

Class DigestLib := {
  (** The [u64] that [finish] gives for the bytes. *)
  digest_bytes : string -> Z;
  (** [serde_json::to_string] of the extra members. *)
  extra_json : list (string * string) -> string;
}.

Module AiCache.
Import AiTypes.

(** ** Bytes of a hash *)

Definition byte (n : Z) : ascii := ascii_of_N (Z.to_N (n mod 256)).

(** [to_le_bytes] *)
Fixpoint le_bytes (width : nat) (n : Z) : string :=
  match width with
  | O => EmptyString
  | S width => String (byte n) (le_bytes width (n / 256))
  end.

(** The bytes that [hash] writes: a text with a byte that no text has, the
    discriminant of an option, the length of a list. *)
Definition hash_u8 (n : Z) : string := le_bytes 1 n.
Definition hash_u32 (n : Z) : string := le_bytes 4 n.
Definition hash_usize (n : Z) : string := le_bytes 8 n.
Definition hash_bool (b : bool) : string := hash_u8 (if b then 1 else 0).
Definition hash_str (s : string) : string := s +:+ String "255" EmptyString.
Definition hash_option {A} (hash : A -> string) (x : option A) : string :=
  match x with None => hash_usize 0 | Some x => hash_usize 1 +:+ hash x end.
Definition concat_map {A} (hash : A -> string) (l : list A) : string :=
  foldr (fun x rest => hash x +:+ rest) EmptyString l.
Definition hash_list {A} (hash : A -> string) (l : list A) : string :=
  hash_usize (Z.of_nat (length l)) +:+ concat_map hash l.

Definition hash_role (role : AIRole) : string :=
  hash_u8 (match role with System => 0 | User => 1 | Assistant => 2 | Tool => 3 end).

(** Nothing is written for a part without an image. *)
Definition hash_part (part : AIContentPart) : string :=
  hash_str (part_content_type part) +:+ hash_option hash_str (part_text part)
  +:+ match part_image_url part with
      | Some image_url =>
        hash_str (img_url image_url) +:+ hash_option hash_str (img_detail image_url)
      | None => EmptyString
      end.

Definition hash_content (content : AIContent) : string :=
  match content with
  | Text text => hash_u8 0 +:+ hash_str text
  | MultiPart parts => hash_u8 1 +:+ hash_list hash_part parts
  | NoContent => hash_u8 2
  end.

Definition hash_tool_call (call : AIToolCall) : string :=
  hash_str (tc_id call) +:+ hash_str (tc_call_type call) +:+ hash_str (tc_function_name call)
  +:+ hash_str (tc_function_arguments call).

Definition hash_message (message : AIMessage) : string :=
  hash_role (msg_role message) +:+ hash_option hash_str (msg_name message)
  +:+ hash_content (msg_content message) +:+ hash_option hash_str (msg_tool_call_id message)
  +:+ hash_list hash_tool_call (msg_tool_calls message).

(** [{:016x}] *)
Definition hex_digit (n : Z) : ascii :=
  byte (if n <? 10 then 48 + n else 87 + n).
Fixpoint hex_digits (width : nat) (n : Z) (acc : string) : string :=
  match width with
  | O => acc
  | S width => hex_digits width (n / 16) (String (hex_digit (n mod 16)) acc)
  end.

Section with_digest.
Context `{DigestLib}.

Definition hash_extra (extra : list (string * string)) : string :=
  match extra with [] => EmptyString | _ => hash_str (extra_json extra) end.

(** What [build_cache_key] writes to the hasher. *)
Definition cache_key_bytes (request : AIRequest) : string :=
  hash_str (air_model request) +:+ hash_option hash_u32 (air_temperature request)
  +:+ hash_option hash_u32 (air_max_tokens request) +:+ hash_option hash_u32 (air_top_p request)
  +:+ hash_list hash_str (air_stop request) +:+ hash_bool (air_stream request)
  +:+ hash_option hash_str (air_user request) +:+ hash_extra (air_extra request)
  +:+ concat_map hash_message (air_messages request).

Definition build_cache_key (request : AIRequest) : string :=
  "cache:" +:+ hex_digits 16 (digest_bytes (cache_key_bytes request)) EmptyString.
End with_digest.

(** ** The table in memory *)

Record CachedResponse := mkCachedResponse {
  cr_response : AIResponse;
  cr_stored_at : Instant;
  cr_ttl : Duration;
}.

(** [stored_at.elapsed() > ttl] *)
Definition is_expired (now : Instant) (self : CachedResponse) : bool :=
  cr_ttl self <? Z.max 0 (now - cr_stored_at self).

Definition DEFAULT_MAX_ENTRIES : nat := Z.to_nat 10000.

Record CacheTable := mkCacheTable {
  ct_entries : StringMap CachedResponse;
  ct_max_entries : nat;
}.

Definition CacheTable_with_capacity (max_entries : nat) : CacheTable := mkCacheTable ∅ max_entries.
Definition CacheTable_new : CacheTable := CacheTable_with_capacity DEFAULT_MAX_ENTRIES.

(** The key that iterating over a table gives first. *)
Class EvictionLib := first_key : StringMap CachedResponse -> option string.
Class EvictionLaws `{EvictionLib} : Prop := {
  first_key_elem m k : first_key m = Some k -> is_Some (m !! k);
  first_key_none m : first_key m = None -> m = ∅;
}.

Section with_eviction.
Context `{EvictionLib}.

Definition remove_eviction_candidate (entries : StringMap CachedResponse) :
    StringMap CachedResponse :=
  match first_key entries with Some key => delete key entries | None => entries end.

(** The clock is read for every entry that is looked at; the readings are taken to
    be one. *)
Definition table_store (now : Instant) (key : string) (response : CachedResponse)
    (self : CacheTable) : CacheTable :=
  if (ct_max_entries self =? 0)%nat then self
  else
    let entries := ct_entries self in
    let entries :=
      if (ct_max_entries self <=? size entries)%nat then
        let entries := filter (fun entry => is_expired now entry.2 = false) entries in
        if (ct_max_entries self <=? size entries)%nat then remove_eviction_candidate entries
        else entries
      else entries in
    mkCacheTable (<[key := response]> entries) (ct_max_entries self).
End with_eviction.

Definition table_lookup (now : Instant) (key : string) (self : CacheTable) :
    option CachedResponse * CacheTable :=
  match ct_entries self !! key with
  | None => (None, self)
  | Some entry =>
    if is_expired now entry
    then (None, mkCacheTable (delete key (ct_entries self)) (ct_max_entries self))
    else (Some entry, self)
  end.

(** ** The cache *)

Record CacheConfig := mkCacheConfig {
  cc_enabled : bool;
  cc_ttl : Duration;
  cc_max_tokens : Z;
}.
Definition CacheConfig_default : CacheConfig := mkCacheConfig true (3600 * 1000000000) 4096.

(** [lookup_key] with the table in memory, which has looked at the expiry
    already; the second look is at the reading [later]. *)
Definition lookup_key (config : CacheConfig) (now later : Instant) (key : string)
    (table : CacheTable) : option AIResponse * CacheTable :=
  if negb (cc_enabled config) then (None, table)
  else
    match table_lookup now key table with
    | (None, table) => (None, table)
    | (Some entry, table) =>
      if is_expired later entry
      then (None, mkCacheTable (delete key (ct_entries table)) (ct_max_entries table))
      else (Some (cr_response entry), table)
    end.

Definition SemanticCache_store `{EvictionLib} (config : CacheConfig) (now later : Instant)
    (key : string) (response : AIResponse) (table : CacheTable) : CacheTable :=
  if negb (cc_enabled config) then table
  else table_store later key (mkCachedResponse response now (cc_ttl config)) table.

End AiCache.
