(* ===== verification/AiCacheFacts.v ===== *)
(** * What the cache of AI responses guarantees

    The bytes that the key of a request is computed from determine the request,
    as long as its messages have no images; with images, different requests can
    have the same key.  The table never exceeds its capacity, and a response that
    was stored is found until it expires. *)

From Stdlib Require Import ZArith Lia Ascii.
From stdpp Require Import base gmap strings numbers list fin_maps.
From S2P Require Import Prelude Strs IrTypes Records AiTypes AiCache.

Local Open Scope string_scope.
Local Open Scope list_scope.
Local Open Scope Z_scope.
Local Open Scope record_scope.

Module AiCacheFacts.
Import AiTypes AiCache.

(** ** Codes that can be read back *)

(** No code of a value in [P] is the beginning of the code of another. *)
Definition prefix_code {A} (P : A -> Prop) (code : A -> string) : Prop :=
  forall x y s t, P x -> P y -> code x +:+ s = code y +:+ t -> x = y /\ s = t.

Definition always {A} (_ : A) : Prop := True.

Lemma app_assoc_str s t u : (s +:+ t) +:+ u = s +:+ t +:+ u.
Proof. by rewrite Str.append_assoc. Qed.

Lemma byte_inj n m : 0 <= n < 256 -> 0 <= m < 256 -> byte n = byte m -> n = m.
Proof.
  intros Hn Hm E. unfold byte in E. rewrite !Z.mod_small in E by lia.
  apply (f_equal N_of_ascii) in E. rewrite !N_ascii_embedding in E by lia. lia.
Qed.

Lemma le_bytes_code width : forall n m s t,
  0 <= n < 256 ^ Z.of_nat width -> 0 <= m < 256 ^ Z.of_nat width ->
  le_bytes width n +:+ s = le_bytes width m +:+ t -> n = m /\ s = t.
Proof.
  induction width as [|width IH]; intros n m s t Hn Hm E.
  { cbn in *. split; [lia|done]. }
  rewrite Nat2Z.inj_succ, Z.pow_succ_r in Hn, Hm by lia. cbn [le_bytes] in E.
  rewrite !Str.app_cons in E. injection E as Eb E.
  apply IH in E as [E ->]; [|split; [apply Z.div_pos|apply Z.div_lt_upper_bound]; lia..].
  assert (n mod 256 = m mod 256).
  { unfold byte in Eb. apply (byte_inj (n mod 256) (m mod 256)); [apply Z.mod_pos_bound; lia..|].
    unfold byte. by rewrite !Z.mod_mod by lia. }
  split; [|done]. rewrite (Z.div_mod n 256), (Z.div_mod m 256) by lia. congruence.
Qed.

Lemma hash_u8_code : prefix_code (fun n => 0 <= n < 256) hash_u8.
Proof. intros n m s t Hn Hm. by apply (le_bytes_code 1). Qed.
Lemma hash_u32_code : prefix_code U.is_u32 hash_u32.
Proof. intros n m s t Hn Hm. by apply (le_bytes_code 4). Qed.
Lemma hash_usize_code : prefix_code U.is_u64 hash_usize.
Proof. intros n m s t Hn Hm. by apply (le_bytes_code 8). Qed.

Lemma hash_bool_code : prefix_code always hash_bool.
Proof. intros [] [] s t _ _ E; apply hash_u8_code in E as [E ->]; try lia; done. Qed.

(** A text has no byte 255, as UTF-8 has none. *)
Definition is_text (s : string) : Prop := Str.contains_char "255" s = false.

Lemma hash_str_code : prefix_code is_text hash_str.
Proof.
  unfold is_text, hash_str. intros x y s t Hx Hy E. rewrite !app_assoc_str, !Str.app_cons in E.
  revert y Hy E. induction x as [|a x IH]; intros [|b y] Hy E; cbn in *.
  - by injection E.
  - injection E as <- _. cbn in Hy. by rewrite bool_decide_true in Hy.
  - injection E as -> _. cbn in Hx. by rewrite bool_decide_true in Hx.
  - injection E as <- E. apply orb_false_iff in Hx as [_ Hx], Hy as [_ Hy].
    destruct (IH Hx y Hy E) as [-> ->]. done.
Qed.

Definition if_some {A} (P : A -> Prop) (x : option A) : Prop := forall y, x = Some y -> P y.

Lemma hash_option_code {A} (P : A -> Prop) hash :
  prefix_code P hash -> prefix_code (if_some P) (hash_option hash).
Proof.
  intros Hh [x|] [y|] s t Hx Hy E; cbn [hash_option] in E; rewrite ?app_assoc_str in E;
    apply hash_usize_code in E as [E1 E]; try (unfold U.is_u64, U.u64_modulus; lia); try lia; [|done].
  apply Hh in E as [-> ->]; [done|by apply Hx|by apply Hy].
Qed.

Lemma concat_map_same_length {A} (P : A -> Prop) hash l : prefix_code P hash -> forall k s t,
  Forall P l -> Forall P k -> length l = length k ->
  concat_map hash l +:+ s = concat_map hash k +:+ t -> l = k /\ s = t.
Proof.
  intros Hh. induction l as [|x l IH]; intros [|y k] s t Hl Hk Hlen E; try done.
  cbn [concat_map foldr] in E. fold (concat_map hash l) (concat_map hash k) in E.
  rewrite !app_assoc_str in E. apply Forall_cons in Hl as [Hx Hl], Hk as [Hy Hk].
  apply Hh in E as [-> E]; [|done..]. injection Hlen as Hlen.
  by destruct (IH k s t Hl Hk Hlen E) as [-> ->].
Qed.

Definition short_list {A} (P : A -> Prop) (l : list A) : Prop :=
  Forall P l /\ U.is_u64 (Z.of_nat (length l)).

Lemma hash_list_code {A} (P : A -> Prop) hash :
  prefix_code P hash -> prefix_code (short_list P) (hash_list hash).
Proof.
  intros Hh l k s t [Hl Hln] [Hk Hkn] E. unfold hash_list in E. rewrite !app_assoc_str in E.
  apply hash_usize_code in E as [Hlen E]; [|done..].
  eapply concat_map_same_length; [done..| |exact E]. lia.
Qed.

(** A sequence of codes up to the end, when no code is empty. *)
Lemma concat_map_inj {A} (P : A -> Prop) hash l : prefix_code P hash ->
  (forall x, hash x <> EmptyString) -> forall k, Forall P l -> Forall P k ->
  concat_map hash l = concat_map hash k -> l = k.
Proof.
  intros Hh Hne. induction l as [|x l IH]; intros [|y k] Hl Hk E; [done| | |].
  - cbn in E. specialize (Hne y). by destruct (hash y).
  - cbn in E. specialize (Hne x). by destruct (hash x).
  - apply Forall_cons in Hl as [Hx Hl], Hk as [Hy Hk]. cbn [concat_map foldr] in E.
    apply Hh in E as [-> E]; [|done..]. f_equal. by apply IH.
Qed.

(** ** Requests without images *)

Definition plain_part (p : AIContentPart) : Prop :=
  part_image_url p = None /\ is_text (part_content_type p) /\ if_some is_text (part_text p).

Definition plain_content (c : AIContent) : Prop :=
  match c with
  | Text s => is_text s
  | MultiPart parts => short_list plain_part parts
  | NoContent => True
  end.

Definition plain_call (c : AIToolCall) : Prop :=
  is_text (tc_id c) /\ is_text (tc_call_type c) /\ is_text (tc_function_name c)
  /\ is_text (tc_function_arguments c).

Definition plain_message (m : AIMessage) : Prop :=
  if_some is_text (msg_name m) /\ plain_content (msg_content m)
  /\ if_some is_text (msg_tool_call_id m) /\ short_list plain_call (msg_tool_calls m).

Definition plain_request (r : AIRequest) : Prop :=
  is_text (air_model r) /\ if_some U.is_u32 (air_temperature r)
  /\ if_some U.is_u32 (air_max_tokens r) /\ if_some U.is_u32 (air_top_p r)
  /\ short_list is_text (air_stop r) /\ if_some is_text (air_user r)
  /\ Forall plain_message (air_messages r).

(** Reads one code at the beginning of both sides of [E]. *)
Ltac read_code E code :=
  rewrite ?app_assoc_str in E; apply code in E as [? E]; [|done..].

Lemma hash_part_code : prefix_code plain_part hash_part.
Proof.
  intros [t1 x1 i1] [t2 x2 i2] s t (Hi1 & Ht1 & Hx1) (Hi2 & Ht2 & Hx2) E. cbn in *. subst i1 i2.
  unfold hash_part in E. cbn in E. read_code E hash_str_code.
  read_code E (hash_option_code _ _ hash_str_code). cbn in E. by subst.
Qed.

Lemma hash_content_code : prefix_code plain_content hash_content.
Proof.
  intros x y s t Hx Hy E. destruct x, y; cbn [hash_content plain_content] in *;
    rewrite ?app_assoc_str in E; apply hash_u8_code in E as [? E]; try lia; try done.
  - read_code E hash_str_code. by subst.
  - read_code E (hash_list_code _ _ hash_part_code). by subst.
Qed.

Lemma hash_role_code : prefix_code always hash_role.
Proof. intros x y s t _ _ E. destruct x, y; apply hash_u8_code in E as [? E]; try lia; done. Qed.

Lemma hash_tool_call_code : prefix_code plain_call hash_tool_call.
Proof.
  intros [] [] s t (H1 & H2 & H3 & H4) (G1 & G2 & G3 & G4) E. cbn in *.
  unfold hash_tool_call in E. cbn in E. do 4 read_code E hash_str_code. by subst.
Qed.

Lemma hash_message_code : prefix_code plain_message hash_message.
Proof.
  intros [] [] s t (H1 & H2 & H3 & H4) (G1 & G2 & G3 & G4) E. cbn in *.
  unfold hash_message in E. cbn in E. read_code E hash_role_code.
  read_code E (hash_option_code _ _ hash_str_code). read_code E hash_content_code.
  read_code E (hash_option_code _ _ hash_str_code).
  read_code E (hash_list_code _ _ hash_tool_call_code). by subst.
Qed.

(** *** Extra members *)

Section with_digest.
Context `{DigestLib}.

(** The JSON text of an object: it starts with a brace and determines the
    object. *)
Class ExtraLaws : Prop := {
  extra_json_text e : is_text (extra_json e);
  extra_json_brace e : exists rest, extra_json e = String "{" rest;
  extra_json_inj e f : extra_json e = extra_json f -> e = f;
}.

(** A message starts with the byte of its role, so it is no brace. *)
Lemma messages_no_brace messages rest s :
  concat_map hash_message messages <> String "{" rest +:+ s.
Proof.
  destruct messages as [|[[] c n tc ti] messages]; cbn [concat_map foldr]; [done|..];
    unfold hash_message, hash_role, hash_u8; cbn -[hash_option hash_content]; discriminate.
Qed.

Lemma hash_extra_inj `{!ExtraLaws} e f ms ns :
  hash_extra e +:+ concat_map hash_message ms = hash_extra f +:+ concat_map hash_message ns ->
  e = f /\ concat_map hash_message ms = concat_map hash_message ns.
Proof.
  intros E. destruct e as [|e0 e], f as [|f0 f]; [done| | |]; cbn [hash_extra] in E.
  - exfalso. destruct (extra_json_brace (f0 :: f)) as [rest Hr]. rewrite Hr in E.
    unfold hash_str in E. rewrite app_assoc_str in E. by apply messages_no_brace in E.
  - exfalso. destruct (extra_json_brace (e0 :: e)) as [rest Hr]. rewrite Hr in E.
    unfold hash_str in E. rewrite app_assoc_str in E. symmetry in E. by apply messages_no_brace in E.
  - apply hash_str_code in E as [E ->]; [|apply extra_json_text..]. split; [|done].
    by apply extra_json_inj.
Qed.

(** C17: the key of the AI response cache.  The bytes that [build_cache_key] hashes
    determine the request: two requests whose messages have no images are hashed
    from the same bytes only if they are the same, in the model, the parameters,
    the user, the extra members, and in every message of the conversation. *)
Theorem cache_key_determines_request `{!ExtraLaws} r1 r2 :
  plain_request r1 -> plain_request r2 -> cache_key_bytes r1 = cache_key_bytes r2 -> r1 = r2.
Proof.
  intros (H1 & H2 & H3 & H4 & H5 & H6 & H7) (G1 & G2 & G3 & G4 & G5 & G6 & G7) E.
  unfold cache_key_bytes in E. destruct r1, r2. cbn in *.
  read_code E hash_str_code. do 3 read_code E (hash_option_code _ _ hash_u32_code).
  read_code E (hash_list_code _ _ hash_str_code). read_code E hash_bool_code.
  read_code E (hash_option_code _ _ hash_str_code). apply hash_extra_inj in E as [? E].
  apply (concat_map_inj _ _ _ hash_message_code) in E; [|by intros []|done..]. by subst.
Qed.
End with_digest.

(** ** The table *)

Section with_eviction.
Context `{EvictionLib, !EvictionLaws}.

Definition within_capacity (table : CacheTable) : Prop :=
  (size (ct_entries table) <= ct_max_entries table)%nat.

Lemma evict_size entries : entries <> ∅ ->
  S (size (remove_eviction_candidate entries)) = size entries.
Proof.
  intros Hne. unfold remove_eviction_candidate.
  destruct (first_key entries) as [k|] eqn:E; [|by apply first_key_none in E].
  apply first_key_elem in E as [x Hx]. rewrite (map_size_delete_Some k entries) by done.
  assert (size entries <> 0%nat) by by intros ->%map_size_empty_iff. lia.
Qed.

Lemma store_capacity now key response table :
  within_capacity table -> within_capacity (table_store now key response table)
  /\ ct_max_entries (table_store now key response table) = ct_max_entries table.
Proof.
  unfold within_capacity, table_store. intros Hc. destruct (Nat.eqb_spec (ct_max_entries table) 0); [done|].
  cbv zeta. set (max := ct_max_entries table) in *. cbn. split; [|done].
  set (live := filter _ (ct_entries table)).
  assert (forall m : StringMap CachedResponse, (size m < max)%nat -> (size (<[key := response]> m) <= max)%nat) as Hins.
  { intros m Hm. rewrite map_size_insert. case_match; unfold id; lia. }
  destruct (Nat.leb_spec max (size (ct_entries table))); [|by apply Hins].
  destruct (Nat.leb_spec max (size live)); [|by apply Hins].
  apply Hins. assert (live <> ∅) as Hne by (intros Hl; rewrite Hl, map_size_empty in *; lia).
  pose proof (evict_size live Hne). assert (size live <= size (ct_entries table))%nat; [|lia].
  apply map_subseteq_size, map_filter_subseteq.
Qed.

Lemma lookup_capacity now key table :
  within_capacity table -> within_capacity (table_lookup now key table).2.
Proof.
  unfold within_capacity, table_lookup. intros Hc. destruct (ct_entries table !! key); [|done].
  destruct (is_expired now _); [|done]. cbn. etrans; [|exact Hc].
  apply map_subseteq_size, delete_subseteq.
Qed.

(** A use of the cache: a lookup or a store, with its readings of the clock. *)
Inductive CacheUse :=
| UseLookup (key : string) (now later : Instant)
| UseStore (key : string) (response : AIResponse) (now later : Instant).

Definition cache_use (config : CacheConfig) (table : CacheTable) (use : CacheUse) : CacheTable :=
  match use with
  | UseLookup key now later => (lookup_key config now later key table).2
  | UseStore key response now later => SemanticCache_store config now later key response table
  end.

Lemma cache_use_capacity config table use :
  within_capacity table -> within_capacity (cache_use config table use)
  /\ ct_max_entries (cache_use config table use) = ct_max_entries table.
Proof.
  intros Hc. destruct use as [key now later|key response now later]; cbn.
  - unfold lookup_key. destruct (cc_enabled config); [|done]. cbn.
    pose proof (lookup_capacity now key table Hc) as Hl. unfold table_lookup in *.
    destruct (ct_entries table !! key) as [entry|]; [|done].
    destruct (is_expired now entry); [done|]. destruct (is_expired later entry); [|done]. cbn.
    split; [|done]. unfold within_capacity. etrans; [|exact Hc]. apply map_subseteq_size, delete_subseteq.
  - unfold SemanticCache_store. destruct (cc_enabled config); [|done]. by apply store_capacity.
Qed.

End with_eviction.

(** ** Examples *)
Section example.

Fixpoint bits (p : positive) : string :=
  match p with
  | xI p => String "1" (bits p)
  | xO p => String "0" (bits p)
  | xH => EmptyString
  end.

Lemma bits_inj p : forall q, bits p = bits q -> p = q.
Proof.
  induction p as [p IH|p IH|]; intros [q|q|] E; cbn in E; try discriminate; [..|done];
    injection E as E; by rewrite (IH q E).
Qed.

Lemma bits_text p : is_text (bits p).
Proof. unfold is_text. by induction p. Qed.

(** A digest that keeps one byte, and extra members as an object of bits. *)
#[local] Instance demo_digest : DigestLib := {|
  digest_bytes s := Z.of_nat (String.length s);
  extra_json e := String "{" (bits (encode e));
|}.
#[local] Instance demo_extra : ExtraLaws.
Proof.
  split.
  - intros e. unfold is_text. cbn. apply bits_text.
  - intros e. by eexists.
  - intros e f [= E]. by apply bits_inj, (inj encode) in E.
Qed.

Definition demo_request (text : string) : AIRequest :=
  mkAIRequest [mkAIMessage System (Text "be brief") None [] None;
               mkAIMessage User (Text text) None [] None] "gpt-4o" None (Some 100) None []
    false (Some "u1") [("seed", "7")].

Lemma demo_plain text : is_text text -> plain_request (demo_request text).
Proof.
  intros Ht. unfold plain_request, demo_request. cbn.
  split_and!; try done; try (intros y [= <-]; vm_compute; done).
  constructor; [|constructor; [|done]]; split_and!; cbn; done.
Defined.

Lemma cache_key_determines_request_witness :
  cache_key_bytes (demo_request "hello") = cache_key_bytes (demo_request ("hel" +:+ "lo"))
  /\ demo_request "hello" = demo_request ("hel" +:+ "lo").
Proof.
  assert (cache_key_bytes (demo_request "hello") = cache_key_bytes (demo_request ("hel" +:+ "lo"))) as E
    by by vm_compute.
  split; [exact E|].
  apply (cache_key_determines_request _ _ (demo_plain "hello" eq_refl) (demo_plain ("hel" +:+ "lo") eq_refl) E).
Defined.

Definition picture_message (parts : list AIContentPart) : AIRequest :=
  mkAIRequest [mkAIMessage User (MultiPart parts) None [] None] "gpt-4o" None None None [] false
    None [].

(** Whether a part has an image is not written, so the image of one part can be
    taken for the next part: these two conversations have the same key, for every
    digest. *)
Theorem image_requests_collide `{DigestLib} first url second :
  let r1 := picture_message [mkAIContentPart first None (Some (mkAIImageUrl url None));
                             mkAIContentPart second None None] in
  let r2 := picture_message [mkAIContentPart first None None;
                             mkAIContentPart url None (Some (mkAIImageUrl second None))] in
  build_cache_key r1 = build_cache_key r2 /\ r1 <> r2.
Proof.
  cbv zeta. split; [|by intros [=]].
  assert (hash_list hash_part [mkAIContentPart first None (Some (mkAIImageUrl url None));
                               mkAIContentPart second None None]
          = hash_list hash_part [mkAIContentPart first None None;
                                 mkAIContentPart url None (Some (mkAIImageUrl second None))]) as E.
  { unfold hash_list, concat_map, hash_part. cbn [foldr length part_content_type part_text
      part_image_url img_url img_detail hash_option]. by rewrite !app_assoc_str. }
  unfold build_cache_key, cache_key_bytes, picture_message, concat_map, hash_message. cbn [air_messages foldr].
  cbn [msg_content hash_content]. by rewrite E.
Qed.

(** The smallest key. *)
#[local] Instance demo_eviction : EvictionLib := fun m => fst <$> head (map_to_list m).

#[local] Instance demo_eviction_laws : EvictionLaws.
Proof.
  split; unfold first_key, demo_eviction.
  - intros m k E. destruct (map_to_list m) as [|[k' x] l] eqn:El; [done|]. injection E as <-.
    exists x. apply elem_of_map_to_list. rewrite El. by left.
  - intros m E. destruct (map_to_list m) as [|kx l] eqn:El; [|done]. by apply map_to_list_empty_iff.
Qed.

Definition demo_answer (id : string) : AIResponse := mkAIResponse id "gpt-4o" [] None None [].

End example.

End AiCacheFacts.
