(* ===== verification/AiFormats.v ===== *)
(** * Formats of AI providers

    [ntgw-ai/src/format/mod.rs], [openai.rs], [anthropic.rs], [ollama.rs] and
    [parse_sse_chunks] of [filter.rs]: the messages of the providers, their
    conversion to and from the representation of [AiTypes], and the adapters.

    [serde_json] and the derived conversions between bytes and the messages are
    the class [FormatLib]; converting a message to bytes is taken not to fail.
    The texts of their errors are left out. *)

From Stdlib Require Import ZArith Lia Ascii.
From stdpp Require Import base gmap strings numbers list.
From S2P Require Import Prelude Strs IrTypes Records AiTypes.

Local Open Scope string_scope.
Local Open Scope list_scope.
Local Open Scope Z_scope.

Module AiFormats.
Import AiTypes.

(** [Result<A, AIError>] *)
Definition AR (A : Type) : Type := A + AIError.
#[global] Instance AR_ret : MRet AR := fun A x => inl x.
#[global] Instance AR_bind : MBind AR := fun A B f r =>
  match r with inl x => f x | inr e => inr e end.

(** ** Texts *)

Definition newline : string := String "010" EmptyString.

(** [s.split(sep)] for a separator that is not empty. *)
Fixpoint split_str_loop (fuel : nat) (sep s : string) : list string :=
  match fuel with
  | O => [s]
  | S fuel =>
    match Str.split_once_str sep s with
    | Some (before, after) => before :: split_str_loop fuel sep after
    | None => [s]
    end
  end.
Definition split_str (sep s : string) : list string := split_str_loop (String.length s) sep s.

Definition strip_cr (line : string) : string :=
  match Str.rsplit_once "013" line with Some (before, EmptyString) => before | _ => line end.

(** [s.lines()]: a carriage return before a line break belongs to it, and an
    empty text after the last line break is no line. *)
Definition lines (s : string) : list string :=
  let fields := Str.split "010" s in
  (strip_cr <$> removelast fields)
  ++ match last fields with Some EmptyString | None => [] | Some line => [line] end.

(** ** JSON *)

(** A number is its value as a [u64], if it has one, and its text. The members of
    an object are in the order in which they are written: the order of the fields
    of a struct, the order of the keys for [json!], whose objects are sorted maps. *)
Inductive Json :=
| JNull
| JBool (b : bool)
| JNumber (as_u64 : option Z) (text : string)
| JString (s : string)
| JArray (items : list Json)
| JObject (members : list (string * Json)).

(** [value.get(name)] *)
Fixpoint get_member (name : string) (members : list (string * Json)) : option Json :=
  match members with
  | [] => None
  | (k, v) :: members => if bool_decide (k = name) then Some v else get_member name members
  end.
Definition json_get (name : string) (value : Json) : option Json :=
  match value with JObject members => get_member name members | _ => None end.
Definition json_as_str (value : Json) : option string :=
  match value with JString s => Some s | _ => None end.
Definition json_as_u64 (value : Json) : option Z :=
  match value with JNumber n _ => n | _ => None end.

(** The string at a path of one or two members. *)
Definition str_at (name : string) (value : Json) : option string :=
  member ← json_get name value; json_as_str member.
Definition str_at2 (outer name : string) (value : Json) : option string :=
  member ← json_get outer value; str_at name member.
Definition u64_at (name : string) (value : Json) : option Z :=
  member ← json_get name value; json_as_u64 member.

(** ** Messages of the providers *)

Record OpenAIMessage := mkOpenAIMessage {
  om_role : string;
  om_content : option Json;
  om_name : option string;
  om_tool_calls : option (list AIToolCall);
  om_tool_call_id : option string;
}.
Record OpenAIChatRequest := mkOpenAIChatRequest {
  oq_model : string;
  oq_messages : list OpenAIMessage;
  oq_temperature : option Z;
  oq_max_tokens : option Z;
  oq_top_p : option Z;
  oq_stop : option (list string);
  oq_stream : bool;
  oq_user : option string;
}.
Record OpenAIChoice := mkOpenAIChoice {
  oc_index : Z;
  oc_message : OpenAIMessage;
  oc_finish_reason : option string;
}.
Record OpenAIChatResponse := mkOpenAIChatResponse {
  or_id : string;
  or_object : string;
  or_model : string;
  or_created : Z;
  or_choices : list OpenAIChoice;
  or_usage : option AIUsage;
}.
Record OpenAIDelta := mkOpenAIDelta {
  od_role : option string;
  od_content : option string;
  od_tool_calls : option (list AIToolCall);
}.
Record OpenAIStreamChoice := mkOpenAIStreamChoice {
  os_index : Z;
  os_delta : OpenAIDelta;
  os_finish_reason : option string;
}.
Record OpenAIChatStreamChunk := mkOpenAIChatStreamChunk {
  ok_id : string;
  ok_object : string;
  ok_model : string;
  ok_created : Z;
  ok_choices : list OpenAIStreamChoice;
  ok_usage : option AIUsage;
}.

Record AnthropicContentBlock := mkAnthropicContentBlock {
  acb_block_type : string;
  acb_text : option string;
}.
(** [AnthropicSystemContent] and [AnthropicContent]. *)
Inductive AnthropicContent :=
| AnthropicText (text : string)
| AnthropicBlocks (blocks : list AnthropicContentBlock).
Record AnthropicMessage := mkAnthropicMessage { am_role : string; am_content : AnthropicContent }.
Record AnthropicMessageRequest := mkAnthropicMessageRequest {
  aq_model : string;
  aq_system : option AnthropicContent;
  aq_messages : list AnthropicMessage;
  aq_max_tokens : Z;
  aq_stop_sequences : option (list string);
  aq_stream : bool;
  aq_temperature : option Z;
  aq_top_p : option Z;
}.
Record AnthropicUsage := mkAnthropicUsage { au_input_tokens : Z; au_output_tokens : Z }.
Record AnthropicMessageResponse := mkAnthropicMessageResponse {
  ar_id : string;
  ar_msg_type : string;
  ar_role : string;
  ar_model : string;
  ar_content : list AnthropicContentBlock;
  ar_stop_reason : option string;
  ar_usage : option AnthropicUsage;
}.

Record OllamaMessage := mkOllamaMessage { ol_role : string; ol_content : string }.
Record OllamaOptions := mkOllamaOptions {
  oo_temperature : option Z;
  oo_top_p : option Z;
  oo_num_predict : option Z;
  oo_stop : option (list string);
}.
Record OllamaChatRequest := mkOllamaChatRequest {
  lq_model : string;
  lq_messages : list OllamaMessage;
  lq_stream : option bool;
  lq_options : option OllamaOptions;
}.
Record OllamaChatResponse := mkOllamaChatResponse {
  lr_model : string;
  lr_created_at : string;
  lr_message : OllamaMessage;
  lr_done : bool;
  lr_total_duration : option Z;
  lr_eval_count : option Z;
  lr_prompt_eval_count : option Z;
}.

(** ** Bytes *)

(** [from_slice] or [from_str], and [to_vec] or [to_string], of a type. *)
Class Serde (T : Type) := { from_bytes : string -> option T; to_bytes : T -> string }.

Class FormatLib `{TextLib} := {
  #[global] serde_json_value :: Serde Json;
  #[global] serde_openai_request :: Serde OpenAIChatRequest;
  #[global] serde_openai_response :: Serde OpenAIChatResponse;
  #[global] serde_openai_chunk :: Serde OpenAIChatStreamChunk;
  #[global] serde_anthropic_request :: Serde AnthropicMessageRequest;
  #[global] serde_anthropic_response :: Serde AnthropicMessageResponse;
  #[global] serde_ollama_request :: Serde OllamaChatRequest;
  #[global] serde_ollama_response :: Serde OllamaChatResponse;
  #[global] serde_stream_chunk :: Serde AIStreamChunk;
  (** [from_value] and [to_value]. *)
  part_of_value : Json -> option AIContentPart;
  part_to_value : AIContentPart -> Json;
  anthropic_usage_of_value : Json -> option AnthropicUsage;
}.

(** ** OpenAI *)

Section with_lib.
Context `{FormatLib}.

Definition parse_error (format : string) : AIError := FormatParse format "".

(** [from_slice(body).map_err(FormatParse)] *)
Definition parse_as {T} `{Serde T} (format body : string) : AR T :=
  match from_bytes body with Some x => inl x | None => inr (parse_error format) end.

Definition role_of_str (role : string) : AIRole :=
  if bool_decide (role = "system") then System
  else if bool_decide (role = "user") then User
  else if bool_decide (role = "assistant") then Assistant
  else if bool_decide (role = "tool") then Tool
  else User.

Definition role_to_str (role : AIRole) : string :=
  match role with
  | System => "system" | User => "user" | Assistant => "assistant" | Tool => "tool"
  end.

(** [AIMessage::from(OpenAIMessage)]; a tool call is the same record in both. *)
Definition message_of_openai (msg : OpenAIMessage) : AIMessage :=
  let content :=
    match om_content msg with
    | None => NoContent
    | Some (JString text) => Text text
    | Some (JArray items) =>
      match omap part_of_value items with [] => NoContent | parts => MultiPart parts end
    | Some _ => NoContent
    end in
  mkAIMessage (role_of_str (om_role msg)) content (om_name msg) (default [] (om_tool_calls msg))
    (om_tool_call_id msg).

Definition request_of_openai (req : OpenAIChatRequest) : AIRequest :=
  {| air_messages := message_of_openai <$> oq_messages req;
     air_model := oq_model req;
     air_temperature := oq_temperature req;
     air_max_tokens := oq_max_tokens req;
     air_top_p := oq_top_p req;
     air_stop := default [] (oq_stop req);
     air_stream := oq_stream req;
     air_user := oq_user req;
     air_extra := [] |}.

Definition tool_calls_to_openai (tool_calls : list AIToolCall) : option (list AIToolCall) :=
  match tool_calls with [] => None | _ => Some tool_calls end.

Definition openai_message_from_ir (msg : AIMessage) : OpenAIMessage :=
  let content :=
    match msg_content msg with
    | Text text => Some (JString text)
    | MultiPart parts => Some (JArray (part_to_value <$> parts))
    | NoContent => None
    end in
  mkOpenAIMessage (role_to_str (msg_role msg)) content (msg_name msg)
    (tool_calls_to_openai (msg_tool_calls msg)) (msg_tool_call_id msg).

Definition openai_response_from_ir (resp : AIResponse) : OpenAIChatResponse :=
  {| or_id := ars_id resp;
     or_object := "chat.completion";
     or_model := ars_model resp;
     or_created := default 0 (ars_created resp);
     or_choices :=
       (fun c => mkOpenAIChoice (cho_index c) (openai_message_from_ir (cho_message c))
                   (cho_finish_reason c)) <$> ars_choices resp;
     or_usage := ars_usage resp |}.

Definition response_of_openai (resp : OpenAIChatResponse) : AIResponse :=
  {| ars_id := or_id resp;
     ars_model := or_model resp;
     ars_choices :=
       (fun c => mkAIChoice (oc_index c) (message_of_openai (oc_message c)) (oc_finish_reason c))
         <$> or_choices resp;
     ars_usage := or_usage resp;
     ars_created := Some (or_created resp);
     ars_extra := [] |}.

Definition openai_chunk_from_ir (chunk : AIStreamChunk) : OpenAIChatStreamChunk :=
  {| ok_id := chk_id chunk;
     ok_object := "chat.completion.chunk";
     ok_model := chk_model chunk;
     ok_created := default 0 (chk_created chunk);
     ok_choices :=
       (fun c => mkOpenAIStreamChoice (sc_index c)
                   (mkOpenAIDelta (role_to_str <$> sd_role (sc_delta c)) (sd_content (sc_delta c))
                      (tool_calls_to_openai (sd_tool_calls (sc_delta c))))
                   (sc_finish_reason c)) <$> chk_choices chunk;
     ok_usage := chk_usage chunk |}.

(** ** Streams of events *)

(** A line of an event: the data that it carries, unless it ends the stream. *)
Definition event_data (line : string) : option string :=
  json ← Str.strip_prefix "data: " line;
  if bool_decide (json = "[DONE]") then None else Some json.

Fixpoint parse_all {T} `{Serde T} (e : AIError) (texts : list string) : AR (list T) :=
  match texts with
  | [] => inl []
  | text :: texts =>
    match from_bytes text with
    | None => inr e
    | Some x => xs ← parse_all e texts; mret (x :: xs)
    end
  end.

(** [parse_sse_chunks] *)
Definition parse_sse_chunks (sse_text : string) : AR (list AIStreamChunk) :=
  let events := Str.trim <$> split_str (newline +:+ newline) sse_text in
  let events := List.filter (fun event => negb (Str.is_empty event)) events in
  parse_all (Internal "SSE parse error") (omap event_data (List.concat (lines <$> events))).

(** The default of [FormatAdapter::parse_stream_body]. *)
Definition default_parse_stream_body (body : string) : AR (list AIStreamChunk) :=
  if is_utf8 body then parse_sse_chunks body else inr (Internal "SSE").

(** [TokenCounter::from_sse_body]: the data lines of an event up to the end of the
    stream, after trimming. *)
Fixpoint data_until_done (lines : list string) : list string :=
  match lines with
  | [] => []
  | line :: lines =>
    match Str.strip_prefix "data: " (Str.trim line) with
    | Some data => if bool_decide (data = "[DONE]") then [] else data :: data_until_done lines
    | None => data_until_done lines
    end
  end.

Definition sse_body_chunks (body : string) : AR (list AIStreamChunk) :=
  if is_utf8 body then
    let events := Str.trim <$> split_str (newline +:+ newline) body in
    let events := List.filter (fun event => negb (Str.is_empty event)) events in
    parse_all (Internal "Failed to parse SSE chunk")
      (List.concat ((fun event => data_until_done (lines event)) <$> events))
  else inr (Internal "SSE body is not valid UTF-8").

(** The contents that the chunks add. *)
Definition chunk_content (chunk : AIStreamChunk) : string :=
  foldr (fun choice rest => default "" (sd_content (sc_delta choice)) +:+ rest) ""
    (chk_choices chunk).

(** ** Anthropic *)

(** [texts.join("\n")] *)
Fixpoint join_lines (texts : list string) : string :=
  match texts with
  | [] => ""
  | [text] => text
  | text :: texts => text +:+ newline +:+ join_lines texts
  end.

Definition blocks_to_content (blocks : list AnthropicContentBlock) : AIContent :=
  match omap acb_text blocks with
  | [] => NoContent
  | texts => Text (join_lines texts)
  end.

Definition content_of_anthropic (content : AnthropicContent) : AIContent :=
  match content with
  | AnthropicText text => Text text
  | AnthropicBlocks blocks => blocks_to_content blocks
  end.

Definition plain (role : AIRole) (content : AIContent) : AIMessage :=
  mkAIMessage role content None [] None.

Definition system_to_message (system : AnthropicContent) : AIMessage :=
  plain System (content_of_anthropic system).

Definition message_of_anthropic (msg : AnthropicMessage) : AIMessage :=
  let role := if bool_decide (am_role msg = "assistant") then Assistant else User in
  plain role (content_of_anthropic (am_content msg)).

Definition request_of_anthropic (req : AnthropicMessageRequest) : AIRequest :=
  {| air_messages :=
       match aq_system req with Some system => [system_to_message system] | None => [] end
       ++ (message_of_anthropic <$> aq_messages req);
     air_model := aq_model req;
     air_temperature := aq_temperature req;
     air_max_tokens := Some (aq_max_tokens req);
     air_top_p := aq_top_p req;
     air_stop := default [] (aq_stop_sequences req);
     air_stream := aq_stream req;
     air_user := None;
     air_extra := [] |}.

Definition anthropic_response_from_ir (resp : AIResponse) : AnthropicMessageResponse :=
  {| ar_id := ars_id resp;
     ar_msg_type := "message";
     ar_role := "assistant";
     ar_model := ars_model resp;
     ar_content :=
       (fun c => mkAnthropicContentBlock "text"
                   (Some (match msg_content (cho_message c) with
                          | Text text => text
                          | _ => "[content]"
                          end))) <$> ars_choices resp;
     ar_stop_reason := head (ars_choices resp) ≫= cho_finish_reason;
     ar_usage :=
       (fun u => mkAnthropicUsage (us_prompt_tokens u) (us_completion_tokens u)) <$> ars_usage resp |}.

Definition usage_of_anthropic (u : AnthropicUsage) : AIUsage :=
  mkAIUsage (au_input_tokens u) (au_output_tokens u)
    (U.wrapping_add64 (au_input_tokens u) (au_output_tokens u)).

Definition response_of_anthropic (resp : AnthropicMessageResponse) : AIResponse :=
  let content :=
    match head (ar_content resp) with
    | Some block => Text (default "" (acb_text block))
    | None => NoContent
    end in
  let role := if bool_decide (ar_role resp = "user") then User else Assistant in
  {| ars_id := ar_id resp;
     ars_model := ar_model resp;
     ars_choices := [mkAIChoice 0 (plain role content) (ar_stop_reason resp)];
     ars_usage := usage_of_anthropic <$> ar_usage resp;
     ars_created := None;
     ars_extra := [] |}.

(** A chunk with one choice and no names. *)
Definition anonymous_chunk (index : Z) (content finish_reason : option string)
    (usage : option AIUsage) : AIStreamChunk :=
  mkAIStreamChunk "" "" [mkAIStreamChoice index (mkAIStreamDelta None content []) finish_reason] usage
    None.

(** [parse_anthropic_stream_event], after the data was parsed. *)
Definition anthropic_event_chunk (value : Json) : AR (option AIStreamChunk) :=
  match str_at "type" value with
  | None => mret None
  | Some kind =>
    if bool_decide (kind = "content_block_delta") then
      let text := default "" (str_at2 "delta" "text" value) in
      let index := default 0 (u64_at "index" value) mod U.u32_modulus in
      mret (Some (anonymous_chunk index (if Str.is_empty text then None else Some text) None None))
    else if bool_decide (kind = "message_delta") then
      let stop_reason := str_at2 "delta" "stop_reason" value in
      usage ← match json_get "usage" value with
              | None => mret None
              | Some usage =>
                match anthropic_usage_of_value usage with
                | Some usage => mret (Some (usage_of_anthropic usage))
                | None => inr (parse_error "anthropic")
                end
              end;
      match stop_reason, usage with
      | None, None => mret None
      | _, _ => mret (Some (anonymous_chunk 0 None stop_reason usage))
      end
    else if bool_decide (kind = "message_stop") then
      mret (Some (anonymous_chunk 0 None (Some "stop") None))
    else mret None
  end.

Definition parse_anthropic_stream_event (data : string) : AR (option AIStreamChunk) :=
  value ← parse_as "anthropic" data; anthropic_event_chunk value.

(** The data lines of an event, joined. *)
Definition anthropic_event_data (event : string) : string :=
  foldl (fun data json => if Str.is_empty data then json else data +:+ newline +:+ json) ""
    (omap event_data (lines event)).

Fixpoint anthropic_events (events : list string) : AR (list AIStreamChunk) :=
  match events with
  | [] => mret []
  | event :: events =>
    let data := anthropic_event_data event in
    if Str.is_empty data then anthropic_events events
    else
      chunk ← parse_anthropic_stream_event data;
      chunks ← anthropic_events events;
      mret (match chunk with Some chunk => chunk :: chunks | None => chunks end)
  end.

Definition anthropic_parse_stream_body (body : string) : AR (list AIStreamChunk) :=
  if is_utf8 body then anthropic_events (split_str (newline +:+ newline) body)
  else inr (parse_error "anthropic").

Definition anthropic_delta_event (content : string) : Json :=
  JObject [("type", JString "content_block_delta"); ("index", JNumber (Some 0) "0");
           ("delta", JObject [("type", JString "text_delta"); ("text", JString content)])].
Definition message_stop_event : Json := JObject [("type", JString "message_stop")].

Definition anthropic_serialize_stream_chunk (chunk : AIStreamChunk) : string :=
  let first := head (chk_choices chunk) in
  let content := default "" (first ≫= fun c => sd_content (sc_delta c)) in
  let finish := first ≫= sc_finish_reason in
  "event: content_block_delta" +:+ newline +:+ "data: " +:+ to_bytes (anthropic_delta_event content)
  +:+ match finish with
      | Some _ =>
        newline +:+ newline +:+ "event: message_stop" +:+ newline +:+ "data: "
        +:+ to_bytes message_stop_event
      | None => ""
      end
  +:+ newline +:+ newline.

(** ** Ollama *)

Definition message_of_ollama (msg : OllamaMessage) : AIMessage :=
  let role :=
    if bool_decide (ol_role msg = "system") then System
    else if bool_decide (ol_role msg = "assistant") then Assistant
    else User in
  plain role (Text (ol_content msg)).

Definition request_of_ollama (req : OllamaChatRequest) : AIRequest :=
  let options := default (mkOllamaOptions None None None None) (lq_options req) in
  {| air_messages := message_of_ollama <$> lq_messages req;
     air_model := lq_model req;
     air_temperature := oo_temperature options;
     air_max_tokens := oo_num_predict options;
     air_top_p := oo_top_p options;
     air_stop := default [] (oo_stop options);
     air_stream := default false (lq_stream req);
     air_user := None;
     air_extra := [] |}.

Definition ollama_response_from_ir (resp : AIResponse) : OllamaChatResponse :=
  let content :=
    match head (ars_choices resp) with
    | Some c => match msg_content (cho_message c) with Text text => text | _ => "" end
    | None => ""
    end in
  {| lr_model := ars_model resp;
     lr_created_at := "";
     lr_message := mkOllamaMessage "assistant" content;
     lr_done := true;
     lr_total_duration := None;
     lr_eval_count := us_completion_tokens <$> ars_usage resp;
     lr_prompt_eval_count := us_prompt_tokens <$> ars_usage resp |}.

Definition ollama_usage (resp : OllamaChatResponse) : option AIUsage :=
  match lr_prompt_eval_count resp, lr_eval_count resp with
  | Some prompt, Some completion =>
    Some (mkAIUsage prompt completion (U.wrapping_add64 prompt completion))
  | _, _ => None
  end.

Definition response_of_ollama (resp : OllamaChatResponse) : AIResponse :=
  let role :=
    if bool_decide (ol_role (lr_message resp) = "user") then User
    else if bool_decide (ol_role (lr_message resp) = "system") then System
    else Assistant in
  {| ars_id := "";
     ars_model := lr_model resp;
     ars_choices := [mkAIChoice 0 (plain role (Text (ol_content (lr_message resp))))
                       (if lr_done resp then Some "stop" else None)];
     ars_usage := ollama_usage resp;
     ars_created := None;
     ars_extra := [] |}.

Definition chunk_of_ollama (resp : OllamaChatResponse) : AIStreamChunk :=
  let content := ol_content (lr_message resp) in
  mkAIStreamChunk "" (lr_model resp)
    [mkAIStreamChoice 0
       (mkAIStreamDelta (Some Assistant) (if Str.is_empty content then None else Some content) [])
       (if lr_done resp then Some "stop" else None)]
    (ollama_usage resp) None.

Definition ollama_parse_stream_body (body : string) : AR (list AIStreamChunk) :=
  if is_utf8 body then
    let texts := List.filter (fun line => negb (Str.is_empty line)) (Str.trim <$> lines body) in
    responses ← parse_all (parse_error "ollama") texts;
    mret (chunk_of_ollama <$> responses)
  else inr (parse_error "ollama").

Definition ollama_serialize_stream_chunk (chunk : AIStreamChunk) : string :=
  let first := head (chk_choices chunk) in
  let content := default "" (first ≫= fun c => sd_content (sc_delta c)) in
  let done := match first ≫= sc_finish_reason with Some _ => true | None => false end in
  to_bytes (JObject [("created_at", JString ""); ("done", JBool done);
                     ("message", JObject [("content", JString content); ("role", JString "assistant")]);
                     ("model", JString (chk_model chunk))]) +:+ newline.

(** ** Adapters *)

Record FormatAdapter := mkFormatAdapter {
  fa_name : string;
  fa_parse_request : string -> AR AIRequest;
  fa_parse_response : string -> AR AIResponse;
  fa_serialize_response : AIResponse -> AR string;
  fa_serialize_stream_chunk : AIStreamChunk -> AR string;
  fa_parse_stream_body : string -> AR (list AIStreamChunk);
  fa_error_response : Z -> string -> AR string;
}.

Definition openai_error_response (status : Z) (message : string) : string :=
  to_bytes (JObject [("error", JObject [("code", JNumber (Some status) (Str.to_string status));
                                        ("message", JString message);
                                        ("type", JString "invalid_request_error")])]).

Definition OpenAIAdapter : FormatAdapter :=
  {| fa_name := "openai";
     fa_parse_request body := req ← parse_as "openai" body; mret (request_of_openai req);
     fa_parse_response body := resp ← parse_as "openai" body; mret (response_of_openai resp);
     fa_serialize_response response := mret (to_bytes (openai_response_from_ir response));
     fa_serialize_stream_chunk chunk :=
       mret ("data: " +:+ to_bytes (openai_chunk_from_ir chunk) +:+ newline +:+ newline);
     fa_parse_stream_body := default_parse_stream_body;
     fa_error_response status message := mret (openai_error_response status message) |}.

Definition anthropic_error_response (message : string) : string :=
  to_bytes (JObject [("error", JObject [("message", JString message);
                                        ("type", JString "invalid_request_error")]);
                     ("type", JString "error")]).

Definition AnthropicAdapter : FormatAdapter :=
  {| fa_name := "anthropic";
     fa_parse_request body := req ← parse_as "anthropic" body; mret (request_of_anthropic req);
     fa_parse_response body := resp ← parse_as "anthropic" body; mret (response_of_anthropic resp);
     fa_serialize_response response := mret (to_bytes (anthropic_response_from_ir response));
     fa_serialize_stream_chunk chunk := mret (anthropic_serialize_stream_chunk chunk);
     fa_parse_stream_body := anthropic_parse_stream_body;
     fa_error_response _ message := mret (anthropic_error_response message) |}.

Definition serialize_ollama_error_body (message : string) : string :=
  to_bytes (JObject [("error", JString message)]).

Definition OllamaAdapter : FormatAdapter :=
  {| fa_name := "ollama";
     fa_parse_request body := req ← parse_as "ollama" body; mret (request_of_ollama req);
     fa_parse_response body := resp ← parse_as "ollama" body; mret (response_of_ollama resp);
     fa_serialize_response response := mret (to_bytes (ollama_response_from_ir response));
     fa_serialize_stream_chunk chunk := mret (ollama_serialize_stream_chunk chunk);
     fa_parse_stream_body := ollama_parse_stream_body;
     fa_error_response _ message := mret (serialize_ollama_error_body message) |}.
End with_lib.

(** [AdapterRegistry] *)
Notation AdapterRegistry := (StringMap FormatAdapter) (only parsing).

Definition register (self : AdapterRegistry) (name : string) (adapter : FormatAdapter) :
    AdapterRegistry :=
  <[name := adapter]> self.
Definition registry_get (self : AdapterRegistry) (name : string) : option FormatAdapter :=
  self !! name.
End AiFormats.
