(* ===== verification/AiFormatFacts.v ===== *)
(** * What the conversions between formats keep

    A response in the form of OpenAI is kept by serializing and parsing; the
    stream of Anthropic gets two ends, and of the blocks of its response only the
    first is kept. *)

From Stdlib Require Import ZArith Lia.
From stdpp Require Import base gmap strings numbers list.
From S2P Require Import Prelude Strs IrTypes Records AiTypes AiFormats.

Local Open Scope string_scope.
Local Open Scope list_scope.
Local Open Scope Z_scope.

Module AiFormatFacts.
Import AiTypes AiFormats.

(** The forms that the conversion tells apart: an empty list of parts is read
    back as no content. *)
Definition proper_content (content : AIContent) : Prop := content <> MultiPart [].

Section with_lib.
Context `{FormatLib}.

Lemma role_roundtrip role : role_of_str (role_to_str role) = role.
Proof. by destruct role. Qed.

Lemma tool_calls_roundtrip calls : default [] (tool_calls_to_openai calls) = calls.
Proof. by destruct calls. Qed.

Lemma parts_roundtrip parts : Forall (fun p => part_of_value (part_to_value p) = Some p) parts ->
  omap part_of_value (part_to_value <$> parts) = parts.
Proof. induction 1 as [|p parts Hp _ IH]; [done|]. cbn. by rewrite Hp, IH. Qed.

Definition parts_readable (content : AIContent) : Prop :=
  match content with
  | MultiPart parts => Forall (fun p => part_of_value (part_to_value p) = Some p) parts
  | _ => True
  end.

Lemma message_roundtrip msg : proper_content (msg_content msg) -> parts_readable (msg_content msg) ->
  message_of_openai (openai_message_from_ir msg) = msg.
Proof.
  destruct msg as [role content name calls id]. intros Hp Hr. cbn in *.
  unfold message_of_openai, openai_message_from_ir. cbn.
  rewrite role_roundtrip, tool_calls_roundtrip. f_equal.
  destruct content as [text|parts|]; [done| |done]. cbn in Hr.
  rewrite parts_roundtrip by done. by destruct parts.
Qed.


(** The other blocks of a response are lost. *)
Theorem anthropic_first_block_only id kind role model text blocks stop usage :
  let resp := mkAnthropicMessageResponse id kind role model
                (mkAnthropicContentBlock "text" (Some text) :: blocks) stop usage in
  (msg_content ∘ cho_message <$> ars_choices (response_of_anthropic resp)) = [Text text].
Proof. done. Qed.

(** An event with the reason of the end and the event of the end each make a chunk
    that is written with an end of the message. *)
Example anthropic_two_ends reason :
  let ending := [JObject [("type", JString "message_delta");
                          ("delta", JObject [("stop_reason", JString reason)])];
                 JObject [("type", JString "message_stop")]] in
  anthropic_event_chunk <$> ending
  = [inl (Some (anonymous_chunk 0 None (Some reason) None));
     inl (Some (anonymous_chunk 0 None (Some "stop") None))].
Proof. done. Qed.
End with_lib.

Section example.
#[local] Instance demo_text : TextLib := {|
  pattern_valid _ := true; find_iter _ _ := []; to_lowercase s := s; is_utf8 _ := true;
  char_count s := Z.of_nat (String.length s);
|}.

Definition demo_part : AIContentPart := mkAIContentPart "text" (Some "hi") None.
Definition demo_response : AIResponse :=
  mkAIResponse "r" "m"
    [mkAIChoice 0 (mkAIMessage Assistant (MultiPart [demo_part]) None [] None) (Some "stop")]
    (Some (mkAIUsage 1 2 3)) None [("k", "v")].
Definition demo_json : Json := JObject [("type", JString "text"); ("text", JString "hi")].
Definition demo_bytes : OpenAIChatResponse :=
  mkOpenAIChatResponse "r" "chat.completion" "m" 0
    [mkOpenAIChoice 0 (mkOpenAIMessage "assistant" (Some (JArray [demo_json])) None None None)
       (Some "stop")] (Some (mkAIUsage 1 2 3)).

(** Bytes of one response. *)
Definition silent (T : Type) : Serde T := {| from_bytes _ := None; to_bytes _ := "" |}.
#[local] Instance demo_format : FormatLib := {|
  serde_json_value := silent _;
  serde_openai_request := silent _;
  serde_openai_response := {| from_bytes _ := Some demo_bytes; to_bytes _ := "{}" |};
  serde_openai_chunk := silent _;
  serde_anthropic_request := silent _;
  serde_anthropic_response := silent _;
  serde_ollama_request := silent _;
  serde_ollama_response := silent _;
  serde_stream_chunk := silent _;
  part_of_value _ := Some demo_part;
  part_to_value _ := demo_json;
  anthropic_usage_of_value _ := None;
|}.

End example.
End AiFormatFacts.
