(* ===== verification/AiGateway.v ===== *)
(** * The AI gateway

    [ntgw-ai/src/filter.rs] and [TokenCounter::from_sse_body]: what happens to a
    request before it goes to a provider and to the response that comes back, and
    the retries with other models.

    The filter's shared state is [GatewayState], with one count of the readings
    of the clock and one of the random draws; a reading or a draw may be numbered
    where the code takes none, which only skips a value.  Metrics, logs, traces and Langfuse
    are left out, as is the sandbox, which these operations only pass on. *)

From Stdlib Require Import ZArith Lia.
From stdpp Require Import base gmap strings numbers list.
From S2P Require Import Prelude Strs IrTypes Records HttpContext HttpRequest HttpResponse AiTypes AiRateLimit AiTenants AiScreening AiPii AiRouting AiCache AiFormats.

Local Open Scope string_scope.
Local Open Scope list_scope.
Local Open Scope Z_scope.
Local Open Scope record_scope.

Module AiGateway.
Import AiTypes AiRateLimit AiTenants AiScreening AiPii AiRouting AiCache AiFormats.

(** ** The filter *)

(** [AIContext], without the span. *)
Record GatewayContext := mkGatewayContext {
  gc_format : string;
  gc_request : AIRequest;
  gc_start_time : Instant;
  gc_raw_request : string;
  gc_cache_key : option string;
  gc_rate_limit_key : option string;
  gc_complexity : option Complexity;
}.

Record AIGatewayFilter := mkAIGatewayFilter {
  gf_adapters : StringMap FormatAdapter;
  gf_rate_limiter : option RateLimitConfig;
  gf_key_manager : option (StringMap (list BackendCredential));
  gf_pii_masker : option PIIMasker;
  gf_prompt_guard : option PromptGuardFilter;
  gf_content_safety : option ContentSafetyFilter;
  gf_fallback : option (StringMap FallbackChain);
  gf_cost_tracker : option (StringMap ModelPricing);
  gf_model_router : option ModelRouter;
  gf_prompt_injector : option (StringMap PromptTemplate);
  gf_prompt_template_name : option string;
  gf_tenant_manager : option TenantManager;
  gf_ab_engine : option (StringMap ABTest);
  gf_ab_experiment_id : option string;
  gf_wasm_filter : option HttpContext.WasmPluginFilter;
  gf_semantic_cache : option CacheConfig;
}.

Record GatewayState := mkGatewayState {
  gs_windows : StringMap SlidingWindow;
  gs_quotas : StringMap TenantQuotaState;
  gs_check_count : Z;
  gs_cache : CacheTable;
  gs_total_cost : Z;
  gs_draws : nat;
  gs_ticks : nat;
}.

#[export, refine] Instance GatewayState_rebuild : Rebuild GatewayState := {
  rebuild s :=
    mkGatewayState (gs_windows s) (gs_quotas s) (gs_check_count s) (gs_cache s) (gs_total_cost s)
      (gs_draws s) (gs_ticks s)
}.
Proof. abstract by intros []. Defined.

(** ** Effects *)

(** A call returns, fails, or panics (a slice out of range while masking). *)
Inductive Outcome (A : Type) := Done (x : A) | Failed (e : AIError) | Panicked.
Arguments Done {A} x.
Arguments Failed {A} e.
Arguments Panicked {A}.

Definition GM (A : Type) : Type := GatewayState -> Outcome A * GatewayState.
#[global] Instance GM_ret : MRet GM := fun A x s => (Done x, s).
#[global] Instance GM_bind : MBind GM := fun A B f m s =>
  match m s with
  | (Done x, s) => f x s
  | (Failed e, s) => (Failed e, s)
  | (Panicked, s) => (Panicked, s)
  end.

Definition throw {A} (e : AIError) : GM A := fun s => (Failed e, s).
Definition panic {A} : GM A := fun s => (Panicked, s).
Definition lift {A} (r : AR A) : GM A :=
  match r with inl x => mret x | inr e => throw e end.
Definition ok_or {A} (x : option A) (e : AIError) : GM A :=
  match x with Some x => mret x | None => throw e end.
Definition modify_state (f : GatewayState -> GatewayState) : GM unit := fun s => (Done (), f s).
Definition draw : GM nat := fun s => (Done (gs_draws s), s <| gs_draws := S (gs_draws s) |>).

(** The limiter and the tenants, on their parts of the state. *)
Definition on_limiter (op : LimiterState -> RateLimitResult * LimiterState) : GM RateLimitResult :=
  fun s =>
    let '(result, l) := op (mkLimiterState (gs_windows s) (gs_ticks s)) in
    (Done result, s <| gs_windows := ls_windows l |> <| gs_ticks := ls_ticks l |>).
Definition on_tenants (op : TenantState -> bool * TenantState) : GM bool :=
  fun s =>
    let '(ok, t) := op (mkTenantState (gs_quotas s) (gs_check_count s) (gs_ticks s)) in
    (Done ok, s <| gs_quotas := ts_quota_state t |> <| gs_check_count := ts_check_count t |>
                <| gs_ticks := ts_ticks t |>).

Definition on_cache {A} (op : CacheTable -> A * CacheTable) : GM A := fun s =>
  let '(x, table) := op (gs_cache s) in (Done x, s <| gs_cache := table |>).

(** ** Keys of the limiter *)

Definition rate_limit_key (scope : string) (api_key : option string) (model path user : string) :
    string :=
  if bool_decide (scope = "apiKey") then default "unknown" api_key
  else if bool_decide (scope = "model") then model
  else if bool_decide (scope = "user") && negb (Str.is_empty user) then user
  else path.

Definition scoped_rate_limit_key (self : AIGatewayFilter) (path : string) (api_key : option string)
    (request : AIRequest) : option string :=
  (fun config => rate_limit_key (rlc_scope config) api_key (air_model request) path
                   (default "" (air_user request))) <$> gf_rate_limiter self.

Section with_env.
Context `{TextLib, Clock, Rand, DigestLib, EvictionLib, WasmPlugins}.

Definition now : GM Instant := fun s =>
  (Done (instant_at (gs_ticks s)), s <| gs_ticks := S (gs_ticks s) |>).

(** ** Screening *)

Definition check_prompt_guard (self : AIGatewayFilter) (text : string) : AR unit :=
  match gf_prompt_guard self with
  | Some guard =>
    if negb (pg_enabled guard) then mret ()
    else
      match guard_matches guard text with
      | (reason, matched) :: _ =>
        if bool_decide (pg_mode guard = "block") then inr (PromptGuardBlocked reason matched)
        else mret ()
      | [] => mret ()
      end
  | None => mret ()
  end.

Definition check_content_safety (self : AIGatewayFilter) (text : string) : AR unit :=
  match gf_content_safety self with
  | Some safety =>
    if negb (cs_enabled safety) then mret ()
    else
      match safety_matches safety text with
      | (category, matched) :: _ =>
        if cs_block_mode safety then inr (ContentSafetyBlocked category matched) else mret ()
      | [] => mret ()
      end
  | None => mret ()
  end.

Fixpoint scan_messages (self : AIGatewayFilter) (messages : list AIMessage) : AR unit :=
  match messages with
  | [] => mret ()
  | msg :: messages =>
    match message_text (msg_content msg) with
    | None => scan_messages self messages
    | Some text =>
      _ ← check_prompt_guard self text;
      _ ← check_content_safety self text;
      scan_messages self messages
    end
  end.
Definition scan_security (self : AIGatewayFilter) (request : AIRequest) : AR unit :=
  scan_messages self (air_messages request).

(** ** Before the request *)

Definition as_utf8 (bytes : string) : string := if is_utf8 bytes then bytes else "".

Definition prepare_request_body (self : AIGatewayFilter) (body : string) : GM string :=
  match gf_pii_masker self with
  | None => mret body
  | Some masker =>
    let text := as_utf8 body in
    match mask masker text with
    | None => panic
    | Some (masked, count, _) =>
      if (count =? 0)%nat && (String.length text =? String.length body)%nat
      then mret body else mret masked
    end
  end.

Definition plugin_headers (api_key : option string) (request : AIRequest) : StringMap string :=
  let headers : StringMap string :=
    match api_key with Some key => {[ "x-api-key" := key ]} | None => ∅ end in
  <["x-request-model" := air_model request]> headers.

Definition run_request_plugins (self : AIGatewayFilter) (api_key : option string)
    (request : AIRequest) (body : string) : GM unit :=
  match gf_wasm_filter self with
  | Some wf =>
    if HttpRequest.has_on_request wf then
      match HttpRequest.pre_process wf (plugin_headers api_key request) body with
      | inl _ => mret ()
      | inr _ => throw (Internal "wasm plugin rejected")
      end
    else mret ()
  | None => mret ()
  end.

Definition apply_route (route : ModelRoute) (request : AIRequest) : AIRequest :=
  let request := request <| air_model := mr_model route |> in
  match mr_max_tokens route with
  | Some max_tokens =>
    if match air_max_tokens request with Some req_max => max_tokens <? req_max | None => true end
    then request <| air_max_tokens := Some max_tokens |> else request
  | None => request
  end.

Definition route_model (self : AIGatewayFilter) (request : AIRequest) :
    GM (AIRequest * option Complexity) :=
  match gf_model_router self with
  | None => mret (request, None)
  | Some router =>
    let complexity := classify request in
    n ← draw;
    mret (match ModelRouter_route router complexity n with
          | Some route => apply_route route request
          | None => request
          end, Some complexity)
  end.

Definition apply_experiment (self : AIGatewayFilter) (request : AIRequest) : GM AIRequest :=
  match gf_ab_engine self, gf_ab_experiment_id self with
  | Some engine, Some experiment_id =>
    n ← draw;
    mret (match select_variant engine experiment_id n with
          | Some variant => request <| air_model := vr_model variant |>
          | None => request
          end)
  | _, _ => mret request
  end.

Definition inject_template (self : AIGatewayFilter) (request : AIRequest) : AIRequest :=
  match gf_prompt_injector self with
  | Some injector => (inject injector (default "default" (gf_prompt_template_name self)) request).2
  | None => request
  end.

Definition screen (self : AIGatewayFilter) (request : AIRequest) : AR unit :=
  match gf_prompt_guard self, gf_content_safety self with
  | None, None => mret ()
  | _, _ => scan_security self request
  end.

(** The request waits in between when it is queued: the second look at the clock
    is at a later reading. *)
Definition check_rate_limit (self : AIGatewayFilter) (key : option string) : GM unit :=
  match gf_rate_limiter self, key with
  | Some config, Some key =>
    result ← on_limiter (TokenRateLimiter_check config key);
    match result with
    | Allowed _ => mret ()
    | Limited retry_after_secs =>
      if bool_decide (rlc_on_limit config = "queue") then
        again ← on_limiter (TokenRateLimiter_check config key);
        match again with
        | Limited _ => throw (RateLimitExceeded retry_after_secs)
        | Allowed _ => mret ()
        end
      else if bool_decide (rlc_on_limit config = "warn") then mret ()
      else throw (RateLimitExceeded retry_after_secs)
    end
  | _, _ => mret ()
  end.

Definition check_tenant (self : AIGatewayFilter) (api_key : option string) (request : AIRequest) :
    GM unit :=
  match api_key, gf_tenant_manager self with
  | Some api_key, Some tm =>
    tenant ← ok_or (TenantManager_resolve tm api_key) (TenantDenied "unknown api key");
    within ← on_tenants (check_quota tm (tn_tenant_id tenant) (default 1 (air_max_tokens request)));
    if negb within then throw (TenantDenied "quota exceeded")
    else if negb (check_model_access tm (tn_tenant_id tenant) (air_model request))
    then throw (TenantDenied "model not allowed")
    else mret ()
  | _, _ => mret ()
  end.

Definition lookup_response (self : AIGatewayFilter) (request : AIRequest) : GM (option string) :=
  match gf_semantic_cache self with
  | None => mret None
  | Some config =>
    let key := build_cache_key request in
    t1 ← now;
    t2 ← now;
    cached ← on_cache (lookup_key config t1 t2 key);
    match cached with
    | Some response => throw (CacheHit response)
    | None => mret (Some key)
    end
  end.

(** [pre_process], [pre_process_owned] and [pre_process_body]. *)
Definition pre_process_body (self : AIGatewayFilter) (path body : string) (api_key : option string) :
    GM GatewayContext :=
  fmt ← ok_or (HttpRequest.detect_format path) (UnsupportedFormat path);
  masked_body ← prepare_request_body self body;
  adapter ← ok_or (registry_get (gf_adapters self) fmt) (AdapterNotFound fmt);
  request ← lift (fa_parse_request adapter masked_body);
  _ ← run_request_plugins self api_key request masked_body;
  '(request, complexity) ← route_model self request;
  request ← apply_experiment self request;
  let request := inject_template self request in
  _ ← lift (screen self request);
  let rate_limit_key := scoped_rate_limit_key self path api_key request in
  _ ← check_rate_limit self rate_limit_key;
  _ ← check_tenant self api_key request;
  cache_key ← lookup_response self request;
  start_time ← now;
  mret (mkGatewayContext fmt request start_time masked_body cache_key rate_limit_key complexity).

Definition resolve_api_key (self : AIGatewayFilter) (gateway_key : string) :
    option BackendCredential :=
  keys ← gf_key_manager self; ApiKeyManager_resolve keys gateway_key.

(** ** After the response *)

Definition run_response_plugins (self : AIGatewayFilter) (response_body : string) : GM unit :=
  match gf_wasm_filter self with
  | Some wf =>
    if HttpResponse.has_on_response wf then
      match HttpResponse.post_process wf ∅ response_body with
      | inl _ => mret ()
      | inr _ => throw (Internal "wasm plugin response rejected")
      end
    else mret ()
  | None => mret ()
  end.

Fixpoint serialize_chunks (adapter : FormatAdapter) (chunks : list AIStreamChunk) : AR string :=
  match chunks with
  | [] => mret ""
  | chunk :: chunks =>
    serialized ← fa_serialize_stream_chunk adapter chunk;
    rest ← serialize_chunks adapter chunks;
    mret (serialized +:+ rest)
  end.

Definition convert_stream (adapter : FormatAdapter) (response_body : string) :
    GM (option AIUsage * string) :=
  chunks ← lift (fa_parse_stream_body adapter response_body);
  reformatted ← lift (serialize_chunks adapter chunks);
  mret (Some (foldl record_stream_chunk AIUsage_default chunks), reformatted).

Definition store_response (self : AIGatewayFilter) (cache_key : option string)
    (response : AIResponse) : GM unit :=
  match gf_semantic_cache self, cache_key with
  | Some config, Some key =>
    t1 ← now;
    t2 ← now;
    modify_state (fun s => s <| gs_cache := SemanticCache_store config t1 t2 key response (gs_cache s) |>)
  | _, _ => mret ()
  end.

Definition convert_response (self : AIGatewayFilter) (adapter : FormatAdapter)
    (cache_key : option string) (response_body : string) : GM (option AIUsage * string) :=
  response ← lift (fa_parse_response adapter response_body);
  _ ← store_response self cache_key response;
  serialized ← lift (fa_serialize_response adapter response);
  mret (ars_usage response, serialized).

Definition record_cost (self : AIGatewayFilter) (model : string) (usage : option AIUsage) : GM unit :=
  match usage, gf_cost_tracker self with
  | Some usage, Some pricing =>
    modify_state (fun s => s <| gs_total_cost := (cost_record pricing model usage (gs_total_cost s)).2 |>)
  | _, _ => mret ()
  end.

Definition charge_usage (self : AIGatewayFilter) (key : option string) (usage : option AIUsage) :
    GM unit :=
  match gf_rate_limiter self, key with
  | Some config, Some key =>
    let total_tokens := match usage with Some u => us_total_tokens u | None => 0 end in
    _ ← on_limiter (record_usage config key total_tokens); mret ()
  | _, _ => mret ()
  end.

Definition mask_response (self : AIGatewayFilter) (output_body : string) : GM string :=
  match gf_pii_masker self with
  | None => mret output_body
  | Some masker =>
    match mask masker (as_utf8 output_body) with
    | None => panic
    | Some (masked, _, _) => mret masked
    end
  end.

(** The status of the response only goes into the metrics. *)
Definition post_process (self : AIGatewayFilter) (ctx : GatewayContext) (response_body : string)
    (response_status : Z) : GM string :=
  adapter ← ok_or (registry_get (gf_adapters self) (gc_format ctx)) (AdapterNotFound (gc_format ctx));
  _ ← run_response_plugins self response_body;
  '(usage, output_body) ←
    (if air_stream (gc_request ctx) then convert_stream adapter response_body
     else convert_response self adapter (gc_cache_key ctx) response_body);
  _ ← record_cost self (air_model (gc_request ctx)) usage;
  _ ← charge_usage self (gc_rate_limit_key ctx) usage;
  mask_response self output_body.

(** ** Other models *)

Definition should_attempt_fallback (status : Z) : bool := (500 <=? status) || (status =? 429).

Definition next_model (self : AIGatewayFilter) (original_model : string) (response_status : Z)
    (attempt : nat) : option string :=
  let is_timeout := (response_status =? 504) || (response_status =? 408) in
  chains ← gf_fallback self;
  resolve_fallback chains original_model (Some response_status) is_timeout attempt.

Definition exhausted (original_model : string) (attempt : nat) (status : Z) : AIError :=
  FallbackExhausted original_model
    ("all fallbacks exhausted after " +:+ Str.to_string (Z.of_nat attempt)
     +:+ " attempt(s), last status=" +:+ Str.to_string status).

(** The context of the next attempt. *)
Definition fallback_context (self : AIGatewayFilter) (path body : string) (api_key : option string)
    (model : string) : GM GatewayContext :=
  ctx ← pre_process_body self path body api_key;
  let request := gc_request ctx <| air_model := model |> in
  mret (mkGatewayContext (gc_format ctx) request (gc_start_time ctx) (gc_raw_request ctx)
          (gc_cache_key ctx) (scoped_rate_limit_key self path api_key request) (gc_complexity ctx)).

(** The loop; [upstream_call attempt] is the call of an attempt.  [None]: the fuel
    ran out. *)
Fixpoint fallback_loop (upstream_call : nat -> AIRequest -> string -> AR (string * Z))
    (self : AIGatewayFilter) (path body : string) (api_key : option string)
    (original_model : string) (fuel : nat) (ctx : GatewayContext) (attempt : nat)
    (s : GatewayState) : option (Outcome string * GatewayState) :=
  match fuel with
  | O => None
  | S fuel =>
    match upstream_call attempt (gc_request ctx) (gc_raw_request ctx) with
    | inr e => Some (Failed e, s)
    | inl (response_body, response_status) =>
      match post_process self ctx response_body response_status s with
      | (Failed e, s) =>
        if negb (should_attempt_fallback response_status) then Some (Failed e, s)
        else
          match next_model self original_model response_status attempt with
          | None => Some (Failed (exhausted original_model attempt response_status), s)
          | Some model =>
            match fallback_context self path body api_key model s with
            | (Done ctx, s) =>
              fallback_loop upstream_call self path body api_key original_model fuel ctx (S attempt) s
            | (Failed e, s) => Some (Failed e, s)
            | (Panicked, s) => Some (Panicked, s)
            end
          end
      | (result, s) => Some (result, s)
      end
    end
  end.

Definition process_with_fallback
    (upstream_call : nat -> AIRequest -> string -> AR (string * Z)) (self : AIGatewayFilter)
    (fuel : nat) (path body : string) (api_key : option string) (s : GatewayState) :
    option (Outcome string * GatewayState) :=
  match pre_process_body self path body api_key s with
  | (Done ctx, s) =>
    fallback_loop upstream_call self path body api_key (air_model (gc_request ctx)) fuel ctx 0 s
  | (Failed e, s) => Some (Failed e, s)
  | (Panicked, s) => Some (Panicked, s)
  end.
End with_env.

(** ** The deployed filter *)

Definition token_policy_limits (tp : TokenPolicyConfig) : RateLimitConfig :=
  mkRateLimitConfig (tp_tokens_per_minute tp) (tp_tokens_per_hour tp) (tp_requests_per_minute tp)
    (tp_scope tp) (tp_burst tp) (tp_on_limit tp).

(** [build_ai_filter] of [ntgw-http]; [metrics_created]: whether [AIMetrics::new]
    succeeded. *)
Definition build_ai_filter `{FormatLib} (metrics_created : bool) (backends : list BackendCluster)
    (wasm_filter : option HttpContext.WasmPluginFilter) : option AIGatewayFilter :=
  if negb metrics_created then None
  else
    let adapters :=
      register (register (register ∅ "openai" OpenAIAdapter) "anthropic" AnthropicAdapter)
        "ollama" OllamaAdapter in
    let rate_limiter := head (omap (fun b => token_policy_limits <$> bc_token_policy b) backends) in
    Some (mkAIGatewayFilter adapters rate_limiter None None None None None None None None None None
            None None wasm_filter None).

(** [TokenCounter::from_sse_body] *)
Definition from_sse_body `{FormatLib} (body : string) : AR (AIUsage * string) :=
  chunks ← sse_body_chunks body;
  mret (foldl record_stream_chunk AIUsage_default chunks,
        foldr (fun chunk rest => chunk_content chunk +:+ rest) "" chunks).
End AiGateway.
